(** * plink2_getline: the text readers of PLINK 2.00

    A shallow embedding of [2.0/plink2_getline.cc]: the magic-number probe
    ([GetFileType], the head of [TextRfileOpenInternal]), the long-line guard
    ([IsPathologicallyLongLineOrTokenX]), the raw decoders ([GzRawStreamRead],
    [ZstRawStreamRead], the BGZF loop of [TextRfileAdvance]), the
    synchronous reader ([TextRfileOpenInternal], [TextRfileAdvance],
    [TextRfileRewind]), and the asynchronous reader ([TextRstreamOpenEx],
    [TextRstreamThread], [TextAdvance]) as two movers that take turns
    between their synchronisation points.

    Conventions.
    - [uint32_t] values are [Z] in [0, 2^32); every C operation that can wrap
      is written with [u32].
    - A byte is a [Byte.byte]; buffers and file contents are [list byte].
    - A [char*] into [dst] is its offset from [dst]; only the bytes of [dst]
      that the reader has written ([dst_len] of them) are kept, and a read
      outside them is reported as [Undefined].
    - zlib, zstd, libdeflate, the header predicates [IsZstdFrame] and
      [IsBgzfHeader], and the constants of the headers are not part of this
      translation unit: they are fields of [externs]. *)

From Stdlib.Strings Require Import String Byte.
From Stdlib Require Import ZArith List Bool Lia Arith.
Import ListNotations.
Local Open Scope Z_scope.

Set Implicit Arguments.

(* ------------------------------------------------------------------ *)
(** ** Machine integers and bytes *)

Definition u32 (x : Z) : Z := x mod 2 ^ 32.
Definition u16 (x : Z) : Z := x mod 2 ^ 16.

Definition byteZ (b : byte) : Z := Z.of_N (Byte.to_N b).

Definition NL : byte := x0a.

(** Little-endian loads, as the [memcpy]/[R_CAST] loads of the source do on
    the supported (little-endian) targets.  Missing bytes read as 0; callers
    only load from positions they have checked. *)
Definition le16 (l : list byte) : Z :=
  byteZ (nth 0 l x00) + 2 ^ 8 * byteZ (nth 1 l x00).

Definition le32 (l : list byte) : Z :=
  byteZ (nth 0 l x00) + 2 ^ 8 * byteZ (nth 1 l x00)
  + 2 ^ 16 * byteZ (nth 2 l x00) + 2 ^ 24 * byteZ (nth 3 l x00).

Definition zlen (l : list byte) : Z := Z.of_nat (length l).

(** The first [n] bytes of [l], and [l] without them.  The count is a
    machine integer, so the recursion is on the list. *)
Fixpoint take (n : Z) (l : list byte) : list byte :=
  match l with
  | [] => []
  | x :: l' => if n <=? 0 then [] else x :: take (n - 1) l'
  end.

Fixpoint drop (n : Z) (l : list byte) : list byte :=
  match l with
  | [] => []
  | x :: l' => if n <=? 0 then l else drop (n - 1) l'
  end.

(** [sub l off n]: the [n] bytes of [l] from offset [off]. *)
Definition sub (l : list byte) (off n : Z) : list byte :=
  take n (drop off l).

(** [l[i]], or 0 outside [l]. *)
Definition byte_at (l : list byte) (i : Z) : byte := hd x00 (drop i l).

(* ------------------------------------------------------------------ *)
(** ** Result codes and messages *)

Inductive PglErr :=
| kPglRetSuccess
| kPglRetNomem
| kPglRetOpenFail
| kPglRetReadFail
| kPglRetMalformedInput
| kPglRetDecompressFail
| kPglRetImproperFunctionCall
| kPglRetThreadCreateFail
| kPglRetEof.

Definition PglErr_eqb (a b : PglErr) : bool :=
  match a, b with
  | kPglRetSuccess, kPglRetSuccess
  | kPglRetNomem, kPglRetNomem
  | kPglRetOpenFail, kPglRetOpenFail
  | kPglRetReadFail, kPglRetReadFail
  | kPglRetMalformedInput, kPglRetMalformedInput
  | kPglRetDecompressFail, kPglRetDecompressFail
  | kPglRetImproperFunctionCall, kPglRetImproperFunctionCall
  | kPglRetThreadCreateFail, kPglRetThreadCreateFail
  | kPglRetEof, kPglRetEof => true
  | _, _ => false
  end.

(** [if (reterr)]: every code but success is nonzero. *)
Definition is_err (e : PglErr) : bool := negb (PglErr_eqb e kPglRetSuccess).

(** The [errmsg] pointers.  The static strings of this file are distinct
    objects; [strerror(errno)] and the codec messages are opaque.
    [kShortErrInvalidBgzf] and [kShortErrZstdPrefixUnknown] are declared in
    other translation units. *)
Inductive errmsg_t :=
| kShortErrRfileAlreadyOpen
| kShortErrRfileEnforcedMaxBlenTooSmall
| kShortErrRfileDstCapacityTooSmall
| kShortErrRfileTruncatedGz
| kShortErrLongLine
| kShortErrInvalidBgzf
| kShortErrZstdPrefixUnknown
| strerror_errno
| codec_msg (s : string).

(** Modelled from the spec: the text of [kShortErrInvalidBgzf] (the spec
    quotes it as invalid BGZF); the other texts are the literals of this
    file, and the opaque ones stand for themselves. *)
Definition errmsg_text (m : errmsg_t) : string :=
  match m with
  | kShortErrRfileAlreadyOpen =>
      "TextRfileOpenInternal can't be called on an already-open file"
  | kShortErrRfileEnforcedMaxBlenTooSmall =>
      "TextRfileOpenInternal: enforced_max_line_blen too small (must be at least max(1 MiB, dst_capacity - 1 MiB))"
  | kShortErrRfileDstCapacityTooSmall =>
      "TextRfileOpenInternal: dst_capacity too small (2 MiB minimum)"
  | kShortErrRfileTruncatedGz =>
      "GzRawStreamRead: gzipped file appears to be truncated"
  | kShortErrLongLine => "Pathologically long line"
  | kShortErrInvalidBgzf => "invalid BGZF"
  | kShortErrZstdPrefixUnknown => "kShortErrZstdPrefixUnknown"
  | strerror_errno => "strerror(errno)"
  | codec_msg s => s
  end.

Inductive FileCompressionType :=
| kFileUncompressed
| kFileGzip
| kFileBgzf
| kFileZstd.

Definition ftype_eqb (a b : FileCompressionType) : bool :=
  match a, b with
  | kFileUncompressed, kFileUncompressed
  | kFileGzip, kFileGzip
  | kFileBgzf, kFileBgzf
  | kFileZstd, kFileZstd => true
  | _, _ => false
  end.

(** What a call can do besides returning: trip an [assert] (debug builds),
    or leave defined behaviour (a read outside the bytes the reader wrote,
    arithmetic on a pointer into a block that is no longer [dst]). *)
Inductive outcome (A : Type) :=
| Ret (a : A)
| AssertFail
| Undefined
| OutOfFuel.
Arguments AssertFail {A}.
Arguments Undefined {A}.
Arguments OutOfFuel {A}.

(* ------------------------------------------------------------------ *)
(** ** stdio *)

(** An open [FILE*]: the whole contents (for [rewind]), the bytes not yet
    read, the end-of-file and error indicators, and [f_bad]: how many more
    bytes the device delivers before a read error ([None]: never fails). *)
Record FILE := mkFILE {
  f_all : list byte;
  f_rest : list byte;
  f_eof : bool;
  f_err : bool;
  f_bad : option Z
}.

Definition fopen_data (data : list byte) : FILE :=
  mkFILE data data false false None.

(** [fread_unlocked(buf, 1, n, ff)]: the bytes delivered and the stream
    afterwards.  A short count happens only at end of file or on error. *)
Definition fread_unlocked (n : Z) (f : FILE) : list byte * FILE :=
  let want := take n (f_rest f) in
  match f_bad f with
  | Some k =>
      if k <? zlen want then
        (take k want,
         mkFILE (f_all f) (drop k (f_rest f)) (f_eof f) true (Some 0))
      else
        (want,
         mkFILE (f_all f) (drop n (f_rest f))
           (f_eof f || (zlen want <? n)) (f_err f)
           (Some (k - zlen want)))
  | None =>
      (want,
       mkFILE (f_all f) (drop n (f_rest f))
         (f_eof f || (zlen want <? n)) (f_err f) None)
  end.

Definition feof_unlocked (f : FILE) : bool := f_eof f.
Definition ferror_unlocked (f : FILE) : bool := f_err f.

(** [rewind(ff)]: back to offset 0, both indicators cleared. *)
Definition rewind (f : FILE) : FILE :=
  mkFILE (f_all f) (f_all f) false false (f_bad f).

(* ------------------------------------------------------------------ *)
(** ** What the translation unit takes from elsewhere *)

(** One [inflate(dsp, Z_SYNC_FLUSH)] call: the return code, how much of
    [avail_in] it consumed, what it wrote (at most [avail_out] bytes),
    [dsp->msg], and the stream afterwards. *)
Record inflate_result (zs : Type) := mk_inflate_result {
  zerr : Z;
  z_consumed : Z;
  z_out : list byte;
  z_msg : option string;
  z_next : zs
}.

(** One [ZSTD_decompressStream] call: the return value (error or size hint),
    the advance of [ib.pos], what it wrote, the stream afterwards. *)
Record zstd_result (ds : Type) := mk_zstd_result {
  zstd_hint : Z;
  zstd_is_error : bool;
  zstd_error_name : string;
  zstd_consumed : Z;
  zstd_out : list byte;
  zstd_next : ds
}.

Record externs := mk_externs {
  (* constants and predicates of the plink2 headers *)
  kDecompressChunkSizeX : Z;
  kMaxBytesPerIO : Z;
  kTokenRstreamBlen : Z;
  kMaxTokenBlenX : Z;
  IsZstdFrame : Z -> bool;
  IsBgzfHeader : list byte -> bool;
  (** [LastSpaceOrEoln(str, n)]: offset of the last byte of the region that
      is a space or an end of line, if any. *)
  LastSpaceOrEoln : list byte -> option Z;
  BgzfRawMtStreamInit : list byte -> Z -> FILE -> PglErr * option errmsg_t;
  (* build *)
  LP64 : bool;
  NDEBUG : bool;
  (* libc *)
  malloc_ok : Z -> bool;
  fopen : string -> option (list byte);
  (* zlib *)
  z_stream : Type;
  inflateInit2 : option z_stream;
  inflate : z_stream -> list byte -> Z -> inflate_result z_stream;
  inflateReset : z_stream -> z_stream;
  zError : Z -> string;
  (* zstd *)
  ZSTD_DStream : Type;
  ZSTD_createDStream : option ZSTD_DStream;
  ZSTD_decompressStream :
    ZSTD_DStream -> list byte -> Z -> zstd_result ZSTD_DStream;
  ZSTD_DCtx_reset : ZSTD_DStream -> ZSTD_DStream;
  (* libdeflate: [Some out] is a zero return, with [out] of exactly the
     requested size *)
  libdeflate_alloc_decompressor : bool;
  libdeflate_deflate_decompress : list byte -> Z -> option (list byte)
}.

Definition Z_OK : Z := 0.
Definition Z_STREAM_END : Z := 1.
Definition Z_NEED_DICT : Z := 2.

(* ------------------------------------------------------------------ *)
(** ** Reader state *)

Section Reader.

Variable X : externs.

Local Abbreviation Chunk := (kDecompressChunkSizeX X).

(** [GzRawDecompressStream]: [gz_avail] is the window
    [next_in, next_in + avail_in) of [in]. *)
Record GzRawDecompressStream := mkGz {
  gz_ds : option (z_stream X);
  gz_avail : list byte;
  ds_initialized : bool
}.

(** [ZstRawDecompressStream]: [ib_src] holds the [ib.size] valid bytes of
    the input buffer. *)
Record ZstRawDecompressStream := mkZst {
  zst_ds : option (ZSTD_DStream X);
  ib_src : list byte;
  ib_pos : Z
}.

(** [BgzfRawDecompressStream]: [bgzf_in] holds the [in_size] valid bytes
    of [in]. *)
Record BgzfRawDecompressStream := mkBgzf {
  bgzf_in : list byte;
  in_pos : Z;
  ldc : bool
}.

Definition in_size (b : BgzfRawDecompressStream) : Z := zlen (bgzf_in b).

(** The [rds] union. *)
Inductive RawDecompressStream :=
| RdsNone
| RdsGz (gz : GzRawDecompressStream)
| RdsZst (zst : ZstRawDecompressStream)
| RdsBgzf (bgzf : BgzfRawDecompressStream)
| RdsBgzfMt.

(** Heap traffic on [dst], kept as a ghost log. *)
Inductive heap_event :=
| EvMalloc (n : Z)
| EvRealloc (n : Z).

(** [TextRfileBase].  [dst] is [None] for [nullptr], else the [dst_len]
    bytes written so far; [consume_iter] and [consume_stop] are offsets
    from [dst]. *)
Record TextRfileBase := mkBase {
  consume_iter : option Z;
  consume_stop : option Z;
  errmsg : option errmsg_t;
  reterr : PglErr;
  ff : option FILE;
  dst : option (list byte);
  dst_len : Z;
  dst_capacity : Z;
  enforced_max_line_blen : Z;
  dst_owned_by_consumer : bool;
  file_type : FileCompressionType;
  heap_log : list heap_event
}.

Record textRFILE := mkRfile {
  base : TextRfileBase;
  rds : RawDecompressStream
}.

Definition set_err (b : TextRfileBase) (e : PglErr) (m : option errmsg_t)
  : TextRfileBase :=
  mkBase (consume_iter b) (consume_stop b)
    (match m with Some _ => m | None => errmsg b end) e
    (ff b) (dst b) (dst_len b) (dst_capacity b)
    (enforced_max_line_blen b) (dst_owned_by_consumer b) (file_type b)
    (heap_log b).

Definition EraseTextRfileBase (b : TextRfileBase) : TextRfileBase :=
  mkBase None None None kPglRetEof None None (dst_len b) (dst_capacity b)
    (enforced_max_line_blen b) (dst_owned_by_consumer b) (file_type b)
    (heap_log b).

Definition PreinitTextRfile : textRFILE :=
  mkRfile
    (mkBase None None None kPglRetEof None None 0 0 0 false
       kFileUncompressed [])
    RdsNone.

(* ------------------------------------------------------------------ *)
(** ** Magic-number probe *)

(** [GetFileType], from the [fread] on: [buf] holds the [nbytes] bytes
    that were read (at most 16).  ([fclose] of a stream opened for reading
    is taken to succeed.) *)
Definition GetFileType_bytes (buf : list byte) : FileCompressionType :=
  let nbytes := zlen buf in
  if nbytes <? 4 then kFileUncompressed
  else
    let magic4 := le32 buf in
    if IsZstdFrame X magic4 then kFileZstd
    else if negb (u16 magic4 =? 0x8b1f) then kFileUncompressed
    else if (nbytes =? 16) && IsBgzfHeader X buf then kFileBgzf
    else kFileGzip.

Definition GetFileType (fname : string) : PglErr * option FileCompressionType :=
  match fopen X fname with
  | None => (kPglRetOpenFail, None)
  | Some data =>
      let '(buf, f) := fread_unlocked 16 (fopen_data data) in
      if ferror_unlocked f then (kPglRetReadFail, None)
      else (kPglRetSuccess, Some (GetFileType_bytes buf))
  end.

(** The classification inside [TextRfileOpenInternal] (and again in the
    retarget path of [TextRstreamThread]): [dst] holds the [nbytes] bytes
    read. *)
Definition open_file_type (buf : list byte) : FileCompressionType :=
  let nbytes := zlen buf in
  if nbytes >=? 4 then
    let magic4 := le32 buf in
    if IsZstdFrame X magic4 then kFileZstd
    else if u32 (Z.shiftl magic4 8) =? 0x088b1f00 then
      if (nbytes =? 16) && IsBgzfHeader X buf then kFileBgzf else kFileGzip
    else kFileUncompressed
  else kFileUncompressed.

(* ------------------------------------------------------------------ *)
(** ** Opening *)

Definition GzRawInit (buf : list byte) : option GzRawDecompressStream :=
  if negb (malloc_ok X Chunk) then None
  else
    match inflateInit2 X with
    | None => None
    | Some ds => Some (mkGz (Some ds) buf true)
    end.

Definition ZstRawInit (buf : list byte) : option ZstRawDecompressStream :=
  if negb (malloc_ok X Chunk) then None
  else
    match ZSTD_createDStream X with
    | None => None
    | Some ds => Some (mkZst (Some ds) buf 0)
    end.

(** Leaving [TextRfileOpenInternal] through [TextRfileOpenInternal_ret_1]:
    the code is latched, the message only where the path sets one. *)
Definition open_ret (b : TextRfileBase)
    (r : RawDecompressStream) (e : PglErr) (m : option errmsg_t)
  : outcome (PglErr * textRFILE) :=
  Ret (e, mkRfile (set_err b e m) r).

(** The argument checks at the head of [TextRfileOpenInternal], once the
    reader is known not to be open: the message of the refusal, if any. *)
Definition open_args_check (blen cap : Z) (dst_arg sync : bool)
  : outcome (option errmsg_t) :=
  if negb (blen =? 0) || sync then
    if blen <? Chunk then
      Ret (Some kShortErrRfileEnforcedMaxBlenTooSmall)
    else if dst_arg then
      if cap <? u32 (2 * Chunk) then
        Ret (Some kShortErrRfileDstCapacityTooSmall)
      else if u32 (blen + Chunk) <? cap then
        Ret (Some kShortErrRfileEnforcedMaxBlenTooSmall)
      else Ret None
    else Ret None
  else
    (* token-reading mode: [assert(dst && (dst_capacity ==
       kTokenRstreamBlen))] *)
    if NDEBUG X || (dst_arg && (cap =? kTokenRstreamBlen X)) then Ret None
    else AssertFail.

(** The rest of [TextRfileOpenInternal], from [fopen] on. *)
Definition open_file_and_probe (fname : string)
    (blen cap : Z) (dst_arg sync : bool) (thread_ct : Z)
    (t : textRFILE) : outcome (PglErr * textRFILE) :=
  let b := base t in
  match fopen X fname with
  | None =>
      open_ret b (rds t) kPglRetOpenFail (Some strerror_errno)
  | Some data =>
    let f0 := fopen_data data in
    let b1 := mkBase (consume_iter b) (consume_stop b) (errmsg b)
                (reterr b) (Some f0) (dst b) (dst_len b)
                (dst_capacity b) (enforced_max_line_blen b)
                (dst_owned_by_consumer b) kFileUncompressed
                (heap_log b) in
    if negb dst_arg && negb (malloc_ok X (2 * Chunk)) then
      open_ret b1 (rds t) kPglRetNomem None
    else
      let owned := dst_arg in
      let cap' := if dst_arg then cap else u32 (2 * Chunk) in
      let log' := if dst_arg then heap_log b
                  else heap_log b ++ [EvMalloc (2 * Chunk)] in
      let '(buf, f1) := fread_unlocked 16 f0 in
      let nbytes := zlen buf in
      let mk (len : Z) (ft : FileCompressionType) :=
        mkBase (Some 0) (Some 0) (errmsg b) (reterr b) (Some f1)
          (Some (take len buf)) len cap' blen owned ft log'
      in
      if nbytes >=? 4 then
        let magic4 := le32 buf in
        if IsZstdFrame X magic4 then
          match ZstRawInit buf with
          | None => open_ret (mk 0 kFileZstd) (rds t) kPglRetNomem None
          | Some z =>
              open_ret (mk 0 kFileZstd) (RdsZst z) kPglRetSuccess None
          end
        else if u32 (Z.shiftl magic4 8) =? 0x088b1f00 then
          (* gzip ID1/ID2 bytes, deflate compression method *)
          if (nbytes =? 16) && IsBgzfHeader X buf then
            if sync then
              if negb (malloc_ok X Chunk) then
                open_ret (mk 0 kFileBgzf)
                  (RdsBgzf (mkBgzf [] 0 false)) kPglRetNomem None
              else if negb (libdeflate_alloc_decompressor X) then
                open_ret (mk 0 kFileBgzf)
                  (RdsBgzf (mkBgzf [] 0 false)) kPglRetNomem None
              else
                open_ret (mk 0 kFileBgzf)
                  (RdsBgzf (mkBgzf buf 0 true)) kPglRetSuccess None
            else
              let '(e, m) := BgzfRawMtStreamInit X buf thread_ct f1 in
              open_ret (mk 0 kFileBgzf) RdsBgzfMt e m
          else
            match GzRawInit buf with
            | None =>
                open_ret (mk 0 kFileGzip) (rds t) kPglRetNomem None
            | Some g =>
                open_ret (mk 0 kFileGzip) (RdsGz g) kPglRetSuccess
                  None
            end
        else
          open_ret (mk nbytes kFileUncompressed) (rds t)
            kPglRetSuccess None
      else if nbytes =? 0 then
        if negb (feof_unlocked f1) then
          open_ret (mk nbytes kFileUncompressed) (rds t)
            kPglRetReadFail (Some strerror_errno)
        else
          (* the latched code is Eof, the returned one success *)
          Ret (kPglRetSuccess,
               mkRfile (set_err (mk nbytes kFileUncompressed) kPglRetEof
                          None) (rds t))
      else
        open_ret (mk nbytes kFileUncompressed) (rds t)
          kPglRetSuccess None
  end.

(** [TextRfileOpenInternal(fname, enforced_max_line_blen, dst_capacity, dst,
    trfp, trsp)].  [dst_arg] says whether the caller passed a buffer, [sync]
    whether [trfp] is the non-null one ([TextRfileOpenEx]), [thread_ct] is
    [trsp->decompress_thread_ct].  The reader [t] stands for [*trfp] or the
    base and [rds] of [*trsp]. *)
Definition TextRfileOpenInternal (fname : string)
    (blen cap : Z) (dst_arg : bool) (sync : bool) (thread_ct : Z)
    (t : textRFILE) : outcome (PglErr * textRFILE) :=
  match ff (base t) with
  | Some _ =>
      open_ret (base t) (rds t) kPglRetImproperFunctionCall
        (Some kShortErrRfileAlreadyOpen)
  | None =>
      match open_args_check blen cap dst_arg sync with
      | Ret (Some m) =>
          open_ret (base t) (rds t) kPglRetImproperFunctionCall (Some m)
      | Ret None =>
          open_file_and_probe fname blen cap dst_arg sync thread_ct t
      | AssertFail => AssertFail
      | Undefined => Undefined
      | OutOfFuel => OutOfFuel
      end
  end.

Definition TextRfileOpenEx (fname : string) (blen cap : Z) (dst_arg : bool)
    (t : textRFILE) : outcome (PglErr * textRFILE) :=
  TextRfileOpenInternal fname blen cap dst_arg true 0 t.

(* ------------------------------------------------------------------ *)
(** ** Scanning *)

Fixpoint find_first (c : byte) (l : list byte) : option nat :=
  match l with
  | [] => None
  | x :: l' =>
      if Byte.eqb x c then Some O
      else match find_first c l' with
           | Some k => Some (S k)
           | None => None
           end
  end.

Fixpoint find_last (c : byte) (l : list byte) : option nat :=
  match l with
  | [] => None
  | x :: l' =>
      match find_last c l' with
      | Some k => Some (S k)
      | None => if Byte.eqb x c then Some O else None
      end
  end.

(** [memchr(mem + start, c, n)] and [Memrchr(mem + start, c, n)], as the
    offset of the match from [mem]. *)
Definition memchr (mem : list byte) (start : Z) (c : byte) (n : Z)
  : option Z :=
  match find_first c (sub mem start n) with
  | Some k => Some (start + Z.of_nat k)
  | None => None
  end.

Definition Memrchr (mem : list byte) (start : Z) (c : byte) (n : Z)
  : option Z :=
  match find_last c (sub mem start n) with
  | Some k => Some (start + Z.of_nat k)
  | None => None
  end.

(** [S_CAST(uintptr_t, p - q)]. *)
Definition uptr (x : Z) : Z := x mod 2 ^ (if LP64 X then 64 else 32).

(** The [while (1)] of [IsPathologicallyLongLineOrTokenX]; [None] when
    [fuel] runs out. *)
Fixpoint long_line_loop (fuel : nat) (mem : list byte)
    (blen thresh memchr_result : Z) : option bool :=
  match fuel with
  | O => None
  | S fuel' =>
      if memchr_result >=? thresh then Some false
      else
        match memchr mem (memchr_result + 1) NL blen with
        | None => Some true
        | Some r => long_line_loop fuel' mem blen thresh r
        end
  end.

(** [IsPathologicallyLongLineOrTokenX(line_start, load_start,
    known_line_end, enforced_max_line_blen)]; the three pointers are
    offsets into [mem].  [true] is the nonzero [BoolErr]. *)
Definition IsPathologicallyLongLineOrTokenX (mem : list byte)
    (line_start load_start known_line_end blen : Z) : outcome bool :=
  if negb (blen =? 0) then
    if uptr (known_line_end - line_start) <=? blen then Ret false
    else
      let already_scanned_byte_ct := u32 (load_start - line_start) in
      if already_scanned_byte_ct >=? blen then Ret true
      else
        match memchr mem load_start NL (u32 (blen - already_scanned_byte_ct))
        with
        | None => Ret true
        | Some r =>
            let thresh := known_line_end - u32 (blen + 1) in
            match long_line_loop (S (length mem)) mem blen thresh r with
            | Some b => Ret b
            | None => OutOfFuel
            end
        end
  else
    if uptr (known_line_end - line_start) <=? kMaxTokenBlenX X then Ret false
    else
      let already_scanned_byte_ct := u32 (load_start - line_start) in
      if already_scanned_byte_ct >=? kMaxTokenBlenX X then Ret true
      else
        match LastSpaceOrEoln X
                (sub mem load_start
                   (kMaxTokenBlenX X - already_scanned_byte_ct))
        with
        | None => Ret true
        | Some _ => Ret false
        end.

(* ------------------------------------------------------------------ *)
(** ** Raw decoders *)

(** What a raw read hands back: the code and message, the bytes written
    from [*dst_iterp] on, the stream and the decoder afterwards. *)
Record raw_read (D : Type) := mk_raw_read {
  rr_err : PglErr;
  rr_msg : option errmsg_t;
  rr_out : list byte;
  rr_ff : FILE;
  rr_dec : D
}.

(** Ghost record of what one [GzRawStreamRead] call did. *)
Inductive gz_event :=
| GzInflate (code : Z)
| GzFread (nbytes : Z) (at_eof : bool).

(** The [do ... while] of [GzRawStreamRead].  [room] is
    [dst_end - dst_iter] on entry and [out] what has been written since;
    the loop runs while it reads input, so [fuel] bounds the number of
    refills. *)
Fixpoint GzRawStreamRead_loop (fuel : nat) (room : Z) (f : FILE)
    (ds : z_stream X) (avail_in : list byte) (out : list byte)
    (log : list gz_event)
  : outcome (raw_read GzRawDecompressStream * list gz_event) :=
  match fuel with
  | O => OutOfFuel
  | S fuel' =>
      let refill (zerr0 : Z) (ds1 : z_stream X) (out1 : list byte)
                 (log1 : list gz_event) :=
        let '(buf, f1) := fread_unlocked Chunk f in
        let log2 := log1 ++ [GzFread (zlen buf) (feof_unlocked f1)] in
        let gz1 := mkGz (Some ds1) buf true in
        match buf with
        | [] =>
            if negb (feof_unlocked f1) then
              Ret (mk_raw_read kPglRetReadFail (Some strerror_errno) [] f1
                     gz1, log2)
            else if zerr0 =? Z_OK then
              Ret (mk_raw_read kPglRetDecompressFail
                     (Some kShortErrRfileTruncatedGz) [] f1 gz1, log2)
            else
              Ret (mk_raw_read kPglRetSuccess None out1 f1 gz1, log2)
        | _ :: _ =>
            if zlen out1 =? room then
              Ret (mk_raw_read kPglRetSuccess None out1 f1 gz1, log2)
            else GzRawStreamRead_loop fuel' room f1 ds1 buf out1 log2
        end
      in
      match avail_in with
      | [] => refill Z_OK ds out log
      | _ :: _ =>
          let r := inflate X ds avail_in (u32 (room - zlen out)) in
          let log1 := log ++ [GzInflate (zerr r)] in
          if (zerr r <? 0) || (zerr r =? Z_NEED_DICT) then
            Ret (mk_raw_read kPglRetDecompressFail
                   (Some (codec_msg
                            (match z_msg r with
                             | Some m => m
                             | None => zError X (zerr r)
                             end)))
                   [] f
                   (mkGz (Some (z_next r)) (drop (z_consumed r) avail_in)
                      true), log1)
          else
            let out1 := out ++ z_out r in
            let rest := drop (z_consumed r) avail_in in
            match rest with
            | _ :: _ =>
                if NDEBUG X || (zlen out1 =? room) then
                  Ret (mk_raw_read kPglRetSuccess None out1 f
                         (mkGz (Some (z_next r)) rest true), log1)
                else AssertFail
            | [] => refill (zerr r) (z_next r) out1 log1
            end
      end
  end.

(** [GzRawStreamRead(dst_end, ff, gzp, dst_iterp, errmsgp)] with
    [room = dst_end - *dst_iterp]. *)
Definition GzRawStreamRead_log (room : Z) (f : FILE)
    (gz : GzRawDecompressStream)
  : outcome (raw_read GzRawDecompressStream * list gz_event) :=
  match gz_ds gz with
  | None => Undefined
  | Some ds =>
      match gz_avail gz with
      | [] =>
          if feof_unlocked f then
            Ret (mk_raw_read kPglRetSuccess None [] f gz, [])
          else
            GzRawStreamRead_loop (S (length (f_rest f))) room f ds [] [] []
      | _ :: _ =>
          GzRawStreamRead_loop (S (length (f_rest f))) room f ds
            (gz_avail gz) [] []
      end
  end.

Definition GzRawStreamRead (room : Z) (f : FILE)
    (gz : GzRawDecompressStream)
  : outcome (raw_read GzRawDecompressStream) :=
  match GzRawStreamRead_log room f gz with
  | Ret (r, _) => Ret r
  | AssertFail => AssertFail
  | Undefined => Undefined
  | OutOfFuel => OutOfFuel
  end.

(** The [while (1)] of [ZstRawStreamRead]. *)
Fixpoint ZstRawStreamRead_loop (fuel : nat) (room : Z) (f : FILE)
    (ds : ZSTD_DStream X) (src : list byte) (pos : Z) (out : list byte)
  : outcome (raw_read ZstRawDecompressStream) :=
  match fuel with
  | O => OutOfFuel
  | S fuel' =>
      let r := ZSTD_decompressStream X ds (drop pos src)
                 (room - zlen out) in
      let pos1 := pos + zstd_consumed r in
      if zstd_is_error r then
        Ret (mk_raw_read kPglRetDecompressFail
               (Some (codec_msg (zstd_error_name r))) [] f
               (mkZst (Some (zstd_next r)) src pos1))
      else
        let out1 := out ++ zstd_out r in
        if zlen out1 =? room then
          Ret (mk_raw_read kPglRetSuccess None out1 f
                 (mkZst (Some (zstd_next r)) src pos1))
        else
          let n_inbytes := u32 (zlen src - pos1) in
          let residue := sub src pos1 n_inbytes in
          let '(buf, f1) :=
            fread_unlocked (u32 (Chunk - n_inbytes)) f in
          if ferror_unlocked f1 then
            Ret (mk_raw_read kPglRetReadFail (Some strerror_errno) [] f1
                   (mkZst (Some (zstd_next r)) (residue ++ buf) pos1))
          else
            let zst1 := mkZst (Some (zstd_next r)) (residue ++ buf) 0 in
            match buf with
            | [] =>
                if negb (n_inbytes =? 0) then
                  Ret (mk_raw_read kPglRetDecompressFail
                         (Some kShortErrZstdPrefixUnknown) [] f1 zst1)
                else Ret (mk_raw_read kPglRetSuccess None out1 f1 zst1)
            | _ :: _ =>
                ZstRawStreamRead_loop fuel' room f1 (zstd_next r)
                  (residue ++ buf) 0 out1
            end
  end.

Definition ZstRawStreamRead (room : Z) (f : FILE)
    (zst : ZstRawDecompressStream)
  : outcome (raw_read ZstRawDecompressStream) :=
  match zst_ds zst with
  | None => Undefined
  | Some ds =>
      if (zlen (ib_src zst) =? 0) && feof_unlocked f then
        Ret (mk_raw_read kPglRetSuccess None [] f zst)
      else
        ZstRawStreamRead_loop (S (length (f_rest f))) room f ds
          (ib_src zst) (ib_pos zst) []
  end.

(** The BGZF [while (1)] of [TextRfileAdvance] (case [kFileBgzf]).
    [inb] holds the valid bytes of [in] (so [in_end - in] is its length),
    [in_iter] is an offset into it, [room] is [dst_end - dst_load_start]
    and [out] what has been decoded since.  The result carries [in_pos].
    On the [goto] exits the source leaves [in_pos] (and, on a read error,
    [in_size]) unwritten; the reader refuses every later call once an
    error is latched, so the record of those exits holds the locals. *)
Fixpoint bgzf_loop (fuel : nat) (room : Z) (f : FILE)
    (inb : list byte) (in_iter : Z) (out : list byte)
  : outcome (raw_read BgzfRawDecompressStream) :=
  match fuel with
  | O => OutOfFuel
  | S fuel' =>
      let invalid :=
        Ret (mk_raw_read kPglRetDecompressFail (Some kShortErrInvalidBgzf)
               [] f (mkBgzf inb in_iter true)) in
      let load_more (n_inbytes : Z) :=
        let residue := sub inb in_iter n_inbytes in
        let '(buf, f1) :=
          fread_unlocked (u32 (Chunk - n_inbytes)) f in
        if ferror_unlocked f1 then
          Ret (mk_raw_read kPglRetReadFail (Some strerror_errno) [] f1
                 (mkBgzf (residue ++ buf) in_iter true))
        else
          match buf with
          | [] =>
              if negb (n_inbytes =? 0) then
                Ret (mk_raw_read kPglRetDecompressFail
                       (Some kShortErrInvalidBgzf) [] f1
                       (mkBgzf residue in_iter true))
              else
                Ret (mk_raw_read kPglRetSuccess None out f1
                       (mkBgzf residue 0 true))
          | _ :: _ => bgzf_loop fuel' room f1 (residue ++ buf) 0 out
          end
      in
      let n_inbytes := u32 (zlen inb - in_iter) in
      if n_inbytes >? 25 then
        if negb (IsBgzfHeader X (sub inb in_iter 16)) then invalid
        else
          let bsize_minus1 := le16 (sub inb (in_iter + 16) 2) in
          if bsize_minus1 <? 25 then invalid
          else if bsize_minus1 <? n_inbytes then
            let in_sz := bsize_minus1 - 25 in
            let out_size := le32 (sub inb (in_iter + in_sz + 22) 4) in
            if out_size >? 65536 then invalid
            else if out_size >? uptr (room - zlen out) then
              Ret (mk_raw_read kPglRetSuccess None out f
                     (mkBgzf inb in_iter true))
            else
              match libdeflate_deflate_decompress X
                      (sub inb (in_iter + 18) in_sz) out_size with
              | None => invalid
              | Some blk =>
                  bgzf_loop fuel' room f inb (in_iter + bsize_minus1 + 1)
                    (out ++ blk)
              end
          else load_more n_inbytes
      else load_more n_inbytes
  end.

Definition bgzf_fuel (f : FILE) (b : BgzfRawDecompressStream) : nat :=
  S (length (bgzf_in b) + 2 * length (f_rest f)).

(* ------------------------------------------------------------------ *)
(** ** The synchronous reader *)

(** How the [switch (file_type)] of [TextRfileAdvance] is left. *)
Record load_result := mk_load {
  ld_loaded : list byte;      (* the bytes of [dst_load_start, dst_iter) *)
  ld_end_at_iter : bool;      (* [dst_end = dst_iter] was executed *)
  ld_ff : FILE;
  ld_rds : RawDecompressStream
}.

Inductive load_exit :=
| LdOk (r : load_result)
| LdGoto (e : PglErr) (m : option errmsg_t) (f : FILE)
    (r : RawDecompressStream).

Definition of_raw_read {D : Type} (wrap : D -> RawDecompressStream)
    (end_at_iter : bool) (r : raw_read D) : load_exit :=
  if is_err (rr_err r) then
    LdGoto (rr_err r) (rr_msg r) (rr_ff r) (wrap (rr_dec r))
  else LdOk (mk_load (rr_out r) end_at_iter (rr_ff r) (wrap (rr_dec r))).

Definition lift_raw {D : Type} (wrap : D -> RawDecompressStream)
    (end_at_iter : bool) (o : outcome (raw_read D)) : outcome load_exit :=
  match o with
  | Ret r => Ret (of_raw_read wrap end_at_iter r)
  | AssertFail => AssertFail
  | Undefined => Undefined
  | OutOfFuel => OutOfFuel
  end.

(** The [switch (file_type)]: decode into the window of [room] bytes that
    starts at [dst_load_start]. *)
Definition load_switch (ft : FileCompressionType) (r : RawDecompressStream)
    (f : FILE) (room : Z) : outcome load_exit :=
  match ft with
  | kFileUncompressed =>
      let rlen := u32 room in
      if rlen >? kMaxBytesPerIO X then
        let '(b1, f1) := fread_unlocked (kMaxBytesPerIO X) f in
        if zlen b1 <? kMaxBytesPerIO X then
          if ferror_unlocked f1 then
            Ret (LdGoto kPglRetReadFail (Some strerror_errno) f1 r)
          else
            (* [dst_len = nbytes + dst_rem; break;] leaves [dst_iter] at
               [dst_load_start]; the statement after the switch then
               recomputes [dst_len] from it *)
            Ret (LdOk (mk_load [] false f1 r))
        else
          let '(b2, f2) :=
            fread_unlocked (u32 (rlen - kMaxBytesPerIO X)) f1 in
          if ferror_unlocked f2 then
            Ret (LdGoto kPglRetReadFail (Some strerror_errno) f2 r)
          else Ret (LdOk (mk_load (b1 ++ b2) false f2 r))
      else
        let '(b2, f2) := fread_unlocked rlen f in
        if ferror_unlocked f2 then
          Ret (LdGoto kPglRetReadFail (Some strerror_errno) f2 r)
        else Ret (LdOk (mk_load b2 false f2 r))
  | kFileGzip =>
      match r with
      | RdsGz gz => lift_raw RdsGz false (GzRawStreamRead room f gz)
      | _ => Undefined
      end
  | kFileBgzf =>
      match r with
      | RdsBgzf bg =>
          if (in_size bg =? 0) && feof_unlocked f then
            Ret (LdOk (mk_load [] false f r))
          else
            lift_raw RdsBgzf true
              (bgzf_loop (bgzf_fuel f bg) room f (bgzf_in bg) (in_pos bg) [])
      | _ => Undefined
      end
  | kFileZstd =>
      match r with
      | RdsZst z => lift_raw RdsZst false (ZstRawStreamRead room f z)
      | _ => Undefined
      end
  end.

(** Size of the block [dst] points to: what the last [malloc]/[realloc]
    of the reader asked for, or [dst_capacity] for a caller's buffer. *)
Definition dst_alloc (b : TextRfileBase) : Z :=
  match rev (heap_log b) with
  | EvMalloc n :: _ => n
  | EvRealloc n :: _ => n
  | [] => dst_capacity b
  end.

(** The capacity [TextRfileAdvance] asks for when it grows [dst]. *)
Definition next_dst_capacity (blen cap : Z) : Z :=
  let next := u32 (blen + Chunk) in
  if next / 2 >? cap then u32 (cap * 2) else next.

Definition adv_state (b : TextRfileBase) (ci cs : option Z) (f : FILE)
    (mem : list byte) (len : Z) (log : list heap_event) : TextRfileBase :=
  mkBase ci cs (errmsg b) (reterr b) (Some f) (Some mem) len
    (dst_capacity b) (enforced_max_line_blen b) (dst_owned_by_consumer b)
    (file_type b) log.

Definition adv_ret (b : TextRfileBase) (r : RawDecompressStream)
    (e : PglErr) (m : option errmsg_t) : outcome (PglErr * textRFILE) :=
  Ret (e, mkRfile (set_err b e m) r).

(** The top of an iteration of [TextRfileAdvance]'s loop: the unfinished
    line is moved to the front of [dst] ([carry] is what [dst] then holds
    below [dst_load_start]), or [dst] is replaced by a larger block, or
    the call gives up with [TextRfileAdvance_ret_NOMEM].  [orig] tells
    whether [orig_line_start] still points into [dst]. *)
Inductive move_exit :=
| MvNomem
| MvOk (carry : list byte) (log : list heap_event) (orig : option Z).

(** The top of an iteration: [dst_offset], [dst_rem] and the two cases of
    the source, "move (possibly empty) unfinished line to the beginning
    of the buffer" and "resize the buffer/report out-of-memory". *)
Definition advance_move (b : TextRfileBase) (mem : list byte) (orig : Z)
  : outcome move_exit :=
  let blen := enforced_max_line_blen b in
  let cap := dst_capacity b in
  let dst_offset := u32 orig in
  let dst_rem := u32 (dst_len b - dst_offset) in
  if dst_rem <? u32 (cap - Chunk) then
    if dst_offset + dst_rem <=? zlen mem then
      Ret (MvOk (sub mem dst_offset dst_rem) (heap_log b) (Some orig))
    else Undefined
  else if dst_owned_by_consumer b then Ret MvNomem
  else
    let next := next_dst_capacity blen cap in
    if negb (LP64 X) && (next >=? 0x80000000) then Ret MvNomem
    else if negb (malloc_ok X next) then Ret MvNomem
    else if (dst_offset + dst_rem >? zlen mem) || (dst_rem >? next)
    then Undefined
    else if dst_offset =? 0 then
      Ret (MvOk (sub mem 0 dst_rem) (heap_log b ++ [EvRealloc next]) None)
    else
      Ret (MvOk (sub mem dst_offset dst_rem) (heap_log b ++ [EvMalloc next])
             None).

(** Leaving the loop with a new [consume_stop]: the call to the guard and
    the two exits after it. *)
Definition advance_guard (b0 : TextRfileBase) (r1 : RawDecompressStream)
    (f1 : FILE) (log : list heap_event) (dst_rem : Z)
    (mem2 : list byte) (len2 stop : Z) : outcome (PglErr * textRFILE) :=
  let b2 := adv_state b0 (Some 0) (Some stop) f1 mem2 len2 log in
  match IsPathologicallyLongLineOrTokenX mem2 0 dst_rem stop
          (enforced_max_line_blen b0) with
  | Ret true => adv_ret b2 r1 kPglRetMalformedInput (Some kShortErrLongLine)
  | Ret false => adv_ret b2 r1 kPglRetSuccess None
  | AssertFail => AssertFail
  | Undefined => Undefined
  | OutOfFuel => OutOfFuel
  end.

(** From the end of the [switch] to the end of the loop body: either the
    call is over, or the loop goes round again with the given base. *)
Inductive scan_exit :=
| ScanRet (res : outcome (PglErr * textRFILE))
| ScanAgain (b2 : TextRfileBase).

Definition advance_scan (b0 : TextRfileBase) (log : list heap_event)
    (dst_rem : Z) (carry : list byte) (ld : load_result) : scan_exit :=
  let blen := enforced_max_line_blen b0 in
  let cap := dst_capacity b0 in
  let mem1 := carry ++ ld_loaded ld in
  let dst_iter := dst_rem + zlen (ld_loaded ld) in
  let dst_end := if ld_end_at_iter ld then dst_iter else cap in
  let f1 := ld_ff ld in
  let r1 := ld_rds ld in
  let alloc := dst_alloc b0 in
  if dst_iter >? alloc then ScanRet Undefined
  else
    let len1 := u32 dst_iter in
    if len1 =? 0 then
      ScanRet (adv_ret (adv_state b0 (Some 0) (consume_stop b0) f1 mem1 len1
                          log) r1 kPglRetEof None)
    else if negb (dst_iter =? dst_end) then
      (* short read: end of file *)
      if Byte.eqb (byte_at mem1 (dst_iter - 1)) NL then
        ScanRet (advance_guard b0 r1 f1 log dst_rem mem1 len1 dst_iter)
      else if dst_iter + 1 >? alloc then ScanRet Undefined
      else
        ScanRet (advance_guard b0 r1 f1 log dst_rem (mem1 ++ [NL])
                   (u32 (len1 + 1)) (dst_iter + 1))
    else
      match Memrchr mem1 dst_rem NL (zlen (ld_loaded ld)) with
      | Some last_byte_ptr =>
          ScanRet (advance_guard b0 r1 f1 log dst_rem mem1 len1
                     (last_byte_ptr + 1))
      | None =>
          (* buffer is full, and no newline is present *)
          let b2 := adv_state b0 (Some 0) (consume_stop b0) f1 mem1 len1
                      log in
          if len1 >=? blen then
            ScanRet (adv_ret b2 r1 kPglRetMalformedInput
                       (Some kShortErrLongLine))
          else ScanAgain b2
      end.

(** The outer [while (1)] of [TextRfileAdvance].  [b] is [trfp->base] as
    the iteration finds it, [mem] the bytes of [dst], [f] the stream.
    [orig_line_start] is the local of that name: [Some off] while it
    points into the block that is now [dst], [None] once [dst] has been
    replaced (the local is never reassigned). *)
Fixpoint TextRfileAdvance_loop (fuel : nat) (b : TextRfileBase)
    (r : RawDecompressStream) (f : FILE) (mem : list byte)
    (orig_line_start : option Z) : outcome (PglErr * textRFILE) :=
  match fuel with
  | O => OutOfFuel
  | S fuel' =>
    match orig_line_start with
    | None => Undefined
    | Some orig =>
      let dst_rem := u32 (dst_len b - u32 orig) in
      match advance_move b mem orig with
      | AssertFail => AssertFail
      | Undefined => Undefined
      | OutOfFuel => OutOfFuel
      | Ret MvNomem => adv_ret b r kPglRetNomem None
      | Ret (MvOk carry log orig') =>
          let b0 := adv_state b (consume_iter b) (consume_stop b) f carry
                      (dst_len b) log in
          match load_switch (file_type b) r f (dst_capacity b - dst_rem) with
          | AssertFail => AssertFail
          | Undefined => Undefined
          | OutOfFuel => OutOfFuel
          | Ret (LdGoto e m f1 r1) =>
              adv_ret (adv_state b0 (Some 0) (consume_stop b) f1 carry
                         (dst_len b) log) r1 e m
          | Ret (LdOk ld) =>
              match advance_scan b0 log dst_rem carry ld with
              | ScanRet res => res
              | ScanAgain b2 =>
                  TextRfileAdvance_loop fuel' b2 (ld_rds ld) (ld_ff ld)
                    (carry ++ ld_loaded ld) orig'
              end
          end
      end
    end
  end.

(** [TextRfileAdvance(trfp)]. *)
Definition TextRfileAdvance (fuel : nat) (t : textRFILE)
  : outcome (PglErr * textRFILE) :=
  let b := base t in
  if is_err (reterr b) then Ret (reterr b, t)
  else
    match ff b, dst b, consume_iter b, consume_stop b with
    | Some f, Some mem, Some ci, Some cs =>
        if negb (NDEBUG X) && negb (ci =? cs) then AssertFail
        else TextRfileAdvance_loop fuel b (rds t) f mem (Some cs)
    | _, _, _, _ => Undefined
    end.

(** [TextRfileRewind(trfp)]. *)
Definition TextRfileRewind (t : textRFILE) : outcome textRFILE :=
  let b := base t in
  match ff b with
  | None => Ret t
  | Some f =>
      if is_err (reterr b) && negb (PglErr_eqb (reterr b) kPglRetEof) then
        Ret t
      else
        let at_dst := match dst b with Some _ => Some 0 | None => None end in
        let b1 := mkBase at_dst at_dst (errmsg b) kPglRetSuccess
                    (Some (rewind f))
                    (match dst b with Some _ => Some [] | None => None end)
                    0 (dst_capacity b) (enforced_max_line_blen b)
                    (dst_owned_by_consumer b) (file_type b) (heap_log b) in
        match file_type b, rds t with
        | kFileUncompressed, r => Ret (mkRfile b1 r)
        | kFileGzip, RdsGz gz =>
            Ret (mkRfile b1
                   (RdsGz (mkGz (option_map (inflateReset X) (gz_ds gz)) []
                             (ds_initialized gz))))
        | kFileBgzf, RdsBgzf bg => Ret (mkRfile b1 (RdsBgzf (mkBgzf [] 0 (ldc bg))))
        | kFileZstd, RdsZst z =>
            Ret (mkRfile b1
                   (RdsZst (mkZst (option_map (ZSTD_DCtx_reset X) (zst_ds z))
                              [] 0)))
        | _, _ => Undefined
        end
  end.

(* ------------------------------------------------------------------ *)
(** ** The consumer *)

(** The bytes of [consume_iter, consume_stop). *)
Definition slice (t : textRFILE) : list byte :=
  match dst (base t), consume_iter (base t), consume_stop (base t) with
  | Some mem, Some ci, Some cs => sub mem ci (cs - ci)
  | _, _, _ => []
  end.

(** The consumer has walked [consume_iter] up to [consume_stop]. *)
Definition consume_all (t : textRFILE) : textRFILE :=
  let b := base t in
  mkRfile
    (mkBase (consume_stop b) (consume_stop b) (errmsg b) (reterr b) (ff b)
       (dst b) (dst_len b) (dst_capacity b) (enforced_max_line_blen b)
       (dst_owned_by_consumer b) (file_type b) (heap_log b))
    (rds t).

(** Repeated [TextRfileAdvance], each slice consumed whole, until a call
    does not return success: the slices in order, the code that ended the
    pass, and the reader then.  [rounds] bounds the number of calls and
    [fuel] the loop inside each. *)
Fixpoint read_all (rounds fuel : nat) (t : textRFILE)
  : outcome (list (list byte) * PglErr * textRFILE) :=
  match rounds with
  | O => OutOfFuel
  | S rounds' =>
      match TextRfileAdvance fuel t with
      | Ret (kPglRetSuccess, t1) =>
          match read_all rounds' fuel (consume_all t1) with
          | Ret (sl, e, t2) => Ret (slice t1 :: sl, e, t2)
          | o => o
          end
      | Ret (e, t1) => Ret ([], e, t1)
      | AssertFail => AssertFail
      | Undefined => Undefined
      | OutOfFuel => OutOfFuel
      end
  end.

(** [TextRfileOpenEx] on a fresh reader, then a full pass. *)
Definition open_and_read (rounds fuel : nat) (fname : string)
    (blen cap : Z) (dst_arg : bool)
  : outcome (list (list byte) * PglErr * textRFILE) :=
  match TextRfileOpenEx fname blen cap dst_arg PreinitTextRfile with
  | Ret (kPglRetSuccess, t) => read_all rounds fuel t
  | Ret (e, t) => Ret ([], e, t)
  | AssertFail => AssertFail
  | Undefined => Undefined
  | OutOfFuel => OutOfFuel
  end.

End Reader.

(* ------------------------------------------------------------------ *)
(** ** A concrete build *)

(** Modelled from the spec: [IsZstdFrame], declared in a header outside
    this file; the spec gives the frame magic 28 B5 2F FD, little-endian
    0xFD2FB528. *)
Definition spec_IsZstdFrame (magic4 : Z) : bool := magic4 =? 0xFD2FB528.

(** Modelled from the spec: [IsBgzfHeader], declared in a header outside
    this file; the spec asks for a gzip header (1F 8B 08) with the
    extra-field flag, XLEN = 6 and the subfield 42 43 that holds BSIZE. *)
Definition spec_IsBgzfHeader (buf : list byte) : bool :=
  (byteZ (nth 0 buf x00) =? 0x1f) && (byteZ (nth 1 buf x00) =? 0x8b)
  && (byteZ (nth 2 buf x00) =? 0x08)
  && Z.testbit (byteZ (nth 3 buf x00)) 2
  && (le16 (drop 10 buf) =? 6)
  && (byteZ (nth 12 buf x00) =? 0x42) && (byteZ (nth 13 buf x00) =? 0x43)
  && (le16 (drop 14 buf) =? 2).

(** Modelled from the spec: [LastSpaceOrEoln], declared in a header outside
    this file: the last byte of the region that is whitespace or ends a
    line (any byte up to the space character). *)
Fixpoint spec_LastSpaceOrEoln_from (l : list byte) : option nat :=
  match l with
  | [] => None
  | x :: l' =>
      match spec_LastSpaceOrEoln_from l' with
      | Some k => Some (S k)
      | None => if byteZ x <=? 32 then Some O else None
      end
  end.

Definition spec_LastSpaceOrEoln (l : list byte) : option Z :=
  option_map Z.of_nat (spec_LastSpaceOrEoln_from l).

(** A stand-in for zlib that can be run: a stream is a run of literal
    bytes closed by a zero byte.  The state says whether the closing byte
    has been seen. *)
Fixpoint toy_inflate_run (input : list byte) (room : Z)
  : Z * list byte * bool :=
  match input with
  | [] => (0, [], false)
  | x :: rest =>
      if Byte.eqb x x00 then (1, [], true)
      else if room <=? 0 then (0, [], false)
      else
        let '(n, out, fin) := toy_inflate_run rest (room - 1) in
        (n + 1, x :: out, fin)
  end.

Definition toy_inflate (ended : bool) (input : list byte) (room : Z)
  : inflate_result bool :=
  if ended then mk_inflate_result Z_STREAM_END 0 [] None true
  else
    let '(n, out, fin) := toy_inflate_run input room in
    mk_inflate_result (if fin then Z_STREAM_END else Z_OK) n out None fin.

Definition toy_zstd (ended : bool) (input : list byte) (room : Z)
  : zstd_result bool :=
  if ended then mk_zstd_result 0 false "" 0 [] true
  else
    let '(n, out, fin) := toy_inflate_run input room in
    mk_zstd_result (if fin then 0 else 1) false "" n out fin.

(** A build of the reader: the given chunk size, I/O cap, pointer width
    and assertion setting, a file system, the header predicates as the
    spec describes them, allocation that always succeeds, and the
    stand-in codecs.  BGZF blocks are refused by this build's libdeflate. *)
Definition build (chunk max_io : Z) (lp64 ndebug : bool)
    (fs : string -> option (list byte)) : externs :=
  mk_externs chunk max_io (12 * chunk) (8 * chunk)
    spec_IsZstdFrame spec_IsBgzfHeader spec_LastSpaceOrEoln
    (fun _ _ _ => (kPglRetSuccess, None))
    lp64 ndebug
    (fun _ => true) fs
    (Some false) toy_inflate (fun _ => false) (fun _ => ""%string)
    (Some false) toy_zstd (fun _ => false)
    true (fun _ _ => None).

(** The 64-bit release build: 1 MiB chunks (the size the messages of
    [TextRfileOpenInternal] quote), reads capped at 0x7ffff000 bytes. *)
Definition plink2 (fs : string -> option (list byte)) : externs :=
  build 1048576 0x7ffff000 true true fs.

(** A file system with one file, whatever its name. *)
Definition one_file (data : list byte) : string -> option (list byte) :=
  fun _ => Some data.

(* ------------------------------------------------------------------ *)
(** ** The rules of the spec, in its own words *)

(** The probe of the spec: fewer than 4 bytes is uncompressed; a Zstd
    frame magic in the first 4 bytes is Zstd; the bytes 1F 8B 08 are BGZF
    when exactly 16 bytes were read and they are a BGZF header, and gzip
    otherwise; anything else is uncompressed. *)
Definition MagicProbe (X : externs) (buf : list byte) : FileCompressionType :=
  if zlen buf <? 4 then kFileUncompressed
  else if IsZstdFrame X (le32 buf) then kFileZstd
  else if (byteZ (nth 0 buf x00) =? 0x1f) && (byteZ (nth 1 buf x00) =? 0x8b)
          && (byteZ (nth 2 buf x00) =? 0x08) then
    if (zlen buf =? 16) && IsBgzfHeader X buf then kFileBgzf else kFileGzip
  else kFileUncompressed.

(* ------------------------------------------------------------------ *)
(** ** Inputs used below *)

(** The first bytes of a gzip member. *)
Definition gzip_prefix : list byte :=
  [x1f; x8b; x08; x00; x00; x00; x00; x00; x00; x03].

(** A file that starts with the gzip ID bytes but whose method byte is
    not deflate. *)
Definition gzip_id_only : list byte := [x1f; x8b; x00; x00].

(** When [TextRfileOpenInternal] is said to refuse its arguments, in the
    words of the claim: the reader is already open; or
    [enforced_max_line_blen] is nonzero (or the call comes from the
    synchronous reader) and is below the chunk size; or a caller's [dst]
    comes with [dst_capacity] below two chunks or above
    [enforced_max_line_blen] plus one chunk. *)
Definition open_refuses_as_claimed (X : externs) (already_open : bool)
    (blen cap : Z) (dst_arg sync : bool) : bool :=
  already_open
  || ((negb (blen =? 0) || sync) && (blen <? kDecompressChunkSizeX X))
  || (dst_arg
      && ((cap <? u32 (2 * kDecompressChunkSizeX X))
          || (u32 (blen + kDecompressChunkSizeX X) <? cap))).

(** The same with the two tests on [dst_capacity] placed where the code
    has them: under the test that selects line mode. *)
Definition open_refuses (X : externs) (already_open : bool)
    (blen cap : Z) (dst_arg sync : bool) : bool :=
  already_open
  || ((negb (blen =? 0) || sync)
      && ((blen <? kDecompressChunkSizeX X)
          || (dst_arg
              && ((cap <? u32 (2 * kDecompressChunkSizeX X))
                  || (u32 (blen + kDecompressChunkSizeX X) <? cap))))).

Definition is_open {X : externs} (t : textRFILE X) : bool :=
  match ff (base t) with Some _ => true | None => false end.

Definition four_bytes : list byte := [x61; x62; x63; x0a].

(** Every line of [l] has at most [blen] bytes, its ['\n'] included (and
    so has an unterminated tail); [cur] bytes of the first line have
    already gone by. *)
Fixpoint lines_fit (blen cur : Z) (l : list byte) : bool :=
  match l with
  | [] => cur <=? blen
  | x :: l' =>
      if Byte.eqb x NL then (cur + 1 <=? blen) && lines_fit blen 0 l'
      else lines_fit blen (cur + 1) l'
  end.

(** [l] holds no ['\n']. *)
Definition no_newline (l : list byte) : Prop := find_first NL l = None.

(** [n] copies of [c]. *)
Definition zrepeat (c : byte) (n : Z) : list byte := repeat c (Z.to_nat n).

(** A line of 20 bytes, then one of 2 MiB + 1. *)
Definition first_line : list byte :=
  [x61; x61; x61; x61; x61; x61; x61; x61; x61; x61;
   x61; x61; x61; x61; x61; x61; x61; x61; x61; x0a].

Definition long_second_line : list byte :=
  first_line ++ zrepeat x78 2097152 ++ [NL].

Definition three_lines : list byte :=
  [x61; x0a; x62; x62; x0a; x63; x63; x63].

(** The call failed as a truncated gzip file. *)
Definition is_truncated_gz {D : Type} (r : raw_read D) : Prop :=
  rr_err r = kPglRetDecompressFail
  /\ rr_msg r = Some kShortErrRfileTruncatedGz.

(** A gzip stream cut short, for the stand-in codec: two literal bytes and
    no closing byte. *)
Definition cut_stream : list byte := [x61; x62].

(** Where the BGZF loop of [TextRfileAdvance] stands at the top of an
    iteration: the stream, the valid bytes of [in], [in_iter] as an offset
    and the bytes decoded so far in this call. *)
Definition bgzf_point : Type := FILE * list byte * Z * list byte.

(** [bgzf_iter X room s s']: an execution of the loop that is at the top of
    an iteration in [s] is, some iterations later, at the top of one in
    [s'].  The two ways round the loop are the [continue] after a decoded
    block and the fall through the refill. *)
Inductive bgzf_iter (X : externs) (room : Z)
  : bgzf_point -> bgzf_point -> Prop :=
| bgzf_here (s : bgzf_point) : bgzf_iter X room s s
| bgzf_block (f : FILE) (inb : list byte) (in_iter : Z)
    (out blk : list byte) (s' : bgzf_point) :
    let n_inbytes := u32 (zlen inb - in_iter) in
    let bsize_minus1 := le16 (sub inb (in_iter + 16) 2) in
    let in_sz := bsize_minus1 - 25 in
    let out_size := le32 (sub inb (in_iter + in_sz + 22) 4) in
    25 < n_inbytes ->
    IsBgzfHeader X (sub inb in_iter 16) = true ->
    25 <= bsize_minus1 < n_inbytes ->
    out_size <= 65536 ->
    out_size <= uptr X (room - zlen out) ->
    libdeflate_deflate_decompress X (sub inb (in_iter + 18) in_sz) out_size
    = Some blk ->
    bgzf_iter X room (f, inb, in_iter + bsize_minus1 + 1, out ++ blk) s' ->
    bgzf_iter X room (f, inb, in_iter, out) s'
| bgzf_refill (f : FILE) (inb : list byte) (in_iter : Z)
    (out : list byte) (x : byte) (buf : list byte) (f1 : FILE)
    (s' : bgzf_point) :
    let n_inbytes := u32 (zlen inb - in_iter) in
    let bsize_minus1 := le16 (sub inb (in_iter + 16) 2) in
    n_inbytes <= 25
    \/ (IsBgzfHeader X (sub inb in_iter 16) = true
        /\ 25 <= bsize_minus1 /\ n_inbytes <= bsize_minus1) ->
    fread_unlocked (u32 (kDecompressChunkSizeX X - n_inbytes)) f
    = (x :: buf, f1) ->
    ferror_unlocked f1 = false ->
    bgzf_iter X room
      (f1, sub inb in_iter n_inbytes ++ x :: buf, 0, out) s' ->
    bgzf_iter X room (f, inb, in_iter, out) s'.

(** A file that starts like a BGZF block but stores a total block size of
    17 ([BSIZE = 16]): 28 bytes. *)
Definition short_bsize_block : list byte :=
  [x1f; x8b; x08; x04; x00; x00; x00; x00; x00; xff; x06; x00;
   x42; x43; x02; x00; x10; x00;
   x00; x00; x00; x00; x00; x00; x00; x00; x00; x00].



(** What a complete pass hands out according to the description of the
    reader: the contents, with one ['\n'] added when they are not empty and
    do not end in one. *)
Definition with_final_newline (data : list byte) : list byte :=
  match data with
  | [] => []
  | _ :: _ =>
      if Byte.eqb (last data x00) NL then data else data ++ [NL]
  end.

(** A line of 1.5 MiB and a line of 2.5 MiB, both ending in ['\n']. *)
Definition two_long_lines : list byte :=
  zrepeat x61 1572863 ++ NL :: zrepeat x62 2621439 ++ [NL].

(** A file of one line, ["a\n"]. *)
Definition one_short_line : list byte := [x61; NL].

(* ------------------------------------------------------------------ *)
(** * The asynchronous reader *)

Definition obind {A B : Type} (o : outcome A) (k : A -> outcome B)
  : outcome B :=
  match o with
  | Ret a => k a
  | AssertFail => AssertFail
  | Undefined => Undefined
  | OutOfFuel => OutOfFuel
  end.

Notation "x <- o ;; k" := (obind o (fun x => k))
  (at level 61, o at next level, right associativity).

(** [TrsInterrupt], the request of the consumer to the thread. *)
Inductive TrsInterrupt :=
| kTrsInterruptNone
| kTrsInterruptRetarget
| kTrsInterruptShutdown.

(** Modelled from the spec: the order of the enumeration, which is
    declared in a header outside this file; the spec has the thread wait
    for Shutdown after an error and for Retarget or Shutdown at the end of
    the file, so Shutdown is the strongest. *)
Definition interrupt_rank (i : TrsInterrupt) : Z :=
  match i with
  | kTrsInterruptNone => 0
  | kTrsInterruptRetarget => 1
  | kTrsInterruptShutdown => 2
  end.

(** [TextRstreamSync], without the mutex and the condition variables.
    Pointers into [dst] are offsets from the block [dst] points to now;
    [cur_circular_end] is [None] for [nullptr]. *)
Record TextRstreamSync := mkSync {
  consume_tail : Z;
  cur_circular_end : option Z;
  available_end : Z;
  sync_errmsg : option errmsg_t;
  sync_reterr : PglErr;
  dst_reallocated : bool;
  interrupt : TrsInterrupt;
  consumer_progress_state : bool
}.

(** What the asynchronous reader takes from elsewhere, beyond [externs]:
    the cache line size, the address of the block of [dst] after so many
    reallocations (pointers are rounded down to cache lines), whether the
    allocation of the sync block and the creation of the mutex, condition
    variables and thread succeed, and the multithreaded BGZF reader, which
    gets the size of the window and the stream. *)
Record mt_externs := mk_mt_externs {
  kCacheline : Z;
  dst_addr : nat -> Z;
  cachealigned_malloc_ok : bool;
  pthread_ok : bool;
  BgzfRawMtStreamRead :
    Z -> FILE -> PglErr * option errmsg_t * list byte * FILE
}.

Section Stream.

Variable X : externs.
Variable M : mt_externs.

(** The locals of [TextRstreamThread] that point into the buffer ([buf]
    is offset 0). *)
Record thread_locals := mkLocals {
  buf_end : Z;
  cur_block_start : Z;
  read_head : Z;
  read_stop : Z
}.

(** Where the thread stands between two of its steps. *)
Inductive thread_pc :=
| AtLoop                                    (* head of the inner [while (1)] *)
| AtWaitFirst (memmove_required : bool)     (* [TextRstreamThread_wait_first] *)
| AtFinalWait (min_interrupt : TrsInterrupt) (* the [do ... while] at the end *)
| AtInterrupt (i : TrsInterrupt).           (* [TextRstreamThread_INTERRUPT] *)

(** Where the consumer stands: in its own code between two calls, inside
    [TextAdvance] in [pthread_cond_wait], or back from a [TextAdvance] that
    did not return success. *)
Inductive consumer_pc :=
| InClient
| InCondWait
| Returned (e : PglErr).

(** A [TextRstream] with its thread running: [*trsp], [*trsp->syncp], the
    thread's locals and program point, the consumer's program point, and
    whether [reader_progress_condvar] has been signalled since the consumer
    began to wait.  [dst (tbase s)] holds every byte of the block written
    so far; [dst_gen] counts the reallocations. *)
Record TextRstream := mkRstream {
  tbase : TextRfileBase;
  trds : RawDecompressStream X;
  decompress_thread_ct : Z;
  sync : TextRstreamSync;
  dst_gen : nat;
  locals : thread_locals;
  pc : thread_pc;
  consumer : consumer_pc;
  reader_signalled : bool
}.

Definition with_base (s : TextRstream) (b : TextRfileBase) : TextRstream :=
  mkRstream b (trds s) (decompress_thread_ct s) (sync s) (dst_gen s)
    (locals s) (pc s) (consumer s) (reader_signalled s).

Definition with_sync (s : TextRstream) (sy : TextRstreamSync)
  : TextRstream :=
  mkRstream (tbase s) (trds s) (decompress_thread_ct s) sy (dst_gen s)
    (locals s) (pc s) (consumer s) (reader_signalled s).

Definition with_thread (s : TextRstream) (l : thread_locals)
    (p : thread_pc) : TextRstream :=
  mkRstream (tbase s) (trds s) (decompress_thread_ct s) (sync s) (dst_gen s)
    l p (consumer s) (reader_signalled s).

Definition with_consumer (s : TextRstream) (c : consumer_pc)
    (signalled : bool) : TextRstream :=
  mkRstream (tbase s) (trds s) (decompress_thread_ct s) (sync s) (dst_gen s)
    (locals s) (pc s) c signalled.

(** The stream and the buffer after a read of the thread. *)
Definition with_io (s : TextRstream) (f : FILE) (mem : list byte)
    (r : RawDecompressStream X) : TextRstream :=
  let b := tbase s in
  mkRstream
    (mkBase (consume_iter b) (consume_stop b) (errmsg b) (reterr b) (Some f)
       (Some mem) (dst_len b) (dst_capacity b) (enforced_max_line_blen b)
       (dst_owned_by_consumer b) (file_type b) (heap_log b))
    r (decompress_thread_ct s) (sync s) (dst_gen s) (locals s) (pc s)
    (consumer s) (reader_signalled s).

(** [pthread_cond_signal(reader_progress_condvarp)]: it wakes the
    consumer if the consumer is waiting, and is lost otherwise. *)
Definition signal_reader_progress (s : TextRstream) : TextRstream :=
  match consumer s with
  | InCondWait => with_consumer s InCondWait true
  | _ => s
  end.

(** [RoundDownPow2(p, kCacheline)] for the pointer at offset [off]. *)
Definition round_down_cacheline (s : TextRstream) (off : Z) : Z :=
  off - (dst_addr M (dst_gen s) + off) mod kCacheline M.

(** Writing [data] at offset [off] of the block, whose bytes up to
    [zlen mem] have been written before. *)
Definition write_at (mem : list byte) (off : Z) (data : list byte)
  : outcome (list byte) :=
  if (0 <=? off) && (off <=? zlen mem) then
    Ret (take off mem ++ data ++ drop (off + zlen data) mem)
  else Undefined.

(** Reading [n] bytes at offset [off]. *)
Definition read_at (mem : list byte) (off n : Z) : outcome (list byte) :=
  if (0 <=? off) && (0 <=? n) && (off + n <=? zlen mem) then
    Ret (sub mem off n)
  else Undefined.

(** The labels at the end of [TextRstreamThread]'s body, and what follows
    them under the mutex: the code is passed back; an interrupt that is
    strong enough is taken at once; otherwise, at the end of the file,
    [available_end] is moved to [read_head], the consumer is signalled and
    the thread begins to wait.  [m] is what the path stored in
    [syncp->errmsg], if anything. *)
Definition thread_finish (s : TextRstream) (min_interrupt : TrsInterrupt)
    (e : PglErr) (m : option errmsg_t) : TextRstream :=
  let sy := sync s in
  let msg := match m with Some _ => m | None => sync_errmsg sy end in
  if interrupt_rank (interrupt sy) >=? interrupt_rank min_interrupt then
    with_thread
      (with_sync s
         (mkSync (consume_tail sy) (cur_circular_end sy) (available_end sy)
            msg e (dst_reallocated sy) (interrupt sy)
            (consumer_progress_state sy)))
      (locals s) (AtInterrupt (interrupt sy))
  else
    let avail := if PglErr_eqb e kPglRetEof then read_head (locals s)
                 else available_end sy in
    signal_reader_progress
      (with_thread
         (with_sync s
            (mkSync (consume_tail sy) (cur_circular_end sy) avail msg e
               (dst_reallocated sy) (interrupt sy)
               (consumer_progress_state sy)))
         (locals s) (AtFinalWait min_interrupt)).

Definition thread_long_line (s : TextRstream) : TextRstream :=
  thread_finish s kTrsInterruptShutdown kPglRetMalformedInput
    (Some kShortErrLongLine).

(** After the wait loop of the thread has been left with [break]: the
    unfinished line is moved to the front, or [read_stop] is moved to the
    end of the buffer. *)
Definition thread_after_wait (s : TextRstream) : outcome TextRstream :=
  let L := locals s in
  if read_stop L =? buf_end L then
    match dst (tbase s), ff (tbase s) with
    | Some mem, Some f =>
        let cur_memmove_len := u32 (buf_end L - cur_block_start L) in
        data <- read_at mem (cur_block_start L) cur_memmove_len ;;
        mem1 <- write_at mem 0 data ;;
        Ret (with_thread (with_io s f mem1 (trds s))
               (mkLocals (buf_end L) 0 cur_memmove_len (read_stop L)) AtLoop)
    | _, _ => Undefined
    end
  else
    Ret (with_thread s
           (mkLocals (buf_end L) (cur_block_start L) (read_head L)
              (buf_end L)) AtLoop).

(** The body of the wait loop, from its head to the next
    [pthread_cond_wait] or out of the loop; the mutex is held. *)
Definition thread_wait_check (s : TextRstream) (memmove_required : bool)
  : outcome TextRstream :=
  let sy := sync s in
  let L := locals s in
  match interrupt sy with
  | kTrsInterruptNone =>
      let latest_consume_tail := consume_tail sy in
      if memmove_required then
        if latest_consume_tail =? cur_block_start L then
          thread_after_wait
            (with_sync s
               (mkSync 0 (cur_circular_end sy) 0 (sync_errmsg sy)
                  (sync_reterr sy) (dst_reallocated sy) (interrupt sy)
                  (consumer_progress_state sy)))
        else Ret (with_thread s L (AtWaitFirst memmove_required))
      else if latest_consume_tail <=? cur_block_start L then
        thread_after_wait s
      else Ret (with_thread s L (AtWaitFirst memmove_required))
  | i => Ret (with_thread s L (AtInterrupt i))
  end.

(** The buffer is full of one unfinished line: the thread gives up or
    replaces the buffer by a larger one.  The pointers that others hold
    into the old block are kept as they are, so their offsets from the new
    block shift by the distance of the two blocks. *)
Definition thread_grow (s : TextRstream) : outcome TextRstream :=
  let b := tbase s in
  let sy := sync s in
  let L := locals s in
  let blen := enforced_max_line_blen b in
  let prev_capacity := u32 (buf_end L) in
  if dst_owned_by_consumer b || (prev_capacity >=? blen) then
    Ret (thread_long_line s)
  else
    let next := next_dst_capacity X blen (dst_capacity b) in
    if negb (LP64 X) && (next >=? 0x80000000) then
      Ret (thread_finish s kTrsInterruptShutdown kPglRetNomem None)
    else if negb (malloc_ok X next) then
      Ret (thread_finish s kTrsInterruptShutdown kPglRetNomem None)
    else
      let delta := dst_addr M (dst_gen s) - dst_addr M (S (dst_gen s)) in
      let shift := option_map (fun p => p + delta) in
      Ret (mkRstream
             (mkBase (shift (consume_iter b)) (shift (consume_stop b))
                (errmsg b) (reterr b) (ff b) (dst b) (dst_len b) next
                (enforced_max_line_blen b) (dst_owned_by_consumer b)
                (file_type b) (heap_log b ++ [EvRealloc next]))
             (trds s) (decompress_thread_ct s)
             (mkSync 0 (shift (cur_circular_end sy)) 0 (sync_errmsg sy)
                (sync_reterr sy) true (interrupt sy)
                (consumer_progress_state sy))
             (S (dst_gen s))
             (mkLocals next 0 prev_capacity next) AtLoop
             (consumer s) (reader_signalled s)).

(** The [switch (file_type)] of the thread: either the bytes written from
    [read_head] on, or a [goto] to a label with its code and message. *)
Inductive thread_read :=
| TrOk (bytes : list byte) (f : FILE) (r : RawDecompressStream X)
| TrFail (e : PglErr) (m : option errmsg_t) (f : FILE)
    (r : RawDecompressStream X).

Definition of_thread_raw {D : Type} (wrap : D -> RawDecompressStream X)
    (rr : raw_read D) : thread_read :=
  if is_err (rr_err rr) then
    TrFail (rr_err rr) (rr_msg rr) (rr_ff rr) (wrap (rr_dec rr))
  else TrOk (rr_out rr) (rr_ff rr) (wrap (rr_dec rr)).

Definition thread_read_switch (ft : FileCompressionType)
    (r : RawDecompressStream X) (f : FILE) (read_attempt_size : Z)
  : outcome thread_read :=
  match ft with
  | kFileUncompressed =>
      let '(bytes, f1) := fread_unlocked read_attempt_size f in
      if ferror_unlocked f1 then
        Ret (TrFail kPglRetReadFail (Some strerror_errno) f1 r)
      else Ret (TrOk bytes f1 r)
  | kFileGzip =>
      match r with
      | RdsGz gz =>
          rr <- GzRawStreamRead read_attempt_size f gz ;;
          Ret (of_thread_raw (@RdsGz X) rr)
      | _ => Undefined
      end
  | kFileBgzf =>
      let '(e, m, bytes, f1) := BgzfRawMtStreamRead M read_attempt_size f in
      if is_err e then Ret (TrFail e m f1 r) else Ret (TrOk bytes f1 r)
  | kFileZstd =>
      match r with
      | RdsZst z =>
          rr <- ZstRawStreamRead read_attempt_size f z ;;
          Ret (of_thread_raw (@RdsZst X) rr)
      | _ => Undefined
      end
  end.

(** The thread has read to the end of its window and found the last
    ['\n'] (or blank) of what it read at [last_byte_ptr]: it publishes the
    lines up to there, and goes on either behind them or at the front of
    the buffer. *)
Definition thread_publish (s : TextRstream) (mem : list byte)
    (cur_read_end last_byte_ptr : Z) : outcome TextRstream :=
  let b := tbase s in
  let sy := sync s in
  let L := locals s in
  let next_available_end := last_byte_ptr + 1 in
  g <- IsPathologicallyLongLineOrTokenX X mem (cur_block_start L)
         (read_head L) next_available_end (enforced_max_line_blen b) ;;
  if (g : bool) then Ret (thread_long_line s)
  else
    match interrupt sy with
    | kTrsInterruptNone =>
        let latest_consume_tail := consume_tail sy in
        let all_later_bytes_consumed :=
          latest_consume_tail <=? cur_block_start L in
        let return_to_start :=
          all_later_bytes_consumed
          && (latest_consume_tail >=? kDecompressChunkSizeX X) in
        let sy1 :=
          if return_to_start then
            mkSync (consume_tail sy) (Some next_available_end) 0
              (sync_errmsg sy) (sync_reterr sy) (dst_reallocated sy)
              (interrupt sy) false
          else
            mkSync (consume_tail sy) (cur_circular_end sy)
              next_available_end (sync_errmsg sy) (sync_reterr sy)
              (dst_reallocated sy) (interrupt sy) false in
        let s1 := signal_reader_progress (with_sync s sy1) in
        if return_to_start then
          match ff b with
          | Some f =>
              let trailing_byte_ct := uptr X (cur_read_end
                                              - next_available_end) in
              data <- read_at mem next_available_end trailing_byte_ct ;;
              mem1 <- write_at mem 0 data ;;
              Ret (with_thread (with_io s1 f mem1 (trds s))
                     (mkLocals (buf_end L) 0 trailing_byte_ct
                        (round_down_cacheline s latest_consume_tail))
                     AtLoop)
          | None => Undefined
          end
        else
          Ret (with_thread s1
                 (mkLocals (buf_end L) next_available_end cur_read_end
                    (if all_later_bytes_consumed then buf_end L
                     else round_down_cacheline s latest_consume_tail))
                 AtLoop)
    | i => Ret (with_thread s L (AtInterrupt i))
    end.

(** The read came back short: the end of the input.  A ['\n'] is added
    if the last line lacks one, the line length is checked, and the thread
    leaves through [TextRstreamThread_EOF]. *)
Definition thread_end_of_input (s : TextRstream) (mem : list byte)
    (cur_read_end : Z) : outcome TextRstream :=
  let b := tbase s in
  let L := locals s in
  fin <- (if negb (cur_block_start L =? cur_read_end) then
            last <- read_at mem (cur_read_end - 1) 1 ;;
            if Byte.eqb (hd x00 last) NL then Ret (mem, cur_read_end)
            else
              mem1 <- write_at mem cur_read_end [NL] ;;
              Ret (mem1, cur_read_end + 1)
          else Ret (mem, cur_read_end)) ;;
  let '(mem2, final_read_head) := fin in
  g <- IsPathologicallyLongLineOrTokenX X mem2 (cur_block_start L)
         (read_head L) final_read_head (enforced_max_line_blen b) ;;
  match ff b with
  | Some f =>
      let s1 := with_io s f mem2 (trds s) in
      if (g : bool) then Ret (thread_long_line s1)
      else
        Ret (thread_finish
               (with_thread s1
                  (mkLocals (buf_end L) (cur_block_start L) final_read_head
                     (read_stop L)) (pc s))
               kTrsInterruptRetarget kPglRetEof None)
  | None => Undefined
  end.

(** One pass through the inner [while (1)] of [TextRstreamThread], from
    its head to its head, to a wait, or out of the loop. *)
Definition thread_loop_step (s : TextRstream) : outcome TextRstream :=
  let b := tbase s in
  let L := locals s in
  let read_attempt_size0 := uptr X (read_stop L - read_head L) in
  if read_attempt_size0 =? 0 then
    let memmove_required := read_stop L =? buf_end L in
    if (cur_block_start L =? 0) && memmove_required then thread_grow s
    else if memmove_required then thread_wait_check s true
    else Ret (with_thread s L (AtWaitFirst false))
  else
    let read_attempt_size :=
      if read_attempt_size0 >? kDecompressChunkSizeX X
      then kDecompressChunkSizeX X else read_attempt_size0 in
    let cur_read_stop := read_head L + read_attempt_size in
    match dst b, ff b with
    | Some mem, Some f =>
        rd <- thread_read_switch (file_type b) (trds s) f
                read_attempt_size ;;
        match rd with
        | TrFail e m f1 r1 =>
            Ret (thread_finish (with_io s f1 mem r1) kTrsInterruptShutdown
                   e m)
        | TrOk bytes f1 r1 =>
            mem1 <- write_at mem (read_head L) bytes ;;
            let cur_read_end := read_head L + zlen bytes in
            let s1 := with_io s f1 mem1 r1 in
            if cur_read_end <? cur_read_stop then
              thread_end_of_input s1 mem1 cur_read_end
            else
              let last_byte_ptr :=
                if negb (enforced_max_line_blen b =? 0) then
                  Memrchr mem1 (read_head L) NL read_attempt_size
                else
                  option_map (Z.add (read_head L))
                    (LastSpaceOrEoln X
                       (sub mem1 (read_head L) read_attempt_size)) in
              match last_byte_ptr with
              | Some last => thread_publish s1 mem1 cur_read_end last
              | None =>
                  Ret (with_thread s1
                         (mkLocals (buf_end L) (cur_block_start L)
                            cur_read_end (read_stop L)) AtLoop)
              end
        end
    | _, _ => Undefined
    end.

Definition clear_progress (s : TextRstream) : TextRstream :=
  let sy := sync s in
  with_sync s
    (mkSync (consume_tail sy) (cur_circular_end sy) (available_end sy)
       (sync_errmsg sy) (sync_reterr sy) (dst_reallocated sy) (interrupt sy)
       false).

(** One step of [TextRstreamThread]: [None] when the thread cannot move
    (it waits for [consumer_progress_state], or it is at
    [TextRstreamThread_INTERRUPT]: only [TextRetarget] and
    [CleanupTextRstream] raise an interrupt, and what the thread does then
    is outside this model). *)
Definition thread_step (s : TextRstream) : outcome (option TextRstream) :=
  match pc s with
  | AtLoop => s1 <- thread_loop_step s ;; Ret (Some s1)
  | AtWaitFirst memmove_required =>
      if consumer_progress_state (sync s) then
        s1 <- thread_wait_check (clear_progress s) memmove_required ;;
        Ret (Some s1)
      else Ret None
  | AtFinalWait min_interrupt =>
      if consumer_progress_state (sync s) then
        let s1 := clear_progress s in
        let i := interrupt (sync s1) in
        if interrupt_rank i <? interrupt_rank min_interrupt then
          Ret (Some s1)
        else Ret (Some (with_thread s1 (locals s1) (AtInterrupt i)))
      else Ret None
  | AtInterrupt _ => Ret None
  end.

(** The body of the [while (1)] of [TextAdvance], with the mutex held,
    from its head to a [return] ([Some] code) or to the
    [pthread_cond_wait] ([None]).  [iter] is the local [consume_iter]. *)
Definition TextAdvance_body (s : TextRstream) (iter : Z)
  : TextRstream * option PglErr :=
  let b := tbase s in
  let sy := sync s in
  let e := sync_reterr sy in
  if is_err e && negb (PglErr_eqb e kPglRetEof) then
    (with_base s
       (mkBase (consume_iter b) (consume_stop b) (sync_errmsg sy) e (ff b)
          (dst b) (dst_len b) (dst_capacity b) (enforced_max_line_blen b)
          (dst_owned_by_consumer b) (file_type b) (heap_log b)),
     Some e)
  else
    let avail := available_end sy in
    let at_circular_end :=
      match cur_circular_end sy with
      | Some c => iter =? c
      | None => false
      end in
    let iter1 := if at_circular_end then 0 else iter in
    let base_iter := if at_circular_end then Some 0 else consume_iter b in
    let circular1 := if at_circular_end then None
                     else cur_circular_end sy in
    let progress1 :=
      if at_circular_end && negb (iter1 =? avail) then true
      else consumer_progress_state sy in
    let iter2 := if dst_reallocated sy then 0 else iter1 in
    let sy2 := mkSync iter2 circular1 avail (sync_errmsg sy) e false
                 (interrupt sy) progress1 in
    let has_circular := match circular1 with Some _ => true | None => false
                        end in
    if negb (iter2 =? avail) || has_circular then
      let stop := match circular1 with Some c => c | None => avail end in
      (with_sync
         (with_base s
            (mkBase base_iter (Some stop) (errmsg b) (reterr b) (ff b)
               (dst b) (dst_len b) (dst_capacity b)
               (enforced_max_line_blen b) (dst_owned_by_consumer b)
               (file_type b) (heap_log b)))
         sy2,
       Some kPglRetSuccess)
    else if is_err e then
      (with_sync
         (with_base s
            (mkBase base_iter (consume_stop b) (errmsg b) kPglRetEof (ff b)
               (dst b) (dst_len b) (dst_capacity b)
               (enforced_max_line_blen b) (dst_owned_by_consumer b)
               (file_type b) (heap_log b)))
         sy2,
       Some kPglRetEof)
    else
      (with_consumer
         (with_sync
            (with_base s
               (mkBase base_iter (consume_stop b) (errmsg b) (reterr b)
                  (ff b) (dst b) (dst_len b) (dst_capacity b)
                  (enforced_max_line_blen b) (dst_owned_by_consumer b)
                  (file_type b) (heap_log b)))
            (mkSync iter2 circular1 avail (sync_errmsg sy) e false
               (interrupt sy) true))
         InCondWait false,
       None).

(** The bytes of [consume_iter, consume_stop) that a successful
    [TextAdvance] has handed to the consumer. *)
Definition stream_slice (s : TextRstream) : outcome (list byte) :=
  match dst (tbase s), consume_iter (tbase s), consume_stop (tbase s) with
  | Some mem, Some ci, Some cs => read_at mem ci (cs - ci)
  | _, _, _ => Undefined
  end.

(** The consumer has walked [consume_iter] up to [consume_stop]. *)
Definition stream_consume_all (s : TextRstream) : TextRstream :=
  let b := tbase s in
  with_base s
    (mkBase (consume_stop b) (consume_stop b) (errmsg b) (reterr b) (ff b)
       (dst b) (dst_len b) (dst_capacity b) (enforced_max_line_blen b)
       (dst_owned_by_consumer b) (file_type b) (heap_log b)).

(** What a [TextAdvance] that has got to a [return] or to its wait means
    for the consumer: on success it reads its slice and uses it up. *)
Definition consumer_after (r : TextRstream * option PglErr)
  : outcome (TextRstream * list (list byte)) :=
  let '(s, code) := r in
  match code with
  | Some kPglRetSuccess =>
      sl <- stream_slice s ;;
      Ret (stream_consume_all s, [sl])
  | Some e => Ret (with_consumer s (Returned e) (reader_signalled s), [])
  | None => Ret (s, [])
  end.

(** One step of the consumer: a call of [TextAdvance] up to its return or
    its wait, or the rest of a call that was waiting and has been
    signalled.  [None] when the consumer cannot move. *)
Definition consumer_step (s : TextRstream)
  : outcome (option (TextRstream * list (list byte))) :=
  match consumer s with
  | InClient =>
      match consume_iter (tbase s) with
      | Some iter =>
          r <- consumer_after (TextAdvance_body s iter) ;; Ret (Some r)
      | None => Undefined
      end
  | InCondWait =>
      if reader_signalled s then
        let b := tbase s in
        let iter := consume_tail (sync s) in
        let s1 :=
          with_consumer
            (with_base s
               (mkBase (Some iter) (consume_stop b) (errmsg b) (reterr b)
                  (ff b) (dst b) (dst_len b) (dst_capacity b)
                  (enforced_max_line_blen b) (dst_owned_by_consumer b)
                  (file_type b) (heap_log b)))
            InClient false in
        r <- consumer_after (TextAdvance_body s1 iter) ;; Ret (Some r)
      else Ret None
  | Returned _ => Ret None
  end.

(** [TextRstreamOpenEx] with [trfp == nullptr] on a preinitialised
    stream: the code, the base and decoder as the call leaves them, and,
    when the thread has been created, the stream with the thread at the
    start of its loop (it has taken its locals from the base). *)
Definition TextRstreamOpenEx (fname : string) (blen cap thread_ct : Z)
    (dst_arg : bool)
  : outcome (PglErr * textRFILE X * option TextRstream) :=
  r <- TextRfileOpenInternal fname blen cap dst_arg false thread_ct
         (PreinitTextRfile X) ;;
  let '(e, t) := r in
  let fail (e1 : PglErr) :=
    Ret (e1, mkRfile (set_err (base t) e1 None) (rds t), None) in
  if is_err e then
    if PglErr_eqb e kPglRetEof then
      Ret (kPglRetSuccess,
           mkRfile (set_err (base t) kPglRetEof None) (rds t), None)
    else fail e
  else if negb (cachealigned_malloc_ok M) then fail kPglRetNomem
  else if negb (pthread_ok M) then fail kPglRetThreadCreateFail
  else
    let b := set_err (base t) kPglRetSuccess None in
    match consume_stop b with
    | Some stop =>
        Ret (kPglRetSuccess, mkRfile b (rds t),
             Some (mkRstream b (rds t) thread_ct
                     (mkSync 0 None stop None kPglRetSuccess false
                        kTrsInterruptNone false)
                     O
                     (mkLocals (dst_capacity b) stop (dst_len b)
                        (dst_capacity b))
                     AtLoop InClient false))
    | None => Undefined
    end.

(** Who moves next. *)
Inductive mover := Thread | Consumer.

(** The stream run under a schedule: the slices handed to the consumer,
    in order, and the state at the end.  A mover that cannot move is
    passed over. *)
Fixpoint run_stream (schedule : list mover) (s : TextRstream)
  : outcome (list (list byte) * TextRstream) :=
  match schedule with
  | [] => Ret ([], s)
  | Thread :: rest =>
      o <- thread_step s ;;
      match o with
      | Some s1 => run_stream rest s1
      | None => run_stream rest s
      end
  | Consumer :: rest =>
      o <- consumer_step s ;;
      match o with
      | Some (s1, out) =>
          r <- run_stream rest s1 ;;
          Ret (out ++ fst r, snd r)
      | None => run_stream rest s
      end
  end.

(** [TextRstreamOpenEx], then the thread and the consumer under the
    schedule. *)
Definition open_and_stream (schedule : list mover) (fname : string)
    (blen cap thread_ct : Z) (dst_arg : bool)
  : outcome (list (list byte) * option TextRstream) :=
  r <- TextRstreamOpenEx fname blen cap thread_ct dst_arg ;;
  match r with
  | (_, _, Some s) =>
      out <- run_stream schedule s ;;
      Ret (fst out, Some (snd out))
  | (_, _, None) => Ret ([], None)
  end.

End Stream.

(* ------------------------------------------------------------------ *)
(** ** A build of the asynchronous reader, and a small run *)

(** A build of the asynchronous reader: cache lines of 64 bytes, blocks at
    an aligned address, allocation and thread creation that succeed, and a
    multithreaded BGZF reader that refuses every stream. *)
Definition plink2_mt : mt_externs :=
  mk_mt_externs 64 (fun _ => 0x10000) true true
    (fun _ f => (kPglRetDecompressFail, Some kShortErrInvalidBgzf, [], f)).

(** A file of one line of 20 bytes. *)
Definition one_line_of_20 : list byte :=
  [x30; x31; x32; x33; x34; x35; x36; x37; x38; x39;
   x61; x62; x63; x64; x65; x66; x67; x68; x69; NL].

(* ------------------------------------------------------------------ *)
(** * Auxiliary notions and tactics *)

(** A clean stream: no fault pending, no error latched. *)
Definition clean (f : FILE) : Prop := f_bad f = None /\ f_err f = false.

(** The stream after [n] bytes have been asked of a clean one. *)
Definition after_read (n : Z) (f : FILE) : FILE :=
  mkFILE (f_all f) (drop n (f_rest f))
    (f_eof f || (zlen (take n (f_rest f)) <? n)) (f_err f) None.

(** What every exit of the loop keeps: the line-length cap, and an
    allocation size that is a 32-bit number. *)
Definition keeps_shape {X : externs} (b : TextRfileBase)
    (res : outcome (PglErr * textRFILE X)) : Prop :=
  forall e t', res = Ret (e, t') ->
    enforced_max_line_blen (base t') = enforced_max_line_blen b
    /\ dst_alloc (base t') < 2 ^ 32.

(** Case analysis on the scrutinee of a conditional or a match. *)
Ltac break_if :=
  match goal with
  | H : context [if ?c then _ else _] |- _ =>
      let E := fresh "E" in destruct c eqn:E
  | |- context [if ?c then _ else _] =>
      let E := fresh "E" in destruct c eqn:E
  end.

Ltac break_goal_match :=
  match goal with
  | |- context [match ?c with _ => _ end] =>
      let E := fresh "E" in destruct c eqn:E
  end.

Ltac break_match_hyp :=
  match goal with
  | H : context [match ?c with _ => _ end] |- _ =>
      let E := fresh "E" in destruct c eqn:E
  end.

(* ------------------------------------------------------------------ *)
(** * The states of a small run *)

(** The asynchronous reader on the file of one line of 20 bytes, read
    through a buffer of the caller of 0x7ffff011 bytes: the stream as
    [TextRstreamOpenEx] leaves it. *)
Definition small_stream_0
  : TextRstream (plink2 (one_file one_line_of_20)) :=
  mkRstream
    (mkBase (Some 0) (Some 0) None kPglRetSuccess
       (Some (mkFILE one_line_of_20 (drop 16 one_line_of_20) false false
                None))
       (Some (take 16 one_line_of_20)) 16 0x7ffff011 0x7ffff011 true
       kFileUncompressed [])
    (RdsNone (plink2 (one_file one_line_of_20))) 0
    (mkSync 0 None 0 None kPglRetSuccess false kTrsInterruptNone false)
    O (mkLocals 0x7ffff011 0 16 0x7ffff011) AtLoop InClient false.

(** The stream after a schedule. *)
Definition small_stream_after (schedule : list mover)
  : TextRstream (plink2 (one_file one_line_of_20)) :=
  match run_stream plink2_mt schedule small_stream_0 with
  | Ret (_, s) => s
  | _ => small_stream_0
  end.

(** The states the stream goes through: here the thread has read to the
    end of the file. *)
Definition small_stream_1
  : TextRstream (plink2 (one_file one_line_of_20)) :=
  small_stream_after [Thread].

(** The consumer waits for the thread. *)
Definition small_stream_2
  : TextRstream (plink2 (one_file one_line_of_20)) :=
  small_stream_after [Consumer].

(** The thread is at the end, the consumer has taken the line. *)
Definition small_stream_3
  : TextRstream (plink2 (one_file one_line_of_20)) :=
  small_stream_after [Thread; Consumer].

(** The thread is at the end and has woken the consumer. *)
Definition small_stream_4
  : TextRstream (plink2 (one_file one_line_of_20)) :=
  small_stream_after [Consumer; Thread].

(** The consumer has got Eof. *)
Definition small_stream_5
  : TextRstream (plink2 (one_file one_line_of_20)) :=
  small_stream_after [Thread; Consumer; Consumer].

(** The thread is at the end, has woken the consumer and has then seen
    the progress flag. *)
Definition small_stream_6
  : TextRstream (plink2 (one_file one_line_of_20)) :=
  small_stream_after [Consumer; Thread; Thread].

(** The woken consumer has taken the line. *)
Definition small_stream_7
  : TextRstream (plink2 (one_file one_line_of_20)) :=
  small_stream_after [Consumer; Thread; Consumer].

(** The woken consumer has got Eof. *)
Definition small_stream_8
  : TextRstream (plink2 (one_file one_line_of_20)) :=
  small_stream_after [Consumer; Thread; Consumer; Consumer].

Definition small_stream_states
  : list (TextRstream (plink2 (one_file one_line_of_20))) :=
  [small_stream_0; small_stream_1; small_stream_2; small_stream_3;
   small_stream_4; small_stream_5; small_stream_6; small_stream_7;
   small_stream_8].

(** The consumer has been handed the line and has used it up. *)
Definition line_consumed {X : externs} (s : TextRstream X) : bool :=
  match consume_iter (tbase s) with
  | Some iter => iter =? 20
  | None => false
  end.

(** What the consumer is handed between two states. *)
Definition line_between {X : externs} (s s' : TextRstream X)
  : list (list byte) :=
  if line_consumed s then []
  else if line_consumed s' then [one_line_of_20] else [].

(** What a step from [s] does, for either mover: it stays within the
    states above, only the consumer is handed anything, and that is the
    whole line, once; and a consumer that is back from [TextAdvance] with a
    code has got Eof after the line. *)
Definition small_stream_step_ok
    (s : TextRstream (plink2 (one_file one_line_of_20))) : Prop :=
  match thread_step plink2_mt s with
  | Ret None => True
  | Ret (Some s') =>
      In s' small_stream_states /\ line_consumed s' = line_consumed s
  | _ => False
  end
  /\ match consumer_step s with
     | Ret None => True
     | Ret (Some (s', out)) =>
         In s' small_stream_states
         /\ out = line_between s s'
         /\ (line_consumed s = true -> line_consumed s' = true)
     | _ => False
     end
  /\ match consumer s with
     | Returned e => e = kPglRetEof /\ line_consumed s = true
     | _ => True
     end.

(* ------------------------------------------------------------------ *)
(** * Readers of plain files *)

(** The file of three lines, the last one without its ['\n'], as
    [TextRfileOpenEx] leaves it in a buffer of the reader. *)
Definition three_lines_opened : textRFILE (plink2 (one_file three_lines)) :=
  mkRfile
    (mkBase (Some 0) (Some 0) None kPglRetSuccess
       (Some (mkFILE three_lines [] true false None)) (Some three_lines) 8
       2097152 2097152 false kFileUncompressed [EvMalloc 2097152])
    (RdsNone _).

(** A reader of a plain file between two calls: no code latched, the last
    slice used up ([consume_iter = consume_stop], at offset [off]), [dst]
    holding [mem]. *)
Definition plain_reader {X : externs} (cap blen : Z) (own : bool)
    (log : list heap_event) (em : option errmsg_t)
    (r : RawDecompressStream X) (f : FILE) (mem : list byte) (off : Z)
  : textRFILE X :=
  mkRfile
    (mkBase (Some off) (Some off) em kPglRetSuccess (Some f) (Some mem)
       (zlen mem) cap blen own kFileUncompressed log) r.

(** The same reader once [TextRfileAdvance] has returned Eof. *)
Definition plain_reader_at_eof {X : externs} (cap blen : Z) (own : bool)
    (log : list heap_event) (em : option errmsg_t)
    (r : RawDecompressStream X) (f : FILE) (stop : Z) : textRFILE X :=
  mkRfile
    (mkBase (Some 0) (Some stop) em kPglRetEof (Some f) (Some []) 0 cap blen
       own kFileUncompressed log) r.

(* ------------------------------------------------------------------ *)
(** * Closing a reader *)

(** What [CleanupTextRfile] does to the decoder: the input buffer and the
    codec's state are freed and their pointers cleared; the counters are
    left as they are.  A decoder that was never set up ([RdsNone], after an
    open that failed before or in its initialisation) has nothing to free;
    a decoder of another kind than [file_type] says is not read. *)
Definition cleanup_rds {X : externs} (ft : FileCompressionType)
    (r : RawDecompressStream X) : outcome (RawDecompressStream X) :=
  match ft, r with
  | kFileUncompressed, _ => Ret r
  | _, RdsNone _ => Ret r
  | kFileZstd, RdsZst z => Ret (RdsZst (mkZst X None [] (ib_pos z)))
  | kFileBgzf, RdsBgzf _ bg => Ret (RdsBgzf X (mkBgzf [] (in_pos bg) false))
  | kFileGzip, RdsGz gz => Ret (RdsGz (mkGz X None [] (ds_initialized gz)))
  | _, _ => Undefined
  end.

(** [CleanupTextRfile(trfp, reterrp)].  [reterrp] is [None] for [nullptr],
    else the code it points to; the result is the [BoolErr], the reader and
    [*reterrp] afterwards.  A [dst] of the reader is freed, and the record
    of its block ends with it; a [dst] of the caller is left alone.

    Modelled from the spec: [fclose_null], defined in another file of the
    repository: it closes the stream and clears the pointer (the spec has
    the cleanup idempotent).  Whether the close reports an error is
    [close_fails]. *)
Definition CleanupTextRfile {X : externs} (close_fails : bool)
    (t : textRFILE X) (reterrp : option PglErr)
  : outcome (bool * textRFILE X * option PglErr) :=
  let b := base t in
  let freed := match dst b with
               | Some _ => negb (dst_owned_by_consumer b)
               | None => false
               end in
  let b1 :=
    mkBase None None None kPglRetEof None
      (if freed then None else dst b) (dst_len b) (dst_capacity b)
      (enforced_max_line_blen b) (dst_owned_by_consumer b) (file_type b)
      (if freed then [] else heap_log b) in
  match ff b with
  | None => Ret (false, mkRfile b1 (rds t), reterrp)
  | Some _ =>
      r1 <- cleanup_rds (file_type b) (rds t) ;;
      if close_fails then
        match reterrp with
        | None => Ret (true, mkRfile b1 r1, None)
        | Some kPglRetSuccess =>
            Ret (true, mkRfile b1 r1, Some kPglRetReadFail)
        | Some e => Ret (false, mkRfile b1 r1, Some e)
        end
      else Ret (false, mkRfile b1 r1, reterrp)
  end.

(* ------------------------------------------------------------------ *)
(** * What the codecs are relied on for *)

(** [inflate] writes no more than [avail_out] bytes. *)
Definition inflate_obeys_avail_out (X : externs) : Prop :=
  forall (ds : z_stream X) (input : list byte) (avail_out : Z),
    zlen (z_out (inflate X ds input avail_out)) <= Z.max 0 avail_out.

(** [ZSTD_decompressStream] writes no more than the size of its output
    buffer. *)
Definition zstd_obeys_output_size (X : externs) : Prop :=
  forall (ds : ZSTD_DStream X) (input : list byte) (size : Z),
    zlen (zstd_out (ZSTD_decompressStream X ds input size)) <= Z.max 0 size.

(** A successful [libdeflate_deflate_decompress] (called without
    [actual_out_nbytes_ret]) has written exactly the size asked for. *)
Definition libdeflate_fills_exactly (X : externs) : Prop :=
  forall (input : list byte) (out_size : Z) (blk : list byte),
    libdeflate_deflate_decompress X input out_size = Some blk ->
    zlen blk = out_size.

(** How a raw read may end: success with no message, or an error with its
    message and nothing handed over. *)
Definition raw_read_well_formed {D : Type} (r : raw_read D) : Prop :=
  match rr_err r with
  | kPglRetSuccess => rr_msg r = None
  | kPglRetDecompressFail => rr_msg r <> None /\ rr_out r = []
  | kPglRetReadFail =>
      rr_msg r = Some strerror_errno /\ rr_out r = []
      /\ ferror_unlocked (rr_ff r) = true
  | _ => False
  end.

(* ------------------------------------------------------------------ *)
(** * The asynchronous reader on a file shorter than a chunk *)

(** How far the consumer has got: it has not called [TextAdvance] yet, it
    waits inside its first call, it has been handed the lines, or it has
    been told that the file is at its end. *)
Inductive consumer_phase :=
| NotCalled
| Waiting
| GotLines
| GotEof.

Definition has_lines (cp : consumer_phase) : bool :=
  match cp with
  | GotLines | GotEof => true
  | NotCalled | Waiting => false
  end.

(** The stream on a plain file [d], read through a buffer of the reader's
    own, in terms of whether the thread has read the file to its end, of
    how far the consumer has got, and of [consumer_progress_state]. *)
Definition short_file_stream (X : externs) (d : list byte)
    (blen thread_ct : Z) (thread_done : bool) (cp : consumer_phase)
    (progress : bool) : TextRstream X :=
  let C := kDecompressChunkSizeX X in
  let w := with_final_newline d in
  let n := zlen w in
  let len16 := zlen (take 16 d) in
  let f1 := mkFILE d (drop 16 d) (len16 <? 16) false None in
  let at_iter := if has_lines cp then n else 0 in
  mkRstream
    (mkBase (Some at_iter) (Some at_iter) None
       (match cp with GotEof => kPglRetEof | _ => kPglRetSuccess end)
       (Some (if thread_done then after_read C f1 else f1))
       (Some (if thread_done then w else take 16 d))
       len16 (2 * C) blen false kFileUncompressed [EvMalloc (2 * C)])
    (RdsNone X) thread_ct
    (mkSync (match cp with GotEof => n | _ => 0 end) None
       (if thread_done then n else 0) None
       (if thread_done then kPglRetEof else kPglRetSuccess) false
       kTrsInterruptNone progress)
    O
    (mkLocals (2 * C) 0 (if thread_done then n else len16) (2 * C))
    (if thread_done then AtFinalWait kTrsInterruptRetarget else AtLoop)
    (match cp with
     | NotCalled | GotLines => InClient
     | Waiting => InCondWait
     | GotEof => Returned kPglRetEof
     end)
    (match cp with Waiting => thread_done | _ => false end).

(** The states the stream can be in: the consumer is handed something only
    after the thread has read it. *)
Definition short_file_state_ok (thread_done : bool) (cp : consumer_phase)
  : bool :=
  thread_done || negb (has_lines cp).

(** What a step of a mover does to such a stream: the thread reads the
    file once, and afterwards only takes note of the consumer's progress;
    the consumer waits for the thread, is handed the lines, and is then
    told that the file is at its end. *)
Definition short_file_step (m : mover)
    (st : bool * consumer_phase * bool) : bool * consumer_phase * bool :=
  let '(thread_done, cp, progress) := st in
  match m with
  | Thread =>
      if thread_done then (true, cp, false) else (true, cp, progress)
  | Consumer =>
      match cp with
      | NotCalled =>
          if thread_done then (thread_done, GotLines, progress)
          else (thread_done, Waiting, true)
      | Waiting =>
          if thread_done then (thread_done, GotLines, progress)
          else (thread_done, Waiting, progress)
      | GotLines => (thread_done, GotEof, progress)
      | GotEof => (thread_done, GotEof, progress)
      end
  end.

(** The number of steps of the consumer in a schedule, and the number of
    those that come after the first step of the thread. *)
Fixpoint consumer_steps (schedule : list mover) : nat :=
  match schedule with
  | [] => O
  | Consumer :: rest => S (consumer_steps rest)
  | Thread :: rest => consumer_steps rest
  end.

Fixpoint consumer_steps_after_thread (schedule : list mover) : nat :=
  match schedule with
  | [] => O
  | Thread :: rest => consumer_steps rest
  | Consumer :: rest => consumer_steps_after_thread rest
  end.

Definition short_file_run (schedule : list mover)
    (st : bool * consumer_phase * bool) : bool * consumer_phase * bool :=
  fold_left (fun s m => short_file_step m s) schedule st.

(* ------------------------------------------------------------------ *)
(** * The block of the asynchronous reader *)

(** Which block [dst] of a stream is, and whose: the number of
    reallocations so far, the record of allocations, the capacity and the
    ownership flag. *)
Definition stream_block {X : externs} (s : TextRstream X)
  : nat * list heap_event * Z * bool :=
  (dst_gen s, heap_log (tbase s), dst_capacity (tbase s),
   dst_owned_by_consumer (tbase s)).

(* ------------------------------------------------------------------ *)
(** * Retargeting the asynchronous reader *)

(** What the retarget path takes from elsewhere, beyond [externs] and
    [mt_externs]: whether [fclose] of a stream reports an error, and the
    rewind and the retarget of the multithreaded BGZF reader, with the code
    they return and the message they store. *)
Record retarget_externs := mk_retarget_externs {
  fclose_fails : FILE -> bool;
  BgzfRawMtStreamRewind : PglErr * option errmsg_t;
  BgzfRawMtStreamRetarget : FILE -> PglErr * option errmsg_t
}.

Section Retarget.

Variable X : externs.
Variable M : mt_externs.
Variable R : retarget_externs.

(** [TextRetarget(new_fname, trsp)], for the consumer in its own code
    between two calls.  An error of the thread other than Eof is passed on
    and latched; otherwise the pointers of the sync block go back to the
    start of the buffer, the interrupt is raised and the thread is
    signalled.  [syncp->new_fname], for which the sync record above has no
    field, is the argument: the runs below hand it to the thread.  A
    consumer inside [TextAdvance] cannot call; a second thread calling for
    it would race with it on [trsp->base]. *)
Definition TextRetarget (new_fname : option string) (s : TextRstream X)
  : outcome (PglErr * TextRstream X) :=
  let b := tbase s in
  let sy := sync s in
  match consumer s with
  | InCondWait => Undefined
  | _ =>
      let e := sync_reterr sy in
      if is_err e && negb (PglErr_eqb e kPglRetEof) then
        Ret (e,
             with_consumer
               (with_base s
                  (mkBase (consume_iter b) (consume_stop b) (sync_errmsg sy)
                     e (ff b) (dst b) (dst_len b) (dst_capacity b)
                     (enforced_max_line_blen b) (dst_owned_by_consumer b)
                     (file_type b) (heap_log b)))
               InClient false)
      else
        let buf := match dst b with Some _ => Some 0 | None => None end in
        Ret (kPglRetSuccess,
             with_consumer
               (with_sync
                  (with_base s
                     (mkBase buf buf (errmsg b) (reterr b) (ff b) (dst b)
                        (dst_len b) (dst_capacity b)
                        (enforced_max_line_blen b)
                        (dst_owned_by_consumer b) (file_type b)
                        (heap_log b)))
                  (mkSync 0 None 0 (sync_errmsg sy) kPglRetSuccess false
                     kTrsInterruptRetarget true))
               InClient false)
  end.

(** The stream, the buffer, the decoder and the file type after the thread
    has changed them. *)
Definition with_file (s : TextRstream X) (f : FILE)
    (ft : FileCompressionType) (mem : list byte)
    (r : RawDecompressStream X) : TextRstream X :=
  let b := tbase s in
  mkRstream
    (mkBase (consume_iter b) (consume_stop b) (errmsg b) (reterr b) (Some f)
       (Some mem) (dst_len b) (dst_capacity b) (enforced_max_line_blen b)
       (dst_owned_by_consumer b) ft (heap_log b))
    r (decompress_thread_ct s) (sync s) (dst_gen s) (locals s) (pc s)
    (consumer s) (reader_signalled s).

(** The end of the retarget path: [cur_block_start] and [read_stop] are
    reset and the thread is back at the head of its loop. *)
Definition retarget_done (s : TextRstream X) (new_read_head : Z)
  : outcome (TextRstream X) :=
  let L := locals s in
  Ret (with_thread s (mkLocals (buf_end L) 0 new_read_head (buf_end L))
         AtLoop).

(** A [goto] from the retarget path to one of the labels at the end of the
    thread's body. *)
Definition retarget_fail (s : TextRstream X) (cur_read_head : Z)
    (e : PglErr) (m : option errmsg_t) : outcome (TextRstream X) :=
  let L := locals s in
  Ret (thread_finish
         (with_thread s
            (mkLocals (buf_end L) (cur_block_start L) cur_read_head
               (read_stop L)) (pc s))
         kTrsInterruptShutdown e m).

(** The resources of the old file type are destroyed: the buffers are
    freed and the codec's state is ended.  (The source leaves the pointers
    to them in place; the record has no way to tell a dangling pointer from
    a null one.) *)
Definition retarget_destroy (ft : FileCompressionType)
    (r : RawDecompressStream X) : outcome (RawDecompressStream X) :=
  match ft, r with
  | kFileUncompressed, _ => Ret r
  | kFileGzip, RdsGz gz => Ret (RdsGz (mkGz X None [] (ds_initialized gz)))
  | kFileBgzf, RdsBgzfMt _ => Ret r
  | kFileZstd, RdsZst z => Ret (RdsZst (mkZst X None [] (ib_pos z)))
  | _, _ => Undefined
  end.

(** The thread rewinds the file it has: [new_fname] is [nullptr]. *)
Definition thread_rewind (s : TextRstream X) : outcome (TextRstream X) :=
  let b := tbase s in
  match dst b, ff b with
  | Some mem, Some f =>
      match file_type b with
      | kFileBgzf =>
          let '(e, m) := BgzfRawMtStreamRewind R in
          if is_err e then retarget_fail s 0 e m else retarget_done s 0
      | kFileUncompressed =>
          retarget_done (with_io s (rewind f) mem (trds s)) 0
      | kFileGzip =>
          match trds s with
          | RdsGz gz =>
              retarget_done
                (with_io s (rewind f) mem
                   (RdsGz (mkGz X (option_map (inflateReset X) (gz_ds gz)) []
                             (ds_initialized gz)))) 0
          | _ => Undefined
          end
      | kFileZstd =>
          match trds s with
          | RdsZst z =>
              retarget_done
                (with_io s (rewind f) mem
                   (RdsZst
                      (mkZst X (option_map (ZSTD_DCtx_reset X) (zst_ds z)) []
                         0))) 0
          | _ => Undefined
          end
      end
  | _, _ => Undefined
  end.

(** The thread switches to the file [fname].  The first 16 bytes are read
    into the front of the buffer and classified as at the open.  With
    another file type the old decoder is destroyed, the old stream closed
    and a new decoder set up (the case of BGZF has no [break] and goes on
    into that of Zstd); with the same one the decoder is reset and fed the
    bytes read, and the old stream is closed afterwards. *)
Definition thread_switch_file (fname : string) (s : TextRstream X)
  : outcome (TextRstream X) :=
  let b := tbase s in
  match dst b, ff b with
  | Some mem, Some f =>
      match fopen X fname with
      | None => retarget_fail s 0 kPglRetOpenFail (Some strerror_errno)
      | Some data =>
          let '(bytes, next_ff) := fread_unlocked 16 (fopen_data data) in
          let nbytes := zlen bytes in
          mem1 <- write_at mem 0 bytes ;;
          let next_file_type := open_file_type X bytes in
          if negb (ftype_eqb (file_type b) next_file_type) then
            r0 <- retarget_destroy (file_type b) (trds s) ;;
            if fclose_fails R f then
              retarget_fail (with_io s f mem1 r0) 0 kPglRetReadFail
                (Some strerror_errno)
            else
              let s1 := with_file s next_ff next_file_type mem1 in
              let zstd (_ : unit) :=
                match ZstRawInit X bytes with
                | None => retarget_fail (s1 r0) 0 kPglRetNomem None
                | Some z => retarget_done (s1 (RdsZst z)) 0
                end in
              match next_file_type with
              | kFileUncompressed => retarget_done (s1 r0) nbytes
              | kFileGzip =>
                  match GzRawInit X bytes with
                  | None => retarget_fail (s1 r0) 0 kPglRetNomem None
                  | Some g => retarget_done (s1 (RdsGz g)) 0
                  end
              | kFileBgzf =>
                  let '(e, m) :=
                    BgzfRawMtStreamInit X bytes (decompress_thread_ct s)
                      next_ff in
                  if is_err e then retarget_fail (s1 (RdsBgzfMt X)) 0 e m
                  else zstd tt
              | kFileZstd => zstd tt
              end
          else
            let close_old (r1 : RawDecompressStream X) (rh : Z) :=
              if fclose_fails R f then
                retarget_fail (with_io s f mem1 r1) rh kPglRetReadFail
                  (Some strerror_errno)
              else retarget_done (with_io s next_ff mem1 r1) rh in
            match file_type b with
            | kFileUncompressed => close_old (trds s) nbytes
            | kFileGzip =>
                match trds s with
                | RdsGz gz =>
                    close_old
                      (RdsGz (mkGz X (option_map (inflateReset X) (gz_ds gz))
                                bytes (ds_initialized gz))) 0
                | _ => Undefined
                end
            | kFileBgzf =>
                let '(e, m) := BgzfRawMtStreamRetarget R next_ff in
                if is_err e then retarget_fail (with_io s f mem1 (trds s)) 0 e m
                else close_old (trds s) 0
            | kFileZstd =>
                match trds s with
                | RdsZst z =>
                    close_old
                      (RdsZst
                         (mkZst X (option_map (ZSTD_DCtx_reset X) (zst_ds z))
                            bytes 0)) 0
                | _ => Undefined
                end
            end
      end
  | _, _ => Undefined
  end.

(** [TextRstreamThread_INTERRUPT], reached with the mutex held and the
    local [interrupt] equal to [i].  For Shutdown the thread returns: the
    stream stays as it is, at [AtInterrupt kTrsInterruptShutdown].  For
    Retarget the request and the code in the sync block are cleared, the
    mutex is released and the file is rewound or replaced. *)
Definition TextRstreamThread_INTERRUPT (new_fname : option string)
    (s : TextRstream X) (i : TrsInterrupt) : outcome (TextRstream X) :=
  match i with
  | kTrsInterruptShutdown => Ret s
  | kTrsInterruptNone => if NDEBUG X then Undefined else AssertFail
  | kTrsInterruptRetarget =>
      let sy := sync s in
      let s0 :=
        with_sync s
          (mkSync (consume_tail sy) (cur_circular_end sy) (available_end sy)
             (sync_errmsg sy) kPglRetSuccess (dst_reallocated sy)
             kTrsInterruptNone (consumer_progress_state sy)) in
      match new_fname with
      | None => thread_rewind s0
      | Some fname => thread_switch_file fname s0
      end
  end.

(** One step of the thread of a stream that may have been retargeted: a
    step as before, and, when that step ends at
    [TextRstreamThread_INTERRUPT], what the thread does there.  (The label
    is reached with the mutex held, so the consumer does not see the
    stream in between.) *)
Definition thread_step_retarget (new_fname : option string)
    (s : TextRstream X) : outcome (option (TextRstream X)) :=
  o <- thread_step M s ;;
  match o with
  | None => Ret None
  | Some s1 =>
      match pc s1 with
      | AtInterrupt i =>
          s2 <- TextRstreamThread_INTERRUPT new_fname s1 i ;; Ret (Some s2)
      | _ => Ret (Some s1)
      end
  end.

(** The stream run under a schedule after a [TextRetarget(new_fname)]. *)
Fixpoint run_retargeted (new_fname : option string)
    (schedule : list mover) (s : TextRstream X)
  : outcome (list (list byte) * TextRstream X) :=
  match schedule with
  | [] => Ret ([], s)
  | Thread :: rest =>
      o <- thread_step_retarget new_fname s ;;
      match o with
      | Some s1 => run_retargeted new_fname rest s1
      | None => run_retargeted new_fname rest s
      end
  | Consumer :: rest =>
      o <- consumer_step s ;;
      match o with
      | Some (s1, out) =>
          r <- run_retargeted new_fname rest s1 ;;
          Ret (out ++ fst r, snd r)
      | None => run_retargeted new_fname rest s
      end
  end.

(** [TextRetarget(new_fname)], and, if it succeeds, the thread and the
    consumer under the schedule: the code of the call, the slices handed
    to the consumer afterwards, and the stream at the end. *)
Definition retarget_and_stream (new_fname : option string)
    (schedule : list mover) (s : TextRstream X)
  : outcome (PglErr * list (list byte) * TextRstream X) :=
  r <- TextRetarget new_fname s ;;
  let '(e, s1) := r in
  if is_err e then Ret (e, [], s1)
  else
    out <- run_retargeted new_fname schedule s1 ;;
    Ret (e, fst out, snd out).

End Retarget.
(* ------------------------------------------------------------------ *)
(** * A retargeted reader on files shorter than a chunk *)

(** How far the thread has got with a request: the request is raised
    (and the thread had read the old file to its end or not), the thread
    has rewound or opened the file, or it has read that file to its end. *)
Inductive retarget_phase :=
| Requested (thread_done : bool)
| Reopened
| Replayed.

(** The stream that was opened on the plain file [d], after a
    [TextRetarget(new_fname)] that leads to the contents [d2] ([d] again
    if [new_fname] is [None]), in terms of the thread's and the consumer's
    phase and of [consumer_progress_state].  [e0] is the code that the
    consumer had latched before the request.  The buffer keeps the bytes of
    the old contents behind those of the new. *)
Definition retargeted_stream (X : externs) (d : list byte)
    (blen thread_ct : Z) (new_fname : option string) (d2 : list byte)
    (e0 : PglErr) (ph : retarget_phase) (cp : consumer_phase)
    (progress : bool) : TextRstream X :=
  let C := kDecompressChunkSizeX X in
  let w := with_final_newline d in
  let len16 := zlen (take 16 d) in
  let f1 := mkFILE d (drop 16 d) (len16 <? 16) false None in
  let w2 := with_final_newline d2 in
  let n2 := zlen w2 in
  let f2 :=
    match new_fname with
    | None => mkFILE d2 d2 false false None
    | Some _ =>
        mkFILE d2 (drop 16 d2) (zlen (take 16 d2) <? 16) false None
    end in
  let at_iter := if has_lines cp then n2 else 0 in
  mkRstream
    (mkBase (Some at_iter) (Some at_iter) None
       (match cp with GotEof => kPglRetEof | _ => e0 end)
       (Some (match ph with
              | Requested thread_done =>
                  if thread_done then after_read C f1 else f1
              | Reopened => f2
              | Replayed => after_read C f2
              end))
       (Some (match ph with
              | Requested thread_done => if thread_done then w else take 16 d
              | Reopened =>
                  match new_fname with
                  | None => w
                  | Some _ => take 16 d2 ++ drop (zlen (take 16 d2)) w
                  end
              | Replayed => w2 ++ drop n2 w
              end))
       len16 (2 * C) blen false kFileUncompressed [EvMalloc (2 * C)])
    (RdsNone X) thread_ct
    (mkSync (match cp with GotEof => n2 | _ => 0 end) None
       (match ph with Replayed => n2 | _ => 0 end) None
       (match ph with Replayed => kPglRetEof | _ => kPglRetSuccess end)
       false
       (match ph with
        | Requested _ => kTrsInterruptRetarget
        | _ => kTrsInterruptNone
        end)
       (match ph with Requested _ => true | _ => progress end))
    O
    (mkLocals (2 * C) 0
       (match ph with
        | Requested thread_done => if thread_done then zlen w else len16
        | Reopened =>
            match new_fname with
            | None => 0
            | Some _ => zlen (take 16 d2)
            end
        | Replayed => n2
        end)
       (2 * C))
    (match ph with
     | Requested true | Replayed => AtFinalWait kTrsInterruptRetarget
     | Requested false | Reopened => AtLoop
     end)
    (match cp with
     | NotCalled | GotLines => InClient
     | Waiting => InCondWait
     | GotEof => Returned kPglRetEof
     end)
    (match cp, ph with Waiting, Replayed => true | _, _ => false end).

(** The states the retargeted stream can be in: the consumer is handed
    something only after the thread has read the file again. *)
Definition retargeted_state_ok (ph : retarget_phase) (cp : consumer_phase)
  : bool :=
  match ph with
  | Replayed => true
  | _ => negb (has_lines cp)
  end.

(** What a step of a mover does to such a stream: the thread takes the
    request, reads the file, and afterwards only takes note of the
    consumer's progress; the consumer waits for the thread, is handed the
    lines, and is then told that the file is at its end. *)
Definition retargeted_step (m : mover)
    (st : retarget_phase * consumer_phase * bool)
  : retarget_phase * consumer_phase * bool :=
  let '(ph, cp, progress) := st in
  match m with
  | Thread =>
      match ph with
      | Requested thread_done => (Reopened, cp, negb thread_done)
      | Reopened => (Replayed, cp, progress)
      | Replayed => (Replayed, cp, false)
      end
  | Consumer =>
      match ph, cp with
      | Replayed, (NotCalled | Waiting) => (ph, GotLines, progress)
      | _, NotCalled => (ph, Waiting, true)
      | _, Waiting => (ph, Waiting, progress)
      | _, GotLines => (ph, GotEof, progress)
      | _, GotEof => (ph, GotEof, progress)
      end
  end.

Definition retargeted_run (schedule : list mover)
    (st : retarget_phase * consumer_phase * bool)
  : retarget_phase * consumer_phase * bool :=
  fold_left (fun s m => retargeted_step m s) schedule st.

(** The schedule after the first [k] steps of the thread. *)
Fixpoint after_thread_steps (k : nat) (schedule : list mover)
  : list mover :=
  match k, schedule with
  | O, _ => schedule
  | _, [] => []
  | S k', Thread :: rest => after_thread_steps k' rest
  | S _, Consumer :: rest => after_thread_steps k rest
  end.

(** A build in which [fclose] reports no error and the multithreaded BGZF
    reader rewinds and retargets without one. *)
Definition plink2_retarget : retarget_externs :=
  mk_retarget_externs (fun _ => false) (kPglRetSuccess, None)
    (fun _ => (kPglRetSuccess, None)).

(** A file system with the file ["f"] and, under every other name, a
    second file. *)
Definition two_files (f other : list byte) : string -> option (list byte) :=
  fun name => if String.eqb name "f" then Some f else Some other.


(* ------------------------------------------------------------------ *)
(** * Closing the asynchronous reader *)

Section CloseStream.

Variable X : externs.
Variable M : mt_externs.

(** [CleanupTextRstream] on a stream whose thread runs
    ([sync_init_state == 4]), up to [pthread_join]: the Shutdown interrupt
    is raised over whatever request was pending, and the thread is
    signalled. *)
Definition CleanupTextRstream_request (s : TextRstream X) : TextRstream X :=
  let sy := sync s in
  with_sync s
    (mkSync (consume_tail sy) (cur_circular_end sy) (available_end sy)
       (sync_errmsg sy) (sync_reterr sy) (dst_reallocated sy)
       kTrsInterruptShutdown true).

(** [pthread_join(syncp->read_thread, nullptr)]: the thread moves alone
    until it has returned, which it does from
    [TextRstreamThread_INTERRUPT] with Shutdown.  [None] when the thread
    waits instead: nobody is left to wake it. *)
Fixpoint pthread_join (fuel : nat) (s : TextRstream X)
  : outcome (option (TextRstream X)) :=
  match pc s with
  | AtInterrupt kTrsInterruptShutdown => Ret (Some s)
  | _ =>
      match fuel with
      | O => OutOfFuel
      | S fuel' =>
          o <- thread_step M s ;;
          match o with
          | Some s1 => pthread_join fuel' s1
          | None => Ret None
          end
      end
  end.

(** What [CleanupTextRstream] does to the decoder of an open stream. *)
Definition cleanup_mt_rds (ft : FileCompressionType)
    (r : RawDecompressStream X) : outcome (RawDecompressStream X) :=
  match ft, r with
  | kFileUncompressed, _ => Ret r
  | kFileZstd, RdsZst z => Ret (RdsZst (mkZst X None [] (ib_pos z)))
  | kFileBgzf, RdsBgzfMt _ => Ret r
  | kFileGzip, RdsGz gz => Ret (RdsGz (mkGz X None [] (ds_initialized gz)))
  | _, _ => Undefined
  end.

(** [CleanupTextRstream(trsp, reterrp)] on a stream whose thread runs.
    The result is [None] if the join never returns, else the [BoolErr],
    the base and the decoder of the stream ([syncp] is null afterwards)
    and [*reterrp].  As in [CleanupTextRfile], a [dst] of the reader is
    freed and the record of its block ends with it, and whether the close
    of the file reports an error is [close_fails].  A consumer inside
    [TextAdvance] cannot call. *)
Definition CleanupTextRstream (fuel : nat) (close_fails : bool)
    (s : TextRstream X) (reterrp : option PglErr)
  : outcome (option (bool * textRFILE X * option PglErr)) :=
  o <- match consumer s with
       | InCondWait => Undefined
       | _ => pthread_join fuel (CleanupTextRstream_request s)
       end ;;
  match o with
  | None => Ret None
  | Some s1 =>
      let b := tbase s1 in
      let freed := match dst b with
                   | Some _ => negb (dst_owned_by_consumer b)
                   | None => false
                   end in
      let b1 (ft : FileCompressionType) :=
        mkBase None None None kPglRetEof None
          (if freed then None else dst b) (dst_len b) (dst_capacity b)
          (enforced_max_line_blen b) (dst_owned_by_consumer b) ft
          (if freed then [] else heap_log b) in
      match ff b with
      | None => Ret (Some (false, mkRfile (b1 (file_type b)) (trds s1),
                           reterrp))
      | Some _ =>
          r1 <- cleanup_mt_rds (file_type b) (trds s1) ;;
          let t := mkRfile (b1 kFileUncompressed) r1 in
          if close_fails then
            match reterrp with
            | None => Ret (Some (true, t, None))
            | Some kPglRetSuccess => Ret (Some (true, t, Some kPglRetReadFail))
            | Some e => Ret (Some (false, t, Some e))
            end
          else Ret (Some (false, t, reterrp))
      end
  end.

End CloseStream.

(* ------------------------------------------------------------------ *)
(** * A retarget to a file that cannot be opened *)

(** How far the consumer has got after the request: it has not called
    [TextAdvance] yet, it waits inside the call, or it has been told the
    thread's error. *)
Inductive asked_phase :=
| NotAsked
| Asking
| Told.

(** The stream that was opened on the plain file [d], after the thread has
    failed to open the file of a [TextRetarget]: the thread waits for
    Shutdown with [kPglRetOpenFail] in the sync block, the old file is
    still open and the buffer still holds its lines. *)
Definition unopened_stream (X : externs) (d : list byte)
    (blen thread_ct : Z) (e0 : PglErr) (ap : asked_phase) (progress : bool)
  : TextRstream X :=
  let C := kDecompressChunkSizeX X in
  let len16 := zlen (take 16 d) in
  let f1 := mkFILE d (drop 16 d) (len16 <? 16) false None in
  mkRstream
    (mkBase (Some 0) (Some 0)
       (match ap with Told => Some strerror_errno | _ => None end)
       (match ap with Told => kPglRetOpenFail | _ => e0 end)
       (Some (after_read C f1)) (Some (with_final_newline d)) len16 (2 * C)
       blen false kFileUncompressed [EvMalloc (2 * C)])
    (RdsNone X) thread_ct
    (mkSync 0 None 0 (Some strerror_errno) kPglRetOpenFail false
       kTrsInterruptNone progress)
    O
    (mkLocals (2 * C) 0 0 (2 * C))
    (AtFinalWait kTrsInterruptShutdown)
    (match ap with
     | NotAsked => InClient
     | Asking => InCondWait
     | Told => Returned kPglRetOpenFail
     end)
    (match ap with Asking => true | _ => false end).

(** The states after such a request, before and after the thread has
    taken it. *)
Definition unopened_state (X : externs) (d : list byte)
    (blen thread_ct : Z) (fname : string) (e0 : PglErr)
    (taken : option bool) (ap : asked_phase) (progress : bool)
  : TextRstream X :=
  match taken with
  | Some thread_done =>
      retargeted_stream X d blen thread_ct (Some fname) d e0
        (Requested thread_done)
        (match ap with NotAsked => NotCalled | _ => Waiting end) progress
  | None => unopened_stream X d blen thread_ct e0 ap progress
  end.

(** What a step of a mover does to such a stream. *)
Definition unopened_step (m : mover)
    (st : option bool * asked_phase * bool)
  : option bool * asked_phase * bool :=
  let '(taken, ap, progress) := st in
  match m with
  | Thread =>
      match taken with
      | Some thread_done => (None, ap, negb thread_done)
      | None => (None, ap, false)
      end
  | Consumer =>
      match taken, ap with
      | Some _, NotAsked => (taken, Asking, true)
      | Some _, _ => (taken, ap, progress)
      | None, _ => (None, Told, progress)
      end
  end.

Definition unopened_run (schedule : list mover)
    (st : option bool * asked_phase * bool)
  : option bool * asked_phase * bool :=
  fold_left (fun s m => unopened_step m s) schedule st.

(** A file system with the file ["f"] and no other. *)
Definition only_file_f (data : list byte) : string -> option (list byte) :=
  fun name => if String.eqb name "f" then Some data else None.

(* ------------------------------------------------------------------ *)
(** * Tactics for streams *)

(** Projections of a stream that is given by its fields. *)
Ltac stream_fields :=
  cbn [tbase trds decompress_thread_ct sync dst_gen locals pc consumer
         reader_signalled with_base with_sync with_thread with_consumer
         with_io with_file clear_progress consume_iter consume_stop errmsg
         reterr ff dst dst_len dst_capacity enforced_max_line_blen
         dst_owned_by_consumer file_type heap_log consume_tail
         cur_circular_end available_end sync_errmsg sync_reterr
         dst_reallocated interrupt consumer_progress_state buf_end
         cur_block_start read_head read_stop obind].

(** The same, with what the consumer does after [TextAdvance]. *)
Ltac consumer_fields :=
  cbn [tbase trds decompress_thread_ct sync dst_gen locals pc consumer
         reader_signalled with_base with_sync with_thread with_consumer
         with_io clear_progress consume_iter consume_stop errmsg
         reterr ff dst dst_len dst_capacity enforced_max_line_blen
         dst_owned_by_consumer file_type heap_log consume_tail
         cur_circular_end available_end sync_errmsg sync_reterr
         dst_reallocated interrupt consumer_progress_state obind
         negb orb andb consumer_after stream_slice stream_consume_all
         is_err PglErr_eqb].

(* ------------------------------------------------------------------ *)
(** * The buffer of the asynchronous reader as the two sides see it *)

(** [mem] holds the bytes [l] at offset [off]. *)
Definition holds (mem : list byte) (off : Z) (l : list byte) : Prop :=
  0 <= off /\ off + zlen l <= zlen mem /\ sub mem off (zlen l) = l.

(** [l] ends with ['\n']. *)
Definition whole_line (l : list byte) : Prop :=
  exists body, l = body ++ [NL].

(** [l] is empty or ends with ['\n']. *)
Definition ends_line (l : list byte) : Prop := l = [] \/ whole_line l.

(** The stream on the plain file [d], read through a buffer of the
    reader's own of two chunks, once the consumer has been handed [pre].
    The contents are [pre], then what is published and not yet consumed
    ([up] where the consumer stands, then [lo] at the front of the buffer
    if the thread has returned to the start), then the block [blk] that
    the thread has read and not published, then the rest of the file.
    The thread writes only between [read_head] and [read_stop], which
    after a return to the start ends below [consume_tail].  The buffer is
    the one of two chunks that the open allocated. *)
Definition stream_inv (X : externs) (M : mt_externs) (d : list byte)
    (blen : Z) (pre : list byte) (s : TextRstream X) : Prop :=
  let C := kDecompressChunkSizeX X in
  let k := kCacheline M in
  let b := tbase s in
  let sy := sync s in
  let L := locals s in
  let tail := consume_tail sy in
  let ae := available_end sy in
  let cbs := cur_block_start L in
  let rh := read_head L in
  let rs := read_stop L in
  exists (mem up lo blk : list byte) (f : FILE) (ci : Z),
    let cpos := match consumer s with InCondWait => tail | _ => ci end in
    let running := match pc s with
                   | AtLoop | AtWaitFirst _ => true
                   | _ => false
                   end in
    (dst b = Some mem /\ ff b = Some f /\ consume_iter b = Some ci
     /\ file_type b = kFileUncompressed /\ enforced_max_line_blen b = blen
     /\ buf_end L = 2 * C /\ dst_gen s = O
     /\ interrupt sy = kTrsInterruptNone /\ dst_reallocated sy = false
     /\ clean f /\ dst_capacity b = 2 * C
     /\ dst_owned_by_consumer b = false
     /\ heap_log b = [EvMalloc (2 * C)])
    /\ (0 <= cbs /\ cbs <= rh /\ rh <= rs /\ rs <= 2 * C /\ rh <= zlen mem)
    /\ match pc s with
       | AtLoop => True
       | AtWaitFirst mr =>
           rh = rs /\ mr = (rs =? 2 * C) /\ (mr = true -> cbs <> 0)
       | AtFinalWait i => i = kTrsInterruptRetarget
       | AtInterrupt _ => False
       end
    /\ (if running
        then sync_reterr sy = kPglRetSuccess /\ ae = cbs
             /\ d = pre ++ up ++ lo ++ blk ++ f_rest f
             /\ holds mem cbs blk /\ rh = cbs + zlen blk
             /\ exists q b',
                  blk = q ++ b' /\ zlen q <= 16 /\ no_newline b'
        else sync_reterr sy = kPglRetEof /\ ae = rh
             /\ with_final_newline d = pre ++ up ++ lo /\ blk = [])
    /\ (0 <= tail /\ tail <= cpos /\ holds mem cpos up)
    /\ match cur_circular_end sy with
       | None => lo = [] /\ cpos + zlen up = ae
       | Some c =>
           cpos + zlen up = c /\ holds mem 0 lo /\ zlen lo = ae
           /\ tail < c /\ c <= 2 * C
           /\ (running = true ->
               rs <= tail - tail mod k
               /\ consumer_progress_state sy = false)
       end
    /\ match consumer s with
       | InClient => tail < ci \/ (tail = 0 /\ ci = 0 /\ pre = [])
       | InCondWait => True
       | Returned e =>
           e = kPglRetEof /\ running = false /\ up = [] /\ lo = []
       end
    /\ ends_line pre /\ ends_line (pre ++ up)
    /\ ends_line (pre ++ up ++ lo).

(** The consumer does not sleep while the thread waits for it: when the
    consumer is in its wait and has not been signalled, the thread is in
    its loop, nothing is published that the consumer has not taken, and
    either [consumer_progress_state] is set or the thread is at the head
    of its loop with the whole buffer before it. *)
Definition awake (X : externs) (s : TextRstream X) : Prop :=
  consumer s = InCondWait -> reader_signalled s = false ->
  match pc s with AtLoop | AtWaitFirst _ => True | _ => False end
  /\ consume_tail (sync s) = available_end (sync s)
  /\ cur_circular_end (sync s) = None
  /\ (consumer_progress_state (sync s) = true
      \/ (read_stop (locals s) = 2 * kDecompressChunkSizeX X
          /\ pc s = AtLoop)).

(** How far the stream is from its end: the bytes that have not been
    handed out and those that have not been read, then where the consumer
    stands, then where the thread stands. *)
Definition stream_measure (X : externs) (d pre : list byte)
    (s : TextRstream X) : Z :=
  let L := locals s in
  let flag := consumer_progress_state (sync s) in
  20 * (zlen (with_final_newline d) - zlen pre
        + match ff (tbase s) with Some f => zlen (f_rest f) | None => 0 end
        + match pc s with AtLoop | AtWaitFirst _ => 1 | _ => 0 end)
  + 5 * match consumer s with
        | InClient => 3
        | InCondWait => if reader_signalled s then 2 else 1
        | Returned _ => 0
        end
  + match pc s with
    | AtLoop => if read_head L =? read_stop L then 4 else 1
    | AtWaitFirst _ => if flag then 3 else 2
    | AtFinalWait _ => if flag then 1 else 0
    | AtInterrupt _ => 0
    end.

(** The number of rounds of a schedule: a round ends as soon as both the
    thread and the consumer have had a turn in it. *)
Fixpoint rounds_from (thread_seen consumer_seen : bool)
    (schedule : list mover) : nat :=
  match schedule with
  | [] => O
  | m :: rest =>
      let t := match m with Thread => true | Consumer => thread_seen end in
      let c := match m with Consumer => true | Thread => consumer_seen end in
      if t && c then S (rounds_from false false rest)
      else rounds_from t c rest
  end.

Definition fair_rounds (schedule : list mover) : nat :=
  rounds_from false false schedule.

(* ------------------------------------------------------------------ *)
(** * Tactics for the invariant of the stream *)

(** [stream_fields] in a hypothesis. *)
Ltac stream_fields_in H :=
  cbn [tbase trds decompress_thread_ct sync dst_gen locals pc consumer
         reader_signalled with_base with_sync with_thread with_consumer
         with_io with_file clear_progress consume_iter consume_stop errmsg
         reterr ff dst dst_len dst_capacity enforced_max_line_blen
         dst_owned_by_consumer file_type heap_log consume_tail
         cur_circular_end available_end sync_errmsg sync_reterr
         dst_reallocated interrupt consumer_progress_state buf_end
         cur_block_start read_head read_stop obind] in H.

(** Conjunctions are split as they are written, without unfolding. *)
Ltac conjs := repeat match goal with |- _ /\ _ => split end.

(** The parts of [stream_inv] that a step leaves as they were. *)
Ltac close_inv := conjs; try assumption; try lia; try reflexivity.

(** [awake] after a step of the thread that sends no signal. *)
Ltac thread_awake Hawake :=
  let Hc := fresh "Hc" in
  let Hs := fresh "Hs" in
  let Hrn := fresh "Hrn" in
  let Hta := fresh "Hta" in
  let Hcc := fresh "Hcc" in
  let Hfl := fresh "Hfl" in
  let Hfl1 := fresh "Hfl" in
  let Hfl2 := fresh "Hfl" in
  unfold awake; stream_fields; intros Hc Hs;
  destruct (Hawake Hc Hs) as (Hrn & Hta & Hcc & Hfl);
  try contradiction; try discriminate; try lia;
  conjs; try exact I; try assumption; try lia; try reflexivity;
  destruct Hfl as [Hfl|[Hfl1 Hfl2]];
  try discriminate; try lia;
  first [left; assumption | right; split; [lia | reflexivity]].

(** [awake] after a call of [TextAdvance]. *)
Ltac consumer_awake Erun pc0 :=
  let Hc := fresh "Hc" in
  let Hs := fresh "Hs" in
  unfold awake; consumer_fields; stream_fields; intros Hc Hs;
  try discriminate;
  conjs; try reflexivity; try (left; reflexivity);
  try (unfold zlen; cbn [length]; lia);
  destruct pc0; try discriminate Erun; exact I.

(** The measure after a step: by cases on where the two sides stand. *)
Ltac measure_cases :=
  repeat (match goal with
          | |- context [match ?c with
                        | InClient => _
                        | InCondWait => _
                        | Returned _ => _
                        end] => destruct c
          | |- context [match ?p with
                        | AtLoop => _
                        | AtWaitFirst _ => _
                        | AtFinalWait _ => _
                        | AtInterrupt _ => _
                        end] => destruct p
          | |- context [if ?b then _ else _] => destruct b eqn:?
          end; consumer_fields; stream_fields).

Ltac measure_less :=
  unfold stream_measure, signal_reader_progress;
  consumer_fields; stream_fields; measure_cases;
  try discriminate; try contradiction;
  unfold zlen in *; rewrite ?length_app in *; cbn [length] in *; lia.

Ltac thread_measure :=
  split;
  [unfold signal_reader_progress; stream_fields;
   try reflexivity;
   match goal with
   | |- context [match ?c with
                 | InClient => _
                 | InCondWait => _
                 | Returned _ => _
                 end] => destruct c; reflexivity
   end
  |measure_less].

(** The contents of the file in [stream_inv], whether the thread is in
    its loop or past it. *)
Ltac run_case running Hrun :=
  let Hd := fresh "Hd" in
  destruct running;
  [destruct Hrun as (? & ? & Hd & ? & ? & ?)
  |destruct Hrun as (? & ? & Hd & ?)];
  conjs; try assumption; try lia;
  rewrite Hd, <- ?app_assoc; reflexivity.

(* ------------------------------------------------------------------ *)
(** * Iterations of the loops *)

(** Where the [do ... while] of [GzRawStreamRead] stands at the top of an
    iteration: the stream [ff], the decoder, the window
    [next_in, next_in + avail_in) and the bytes written so far in this
    call. *)
Definition gz_point (X : externs) : Type :=
  FILE * z_stream X * list byte * list byte.

(** [gz_to_fread room s code ds1 out1]: the iteration that starts in [s]
    comes to the [fread_unlocked] of its body with [code] in the local
    [zerr], the decoder [ds1] and [out1] written.  Either [avail_in] is
    zero, no [inflate] call is made and [zerr] is the [Z_OK] it was
    initialised with; or [inflate] is called on the window, returns a code
    that is neither negative nor [Z_NEED_DICT], and leaves nothing of the
    window. *)
Definition gz_to_fread (X : externs) (room : Z) (s : gz_point X) (code : Z)
    (ds1 : z_stream X) (out1 : list byte) : Prop :=
  let '(_, ds, avail_in, out) := s in
  match avail_in with
  | [] => code = Z_OK /\ ds1 = ds /\ out1 = out
  | _ :: _ =>
      let r := inflate X ds avail_in (u32 (room - zlen out)) in
      code = zerr r /\ 0 <= zerr r /\ zerr r <> Z_NEED_DICT
      /\ drop (z_consumed r) avail_in = []
      /\ ds1 = z_next r /\ out1 = out ++ z_out r
  end.

(** [gz_iter room s s']: an execution of the loop that is at the top of
    an iteration in [s] is, some iterations later, at the top of one in
    [s'].  The one way round the loop is a [fread_unlocked] that delivers
    bytes while the output window is not full. *)
Inductive gz_iter (X : externs) (room : Z)
  : gz_point X -> gz_point X -> Prop :=
| gz_here (s : gz_point X) : gz_iter room s s
| gz_refill (f : FILE) (ds : z_stream X) (avail_in out : list byte)
    (code : Z) (ds1 : z_stream X) (out1 : list byte) (x : byte)
    (buf : list byte) (f1 : FILE) (s' : gz_point X) :
    gz_to_fread room (f, ds, avail_in, out) code ds1 out1 ->
    fread_unlocked (kDecompressChunkSizeX X) f = (x :: buf, f1) ->
    zlen out1 <> room ->
    gz_iter room (f1, ds1, x :: buf, out1) s' ->
    gz_iter room (f, ds, avail_in, out) s'.

(** The iteration that starts in [s] comes to its [fread_unlocked] with
    [code] in [zerr] and [out1] written, and the read delivers zero bytes
    and leaves the stream at end of file. *)
Definition gz_zero_read_at_eof (X : externs) (room : Z) (s : gz_point X)
    (code : Z) (out1 : list byte) : Prop :=
  exists (ds1 : z_stream X) (f1 : FILE),
    gz_to_fread room s code ds1 out1
    /\ fread_unlocked (kDecompressChunkSizeX X) (fst (fst (fst s)))
       = ([], f1)
    /\ feof_unlocked f1 = true.

(** A stream of the stand-in codec that is complete: one literal byte and
    the closing byte. *)
Definition whole_stream : list byte := [x61; x00].

(** Where the [while (1)] of [TextRfileAdvance] stands at the top of an
    iteration: [trfp->base], the decoder, the stream, the bytes of [dst]
    and the local [orig_line_start]. *)
Definition adv_point (X : externs) : Type :=
  TextRfileBase * RawDecompressStream X * FILE * list byte * option Z.

(** The loop of [TextRfileAdvance] from the top of an iteration on. *)
Definition TextRfileAdvance_from (X : externs) (fuel : nat)
    (s : adv_point X) : outcome (PglErr * textRFILE X) :=
  let '(b, r, f, mem, orig_line_start) := s in
  TextRfileAdvance_loop fuel b r f mem orig_line_start.

(** [advance_iter n s s']: a call whose loop is at the top of an iteration
    in [s] is, [n] iterations later, at the top of one in [s'].  The one
    way round the loop is a buffer that the load has filled and that holds
    no ['\n'] in its fresh part, while [dst_len] is below
    [enforced_max_line_blen]. *)
Inductive advance_iter (X : externs)
  : nat -> adv_point X -> adv_point X -> Prop :=
| adv_here (s : adv_point X) : advance_iter O s s
| adv_again (n : nat) (b : TextRfileBase) (r : RawDecompressStream X)
    (f : FILE) (mem : list byte) (orig : Z) (carry : list byte)
    (log : list heap_event) (orig' : option Z) (ld : load_result X)
    (b2 : TextRfileBase) (s' : adv_point X) :
    let dst_rem := u32 (dst_len b - u32 orig) in
    advance_move X b mem orig = Ret (MvOk carry log orig') ->
    load_switch (file_type b) r f (dst_capacity b - dst_rem)
    = Ret (LdOk ld) ->
    advance_scan
      (adv_state b (consume_iter b) (consume_stop b) f carry (dst_len b) log)
      log dst_rem carry ld
    = ScanAgain X b2 ->
    advance_iter n (b2, ld_rds ld, ld_ff ld, carry ++ ld_loaded ld, orig')
      s' ->
    advance_iter (S n) (b, r, f, mem, Some orig) s'.

(** One line of 3 MiB. *)
Definition unbroken_line : list byte := zrepeat x78 3145727 ++ [NL].


(** A line of 2 bytes, then a line of 1 MiB - 1 bytes: 1 MiB + 1 bytes. *)
Definition short_then_full_line : list byte :=
  x61 :: NL :: zrepeat x78 1048574 ++ [NL].

(** A line of 1.5 MiB, then a line of 3.25 MiB. *)
Definition overlong_second_line : list byte :=
  zrepeat x61 1572863 ++ NL :: zrepeat x62 3407871 ++ [NL].

(* ------------------------------------------------------------------ *)
(** * Properties *)

Unset Implicit Arguments.

Lemma byteZ_range (b : byte) : 0 <= byteZ b < 256.
Proof.
  unfold byteZ. pose proof (Byte.to_N_bounded b). lia.
Qed.

Lemma u32_range (x : Z) : 0 <= u32 x < 2 ^ 32.
Proof. unfold u32. apply Z.mod_pos_bound. lia. Qed.

Lemma u32_small (x : Z) : 0 <= x < 2 ^ 32 -> u32 x = x.
Proof. intros. unfold u32. apply Z.mod_small. assumption. Qed.

Lemma zlen_nonneg (l : list byte) : 0 <= zlen l.
Proof. unfold zlen. lia. Qed.

Lemma zlen_app (l1 l2 : list byte) : zlen (l1 ++ l2) = zlen l1 + zlen l2.
Proof. unfold zlen. rewrite length_app. lia. Qed.

(** The shifted comparison of [TextRfileOpenInternal] looks at exactly the
    first three bytes. *)
Lemma gzip_deflate_magic (buf : list byte) :
  (u32 (Z.shiftl (le32 buf) 8) =? 0x088b1f00)
  = (byteZ (nth 0 buf x00) =? 0x1f) && (byteZ (nth 1 buf x00) =? 0x8b)
    && (byteZ (nth 2 buf x00) =? 0x08).
Proof.
  unfold le32, u32. rewrite Z.shiftl_mul_pow2 by lia.
  pose proof (byteZ_range (nth 0 buf x00)) as H0.
  pose proof (byteZ_range (nth 1 buf x00)) as H1.
  pose proof (byteZ_range (nth 2 buf x00)) as H2.
  pose proof (byteZ_range (nth 3 buf x00)) as H3.
  set (b0 := byteZ (nth 0 buf x00)) in *.
  set (b1 := byteZ (nth 1 buf x00)) in *.
  set (b2 := byteZ (nth 2 buf x00)) in *.
  set (b3 := byteZ (nth 3 buf x00)) in *.
  replace ((b0 + 2 ^ 8 * b1 + 2 ^ 16 * b2 + 2 ^ 24 * b3) * 2 ^ 8)
    with (256 * (b0 + 256 * b1 + 65536 * b2) + b3 * 2 ^ 32) by lia.
  rewrite Z.mod_add by lia.
  rewrite Z.mod_small by lia.
  destruct (b0 =? 31) eqn:E0, (b1 =? 139) eqn:E1, (b2 =? 8) eqn:E2;
    cbn [andb]; lia.
Qed.


Lemma open_file_type_MagicProbe (X : externs) (buf : list byte) :
  open_file_type X buf = MagicProbe X buf.
Proof.
  unfold open_file_type, MagicProbe.
  rewrite gzip_deflate_magic.
  destruct (zlen buf >=? 4) eqn:E4, (zlen buf <? 4) eqn:E4'; try lia;
    reflexivity.
Qed.

Lemma fread_fresh (n : Z) (data : list byte) :
  fst (fread_unlocked n (fopen_data data)) = take n data.
Proof. reflexivity. Qed.

(** C5.  [TextRfileOpenInternal] classifies the file by the ordered rules
    of the probe: whenever it opens a file successfully, the [file_type]
    it installs is the one the rules give for the (at most 16) bytes read
    from the start of the file: fewer than 4 bytes, uncompressed; Zstd
    frame magic, Zstd; 1F 8B 08, BGZF when 16 bytes were read and they
    form a BGZF header, gzip otherwise; anything else, uncompressed. *)
Theorem open_classifies_by_probe_rules :
  forall (X : externs) (fname : string) (blen cap : Z)
         (dst_arg sync : bool) (thread_ct : Z) (t t' : textRFILE X)
         (data : list byte),
    fopen X fname = Some data ->
    TextRfileOpenInternal fname blen cap dst_arg sync thread_ct t
      = Ret (kPglRetSuccess, t') ->
    file_type (base t') = MagicProbe X (take 16 data).
Proof.
  intros X fname blen cap dst_arg sync thread_ct t t' data Hfs Hopen.
  rewrite <- open_file_type_MagicProbe.
  unfold TextRfileOpenInternal, open_args_check, open_file_and_probe,
    open_ret in Hopen.
  rewrite Hfs in Hopen.
  destruct (ff (base t)); [discriminate|].
  unfold open_file_type.
  cbn [fread_unlocked fopen_data f_bad f_rest f_all f_eof f_err] in Hopen.
  repeat break_if; try discriminate;
    repeat break_match_hyp; try discriminate;
    try (injection Hopen as <-; reflexivity);
    try (injection Hopen as ? <-; reflexivity).
Qed.

Lemma open_classifies_by_probe_rules_witness :
  exists t' : textRFILE (plink2 (one_file gzip_prefix)),
    TextRfileOpenInternal "f" 1048576 0 false true 0
      (PreinitTextRfile (plink2 (one_file gzip_prefix)))
      = Ret (kPglRetSuccess, t')
    /\ file_type (base t')
       = MagicProbe (plink2 (one_file gzip_prefix)) (take 16 gzip_prefix).
Proof.
  eexists. split.
  - reflexivity.
  - apply (@open_classifies_by_probe_rules
             (plink2 (one_file gzip_prefix)) "f" 1048576 0 false true 0
             (PreinitTextRfile _) _ gzip_prefix); reflexivity.
Defined.

(** C10.  [GetFileType] and [TextRfileOpenInternal] part ways on a file
    that starts 1F 8B 00 00: [GetFileType], which tests the two ID bytes
    only, reports gzip, and [TextRfileOpenInternal], which also asks for
    the deflate method byte, opens the same file as uncompressed. *)
Theorem GetFileType_differs_from_open_on_gzip_id_only :
  GetFileType (plink2 (one_file gzip_id_only)) "f"
    = (kPglRetSuccess, Some kFileGzip)
  /\ exists t' : textRFILE (plink2 (one_file gzip_id_only)),
       TextRfileOpenEx "f" 1048576 0 false (PreinitTextRfile _)
         = Ret (kPglRetSuccess, t')
       /\ file_type (base t') = kFileUncompressed.
Proof.
  split.
  - reflexivity.
  - eexists. split; reflexivity.
Qed.


(** Once the arguments are accepted, [TextRfileOpenInternal] never
    answers ImproperFunctionCall of its own, and with no [dst] from the
    caller a success leaves a reader-owned buffer of two chunks. *)
Lemma open_file_and_probe_codes :
  forall (X : externs) (fname : string) (blen cap : Z)
         (dst_arg sync : bool) (thread_ct : Z) (t : textRFILE X),
    (forall buf n f,
        fst (BgzfRawMtStreamInit X buf n f) <> kPglRetImproperFunctionCall) ->
    (forall t',
        open_file_and_probe fname blen cap dst_arg sync thread_ct t
          <> Ret (kPglRetImproperFunctionCall, t'))
    /\ (forall t',
           dst_arg = false ->
           open_file_and_probe fname blen cap dst_arg sync thread_ct t
             = Ret (kPglRetSuccess, t') ->
           dst_capacity (base t') = u32 (2 * kDecompressChunkSizeX X)
           /\ dst_owned_by_consumer (base t') = false
           /\ heap_log (base t')
              = heap_log (base t) ++ [EvMalloc (2 * kDecompressChunkSizeX X)]).
Proof.
  intros X fname blen cap dst_arg sync thread_ct t Hmt.
  unfold open_file_and_probe, open_ret.
  destruct (fopen X fname) as [data|]; [|split; intros; discriminate].
  cbn [fread_unlocked fopen_data f_bad f_rest f_all f_eof f_err].
  split.
  - intros t' H.
    repeat break_if; try discriminate;
      repeat break_match_hyp; try discriminate.
    all: match goal with
         | E : BgzfRawMtStreamInit _ ?a ?b ?c = _ |- _ =>
             apply (Hmt a b c); rewrite E; cbn; congruence
         end.
  - intros t' -> H. cbn [negb andb] in H.
    repeat break_if; try discriminate;
      repeat break_match_hyp; try discriminate;
      first [injection H as <- | injection H as ? <-]; cbn; auto.
Qed.

(** In token mode (the asynchronous open with
    [enforced_max_line_blen = 0]) a caller's buffer of
    [kTokenRstreamBlen] bytes is accepted, although the condition of the
    claim holds of it. *)
Lemma open_accepts_token_mode_buffer :
  open_refuses_as_claimed (plink2 (one_file four_bytes)) false 0
    (12 * 1048576) true false = true
  /\ exists t' : textRFILE (plink2 (one_file four_bytes)),
       TextRfileOpenInternal "f" 0 (12 * 1048576) true false 1
         (PreinitTextRfile _) = Ret (kPglRetSuccess, t').
Proof.
  split.
  - reflexivity.
  - eexists. reflexivity.
Qed.

(** C8 (amended).  [TextRfileOpenInternal] returns ImproperFunctionCall
    exactly when the reader is already open, or
    [enforced_max_line_blen] is nonzero or the synchronous path is used
    and then either [enforced_max_line_blen] is below the chunk size or a
    caller's [dst] comes with [dst_capacity] below two chunks or above
    [enforced_max_line_blen] plus a chunk (all in 32-bit arithmetic).
    The refusal leaves the file handle as it was, so the call opens
    nothing.  With no [dst] from the caller, a successful open owns a
    buffer of exactly two chunks. *)
Theorem open_refuses_exactly :
  forall (X : externs) (fname : string) (blen cap : Z)
         (dst_arg sync : bool) (thread_ct : Z) (t : textRFILE X),
    (forall buf n f,
        fst (BgzfRawMtStreamInit X buf n f) <> kPglRetImproperFunctionCall) ->
    ((exists t',
         TextRfileOpenInternal fname blen cap dst_arg sync thread_ct t
           = Ret (kPglRetImproperFunctionCall, t'))
     <-> open_refuses X (is_open t) blen cap dst_arg sync = true)
    /\ (forall t',
           TextRfileOpenInternal fname blen cap dst_arg sync thread_ct t
             = Ret (kPglRetImproperFunctionCall, t') ->
           ff (base t') = ff (base t)
           /\ reterr (base t') = kPglRetImproperFunctionCall)
    /\ (forall t',
           dst_arg = false ->
           TextRfileOpenInternal fname blen cap dst_arg sync thread_ct t
             = Ret (kPglRetSuccess, t') ->
           dst_capacity (base t') = u32 (2 * kDecompressChunkSizeX X)
           /\ dst_owned_by_consumer (base t') = false
           /\ heap_log (base t')
              = heap_log (base t) ++ [EvMalloc (2 * kDecompressChunkSizeX X)]).
Proof.
  intros X fname blen cap dst_arg sync thread_ct t Hmt.
  pose proof (@open_file_and_probe_codes X fname blen cap dst_arg sync
                thread_ct t Hmt) as [Hni Hbuf].
  assert (Hrefuse :
            forall m,
              open_ret (base t) (rds t) kPglRetImproperFunctionCall (Some m)
              = Ret (kPglRetImproperFunctionCall,
                     mkRfile (set_err (base t) kPglRetImproperFunctionCall
                                (Some m)) (rds t)))
    by reflexivity.
  unfold open_refuses, is_open, TextRfileOpenInternal, open_args_check.
  destruct (ff (base t)) as [f0|] eqn:Eff.
  { rewrite Hrefuse. split; [|split].
    - split; [reflexivity | intros _; eexists; reflexivity].
    - intros t' H. injection H as <-. cbn. auto.
    - intros t' _ H. discriminate. }
  cbn [orb].
  destruct (negb (blen =? 0) || sync) eqn:Emode; cbn [andb].
  - destruct (blen <? kDecompressChunkSizeX X) eqn:Eb; cbn [orb].
    { rewrite Hrefuse. split; [|split].
      - split; [reflexivity | intros _; eexists; reflexivity].
      - intros t' H. injection H as <-. cbn. auto.
      - intros t' _ H. discriminate. }
    destruct dst_arg; cbn [andb].
    + destruct (cap <? u32 (2 * kDecompressChunkSizeX X)) eqn:Ec; cbn [orb].
      { rewrite Hrefuse. split; [|split].
        - split; [reflexivity | intros _; eexists; reflexivity].
        - intros t' H. injection H as <-. cbn. auto.
        - intros t' _ H. discriminate. }
      destruct (u32 (blen + kDecompressChunkSizeX X) <? cap) eqn:Es.
      { rewrite Hrefuse. split; [|split].
        - split; [reflexivity | intros _; eexists; reflexivity].
        - intros t' H. injection H as <-. cbn. auto.
        - intros t' _ H. discriminate. }
      split; [|split].
      * split; [intros [t' H]; exfalso; exact (Hni t' H) | discriminate].
      * intros t' H. exfalso. exact (Hni t' H).
      * intros t' Hd. discriminate.
    + split; [|split].
      * split; [intros [t' H]; exfalso; exact (Hni t' H) | discriminate].
      * intros t' H. exfalso. exact (Hni t' H).
      * intros t' Hd H. exact (Hbuf t' Hd H).
  - destruct (NDEBUG X || (dst_arg && (cap =? kTokenRstreamBlen X))).
    + split; [|split].
      * split; [intros [t' H]; exfalso; exact (Hni t' H) | discriminate].
      * intros t' H. exfalso. exact (Hni t' H).
      * intros t' Hd H. exact (Hbuf t' Hd H).
    + split; [|split].
      * split; [intros [t' H]; discriminate | discriminate].
      * intros t' H. discriminate.
      * intros t' Hd H. discriminate.
Qed.

Lemma open_refuses_exactly_witness :
  (exists t' : textRFILE (plink2 (one_file four_bytes)),
      TextRfileOpenInternal "f" 5 0 false true 0 (PreinitTextRfile _)
        = Ret (kPglRetImproperFunctionCall, t'))
  <-> open_refuses (plink2 (one_file four_bytes)) false 5 0 false true = true.
Proof.
  exact (proj1 (@open_refuses_exactly (plink2 (one_file four_bytes)) "f" 5 0
                  false true 0 (PreinitTextRfile _)
                  (fun _ _ _ H => match H with eq_refl => I end))).
Defined.

(* ------------------------------------------------------------------ *)
(** ** Lists with machine-integer counts *)

Lemma take_nonpos (n : Z) (l : list byte) : n <= 0 -> take n l = [].
Proof.
  intros H. destruct l as [|x l]; [reflexivity|].
  cbn. destruct (n <=? 0) eqn:E; [reflexivity | lia].
Qed.

Lemma drop_nonpos (n : Z) (l : list byte) : n <= 0 -> drop n l = l.
Proof.
  intros H. destruct l as [|x l]; [reflexivity|].
  cbn. destruct (n <=? 0) eqn:E; [reflexivity | lia].
Qed.

Lemma take_cons (n : Z) (x : byte) (l : list byte) :
  0 < n -> take n (x :: l) = x :: take (n - 1) l.
Proof. intros H. cbn. destruct (n <=? 0) eqn:E; [lia | reflexivity]. Qed.

Lemma drop_cons (n : Z) (x : byte) (l : list byte) :
  0 < n -> drop n (x :: l) = drop (n - 1) l.
Proof. intros H. cbn. destruct (n <=? 0) eqn:E; [lia | reflexivity]. Qed.

Lemma zlen_cons (x : byte) (l : list byte) : zlen (x :: l) = 1 + zlen l.
Proof. unfold zlen. cbn [length]. lia. Qed.

Lemma zlen_nil : zlen [] = 0.
Proof. reflexivity. Qed.

Lemma zlen_zero_nil (l : list byte) : zlen l = 0 -> l = [].
Proof. destruct l; [reflexivity|]. rewrite zlen_cons. pose proof (zlen_nonneg l). lia. Qed.

Lemma take_all (n : Z) (l : list byte) : zlen l <= n -> take n l = l.
Proof.
  revert n. induction l as [|x l IH]; intros n H; [reflexivity|].
  rewrite zlen_cons in H. pose proof (zlen_nonneg l).
  rewrite take_cons by lia. f_equal. apply IH. lia.
Qed.

Lemma drop_all (n : Z) (l : list byte) : zlen l <= n -> drop n l = [].
Proof.
  revert n. induction l as [|x l IH]; intros n H; [reflexivity|].
  rewrite zlen_cons in H. pose proof (zlen_nonneg l).
  rewrite drop_cons by lia. apply IH. lia.
Qed.

Lemma zlen_take (n : Z) (l : list byte) :
  zlen (take n l) = Z.max 0 (Z.min n (zlen l)).
Proof.
  revert n. induction l as [|x l IH]; intros n.
  - cbn [take]. rewrite zlen_nil. lia.
  - pose proof (zlen_nonneg l). destruct (Z_le_gt_dec n 0).
    + rewrite take_nonpos by lia. rewrite zlen_nil, zlen_cons. lia.
    + rewrite take_cons by lia. rewrite !zlen_cons, IH. lia.
Qed.

Lemma zlen_drop (n : Z) (l : list byte) :
  zlen (drop n l) = Z.max 0 (zlen l - Z.max 0 n).
Proof.
  revert n. induction l as [|x l IH]; intros n.
  - cbn [drop]. rewrite zlen_nil. lia.
  - pose proof (zlen_nonneg l). destruct (Z_le_gt_dec n 0).
    + rewrite drop_nonpos by lia. rewrite zlen_cons. lia.
    + rewrite drop_cons by lia. rewrite zlen_cons, IH. lia.
Qed.

Lemma take_drop (n : Z) (l : list byte) : take n l ++ drop n l = l.
Proof.
  revert n. induction l as [|x l IH]; intros n; [reflexivity|].
  destruct (Z_le_gt_dec n 0).
  - rewrite take_nonpos, drop_nonpos by lia. reflexivity.
  - rewrite take_cons, drop_cons by lia. cbn. f_equal. apply IH.
Qed.

Lemma take_app (n : Z) (l1 l2 : list byte) :
  take n (l1 ++ l2) = take n l1 ++ take (n - zlen l1) l2.
Proof.
  revert n. induction l1 as [|x l1 IH]; intros n.
  - cbn [app take]. rewrite zlen_nil. f_equal. lia.
  - destruct (Z_le_gt_dec n 0).
    + pose proof (zlen_nonneg (x :: l1)).
      rewrite !take_nonpos by lia. reflexivity.
    + cbn [app]. rewrite !take_cons by lia. cbn [app]. f_equal.
      rewrite IH, zlen_cons. do 2 f_equal. lia.
Qed.

Lemma drop_app (n : Z) (l1 l2 : list byte) :
  drop n (l1 ++ l2) = drop n l1 ++ drop (n - zlen l1) l2.
Proof.
  revert n. induction l1 as [|x l1 IH]; intros n.
  - cbn [app drop]. rewrite zlen_nil. f_equal. lia.
  - destruct (Z_le_gt_dec n 0).
    + pose proof (zlen_nonneg (x :: l1)).
      rewrite (drop_nonpos _ l2) by lia.
      rewrite !drop_nonpos by lia. reflexivity.
    + cbn [app]. rewrite !drop_cons by lia.
      rewrite IH, zlen_cons. do 2 f_equal. lia.
Qed.

Lemma drop_drop (a b : Z) (l : list byte) :
  0 <= a -> 0 <= b -> drop a (drop b l) = drop (a + b) l.
Proof.
  revert a b. induction l as [|x l IH]; intros a b Ha Hb; [reflexivity|].
  destruct (Z.eq_dec b 0) as [->|].
  - rewrite (drop_nonpos 0) by lia. f_equal. lia.
  - rewrite (drop_cons b) by lia.
    rewrite (drop_cons (a + b)) by lia.
    rewrite IH by lia. f_equal. lia.
Qed.

Lemma take_take (a b : Z) (l : list byte) :
  take a (take b l) = take (Z.min a b) l.
Proof.
  revert a b. induction l as [|x l IH]; intros a b; [reflexivity|].
  destruct (Z_le_gt_dec b 0).
  - rewrite (take_nonpos b) by lia.
    rewrite (take_nonpos (Z.min a b)) by lia. reflexivity.
  - rewrite (take_cons b) by lia.
    destruct (Z_le_gt_dec a 0).
    + rewrite !take_nonpos by lia. reflexivity.
    + rewrite !take_cons by lia. f_equal. rewrite IH. f_equal. lia.
Qed.

Lemma take_split (a b : Z) (l : list byte) :
  0 <= a -> 0 <= b -> take (a + b) l = take a l ++ take b (drop a l).
Proof.
  revert a b. induction l as [|x l IH]; intros a b Ha Hb; [reflexivity|].
  destruct (Z.eq_dec a 0) as [->|].
  - rewrite (take_nonpos 0), drop_nonpos by lia. reflexivity.
  - destruct (Z.eq_dec (a + b) 0); [lia|].
    rewrite (take_cons (a + b)), (take_cons a), (drop_cons a) by lia.
    cbn [app]. f_equal.
    replace (a + b - 1) with ((a - 1) + b) by lia.
    apply IH; lia.
Qed.

Lemma sub_zlen (l : list byte) (off n : Z) :
  0 <= off -> 0 <= n -> off + n <= zlen l -> zlen (sub l off n) = n.
Proof.
  intros. unfold sub. rewrite zlen_take, zlen_drop. lia.
Qed.

Lemma sub_0 (l : list byte) (n : Z) : sub l 0 n = take n l.
Proof. unfold sub. rewrite drop_nonpos by lia. reflexivity. Qed.

(* ------------------------------------------------------------------ *)
(** ** Scanning for ['\n'] *)

Lemma find_first_spec (c : byte) (l : list byte) :
  match find_first c l with
  | Some k =>
      find_first c (take (Z.of_nat k) l) = None
      /\ drop (Z.of_nat k) l = c :: drop (Z.of_nat k + 1) l
  | None => True
  end.
Proof.
  induction l as [|x l IH]; [exact I|].
  cbn [find_first]. destruct (Byte.eqb x c) eqn:Ex.
  - apply Byte.byte_dec_bl in Ex. subst x. split; [reflexivity|].
    change (Z.of_nat 0) with 0. rewrite drop_nonpos, drop_cons by lia.
    rewrite drop_nonpos by lia. reflexivity.
  - destruct (find_first c l) as [k|]; [|exact I].
    destruct IH as [IH1 IH2].
    replace (Z.of_nat (S k)) with (Z.of_nat k + 1) by lia.
    rewrite take_cons, !drop_cons by lia.
    replace (Z.of_nat k + 1 - 1) with (Z.of_nat k) by lia.
    replace (Z.of_nat k + 1 + 1 - 1) with (Z.of_nat k + 1) by lia.
    split; [|exact IH2].
    cbn [find_first]. rewrite Ex, IH1. reflexivity.
Qed.

Lemma find_first_lt (c : byte) (l : list byte) (k : nat) :
  find_first c l = Some k -> Z.of_nat k < zlen l.
Proof.
  revert k. induction l as [|x l IH]; intros k; [discriminate|].
  cbn [find_first]. rewrite zlen_cons. destruct (Byte.eqb x c).
  - intros [= <-]. pose proof (zlen_nonneg l). lia.
  - destruct (find_first c l) as [k'|]; [|discriminate].
    intros [= <-]. specialize (IH k' eq_refl). lia.
Qed.

Lemma find_first_app_none (c : byte) (l1 l2 : list byte) :
  find_first c l1 = None -> find_first c l2 = None ->
  find_first c (l1 ++ l2) = None.
Proof.
  induction l1 as [|x l1 IH]; intros H1 H2; [exact H2|].
  cbn [app find_first] in *. destruct (Byte.eqb x c); [discriminate|].
  destruct (find_first c l1); [discriminate|]. rewrite (IH eq_refl H2).
  reflexivity.
Qed.

Lemma find_first_none_take (c : byte) (n : Z) (l : list byte) :
  find_first c l = None -> find_first c (take n l) = None.
Proof.
  revert n. induction l as [|x l IH]; intros n H; [reflexivity|].
  destruct (Z_le_gt_dec n 0).
  - rewrite take_nonpos by lia. reflexivity.
  - rewrite take_cons by lia. cbn [find_first] in *.
    destruct (Byte.eqb x c); [discriminate|].
    destruct (find_first c l); [discriminate|]. rewrite (IH _ eq_refl).
    reflexivity.
Qed.

Lemma find_first_take (c : byte) (n : Z) (l : list byte) (k : nat) :
  find_first c (take n l) = Some k ->
  find_first c l = Some k /\ Z.of_nat k < n.
Proof.
  revert n k. induction l as [|x l IH]; intros n k; [discriminate|].
  destruct (Z_le_gt_dec n 0).
  - rewrite take_nonpos by lia. discriminate.
  - rewrite take_cons by lia. cbn [find_first].
    destruct (Byte.eqb x c).
    + intros [= <-]. split; [reflexivity | lia].
    + destruct (find_first c (take (n - 1) l)) as [k'|] eqn:E;
        [|discriminate].
      intros [= <-]. destruct (IH _ _ E) as [-> Hk]. split; [reflexivity|].
      lia.
Qed.

(** What [memchr] finds: the first ['\n'] at or after [start], within [n]
    bytes. *)
Lemma memchr_some (mem : list byte) (start n r : Z) :
  0 <= start ->
  memchr mem start NL n = Some r ->
  start <= r < start + n
  /\ r < zlen mem
  /\ drop r mem = NL :: drop (r + 1) mem
  /\ no_newline (sub mem start (r - start)).
Proof.
  intros Hs. unfold memchr, sub.
  destruct (find_first NL (take n (drop start mem))) as [k|] eqn:E;
    [|discriminate].
  intros [= <-].
  destruct (find_first_take _ _ _ _ E) as [E' Hk].
  pose proof (find_first_spec NL (drop start mem)) as Hsp.
  rewrite E' in Hsp. destruct Hsp as [Hno Hat].
  pose proof (find_first_lt _ _ _ E') as Hlt.
  rewrite zlen_drop in Hlt.
  rewrite !drop_drop in Hat by lia.
  replace (start + Z.of_nat k - start) with (Z.of_nat k) by lia.
  replace (Z.of_nat k + start) with (start + Z.of_nat k) in Hat by lia.
  replace (Z.of_nat k + 1 + start) with (start + Z.of_nat k + 1) in Hat
    by lia.
  repeat split; try lia; assumption.
Qed.

Lemma memchr_none (mem : list byte) (start n : Z) :
  memchr mem start NL n = None -> no_newline (sub mem start n).
Proof.
  unfold memchr, sub, no_newline.
  destruct (find_first NL (take n (drop start mem))); [discriminate|].
  reflexivity.
Qed.

(* ------------------------------------------------------------------ *)
(** ** Lines that fit *)

Lemma lines_fit_over (blen cur : Z) (l : list byte) :
  blen < cur -> lines_fit blen cur l = false.
Proof.
  revert cur. induction l as [|x l IH]; intros cur H; cbn [lines_fit].
  - lia.
  - destruct (Byte.eqb x NL).
    + destruct (cur + 1 <=? blen) eqn:E; [lia | reflexivity].
    + apply IH. lia.
Qed.

Lemma lines_fit_short (blen cur : Z) (l : list byte) :
  0 <= cur -> cur + zlen l <= blen -> lines_fit blen cur l = true.
Proof.
  revert cur. induction l as [|x l IH]; intros cur Hc H; cbn [lines_fit].
  - rewrite zlen_nil in H. lia.
  - rewrite zlen_cons in H. pose proof (zlen_nonneg l).
    destruct (Byte.eqb x NL).
    + rewrite (IH 0) by lia. destruct (cur + 1 <=? blen) eqn:E;
        [reflexivity | lia].
    + apply IH; lia.
Qed.

Lemma lines_fit_no_newline (blen cur : Z) (l1 l2 : list byte) :
  no_newline l1 ->
  lines_fit blen cur (l1 ++ l2) = lines_fit blen (cur + zlen l1) l2.
Proof.
  unfold no_newline. revert cur.
  induction l1 as [|x l1 IH]; intros cur H.
  - cbn [app]. rewrite zlen_nil. f_equal. lia.
  - cbn [app lines_fit find_first] in *.
    destruct (Byte.eqb x NL); [discriminate|].
    destruct (find_first NL l1); [discriminate|].
    rewrite (IH _ eq_refl), zlen_cons. f_equal. lia.
Qed.

Lemma lines_fit_app_newline (blen cur : Z) (l1 l2 : list byte) :
  lines_fit blen cur (l1 ++ NL :: l2)
  = lines_fit blen cur (l1 ++ [NL]) && lines_fit blen 0 l2.
Proof.
  revert cur. induction l1 as [|x l1 IH]; intros cur.
  - cbn [app lines_fit]. change (Byte.eqb NL NL) with true. cbn [lines_fit].
    destruct (cur + 1 <=? blen); cbn [andb]; [|reflexivity].
    destruct (0 <=? blen) eqn:E; cbn [andb]; [reflexivity|].
    apply lines_fit_over. lia.
  - cbn [app lines_fit]. destruct (Byte.eqb x NL).
    + rewrite IH. destruct (cur + 1 <=? blen); cbn [andb]; reflexivity.
    + apply IH.
Qed.

(** A line that runs through [blen] bytes without its ['\n'] and is not
    over does not fit. *)
Lemma lines_fit_overflow (blen cur : Z) (l : list byte) :
  0 <= cur ->
  no_newline (take (blen - cur) l) -> blen - cur < zlen l ->
  lines_fit blen cur l = false.
Proof.
  intros Hc Hno Hlen.
  destruct (Z_lt_ge_dec blen cur) as [Hover|Hin];
    [apply lines_fit_over; assumption|].
  rewrite <- (take_drop (blen - cur) l).
  rewrite lines_fit_no_newline by assumption.
  rewrite zlen_take.
  replace (cur + Z.max 0 (Z.min (blen - cur) (zlen l))) with blen by lia.
  destruct (drop (blen - cur) l) as [|x rest] eqn:E.
  - pose proof (zlen_drop (blen - cur) l) as Hd. rewrite E, zlen_nil in Hd.
    lia.
  - cbn [lines_fit]. destruct (Byte.eqb x NL).
    + destruct (blen + 1 <=? blen) eqn:E1; [lia | reflexivity].
    + apply lines_fit_over. lia.
Qed.

Lemma take_succ_newline (mem : list byte) (r : Z) :
  0 <= r -> drop r mem = NL :: drop (r + 1) mem ->
  take (r + 1) mem = take r mem ++ [NL].
Proof.
  intros Hr Hd. rewrite take_split by lia. rewrite Hd.
  rewrite take_cons by lia. rewrite (take_nonpos (1 - 1)) by lia.
  reflexivity.
Qed.

(** Past a ['\n'] at [r], the lines before and after fit independently. *)
Lemma lines_fit_extend (blen : Z) (mem : list byte) (r n : Z) :
  0 <= r -> 0 <= n -> drop r mem = NL :: drop (r + 1) mem ->
  lines_fit blen 0 (take (r + 1 + n) mem)
  = lines_fit blen 0 (take (r + 1) mem)
    && lines_fit blen 0 (take n (drop (r + 1) mem)).
Proof.
  intros Hr Hn Hd. rewrite (take_split (r + 1) n) by lia.
  rewrite take_succ_newline by assumption.
  rewrite <- app_assoc. cbn [app]. apply lines_fit_app_newline.
Qed.

(** The loop of the guard, started on a ['\n'] at [r] up to which every
    line fits: it ends, it answers 0 only if every line up to [stop] fits,
    and (when the region lies within the buffer) it answers 1 only if one
    does not. *)
Lemma long_line_loop_spec (blen stop : Z) (mem : list byte) :
  0 <= blen ->
  forall (fuel : nat) (r : Z),
    0 <= r < stop ->
    drop r mem = NL :: drop (r + 1) mem ->
    lines_fit blen 0 (take (r + 1) mem) = true ->
    zlen mem - r < Z.of_nat fuel ->
    exists b,
      long_line_loop fuel mem blen (stop - (blen + 1)) r = Some b
      /\ (b = false -> lines_fit blen 0 (take stop mem) = true)
      /\ (b = true -> stop <= zlen mem ->
          lines_fit blen 0 (take stop mem) = false).
Proof.
  intros Hb. induction fuel as [|fuel IH]; intros r Hr Hd Hfit Hfuel.
  - exfalso.
    assert (0 < zlen (drop r mem)) as Hpos.
    { rewrite Hd, zlen_cons. pose proof (zlen_nonneg (drop (r + 1) mem)).
      lia. }
    rewrite zlen_drop in Hpos. cbn in Hfuel. lia.
  - cbn [long_line_loop].
    pose proof (lines_fit_extend blen mem r (stop - r - 1) ltac:(lia)
                  ltac:(lia) Hd) as Hsplit.
    replace (r + 1 + (stop - r - 1)) with stop in Hsplit by lia.
    rewrite Hfit in Hsplit. cbn [andb] in Hsplit. rewrite Hsplit.
    destruct (r >=? stop - (blen + 1)) eqn:Ethr.
    + exists false. split; [reflexivity|]. split; [|discriminate].
      intros _. apply lines_fit_short; [lia|].
      rewrite zlen_take. lia.
    + destruct (memchr mem (r + 1) NL blen) as [r'|] eqn:Em.
      * destruct (memchr_some mem (r + 1) blen r' ltac:(lia) Em)
          as (Hr' & Hlt & Hd' & Hno).
        assert (Hfit' : lines_fit blen 0 (take (r' + 1) mem) = true).
        { replace (r' + 1) with (r + 1 + (r' - r)) by lia.
          rewrite (lines_fit_extend blen mem r (r' - r))
            by (lia || assumption).
          rewrite Hfit. cbn [andb].
          apply lines_fit_short; [lia|]. rewrite zlen_take. lia. }
        destruct (IH r' ltac:(lia) Hd' Hfit' ltac:(lia)) as (b & Hl & Hf & Ht).
        exists b. split; [exact Hl|].
        rewrite Hsplit in Hf, Ht. split; assumption.
      * exists true. split; [reflexivity|]. split; [discriminate|].
        intros _ Hin. apply memchr_none in Em.
        apply lines_fit_overflow; [lia | |].
        -- rewrite take_take. replace (Z.min (blen - 0) (stop - r - 1))
             with blen by lia. exact Em.
        -- rewrite zlen_take, zlen_drop. lia.
Qed.

Lemma uptr_small (X : externs) (x : Z) : 0 <= x < 2 ^ 32 -> uptr X x = x.
Proof.
  intros H. unfold uptr. apply Z.mod_small.
  destruct (LP64 X); lia.
Qed.

(** The guard in line mode, with [line_start] at the start of the buffer:
    it always answers; it answers 0 only if every line of
    [line_start, known_line_end) fits in [blen] bytes; and when
    [line_start, load_start) holds no ['\n'] and the region lies in the
    buffer, it answers 1 only if some line does not fit. *)
Lemma guard_line_mode (X : externs) (mem : list byte)
    (load_start stop blen : Z) :
  0 < blen < 2 ^ 32 -> 0 <= load_start < 2 ^ 32 -> 0 <= stop < 2 ^ 32 ->
  exists b,
    IsPathologicallyLongLineOrTokenX X mem 0 load_start stop blen = Ret b
    /\ (b = false -> lines_fit blen 0 (take stop mem) = true)
    /\ (b = true -> stop <= zlen mem ->
        no_newline (take load_start mem) ->
        lines_fit blen 0 (take stop mem) = false).
Proof.
  intros Hb Hl Hs. unfold IsPathologicallyLongLineOrTokenX.
  destruct (blen =? 0) eqn:E0; [lia|]. cbn [negb].
  rewrite !Z.sub_0_r, uptr_small by lia.
  rewrite (u32_small load_start) by lia.
  destruct (stop <=? blen) eqn:Efit.
  { exists false. split; [reflexivity|]. split; [|discriminate].
    intros _. apply lines_fit_short; [lia|]. rewrite zlen_take. lia. }
  assert (Hover : forall m, no_newline (take blen m) -> stop <= zlen m ->
                            lines_fit blen 0 (take stop m) = false).
  { intros m Hno Hin. apply lines_fit_overflow; [lia | |].
    - rewrite take_take. replace (Z.min (blen - 0) stop) with blen by lia.
      exact Hno.
    - rewrite zlen_take. lia. }
  destruct (load_start >=? blen) eqn:Escanned.
  { exists true. split; [reflexivity|]. split; [discriminate|].
    intros _ Hin Hno. apply Hover; [|exact Hin].
    replace blen with (Z.min blen load_start) by lia.
    rewrite <- take_take. apply find_first_none_take. exact Hno. }
  rewrite (u32_small (blen - load_start)) by lia.
  destruct (memchr mem load_start NL (blen - load_start)) as [r|] eqn:Em.
  - destruct (memchr_some mem load_start (blen - load_start) r
                ltac:(lia) Em) as (Hr & Hlt & Hd & Hno).
    rewrite (u32_small (blen + 1)) by lia.
    destruct (long_line_loop_spec blen stop mem ltac:(lia)
                (S (length mem)) r ltac:(lia) Hd) as (b & Hloop & Hf & Ht).
    + apply lines_fit_short; [lia|]. rewrite zlen_take. lia.
    + unfold zlen. lia.
    + rewrite Hloop. exists b. split; [reflexivity|].
      split; [exact Hf|]. intros Hb1 Hin _. exact (Ht Hb1 Hin).
  - exists true. split; [reflexivity|]. split; [discriminate|].
    intros _ Hin Hno. apply Hover; [|exact Hin].
    apply memchr_none in Em. unfold sub in Em.
    replace blen with (load_start + (blen - load_start)) at 1 by lia.
    rewrite take_split by lia.
    apply find_first_app_none; assumption.
Qed.

Lemma find_last_lt (c : byte) (l : list byte) (k : nat) :
  find_last c l = Some k -> Z.of_nat k < zlen l.
Proof.
  revert k. induction l as [|x l IH]; intros k; [discriminate|].
  cbn [find_last]. rewrite zlen_cons.
  destruct (find_last c l) as [k'|].
  - intros [= <-]. specialize (IH k' eq_refl). lia.
  - destruct (Byte.eqb x c); [|discriminate].
    intros [= <-]. pose proof (zlen_nonneg l). lia.
Qed.

Lemma Memrchr_bound (mem : list byte) (start n r : Z) (c : byte) :
  Memrchr mem start c n = Some r -> start <= r < start + Z.max 0 n.
Proof.
  unfold Memrchr, sub.
  destruct (find_last c (take n (drop start mem))) as [k|] eqn:E;
    [|discriminate].
  intros [= <-]. apply find_last_lt in E. rewrite zlen_take in E. lia.
Qed.

Lemma next_dst_capacity_range (X : externs) (blen cap : Z) :
  0 <= next_dst_capacity X blen cap < 2 ^ 32.
Proof.
  unfold next_dst_capacity.
  destruct (u32 (blen + kDecompressChunkSizeX X) / 2 >? cap);
    apply u32_range.
Qed.

Lemma dst_alloc_snoc (b : TextRfileBase) (ev : heap_event) :
  dst_alloc (mkBase (consume_iter b) (consume_stop b) (errmsg b) (reterr b)
               (ff b) (dst b) (dst_len b) (dst_capacity b)
               (enforced_max_line_blen b) (dst_owned_by_consumer b)
               (file_type b) (heap_log b ++ [ev]))
  = match ev with EvMalloc n => n | EvRealloc n => n end.
Proof.
  unfold dst_alloc. cbn [heap_log]. rewrite rev_unit. destruct ev; reflexivity.
Qed.

(* ------------------------------------------------------------------ *)
(** ** What a successful advance hands out *)

Lemma advance_move_ok (X : externs) (b : TextRfileBase) (mem : list byte)
    (orig : Z) (carry : list byte) (log : list heap_event)
    (orig' : option Z) :
  advance_move X b mem orig = Ret (MvOk carry log orig') ->
  zlen carry = u32 (dst_len b - u32 orig)
  /\ (log = heap_log b
      \/ exists ev,
           log = heap_log b ++ [ev]
           /\ 0 <= match ev with EvMalloc n => n | EvRealloc n => n end
              < 2 ^ 32).
Proof.
  unfold advance_move. intros H.
  pose proof (u32_range (dst_len b - u32 orig)) as Hrem.
  pose proof (u32_range orig) as Hoff.
  pose proof (next_dst_capacity_range X (enforced_max_line_blen b)
                (dst_capacity b)) as Hnext.
  repeat break_if; try discriminate; injection H as <- <- <-.
  - split; [apply sub_zlen; lia | left; reflexivity].
  - apply orb_false_elim in E3 as [E3 E3'].
    split; [apply sub_zlen; lia | right; eexists; split; [reflexivity|]].
    exact Hnext.
  - apply orb_false_elim in E3 as [E3 E3'].
    split; [apply sub_zlen; lia | right; eexists; split; [reflexivity|]].
    exact Hnext.
Qed.

Lemma dst_alloc_adv_state (b : TextRfileBase)
    (ci cs : option Z) (f : FILE) (m : list byte) (len : Z)
    (log : list heap_event) :
  dst_alloc (adv_state b ci cs f m len log)
  = match rev log with
    | EvMalloc n :: _ => n
    | EvRealloc n :: _ => n
    | [] => dst_capacity b
    end.
Proof. reflexivity. Qed.

Lemma advance_move_alloc (X : externs) (b : TextRfileBase)
    (mem : list byte) (orig : Z) (carry : list byte)
    (log : list heap_event) (orig' : option Z)
    (ci cs : option Z) (f : FILE) (m : list byte) (len : Z) :
  dst_alloc b < 2 ^ 32 ->
  advance_move X b mem orig = Ret (MvOk carry log orig') ->
  dst_alloc (adv_state b ci cs f m len log) < 2 ^ 32.
Proof.
  intros Ha H. apply advance_move_ok in H as [_ [-> | (ev & -> & Hev)]].
  - exact Ha.
  - rewrite dst_alloc_adv_state, rev_unit. destruct ev; lia.
Qed.

Lemma advance_guard_fit (X : externs) (b0 : TextRfileBase)
    (r1 : RawDecompressStream X) (f1 : FILE) (log : list heap_event)
    (dst_rem : Z) (mem2 : list byte) (len2 stop : Z) (t' : textRFILE X) :
  0 < enforced_max_line_blen b0 < 2 ^ 32 ->
  0 <= dst_rem < 2 ^ 32 -> 0 <= stop < 2 ^ 32 ->
  advance_guard b0 r1 f1 log dst_rem mem2 len2 stop
    = Ret (kPglRetSuccess, t') ->
  lines_fit (enforced_max_line_blen b0) 0 (slice t') = true.
Proof.
  intros Hb Hr Hs. unfold advance_guard.
  destruct (guard_line_mode X mem2 dst_rem stop _ Hb Hr Hs)
    as (g & -> & Hf & _).
  destruct g; unfold adv_ret; intros H; [discriminate|].
  injection H as <-. unfold slice. cbn.
  rewrite Z.sub_0_r, sub_0. apply Hf. reflexivity.
Qed.

Lemma advance_scan_fit (X : externs) (b0 : TextRfileBase)
    (log : list heap_event) (dst_rem : Z) (carry : list byte)
    (ld : load_result X) :
  0 < enforced_max_line_blen b0 < 2 ^ 32 ->
  0 <= dst_rem < 2 ^ 32 ->
  dst_alloc b0 < 2 ^ 32 ->
  match advance_scan b0 log dst_rem carry ld with
  | ScanRet res =>
      forall t', res = Ret (kPglRetSuccess, t') ->
                 lines_fit (enforced_max_line_blen b0) 0 (slice t') = true
  | ScanAgain _ b2 =>
      enforced_max_line_blen b2 = enforced_max_line_blen b0
      /\ dst_alloc b2 = dst_alloc (adv_state b0 None None (ld_ff ld) [] 0 log)
  end.
Proof.
  intros Hb Hr Ha. unfold advance_scan.
  pose proof (zlen_nonneg (ld_loaded ld)) as Hld.
  destruct (dst_rem + zlen (ld_loaded ld) >? dst_alloc b0) eqn:Eover;
    [intros t' H; discriminate|].
  destruct (u32 (dst_rem + zlen (ld_loaded ld)) =? 0) eqn:Ezero;
    [intros t' H; discriminate|].
  destruct (negb _) eqn:Eshort.
  - destruct (Byte.eqb _ NL) eqn:Elast.
    + intros t'. apply advance_guard_fit; lia.
    + destruct (dst_rem + zlen (ld_loaded ld) + 1 >? dst_alloc b0) eqn:E1;
        [intros t' H; discriminate|].
      intros t'. apply advance_guard_fit; lia.
  - destruct (Memrchr _ dst_rem NL _) as [last|] eqn:Elast.
    + apply Memrchr_bound in Elast.
      intros t'. apply advance_guard_fit; lia.
    + destruct (_ >=? enforced_max_line_blen b0).
      * intros t' H; discriminate.
      * split; reflexivity.
Qed.

(** A [goto] out of the [switch] carries an error code. *)
Lemma load_switch_goto_err (X : externs) (ft : FileCompressionType)
    (r : RawDecompressStream X) (f : FILE) (room : Z)
    (e : PglErr) (m : option errmsg_t) (f1 : FILE)
    (r1 : RawDecompressStream X) :
  load_switch ft r f room = Ret (LdGoto e m f1 r1) -> is_err e = true.
Proof.
  assert (Hraw : forall (D : Type) (wrap : D -> RawDecompressStream X)
                        (flag : bool) (o : outcome (raw_read D)),
             lift_raw wrap flag o = Ret (LdGoto e m f1 r1) ->
             is_err e = true).
  { intros D wrap flag o. unfold lift_raw, of_raw_read.
    destruct o as [a| | |]; try discriminate.
    destruct (is_err (rr_err a)) eqn:Ea; [|discriminate].
    intros H. inversion H. subst. exact Ea. }
  unfold load_switch. destruct ft.
  - repeat break_goal_match; try discriminate;
      intros H; inversion H; reflexivity.
  - destruct r; try discriminate. apply Hraw.
  - destruct r; try discriminate. break_if; [discriminate|]. apply Hraw.
  - destruct r; try discriminate. apply Hraw.
Qed.

Lemma advance_loop_lines_fit (X : externs) :
  forall (fuel : nat) (b : TextRfileBase) (r : RawDecompressStream X)
         (f : FILE) (mem : list byte) (orig : option Z) (t' : textRFILE X),
    0 < enforced_max_line_blen b < 2 ^ 32 ->
    dst_alloc b < 2 ^ 32 ->
    TextRfileAdvance_loop fuel b r f mem orig = Ret (kPglRetSuccess, t') ->
    lines_fit (enforced_max_line_blen b) 0 (slice t') = true.
Proof.
  induction fuel as [|fuel IH]; intros b r f mem orig t' Hblen Halloc H;
    [discriminate|].
  cbn [TextRfileAdvance_loop] in H.
  destruct orig as [orig|]; [|discriminate].
  destruct (advance_move X b mem orig) as [[|carry log orig']| | |] eqn:Emove;
    try discriminate.
  destruct (load_switch _ _ _ _) as [[ld|e m f1 r1]| | |] eqn:Eload;
    try discriminate.
  - pose proof (advance_move_alloc X b mem orig carry log orig'
                  (consume_iter b) (consume_stop b) f carry (dst_len b)
                  Halloc Emove) as Halloc0.
    pose proof (advance_scan_fit X
                  (adv_state b (consume_iter b) (consume_stop b) f carry
                     (dst_len b) log) log (u32 (dst_len b - u32 orig))
                  carry ld Hblen (u32_range _) Halloc0) as Hscan.
    destruct (advance_scan _ _ _ _ _) as [res|b2].
    + apply (Hscan t' H).
    + destruct Hscan as [Hb2 Ha2].
      change (enforced_max_line_blen b) with
        (enforced_max_line_blen
           (adv_state b (consume_iter b) (consume_stop b) f carry
              (dst_len b) log)).
      rewrite <- Hb2. apply (IH _ _ _ _ _ _ ltac:(rewrite Hb2; exact Hblen)
                               ltac:(rewrite Ha2; exact Halloc0) H).
  - unfold adv_ret in H. injection H as He _. subst e.
    apply load_switch_goto_err in Eload. discriminate.
Qed.

Lemma advance_lines_fit (X : externs) (fuel : nat) (t t' : textRFILE X) :
  0 < enforced_max_line_blen (base t) < 2 ^ 32 ->
  dst_alloc (base t) < 2 ^ 32 ->
  TextRfileAdvance fuel t = Ret (kPglRetSuccess, t') ->
  lines_fit (enforced_max_line_blen (base t)) 0 (slice t') = true.
Proof.
  intros Hb Ha. unfold TextRfileAdvance.
  destruct (is_err (reterr (base t))) eqn:Eerr.
  { intros H. injection H as He _. rewrite He in Eerr. discriminate. }
  destruct (ff (base t)), (dst (base t)), (consume_iter (base t)),
    (consume_stop (base t)); try discriminate.
  break_if; [discriminate|].
  apply advance_loop_lines_fit; assumption.
Qed.

Lemma advance_guard_keeps (X : externs) (b0 : TextRfileBase)
    (r1 : RawDecompressStream X) (f1 : FILE) (log : list heap_event)
    (dst_rem : Z) (mem2 : list byte) (len2 stop : Z) :
  dst_alloc (adv_state b0 None None f1 [] 0 log) < 2 ^ 32 ->
  keeps_shape b0 (advance_guard b0 r1 f1 log dst_rem mem2 len2 stop).
Proof.
  intros Ha e t'. unfold advance_guard, adv_ret.
  destruct (IsPathologicallyLongLineOrTokenX X mem2 0 dst_rem stop _)
    as [[|]| | |]; try discriminate;
    intros H; injection H as _ <-; split; [reflexivity | exact Ha |
                                            reflexivity | exact Ha].
Qed.

Lemma advance_scan_keeps (X : externs) (b0 : TextRfileBase)
    (log : list heap_event) (dst_rem : Z) (carry : list byte)
    (ld : load_result X) :
  dst_alloc (adv_state b0 None None (ld_ff ld) [] 0 log) < 2 ^ 32 ->
  match advance_scan b0 log dst_rem carry ld with
  | ScanRet res => keeps_shape b0 res
  | ScanAgain _ b2 =>
      enforced_max_line_blen b2 = enforced_max_line_blen b0
      /\ dst_alloc b2 < 2 ^ 32
  end.
Proof.
  intros Ha. unfold advance_scan.
  assert (Hret : forall ci cs m len e0 mo,
             keeps_shape b0
               (adv_ret (adv_state b0 ci cs (ld_ff ld) m len log)
                  (ld_rds ld) e0 mo)).
  { intros ci cs m len e0 mo e t' H. unfold adv_ret in H.
    injection H as _ <-. split; [reflexivity | exact Ha]. }
  destruct (dst_rem + zlen (ld_loaded ld) >? dst_alloc b0) eqn:Eover;
    [intros e t' H; discriminate|].
  destruct (u32 (dst_rem + zlen (ld_loaded ld)) =? 0) eqn:Ezero;
    [apply Hret|].
  destruct (negb _) eqn:Eshort.
  - destruct (Byte.eqb _ NL) eqn:Elast.
    + apply advance_guard_keeps. exact Ha.
    + destruct (dst_rem + zlen (ld_loaded ld) + 1 >? dst_alloc b0) eqn:E1;
        [intros e t' H; discriminate|].
      apply advance_guard_keeps. exact Ha.
  - destruct (Memrchr _ dst_rem NL _) as [last|] eqn:Elast.
    + apply advance_guard_keeps. exact Ha.
    + destruct (_ >=? enforced_max_line_blen b0).
      * apply Hret.
      * split; [reflexivity | exact Ha].
Qed.

Lemma advance_loop_keeps (X : externs) :
  forall (fuel : nat) (b : TextRfileBase) (r : RawDecompressStream X)
         (f : FILE) (mem : list byte) (orig : option Z),
    dst_alloc b < 2 ^ 32 ->
    keeps_shape b (TextRfileAdvance_loop fuel b r f mem orig).
Proof.
  induction fuel as [|fuel IH]; intros b r f mem orig Halloc e t' H;
    [discriminate|].
  cbn [TextRfileAdvance_loop] in H.
  destruct orig as [orig|]; [|discriminate].
  destruct (advance_move X b mem orig) as [[|carry log orig']| | |] eqn:Emove;
    try discriminate.
  { unfold adv_ret in H. injection H as _ <-. split; [reflexivity|].
    exact Halloc. }
  assert (Hlog : forall ci cs f' m len,
             dst_alloc (adv_state b ci cs f' m len log) < 2 ^ 32).
  { intros. eapply advance_move_alloc; eassumption. }
  destruct (load_switch _ _ _ _) as [[ld|e1 m f1 r1]| | |] eqn:Eload;
    try discriminate.
  - pose proof (advance_scan_keeps X
                  (adv_state b (consume_iter b) (consume_stop b) f carry
                     (dst_len b) log) log (u32 (dst_len b - u32 orig))
                  carry ld (Hlog _ _ _ _ _)) as Hscan.
    destruct (advance_scan _ _ _ _ _) as [res|b2].
    + apply (Hscan e t' H).
    + destruct Hscan as [Hb2 Ha2].
      destruct (IH _ _ _ _ _ Ha2 e t' H) as [Hb' Ha'].
      split; [rewrite Hb', Hb2; reflexivity | exact Ha'].
  - unfold adv_ret in H. injection H as _ <-. split; [reflexivity|].
    apply Hlog.
Qed.

Lemma advance_keeps (X : externs) (fuel : nat) (t : textRFILE X) :
  dst_alloc (base t) < 2 ^ 32 ->
  keeps_shape (base t) (TextRfileAdvance fuel t).
Proof.
  intros Ha e t'. unfold TextRfileAdvance.
  break_goal_match.
  { intros H. injection H as _ <-. split; [reflexivity | exact Ha]. }
  repeat break_goal_match; try discriminate.
  apply advance_loop_keeps. exact Ha.
Qed.

(** Every slice of a pass fits the cap. *)
Lemma read_all_lines_fit (X : externs) (fuel : nat) :
  forall (rounds : nat) (t : textRFILE X) (sl : list (list byte))
         (e : PglErr) (t' : textRFILE X),
    0 < enforced_max_line_blen (base t) < 2 ^ 32 ->
    dst_alloc (base t) < 2 ^ 32 ->
    read_all rounds fuel t = Ret (sl, e, t') ->
    Forall (fun s => lines_fit (enforced_max_line_blen (base t)) 0 s = true)
      sl.
Proof.
  induction rounds as [|rounds IH]; intros t sl e t' Hb Ha H;
    [discriminate|].
  cbn [read_all] in H.
  destruct (TextRfileAdvance fuel t) as [[e1 t1]| | |] eqn:Eadv;
    try discriminate.
  destruct (PglErr_eqb e1 kPglRetSuccess) eqn:Ee.
  - destruct e1; try discriminate.
    destruct (advance_keeps X fuel t Ha _ _ Eadv) as [Hb1 Ha1].
    destruct (read_all rounds fuel (consume_all t1)) as [[[sl2 e2] t2]| | |]
      eqn:Erest; try discriminate.
    injection H as <- _ _.
    constructor.
    + apply (advance_lines_fit X fuel t t1 Hb Ha Eadv).
    + rewrite <- Hb1.
      apply (IH (consume_all t1) sl2 e2 t2);
        [cbn; rewrite Hb1; exact Hb | exact Ha1 | exact Erest].
  - destruct e1; try discriminate; injection H as <- _ _; constructor.
Qed.

(* ------------------------------------------------------------------ *)
(** ** Runs of one byte *)

Lemma zrepeat_nonpos (c : byte) (n : Z) : n <= 0 -> zrepeat c n = [].
Proof.
  intros H. unfold zrepeat. replace (Z.to_nat n) with O by lia. reflexivity.
Qed.

Lemma zrepeat_succ (c : byte) (n : Z) :
  0 < n -> zrepeat c n = c :: zrepeat c (n - 1).
Proof.
  intros H. unfold zrepeat.
  replace (Z.to_nat n) with (S (Z.to_nat (n - 1))) by lia. reflexivity.
Qed.

Lemma zlen_zrepeat (c : byte) (n : Z) : zlen (zrepeat c n) = Z.max 0 n.
Proof.
  unfold zlen, zrepeat. rewrite repeat_length. lia.
Qed.

Lemma zrepeat_app (c : byte) (a b : Z) :
  0 <= a -> 0 <= b -> zrepeat c (a + b) = zrepeat c a ++ zrepeat c b.
Proof.
  intros Ha Hb. unfold zrepeat. rewrite Z2Nat.inj_add by lia.
  apply repeat_app.
Qed.

Lemma take_zrepeat (c : byte) (k n : Z) :
  0 <= k <= n -> take k (zrepeat c n) = zrepeat c k.
Proof.
  intros H. replace n with (k + (n - k)) by lia.
  rewrite zrepeat_app, take_app by lia.
  rewrite take_all by (rewrite zlen_zrepeat; lia).
  rewrite take_nonpos by (rewrite zlen_zrepeat; lia).
  apply app_nil_r.
Qed.

Lemma drop_zrepeat (c : byte) (k n : Z) :
  0 <= k <= n -> drop k (zrepeat c n) = zrepeat c (n - k).
Proof.
  intros H. replace n with (k + (n - k)) at 1 by lia.
  rewrite zrepeat_app, drop_app by lia.
  rewrite drop_all by (rewrite zlen_zrepeat; lia).
  rewrite drop_nonpos by (rewrite zlen_zrepeat; lia).
  reflexivity.
Qed.

Lemma find_first_zrepeat (t c : byte) (n : Z) :
  Byte.eqb c t = false -> find_first t (zrepeat c n) = None.
Proof.
  intros H. unfold zrepeat. induction (Z.to_nat n) as [|m IH];
    [reflexivity|].
  cbn [repeat find_first]. rewrite H, IH. reflexivity.
Qed.

Lemma find_last_zrepeat (t c : byte) (n : Z) :
  Byte.eqb c t = false -> find_last t (zrepeat c n) = None.
Proof.
  intros H. unfold zrepeat. induction (Z.to_nat n) as [|m IH];
    [reflexivity|].
  cbn [repeat find_last]. rewrite H, IH. reflexivity.
Qed.

Lemma find_last_app_none (t : byte) (l1 l2 : list byte) :
  find_last t l2 = None -> find_last t (l1 ++ l2) = find_last t l1.
Proof.
  intros H. induction l1 as [|x l1 IH]; [exact H|].
  cbn [app find_last]. rewrite IH. reflexivity.
Qed.

Lemma lines_fit_zrepeat (blen cur n : Z) (c : byte) (l : list byte) :
  Byte.eqb c NL = false -> 0 <= n ->
  lines_fit blen cur (zrepeat c n ++ l) = lines_fit blen (cur + n) l.
Proof.
  intros Hc Hn. rewrite lines_fit_no_newline
    by (apply find_first_zrepeat; exact Hc).
  rewrite zlen_zrepeat. f_equal. lia.
Qed.

(* ------------------------------------------------------------------ *)
(** ** Plain files, step by step *)

(** [TextRfileOpenEx] on a plain file of at least four bytes, with a
    buffer of the caller. *)
Lemma open_plain_with_buffer (X : externs) (fname : string)
    (data : list byte) (blen cap : Z) :
  fopen X fname = Some data ->
  open_args_check X blen cap true true = Ret None ->
  4 <= zlen (take 16 data) ->
  MagicProbe X (take 16 data) = kFileUncompressed ->
  TextRfileOpenEx fname blen cap true (PreinitTextRfile X)
  = Ret (kPglRetSuccess,
         mkRfile
           (mkBase (Some 0) (Some 0) None kPglRetSuccess
              (Some (mkFILE data (drop 16 data)
                       (zlen (take 16 data) <? 16) false None))
              (Some (take 16 data)) (zlen (take 16 data)) cap blen true
              kFileUncompressed [])
           (RdsNone X)).
Proof.
  intros Hfs Hchk Hlen Hprobe.
  rewrite <- open_file_type_MagicProbe in Hprobe.
  unfold open_file_type in Hprobe.
  unfold TextRfileOpenEx, TextRfileOpenInternal.
  cbn [PreinitTextRfile base ff]. rewrite Hchk.
  unfold open_file_and_probe. rewrite Hfs.
  cbn [negb andb fread_unlocked fopen_data f_bad f_rest f_all f_eof f_err
         orb].
  destruct (zlen (take 16 data) >=? 4) eqn:E4; [|lia].
  destruct (IsZstdFrame X (le32 (take 16 data))); [discriminate|].
  destruct (u32 (Z.shiftl (le32 (take 16 data)) 8) =? 143335168).
  { destruct ((zlen (take 16 data) =? 16) && IsBgzfHeader X (take 16 data));
      discriminate. }
  unfold open_ret, set_err. cbn.
  rewrite (take_all (zlen (take 16 data))) by lia. reflexivity.
Qed.

Lemma fread_clean (n : Z) (f : FILE) :
  clean f -> fread_unlocked n f = (take n (f_rest f), after_read n f).
Proof.
  intros [Hbad Herr]. unfold fread_unlocked, after_read. rewrite Hbad.
  reflexivity.
Qed.

Lemma after_read_clean (n : Z) (f : FILE) : clean f -> clean (after_read n f).
Proof. intros [Hbad Herr]. split; [reflexivity | exact Herr]. Qed.

(** The plain case of the [switch], for a window that one [fread] can
    fill. *)
Lemma load_switch_plain (X : externs) (r : RawDecompressStream X)
    (f : FILE) (room : Z) :
  clean f -> 0 <= room < 2 ^ 32 -> room <= kMaxBytesPerIO X ->
  load_switch kFileUncompressed r f room
  = Ret (LdOk (mk_load (take room (f_rest f)) false (after_read room f) r)).
Proof.
  intros Hc Hroom Hmax. unfold load_switch.
  rewrite u32_small by lia.
  destruct (room >? kMaxBytesPerIO X) eqn:E; [lia|].
  rewrite fread_clean by exact Hc.
  destruct Hc as [Hbad Herr].
  unfold ferror_unlocked, after_read. cbn [f_err]. rewrite Herr.
  reflexivity.
Qed.

(** One iteration of the loop on a plain file when the unfinished line is
    moved to the front: what is left is the scan of the refilled buffer. *)
Lemma loop_plain_move (X : externs) (fuel : nat) (b : TextRfileBase)
    (r : RawDecompressStream X) (f : FILE) (mem : list byte) (orig : Z) :
  file_type b = kFileUncompressed -> clean f ->
  0 <= orig <= dst_len b -> dst_len b = zlen mem -> dst_len b < 2 ^ 32 ->
  dst_len b - orig < u32 (dst_capacity b - kDecompressChunkSizeX X) ->
  dst_len b - orig <= dst_capacity b < 2 ^ 32 ->
  dst_capacity b - (dst_len b - orig) <= kMaxBytesPerIO X ->
  let rem := dst_len b - orig in
  let room := dst_capacity b - rem in
  TextRfileAdvance_loop (S fuel) b r f mem (Some orig)
  = match
      advance_scan
        (adv_state b (consume_iter b) (consume_stop b) f (drop orig mem)
           (dst_len b) (heap_log b))
        (heap_log b) rem (drop orig mem)
        (mk_load (take room (f_rest f)) false (after_read room f) r)
    with
    | ScanRet res => res
    | ScanAgain _ b2 =>
        TextRfileAdvance_loop fuel b2 r (after_read room f)
          (drop orig mem ++ take room (f_rest f)) (Some orig)
    end.
Proof.
  intros Hft Hc Horig Hlen Hlen32 Hmove Hcap Hmax rem room.
  cbn [TextRfileAdvance_loop]. unfold advance_move.
  rewrite (u32_small orig) by lia.
  rewrite (u32_small (dst_len b - orig)) by lia.
  fold rem. fold room.
  destruct (rem <? u32 (dst_capacity b - kDecompressChunkSizeX X)) eqn:E1;
    [|subst rem; lia].
  destruct (orig + rem <=? zlen mem) eqn:E2; [|subst rem; lia].
  rewrite Hft.
  rewrite load_switch_plain by (subst room rem; (exact Hc || lia)).
  unfold sub.
  rewrite (take_all rem) by (rewrite zlen_drop; subst rem; lia).
  reflexivity.
Qed.

(** [TextRfileAdvance] on an open reader without a latched code, whose
    consumer has used up the last slice. *)
Lemma advance_enters_loop (X : externs) (fuel : nat) (t : textRFILE X)
    (f : FILE) (mem : list byte) (off : Z) :
  reterr (base t) = kPglRetSuccess -> ff (base t) = Some f ->
  dst (base t) = Some mem ->
  consume_iter (base t) = Some off -> consume_stop (base t) = Some off ->
  TextRfileAdvance fuel t
  = TextRfileAdvance_loop fuel (base t) (rds t) f mem (Some off).
Proof.
  intros He Hf Hd Hi Hs. unfold TextRfileAdvance.
  rewrite He, Hf, Hd, Hi, Hs. cbn [is_err PglErr_eqb negb].
  rewrite Z.eqb_refl. cbn [negb]. rewrite andb_false_r. reflexivity.
Qed.

(** The scan of a full buffer whose fresh part holds a ['\n'], when the
    whole region fits the cap. *)
Lemma scan_full_found (X : externs) (b0 : TextRfileBase)
    (log : list heap_event) (rem : Z) (carry loaded : list byte)
    (f1 : FILE) (r : RawDecompressStream X) (k : nat) :
  zlen carry = rem ->
  rem + zlen loaded = dst_capacity b0 ->
  0 < dst_capacity b0 < 2 ^ 32 -> dst_capacity b0 <= dst_alloc b0 ->
  find_last NL loaded = Some k ->
  0 < enforced_max_line_blen b0 ->
  rem + Z.of_nat k + 1 <= enforced_max_line_blen b0 ->
  advance_scan b0 log rem carry (mk_load loaded false f1 r)
  = ScanRet
      (Ret (kPglRetSuccess,
            mkRfile
              (set_err
                 (adv_state b0 (Some 0) (Some (rem + Z.of_nat k + 1)) f1
                    (carry ++ loaded) (dst_capacity b0) log)
                 kPglRetSuccess None) r)).
Proof.
  intros Hcarry Hfull Hcap Halloc Hfind Hblen Hfit.
  pose proof (zlen_nonneg carry). pose proof (zlen_nonneg loaded).
  pose proof (find_last_lt _ _ _ Hfind) as Hk.
  unfold advance_scan. cbn [ld_loaded ld_end_at_iter ld_ff ld_rds].
  rewrite Hfull.
  destruct (dst_capacity b0 >? dst_alloc b0) eqn:E1; [lia|].
  rewrite (u32_small (dst_capacity b0)) by lia.
  destruct (dst_capacity b0 =? 0) eqn:E2; [lia|].
  rewrite Z.eqb_refl. cbn [negb].
  unfold Memrchr, sub.
  rewrite drop_app, (drop_all rem carry), (drop_nonpos (rem - zlen carry))
    by lia.
  cbn [app]. rewrite take_all by lia. rewrite Hfind.
  unfold advance_guard, IsPathologicallyLongLineOrTokenX.
  destruct (enforced_max_line_blen b0 =? 0) eqn:E3; [lia|]. cbn [negb].
  rewrite Z.sub_0_r, uptr_small by lia.
  destruct (rem + Z.of_nat k + 1 <=? enforced_max_line_blen b0) eqn:E4;
    [|lia].
  reflexivity.
Qed.

(** A caller's buffer that cannot take the unfinished line and one more
    chunk ends the call with Nomem. *)
Lemma loop_nomem_consumer (X : externs) (fuel : nat) (b : TextRfileBase)
    (r : RawDecompressStream X) (f : FILE) (mem : list byte) (orig : Z) :
  dst_owned_by_consumer b = true ->
  u32 (dst_capacity b - kDecompressChunkSizeX X)
    <= u32 (dst_len b - u32 orig) ->
  TextRfileAdvance_loop (S fuel) b r f mem (Some orig)
  = adv_ret b r kPglRetNomem None.
Proof.
  intros Hown Hrem. cbn [TextRfileAdvance_loop]. unfold advance_move.
  destruct (u32 (dst_len b - u32 orig)
            <? u32 (dst_capacity b - kDecompressChunkSizeX X)) eqn:E; [lia|].
  rewrite Hown. reflexivity.
Qed.

(** A whole call on a plain file: the unfinished line is moved to the
    front, the read fills the buffer, the fresh part holds a ['\n'], and
    the region up to the last one fits the cap.  The slice ends after
    that ['\n']. *)
Lemma advance_plain_full_found (X : externs) (fuel : nat)
    (em : option errmsg_t) (f : FILE) (mem : list byte)
    (off cap blen : Z) (own : bool) (log : list heap_event)
    (r : RawDecompressStream X) (k : nat) :
  let b := mkBase (Some off) (Some off) em kPglRetSuccess (Some f) (Some mem)
             (zlen mem) cap blen own kFileUncompressed log in
  let rem := zlen mem - off in
  let room := cap - rem in
  let loaded := take room (f_rest f) in
  clean f -> 0 <= off <= zlen mem -> zlen mem < 2 ^ 32 ->
  rem < u32 (cap - kDecompressChunkSizeX X) ->
  rem <= cap < 2 ^ 32 -> room <= kMaxBytesPerIO X ->
  0 < cap -> cap <= dst_alloc b ->
  zlen loaded = room ->
  find_last NL loaded = Some k ->
  0 < blen -> rem + Z.of_nat k + 1 <= blen ->
  TextRfileAdvance (S fuel) (mkRfile b r)
  = Ret (kPglRetSuccess,
         mkRfile
           (mkBase (Some 0) (Some (rem + Z.of_nat k + 1)) em kPglRetSuccess
              (Some (after_read room f)) (Some (drop off mem ++ loaded))
              cap cap blen own kFileUncompressed log)
           r).
Proof.
  intros b rem room loaded Hc Hoff Hlen Hmove Hcap Hmax Hpos Halloc Hfull
    Hfind Hblen Hfit.
  rewrite (advance_enters_loop X (S fuel) (mkRfile b r) f mem off)
    by reflexivity.
  cbn [base rds].
  rewrite loop_plain_move by (subst b; cbn; (reflexivity || exact Hc || lia)).
  subst b. cbn [dst_len dst_capacity consume_iter consume_stop heap_log].
  fold rem. fold room. fold loaded.
  rewrite (scan_full_found X _ log rem (drop off mem) loaded
             (after_read room f) r k);
    try assumption; try (cbn; lia);
    try (rewrite zlen_drop; subst rem; lia);
    try (cbn; subst rem room; lia).
  reflexivity.
Qed.

(** A whole call that finds the caller's buffer too full to go on. *)
Lemma advance_nomem_consumer (X : externs) (fuel : nat)
    (em : option errmsg_t) (f : FILE) (mem : list byte)
    (off len cap blen : Z) (ft : FileCompressionType)
    (log : list heap_event) (r : RawDecompressStream X) :
  let b := mkBase (Some off) (Some off) em kPglRetSuccess (Some f) (Some mem)
             len cap blen true ft log in
  u32 (cap - kDecompressChunkSizeX X) <= u32 (len - u32 off) ->
  TextRfileAdvance (S fuel) (mkRfile b r)
  = Ret (kPglRetNomem,
         mkRfile
           (mkBase (Some off) (Some off) em kPglRetNomem (Some f) (Some mem)
              len cap blen true ft log)
           r).
Proof.
  intros b Hrem.
  rewrite (advance_enters_loop X (S fuel) (mkRfile b r) f mem off)
    by reflexivity.
  cbn [base rds].
  rewrite loop_nomem_consumer by (subst b; cbn; (reflexivity || exact Hrem)).
  reflexivity.
Qed.

(* ------------------------------------------------------------------ *)
(** ** A line too long for a caller's buffer *)

Lemma long_second_line_take16 :
  take 16 long_second_line = take 16 first_line.
Proof.
  unfold long_second_line. rewrite take_app.
  rewrite (take_nonpos (16 - zlen first_line))
    by (apply Z.leb_le; reflexivity).
  apply app_nil_r.
Qed.

Lemma long_second_line_drop16 :
  drop 16 long_second_line
  = drop 16 first_line ++ zrepeat x78 2097152 ++ [NL].
Proof.
  unfold long_second_line. rewrite drop_app.
  rewrite (drop_nonpos (16 - zlen first_line))
    by (apply Z.leb_le; reflexivity).
  reflexivity.
Qed.

Lemma long_second_line_refill :
  take (2097152 - (zlen (take 16 first_line) - 0))
    (drop 16 first_line ++ zrepeat x78 2097152 ++ [NL])
  = drop 16 first_line ++ zrepeat x78 2097132.
Proof.
  change (zlen (take 16 first_line)) with 16.
  rewrite take_app.
  rewrite (take_all _ (drop 16 first_line)) by (apply Z.leb_le; reflexivity).
  rewrite take_app.
  change (zlen (drop 16 first_line)) with 4.
  rewrite take_zrepeat by lia.
  rewrite take_nonpos by (rewrite zlen_zrepeat; lia).
  rewrite app_nil_r. reflexivity.
Qed.

Lemma long_second_line_does_not_fit :
  lines_fit 2097152 0 long_second_line = false.
Proof.
  unfold long_second_line.
  change first_line with (take 19 first_line ++ [NL]).
  rewrite <- app_assoc. cbn [app].
  rewrite lines_fit_app_newline.
  rewrite lines_fit_zrepeat by (reflexivity || lia).
  cbn [lines_fit]. change (Byte.eqb NL NL) with true.
  change (0 + 2097152 + 1 <=? 2097152) with false.
  cbn [andb]. apply andb_false_r.
Qed.

(** The file holds a line of 2 MiB + 1 bytes, over the cap of 2 MiB; read
    through a caller's buffer of 2 MiB, the pass hands out the first line
    and ends with Nomem, not with MalformedInput. *)
Lemma long_line_in_callers_buffer_ends_in_nomem :
  lines_fit 2097152 0 long_second_line = false
  /\ exists t : textRFILE (plink2 (one_file long_second_line)),
       open_and_read (plink2 (one_file long_second_line)) 2 1 "f"
         2097152 2097152 true
       = Ret ([first_line], kPglRetNomem, t).
Proof.
  split; [exact long_second_line_does_not_fit|].
  unfold open_and_read.
  rewrite (open_plain_with_buffer (plink2 (one_file long_second_line)) "f"
             long_second_line 2097152 2097152);
    [ | reflexivity | reflexivity
      | rewrite long_second_line_take16; apply Z.leb_le; reflexivity
      | rewrite long_second_line_take16; reflexivity ].
  rewrite long_second_line_take16, long_second_line_drop16.
  cbn [read_all].
  match goal with
  | |- context [Some (mkFILE ?a ?b ?c ?d ?e)] => set (f0 := mkFILE a b c d e)
  end.
  set (X0 := plink2 (one_file long_second_line)).
  rewrite (advance_plain_full_found X0 0 None f0 (take 16 first_line) 0
             2097152 2097152 true [] (RdsNone X0) 3); cbv zeta.
  2: split; reflexivity.
  2-12: try (subst f0; cbn [f_rest]; rewrite long_second_line_refill).
  2-12: change (zlen (take 16 first_line)) with 16.
  2-12: try change (kDecompressChunkSizeX X0) with 1048576.
  2-12: try change (kMaxBytesPerIO X0) with 0x7ffff000.
  2-12: try change (dst_alloc _) with 2097152.
  2-12: try (unfold u32; rewrite ?Z.mod_small by lia; lia).
  2-3: try (rewrite zlen_app, zlen_zrepeat;
            change (zlen (drop 16 first_line)) with 4; lia).
  2: rewrite find_last_app_none by (apply find_last_zrepeat; reflexivity);
     reflexivity.
  change (zlen (take 16 first_line) - 0 + Z.of_nat 3 + 1) with 20.
  unfold consume_all.
  cbn [base rds consume_iter consume_stop errmsg reterr ff dst
         dst_len dst_capacity enforced_max_line_blen dst_owned_by_consumer
         file_type heap_log].
  match goal with
  | |- context [mkBase _ _ _ _ (Some ?f) (Some ?m) _ _ _ _ _ _] =>
      set (f1 := f); set (mem1 := m)
  end.
  rewrite (advance_nomem_consumer X0 0 None f1 mem1 20 2097152 2097152
             2097152 kFileUncompressed [] (RdsNone X0))
    by (change (kDecompressChunkSizeX X0) with 1048576;
        rewrite (u32_small 20) by lia; rewrite !u32_small by lia; lia).
  eexists.
  cbn [slice base dst consume_iter consume_stop].
  unfold sub. subst mem1 f1 f0. cbn [f_rest].
  rewrite long_second_line_refill.
  rewrite drop_nonpos by lia.
  rewrite drop_nonpos by lia.
  rewrite take_app.
  change (20 - 0 - zlen (take 16 first_line)) with 4.
  rewrite (take_all _ (take 16 first_line)) by (apply Z.leb_le; reflexivity).
  rewrite take_app, (take_all _ (drop 16 first_line))
    by (apply Z.leb_le; reflexivity).
  rewrite (take_nonpos (4 - zlen (drop 16 first_line)))
    by (apply Z.leb_le; reflexivity).
  reflexivity.
Qed.

Lemma open_shape (X : externs) (fname : string) (blen cap : Z)
    (dst_arg : bool) (t : textRFILE X) :
  0 <= cap < 2 ^ 32 -> 0 <= 2 * kDecompressChunkSizeX X < 2 ^ 32 ->
  TextRfileOpenEx fname blen cap dst_arg (PreinitTextRfile X)
    = Ret (kPglRetSuccess, t) ->
  enforced_max_line_blen (base t) = blen /\ dst_alloc (base t) < 2 ^ 32.
Proof.
  intros Hcap Hchunk.
  unfold TextRfileOpenEx, TextRfileOpenInternal, open_args_check,
    open_file_and_probe, open_ret.
  cbn [PreinitTextRfile base ff rds heap_log].
  intros H.
  repeat break_match_hyp; try discriminate;
    first [injection H as <- | injection H as ? <-];
    (split; [reflexivity|]); unfold dst_alloc, set_err;
    cbn [base heap_log app rev dst_capacity];
    first [lia | exact (proj2 Hchunk)].
Qed.

(** X25: in line mode no slice of a pass holds a line longer than
    [enforced_max_line_blen]: every slice that [TextRfileAdvance] hands
    out has passed the guard, and a 0 from the guard means that every line
    of the region fits.  And the guard, asked about a region inside the
    buffer whose already-scanned part [line_start, load_start) holds no
    ['\n'], as its comment requires, answers 1 exactly when some line of
    the region does not fit.  ([TextRfileAdvance] does not see to that
    condition; what follows from that is the matter of C3.) *)
Theorem slices_hold_no_overlong_line :
  forall X : externs,
    (forall (rounds fuel : nat) (fname : string) (blen cap : Z)
            (dst_arg : bool) (sl : list (list byte)) (e : PglErr)
            (t : textRFILE X),
        0 <= 2 * kDecompressChunkSizeX X < 2 ^ 32 ->
        0 < blen < 2 ^ 32 -> 0 <= cap < 2 ^ 32 ->
        open_and_read X rounds fuel fname blen cap dst_arg = Ret (sl, e, t) ->
        Forall (fun s => lines_fit blen 0 s = true) sl)
    /\ (forall (mem : list byte) (load_start stop blen : Z),
           0 < blen < 2 ^ 32 -> 0 <= load_start < 2 ^ 32 ->
           0 <= stop < 2 ^ 32 -> stop <= zlen mem ->
           no_newline (take load_start mem) ->
           IsPathologicallyLongLineOrTokenX X mem 0 load_start stop blen
           = Ret (negb (lines_fit blen 0 (take stop mem)))).
Proof.
  intros X. split.
  - intros rounds fuel fname blen cap dst_arg sl e t Hchunk Hblen Hcap.
    unfold open_and_read.
    destruct (TextRfileOpenEx fname blen cap dst_arg (PreinitTextRfile X))
      as [[e0 t0]| | |] eqn:Eopen; try discriminate.
    destruct e0; try (intros H; injection H as <- _ _; constructor).
    destruct (open_shape X fname blen cap dst_arg t0 Hcap Hchunk Eopen)
      as [Hb Ha].
    intros H. rewrite <- Hb.
    apply (read_all_lines_fit X fuel rounds t0 sl e t);
      [rewrite Hb; exact Hblen | exact Ha | exact H].
  - intros mem load_start stop blen Hblen Hload Hstop Hin Hno.
    destruct (guard_line_mode X mem load_start stop blen Hblen Hload Hstop)
      as (g & -> & Hf & Ht).
    destruct g.
    + rewrite (Ht eq_refl Hin Hno). reflexivity.
    + rewrite (Hf eq_refl). reflexivity.
Qed.

Lemma slices_hold_no_overlong_line_witness :
  Forall (fun s => lines_fit 1048576 0 s = true)
    [[x61; x0a; x62; x62; x0a; x63; x63; x63; x0a]]
  /\ IsPathologicallyLongLineOrTokenX (plink2 (one_file three_lines))
       three_lines 0 0 5 2
     = Ret (negb (lines_fit 2 0 (take 5 three_lines))).
Proof.
  split.
  - apply (proj1 (slices_hold_no_overlong_line
                    (plink2 (one_file three_lines)))
             2%nat 1%nat "f"%string 1048576 0 false _ kPglRetEof
             (mkRfile
                (mkBase (Some 0) (Some 9) None kPglRetEof
                   (Some (mkFILE three_lines [] true false None))
                   (Some []) 0 2097152 1048576 false kFileUncompressed
                   [EvMalloc 2097152])
                (RdsNone _))).
    + cbn. lia.
    + lia.
    + lia.
    + reflexivity.
  - apply (proj2 (slices_hold_no_overlong_line
                    (plink2 (one_file three_lines)))).
    + lia.
    + lia.
    + lia.
    + cbn. lia.
    + reflexivity.
Defined.

(* ------------------------------------------------------------------ *)
(** ** [GzRawStreamRead] *)

Lemma fread_shrinks (n : Z) (f : FILE) (buf : list byte) (f1 : FILE) :
  fread_unlocked n f = (buf, f1) -> buf <> [] ->
  (length (f_rest f1) < length (f_rest f))%nat.
Proof.
  unfold fread_unlocked. intros H Hne.
  assert (Hdrop : forall k, 0 < k -> f_rest f <> [] ->
                    (length (drop k (f_rest f)) < length (f_rest f))%nat).
  { intros k Hk Hr. pose proof (zlen_drop k (f_rest f)) as Hd.
    unfold zlen in Hd. destruct (f_rest f) as [|x l]; [congruence|].
    cbn [length] in *. lia. }
  assert (Htake : forall k l, take k l <> [] -> 0 < k /\ l <> []).
  { intros k l Ht. split.
    - destruct (Z_le_gt_dec k 0); [|lia].
      rewrite take_nonpos in Ht by lia. congruence.
    - destruct l; [cbn in Ht|]; congruence. }
  destruct (f_bad f) as [k|].
  - destruct (k <? zlen (take n (f_rest f))) eqn:E.
    + injection H as <- <-. cbn [f_rest].
      apply Htake in Hne as [Hk Hne]. apply Htake in Hne as [_ Hne].
      apply Hdrop; assumption.
    + injection H as <- <-. cbn [f_rest].
      apply Htake in Hne as [Hk Hne]. apply Hdrop; assumption.
  - injection H as <- <-. cbn [f_rest].
    apply Htake in Hne as [Hk Hne]. apply Hdrop; assumption.
Qed.

(** The loop of [GzRawStreamRead] ends within its fuel: it returns, or,
    in a build with assertions, stops at [assert(dst_iter == dst_end)]. *)
Lemma GzRawStreamRead_loop_returns (X : externs) :
  forall (fuel : nat) (room : Z) (f : FILE) (ds : z_stream X)
         (avail out : list byte) (log : list gz_event),
    (length (f_rest f) < fuel)%nat ->
    (exists r log',
        GzRawStreamRead_loop X fuel room f ds avail out log = Ret (r, log'))
    \/ (NDEBUG X = false
        /\ GzRawStreamRead_loop X fuel room f ds avail out log = AssertFail).
Proof.
  induction fuel as [|fuel IH]; intros room f ds avail out log Hfuel; [lia|].
  assert (Hrefill :
    forall (z : Z) (ds1 : z_stream X) (out1 : list byte)
           (log1 : list gz_event),
      let res :=
        (let '(buf, f1) := fread_unlocked (kDecompressChunkSizeX X) f in
         let log2 := log1 ++ [GzFread (zlen buf) (feof_unlocked f1)] in
         let gz1 := mkGz X (Some ds1) buf true in
         match buf with
         | [] =>
             if negb (feof_unlocked f1) then
               Ret (mk_raw_read kPglRetReadFail (Some strerror_errno) [] f1
                      gz1, log2)
             else if z =? Z_OK then
               Ret (mk_raw_read kPglRetDecompressFail
                      (Some kShortErrRfileTruncatedGz) [] f1 gz1, log2)
             else Ret (mk_raw_read kPglRetSuccess None out1 f1 gz1, log2)
         | _ :: _ =>
             if zlen out1 =? room then
               Ret (mk_raw_read kPglRetSuccess None out1 f1 gz1, log2)
             else GzRawStreamRead_loop X fuel room f1 ds1 buf out1 log2
         end) in
      (exists r log', res = Ret (r, log'))
      \/ (NDEBUG X = false /\ res = AssertFail)).
  { intros z ds1 out1 log1 res. subst res.
    destruct (fread_unlocked (kDecompressChunkSizeX X) f) as [buf f1] eqn:Er.
    destruct buf as [|x buf].
    - destruct (negb (feof_unlocked f1));
        [left; eexists; eexists; reflexivity|].
      destruct (z =? Z_OK); left; eexists; eexists; reflexivity.
    - destruct (zlen out1 =? room);
        [left; eexists; eexists; reflexivity|].
      apply IH.
      pose proof (fread_shrinks _ _ _ _ Er ltac:(discriminate)). lia. }
  cbn [GzRawStreamRead_loop].
  destruct avail as [|a avail]; [apply Hrefill|].
  set (r0 := inflate X ds (a :: avail) (u32 (room - zlen out))).
  destruct ((zerr r0 <? 0) || (zerr r0 =? Z_NEED_DICT));
    [left; eexists; eexists; reflexivity|].
  destruct (drop (z_consumed r0) (a :: avail)) as [|b rest];
    [apply Hrefill|].
  destruct (NDEBUG X) eqn:En; cbn [orb].
  - left. eexists. eexists. reflexivity.
  - destruct (zlen (out ++ z_out r0) =? room).
    + left. eexists. eexists. reflexivity.
    + right. split; reflexivity.
Qed.

(** One iteration of the loop that comes to its [fread_unlocked]: what
    is left is the part of the body from the read on. *)
Lemma GzRawStreamRead_loop_to_fread (X : externs) (fuel : nat) (room : Z)
    (f : FILE) (ds : z_stream X) (avail out : list byte)
    (log : list gz_event) (code : Z) (ds1 : z_stream X)
    (out1 : list byte) :
  gz_to_fread room (f, ds, avail, out) code ds1 out1 ->
  exists log1,
    GzRawStreamRead_loop X (S fuel) room f ds avail out log
    = (let '(buf, f1) := fread_unlocked (kDecompressChunkSizeX X) f in
       let log2 := log1 ++ [GzFread (zlen buf) (feof_unlocked f1)] in
       let gz1 := mkGz X (Some ds1) buf true in
       match buf with
       | [] =>
           if negb (feof_unlocked f1) then
             Ret (mk_raw_read kPglRetReadFail (Some strerror_errno) [] f1
                    gz1, log2)
           else if code =? Z_OK then
             Ret (mk_raw_read kPglRetDecompressFail
                    (Some kShortErrRfileTruncatedGz) [] f1 gz1, log2)
           else Ret (mk_raw_read kPglRetSuccess None out1 f1 gz1, log2)
       | _ :: _ =>
           if zlen out1 =? room then
             Ret (mk_raw_read kPglRetSuccess None out1 f1 gz1, log2)
           else GzRawStreamRead_loop X fuel room f1 ds1 buf out1 log2
       end).
Proof.
  unfold gz_to_fread. cbn [GzRawStreamRead_loop].
  destruct avail as [|a avail].
  - intros (-> & -> & ->). exists log. reflexivity.
  - cbv zeta. intros (-> & Hpos & Hdict & Hrest & -> & ->).
    exists (log ++ [GzInflate
                      (zerr (inflate X ds (a :: avail)
                               (u32 (room - zlen out))))]).
    replace (zerr (inflate X ds (a :: avail) (u32 (room - zlen out))) <? 0)
      with false by (symmetry; apply Z.ltb_ge; exact Hpos).
    replace (zerr (inflate X ds (a :: avail) (u32 (room - zlen out)))
             =? Z_NEED_DICT)
      with false by (symmetry; apply Z.eqb_neq; exact Hdict).
    cbn [orb]. rewrite Hrest. reflexivity.
Qed.

(** Going round the loop uses up fuel, and the fuel that is left still
    covers the rest of the file. *)
Lemma gz_iter_unfold (X : externs) (room : Z) (s s' : gz_point X) :
  gz_iter room s s' ->
  forall (fuel : nat) (log : list gz_event),
    (length (f_rest (fst (fst (fst s)))) < fuel)%nat ->
    exists (fuel' : nat) (log' : list gz_event),
      (length (f_rest (fst (fst (fst s')))) < fuel')%nat
      /\ (let '(f, ds, avail, out) := s in
          GzRawStreamRead_loop X fuel room f ds avail out log)
         = (let '(f, ds, avail, out) := s' in
            GzRawStreamRead_loop X fuel' room f ds avail out log').
Proof.
  induction 1 as [s | f ds avail out code ds1 out1 x buf f1 s' Hto Hread
                      Hroom Hiter IH]; intros fuel log Hfuel.
  - exists fuel, log. split; [exact Hfuel | reflexivity].
  - cbn [fst] in Hfuel.
    destruct fuel as [|fuel]; [lia|].
    destruct (GzRawStreamRead_loop_to_fread X fuel room f ds avail out log
                code ds1 out1 Hto) as [log1 Hstep].
    rewrite Hread in Hstep.
    replace (zlen out1 =? room) with false in Hstep
      by (symmetry; apply Z.eqb_neq; exact Hroom).
    pose proof (fread_shrinks _ _ _ _ Hread ltac:(discriminate)) as Hsh.
    destruct (IH fuel (log1 ++ [GzFread (zlen (x :: buf))
                                  (feof_unlocked f1)]))
      as (fuel' & log' & Hfuel' & Heq).
    { cbn [fst]. lia. }
    exists fuel', log'. split; [exact Hfuel'|].
    rewrite Hstep. exact Heq.
Qed.

(** What the loop returns when the iteration it is in reads zero bytes at
    end of file. *)
Lemma GzRawStreamRead_loop_zero_read (X : externs) (room : Z)
    (f : FILE) (ds : z_stream X) (avail out : list byte) (code : Z)
    (out1 : list byte) (fuel : nat) (log : list gz_event) :
  gz_zero_read_at_eof room (f, ds, avail, out) code out1 ->
  (0 < fuel)%nat ->
  exists r log',
    GzRawStreamRead_loop X fuel room f ds avail out log = Ret (r, log')
    /\ (code = Z_OK -> is_truncated_gz r)
    /\ (code <> Z_OK ->
        rr_err r = kPglRetSuccess /\ rr_msg r = None /\ rr_out r = out1).
Proof.
  intros (ds1 & f1 & Hto & Hread & Heof) Hfuel. cbn [fst] in Hread.
  destruct fuel as [|fuel]; [lia|].
  destruct (GzRawStreamRead_loop_to_fread X fuel room f ds avail out log
              code ds1 out1 Hto) as [log1 Hstep].
  rewrite Hread, Heof in Hstep. cbn [negb] in Hstep.
  rewrite Hstep.
  destruct (code =? Z_OK) eqn:Ecode.
  - eexists. eexists. split; [reflexivity|].
    split; [intros _; split; reflexivity | lia].
  - eexists. eexists. split; [reflexivity|].
    split; [lia | intros _; repeat split].
Qed.

(** A loop that returns the truncation error has come to an iteration
    that reads zero bytes at end of file with [Z_OK] in [zerr]. *)
Lemma GzRawStreamRead_loop_truncated (X : externs) (room : Z) :
  forall (fuel : nat) (f : FILE) (ds : z_stream X) (avail out : list byte)
         (log : list gz_event) (r : raw_read (GzRawDecompressStream X))
         (log' : list gz_event),
    GzRawStreamRead_loop X fuel room f ds avail out log = Ret (r, log') ->
    is_truncated_gz r ->
    exists (s : gz_point X) (out1 : list byte),
      gz_iter room (f, ds, avail, out) s
      /\ gz_zero_read_at_eof room s Z_OK out1.
Proof.
  induction fuel as [|fuel IH]; intros f ds avail out log r log' H Ht;
    [discriminate|].
  assert (Hrefill :
    forall (z : Z) (ds1 : z_stream X) (out1 : list byte)
           (log1 : list gz_event),
      gz_to_fread room (f, ds, avail, out) z ds1 out1 ->
      (let '(buf, f1) := fread_unlocked (kDecompressChunkSizeX X) f in
       let log2 := log1 ++ [GzFread (zlen buf) (feof_unlocked f1)] in
       let gz1 := mkGz X (Some ds1) buf true in
       match buf with
       | [] =>
           if negb (feof_unlocked f1) then
             Ret (mk_raw_read kPglRetReadFail (Some strerror_errno) [] f1
                    gz1, log2)
           else if z =? Z_OK then
             Ret (mk_raw_read kPglRetDecompressFail
                    (Some kShortErrRfileTruncatedGz) [] f1 gz1, log2)
           else Ret (mk_raw_read kPglRetSuccess None out1 f1 gz1, log2)
       | _ :: _ =>
           if zlen out1 =? room then
             Ret (mk_raw_read kPglRetSuccess None out1 f1 gz1, log2)
           else GzRawStreamRead_loop X fuel room f1 ds1 buf out1 log2
       end) = Ret (r, log') ->
      exists (s : gz_point X) (out2 : list byte),
        gz_iter room (f, ds, avail, out) s
        /\ gz_zero_read_at_eof room s Z_OK out2).
  { intros z ds1 out1 log1 Hto Hres.
    destruct (fread_unlocked (kDecompressChunkSizeX X) f) as [buf f1] eqn:Er.
    destruct buf as [|x buf].
    - destruct (feof_unlocked f1) eqn:Eeof; cbn [negb] in Hres.
      + destruct (z =? Z_OK) eqn:Ez.
        * apply Z.eqb_eq in Ez. subst z.
          exists (f, ds, avail, out), out1. split; [apply gz_here|].
          exists ds1, f1. split; [exact Hto|]. split; [exact Er | exact Eeof].
        * injection Hres as <- _. destruct Ht as [He _]. discriminate.
      + injection Hres as <- _. destruct Ht as [He _]. discriminate.
    - destruct (zlen out1 =? room) eqn:Eroom.
      + injection Hres as <- _. destruct Ht as [He _]. discriminate.
      + destruct (IH _ _ _ _ _ _ _ Hres Ht) as (s & out2 & Hiter & Hzero).
        exists s, out2. split; [|exact Hzero].
        eapply gz_refill;
          [exact Hto | exact Er | apply Z.eqb_neq; exact Eroom
          | exact Hiter]. }
  cbn [GzRawStreamRead_loop] in H.
  destruct avail as [|a avail].
  - apply (Hrefill Z_OK ds out log); [|exact H]. repeat split.
  - set (r0 := inflate X ds (a :: avail) (u32 (room - zlen out))) in *.
    destruct ((zerr r0 <? 0) || (zerr r0 =? Z_NEED_DICT)) eqn:Ebad.
    + injection H as <- _. destruct Ht as [_ Hm]. discriminate.
    + apply orb_false_iff in Ebad as [Eneg Edict].
      destruct (drop (z_consumed r0) (a :: avail)) as [|b rest] eqn:Erest.
      * apply (Hrefill (zerr r0) (z_next r0) (out ++ z_out r0)
                 (log ++ [GzInflate (zerr r0)])); [|exact H].
        unfold gz_to_fread. cbv zeta. fold r0. rewrite Erest.
        repeat split; [apply Z.ltb_ge; exact Eneg
                      | apply Z.eqb_neq; exact Edict].
      * destruct (NDEBUG X || (zlen (out ++ z_out r0) =? room));
          [|discriminate].
        injection H as <- _. destruct Ht as [He _]. discriminate.
Qed.

(** [GzRawStreamRead] on a decoder that has been set up enters its loop
    unless the window is empty and the stream at end of file. *)
Lemma GzRawStreamRead_enters_loop (X : externs) (room : Z) (f : FILE)
    (gz : GzRawDecompressStream X) (ds : z_stream X) :
  gz_ds gz = Some ds ->
  gz_avail gz <> [] \/ feof_unlocked f = false ->
  GzRawStreamRead_log room f gz
  = GzRawStreamRead_loop X (S (length (f_rest f))) room f ds (gz_avail gz)
      [] [].
Proof.
  intros Hds Hin. unfold GzRawStreamRead_log. rewrite Hds.
  destruct (gz_avail gz) as [|a avail]; [|reflexivity].
  destruct Hin as [Hin | ->]; [congruence | reflexivity].
Qed.

(** C6.  [GzRawStreamRead], called on a decoder that has been set up,
    returns (in a build with assertions it may stop at
    [assert(dst_iter == dst_end)] instead).  When [avail_in] is zero and
    the stream is at end of file on entry, it returns success at once;
    otherwise it enters its loop.  Take the iterations of the loop as
    [inflate] and [fread_unlocked] drive them ([gz_iter]).  If the loop
    comes to an iteration in which [fread_unlocked] delivers zero bytes and
    leaves the stream at end of file while [zerr], the code that [inflate]
    returned in that iteration, is [Z_OK] (it is also [Z_OK] when
    [avail_in] was zero and no [inflate] call was made), the call returns
    [kPglRetDecompressFail] with the message "GzRawStreamRead: gzipped file
    appears to be truncated"; and it returns that code with that message in
    no other case.  If the zero-byte read at end of file comes after
    [inflate] has returned [Z_STREAM_END], the call returns
    [kPglRetSuccess] with what has been written. *)
Theorem GzRawStreamRead_truncated_exactly_on_zero_fread_after_Z_OK :
  forall (X : externs) (room : Z) (f : FILE) (gz : GzRawDecompressStream X)
         (ds : z_stream X),
    gz_ds gz = Some ds ->
    let entered := gz_avail gz <> [] \/ feof_unlocked f = false in
    let s0 : gz_point X := (f, ds, gz_avail gz, []) in
    ((exists r, GzRawStreamRead room f gz = Ret r)
     \/ (NDEBUG X = false /\ GzRawStreamRead room f gz = AssertFail))
    /\ (forall (s : gz_point X) (out1 : list byte),
           entered -> gz_iter room s0 s ->
           gz_zero_read_at_eof room s Z_OK out1 ->
           exists r, GzRawStreamRead room f gz = Ret r /\ is_truncated_gz r)
    /\ (forall r, GzRawStreamRead room f gz = Ret r -> is_truncated_gz r ->
           entered
           /\ exists (s : gz_point X) (out1 : list byte),
                gz_iter room s0 s
                /\ gz_zero_read_at_eof room s Z_OK out1)
    /\ (forall (s : gz_point X) (out1 : list byte),
           entered -> gz_iter room s0 s ->
           gz_zero_read_at_eof room s Z_STREAM_END out1 ->
           exists r, GzRawStreamRead room f gz = Ret r
                     /\ rr_err r = kPglRetSuccess /\ rr_msg r = None
                     /\ rr_out r = out1).
Proof.
  intros X room f gz ds Hds entered s0.
  assert (Hreach : forall (s : gz_point X) (code : Z) (out1 : list byte),
             entered -> gz_iter room s0 s ->
             gz_zero_read_at_eof room s code out1 ->
             exists r, GzRawStreamRead room f gz = Ret r
                       /\ (code = Z_OK -> is_truncated_gz r)
                       /\ (code <> Z_OK ->
                           rr_err r = kPglRetSuccess /\ rr_msg r = None
                           /\ rr_out r = out1)).
  { intros s code out1 Hin Hiter Hzero.
    unfold GzRawStreamRead.
    rewrite (GzRawStreamRead_enters_loop X room f gz ds Hds Hin).
    destruct (gz_iter_unfold X room s0 s Hiter (S (length (f_rest f))) [])
      as (fuel' & log' & Hfuel' & Heq).
    { subst s0. cbn [fst]. lia. }
    subst s0. cbv beta iota in Heq. rewrite Heq.
    destruct s as [[[f' ds'] avail'] out'].
    destruct (GzRawStreamRead_loop_zero_read X room f' ds' avail' out' code
                out1 fuel' log' Hzero ltac:(lia)) as (r & log2 & -> & Hr).
    exists r. split; [reflexivity | exact Hr]. }
  split; [|split; [|split]].
  - unfold GzRawStreamRead, GzRawStreamRead_log. rewrite Hds.
    assert (Hloop : forall avail,
               let res :=
                 match GzRawStreamRead_loop X (S (length (f_rest f))) room f
                         ds avail [] [] with
                 | Ret (r0, _) => Ret r0
                 | AssertFail => AssertFail
                 | Undefined => Undefined
                 | OutOfFuel => OutOfFuel
                 end in
               (exists r, res = Ret r)
               \/ (NDEBUG X = false /\ res = AssertFail)).
    { intros avail res. subst res.
      destruct (GzRawStreamRead_loop_returns X (S (length (f_rest f)))
                  room f ds avail [] [] (Nat.lt_succ_diag_r _))
        as [(r0 & l0 & ->) | [Hn ->]].
      - left. exists r0. reflexivity.
      - right. split; [exact Hn | reflexivity]. }
    destruct (gz_avail gz) as [|a avail]; [|apply Hloop].
    destruct (feof_unlocked f); [|apply Hloop].
    left. eexists. reflexivity.
  - intros s out1 Hin Hiter Hzero.
    destruct (Hreach s Z_OK out1 Hin Hiter Hzero) as (r & Hr & Ht & _).
    exists r. split; [exact Hr | apply Ht; reflexivity].
  - intros r Hr Ht.
    assert (Hin : entered).
    { subst entered. destruct (gz_avail gz) as [|a avail] eqn:Eav;
        [|left; discriminate].
      destruct (feof_unlocked f) eqn:Eeof; [|right; reflexivity].
      exfalso. unfold GzRawStreamRead, GzRawStreamRead_log in Hr.
      rewrite Hds, Eav, Eeof in Hr. injection Hr as <-.
      destruct Ht as [He _]. discriminate. }
    split; [exact Hin|].
    unfold GzRawStreamRead in Hr.
    rewrite (GzRawStreamRead_enters_loop X room f gz ds Hds Hin) in Hr.
    destruct (GzRawStreamRead_loop X (S (length (f_rest f))) room f ds
                (gz_avail gz) [] []) as [[r0 l0]| | |] eqn:Eloop;
      try discriminate.
    injection Hr as ->.
    exact (GzRawStreamRead_loop_truncated X room _ _ _ _ _ _ _ _ Eloop Ht).
  - intros s out1 Hin Hiter Hzero.
    destruct (Hreach s Z_STREAM_END out1 Hin Hiter Hzero) as (r & Hr & _ & Hs).
    exists r. split; [exact Hr | apply Hs; discriminate].
Qed.

Lemma GzRawStreamRead_truncated_exactly_on_zero_fread_after_Z_OK_witness :
  let X0 := plink2 (one_file []) in
  (exists r,
      GzRawStreamRead 10 (fopen_data [x62])
        (mkGz X0 (Some false) [x61] true) = Ret r
      /\ is_truncated_gz r)
  /\ (exists r,
         GzRawStreamRead 10 (fopen_data whole_stream)
           (mkGz X0 (Some false) cut_stream true) = Ret r
         /\ rr_err r = kPglRetSuccess /\ rr_msg r = None
         /\ rr_out r = [x61; x62; x61]).
Proof.
  intros X0. split.
  - refine (proj1 (proj2
      (GzRawStreamRead_truncated_exactly_on_zero_fread_after_Z_OK
         X0 10 (fopen_data [x62]) (mkGz X0 (Some false) [x61] true) false
         eq_refl))
      (snd (fread_unlocked 1048576 (fopen_data [x62])), false, [x62], [x61])
      [x61; x62] _ _ _).
    + left. discriminate.
    + eapply gz_refill.
      * cbn. repeat split; unfold Z_OK, Z_STREAM_END, Z_NEED_DICT; lia.
      * reflexivity.
      * discriminate.
      * apply gz_here.
    + eexists. eexists. split; [|split].
      * cbn. repeat split; unfold Z_OK, Z_STREAM_END, Z_NEED_DICT; lia.
      * reflexivity.
      * reflexivity.
  - refine (proj2 (proj2 (proj2
      (GzRawStreamRead_truncated_exactly_on_zero_fread_after_Z_OK
         X0 10 (fopen_data whole_stream)
         (mkGz X0 (Some false) cut_stream true) false eq_refl)))
      (snd (fread_unlocked 1048576 (fopen_data whole_stream)), false,
       whole_stream, cut_stream)
      [x61; x62; x61] _ _ _).
    + left. discriminate.
    + eapply gz_refill.
      * cbn. repeat split; unfold Z_OK, Z_STREAM_END, Z_NEED_DICT; lia.
      * reflexivity.
      * discriminate.
      * apply gz_here.
    + eexists. eexists. split; [|split].
      * cbn. repeat split; unfold Z_OK, Z_STREAM_END, Z_NEED_DICT; lia.
      * reflexivity.
      * reflexivity.
Defined.


(* ------------------------------------------------------------------ *)
(** ** The BGZF loop *)

Lemma fread_accounts (n : Z) (f : FILE) (buf : list byte) (f1 : FILE) :
  fread_unlocked n f = (buf, f1) ->
  zlen buf + zlen (f_rest f1) = zlen (f_rest f) /\ zlen buf <= Z.max 0 n.
Proof.
  unfold fread_unlocked. intros H.
  pose proof (zlen_nonneg (f_rest f)) as Hr.
  destruct (f_bad f) as [k|].
  - destruct (k <? zlen (take n (f_rest f))) eqn:E.
    + apply Z.ltb_lt in E. injection H as <- <-. cbn [f_rest].
      rewrite zlen_take in E. rewrite !zlen_take, zlen_drop. lia.
    + injection H as <- <-. cbn [f_rest].
      rewrite zlen_take, zlen_drop. lia.
  - injection H as <- <-. cbn [f_rest].
    rewrite zlen_take, zlen_drop. lia.
Qed.

(** The loop ends within the fuel [TextRfileAdvance] gives it: a decoded
    block shortens the buffered input, a refill shortens the file. *)
Lemma bgzf_loop_returns (X : externs) :
  forall (fuel : nat) (room : Z) (f : FILE) (inb : list byte)
         (in_iter : Z) (out : list byte),
    0 <= in_iter <= zlen inb ->
    zlen inb <= kDecompressChunkSizeX X < 2 ^ 32 ->
    zlen inb - in_iter + 2 * zlen (f_rest f) < Z.of_nat fuel ->
    bgzf_loop X fuel room f inb in_iter out <> OutOfFuel.
Proof.
  induction fuel as [|fuel IH]; intros room f inb in_iter out Hi Hc Hfuel.
  - pose proof (zlen_nonneg (f_rest f)). lia.
  - cbn [bgzf_loop].
    rewrite (u32_small (zlen inb - in_iter)) by lia.
    set (n := zlen inb - in_iter).
    assert (Hload :
      (let '(buf, f1) :=
         fread_unlocked (u32 (kDecompressChunkSizeX X - n)) f in
       if ferror_unlocked f1 then
         Ret (mk_raw_read kPglRetReadFail (Some strerror_errno) [] f1
                (mkBgzf (sub inb in_iter n ++ buf) in_iter true))
       else
         match buf with
         | [] =>
             if negb (n =? 0) then
               Ret (mk_raw_read kPglRetDecompressFail
                      (Some kShortErrInvalidBgzf) [] f1
                      (mkBgzf (sub inb in_iter n) in_iter true))
             else
               Ret (mk_raw_read kPglRetSuccess None out f1
                      (mkBgzf (sub inb in_iter n) 0 true))
         | _ :: _ =>
             bgzf_loop X fuel room f1 (sub inb in_iter n ++ buf) 0 out
         end) <> OutOfFuel).
    { destruct (fread_unlocked (u32 (kDecompressChunkSizeX X - n)) f)
        as [buf f1] eqn:Er.
      destruct (ferror_unlocked f1); [discriminate|].
      destruct buf as [|x buf]; [destruct (negb (n =? 0)); discriminate|].
      apply fread_accounts in Er as [Hsum Hle].
      rewrite u32_small in Hle by (subst n; lia).
      assert (Hres : zlen (sub inb in_iter n) = n)
        by (apply sub_zlen; subst n; lia).
      rewrite zlen_cons in *. pose proof (zlen_nonneg buf).
      pose proof (zlen_nonneg (f_rest f1)).
      apply IH.
      - rewrite zlen_app, zlen_cons, Hres. subst n. lia.
      - rewrite zlen_app, zlen_cons, Hres. subst n. lia.
      - rewrite zlen_app, zlen_cons, Hres. subst n. lia. }
    destruct (n >? 25) eqn:En; [|exact Hload].
    destruct (negb (IsBgzfHeader X (sub inb in_iter 16))); [discriminate|].
    set (bs := le16 (sub inb (in_iter + 16) 2)).
    destruct (bs <? 25) eqn:Eb; [discriminate|].
    destruct (bs <? n) eqn:Ebn; [|exact Hload].
    apply Z.ltb_ge in Eb. apply Z.ltb_lt in Ebn.
    destruct (le32 (sub inb (in_iter + (bs - 25) + 22) 4) >? 65536);
      [discriminate|].
    destruct (le32 (sub inb (in_iter + (bs - 25) + 22) 4)
              >? uptr X (room - zlen out)); [discriminate|].
    destruct (libdeflate_deflate_decompress X
                (sub inb (in_iter + 18) (bs - 25))
                (le32 (sub inb (in_iter + (bs - 25) + 22) 4)))
      as [blk|]; [|discriminate].
    apply IH; subst n; lia.
Qed.


(** Going round the loop uses up fuel and nothing else. *)
Lemma bgzf_iter_unfold (X : externs) (room : Z) (s s' : bgzf_point) :
  bgzf_iter X room s s' ->
  forall fuel,
    (let '(f, inb, it, out) := s in bgzf_loop X fuel room f inb it out)
    <> OutOfFuel ->
    exists fuel',
      (let '(f, inb, it, out) := s in bgzf_loop X fuel room f inb it out)
      = (let '(f, inb, it, out) := s' in
         bgzf_loop X (S fuel') room f inb it out).
Proof.
  induction 1 as [s | f inb it out blk s' n bs in_sz out_size Hn Hhdr Hbs Ho
                      Hroom Hdec Hiter IH
                    | f inb it out x buf f1 s' n bs Hcase Hread Herr Hiter IH];
    intros fuel Hfuel.
  - destruct s as [[[f inb] it] out].
    destruct fuel as [|fuel]; [exfalso; apply Hfuel; reflexivity|].
    exists fuel. reflexivity.
  - destruct fuel as [|fuel]; [exfalso; apply Hfuel; reflexivity|].
    assert (Hstep : bgzf_loop X (S fuel) room f inb it out
                    = bgzf_loop X fuel room f inb (it + bs + 1) (out ++ blk)).
    { cbn [bgzf_loop]. fold n. fold bs. fold in_sz. fold out_size.
      replace (n >? 25) with true by (symmetry; apply Z.gtb_lt; lia).
      rewrite Hhdr. cbn [negb].
      replace (bs <? 25) with false by (symmetry; apply Z.ltb_ge; lia).
      replace (bs <? n) with true by (symmetry; apply Z.ltb_lt; lia).
      replace (out_size >? 65536) with false
        by (symmetry; rewrite Z.gtb_ltb; apply Z.ltb_ge; lia).
      replace (out_size >? uptr X (room - zlen out)) with false
        by (symmetry; rewrite Z.gtb_ltb; apply Z.ltb_ge; lia).
      rewrite Hdec. reflexivity. }
    rewrite Hstep in Hfuel |- *. apply IH. exact Hfuel.
  - destruct fuel as [|fuel]; [exfalso; apply Hfuel; reflexivity|].
    assert (Hstep : bgzf_loop X (S fuel) room f inb it out
                    = bgzf_loop X fuel room f1 (sub inb it n ++ x :: buf) 0
                        out).
    { cbn [bgzf_loop]. fold n. fold bs. rewrite Hread, Herr.
      destruct Hcase as [Hle | (Hhdr & Hbs & Hnb)].
      - replace (n >? 25) with false
          by (symmetry; rewrite Z.gtb_ltb; apply Z.ltb_ge; lia).
        reflexivity.
      - rewrite Hhdr. cbn [negb].
        replace (bs <? 25) with false by (symmetry; apply Z.ltb_ge; lia).
        replace (bs <? n) with false by (symmetry; apply Z.ltb_ge; lia).
        destruct (n >? 25); reflexivity. }
    rewrite Hstep in Hfuel |- *. apply IH. exact Hfuel.
Qed.


(** C7.  The BGZF loop of [TextRfileAdvance], started on a buffer within
    its bounds, returns; and whenever it comes to the top of an iteration
    with more than 25 bytes buffered it ends in [kPglRetDecompressFail]
    with the message "invalid BGZF" if the header check fails, if
    [bsize_minus1 < 25], or if the block is whole in the buffer and its
    stored uncompressed size is above 65536.  If instead the block passes
    these checks and its uncompressed size is above what is left of the
    output window, the loop stops with success: nothing of the block is
    consumed or decoded, and [in_pos] is left at the block's start. *)
Theorem bgzf_loop_refuses_bad_blocks_and_stops_at_full_window :
  forall (X : externs) (room : Z) (fuel : nat)
         (f0 : FILE) (inb0 : list byte) (it0 : Z) (out0 : list byte)
         (f : FILE) (inb : list byte) (it : Z) (out : list byte),
    0 <= it0 <= zlen inb0 ->
    zlen inb0 <= kDecompressChunkSizeX X < 2 ^ 32 ->
    zlen inb0 - it0 + 2 * zlen (f_rest f0) < Z.of_nat fuel ->
    bgzf_iter X room (f0, inb0, it0, out0) (f, inb, it, out) ->
    let n_inbytes := u32 (zlen inb - it) in
    let bsize_minus1 := le16 (sub inb (it + 16) 2) in
    let out_size := le32 (sub inb (it + (bsize_minus1 - 25) + 22) 4) in
    let invalid_bgzf :=
      exists r, bgzf_loop X fuel room f0 inb0 it0 out0 = Ret r
                /\ rr_err r = kPglRetDecompressFail
                /\ rr_msg r = Some kShortErrInvalidBgzf in
    25 < n_inbytes ->
    (IsBgzfHeader X (sub inb it 16) = false -> invalid_bgzf)
    /\ (bsize_minus1 < 25 -> invalid_bgzf)
    /\ (bsize_minus1 < n_inbytes -> 65536 < out_size -> invalid_bgzf)
    /\ (IsBgzfHeader X (sub inb it 16) = true ->
        25 <= bsize_minus1 < n_inbytes ->
        out_size <= 65536 ->
        uptr X (room - zlen out) < out_size ->
        exists r, bgzf_loop X fuel room f0 inb0 it0 out0 = Ret r
                  /\ rr_err r = kPglRetSuccess
                  /\ rr_out r = out
                  /\ rr_ff r = f
                  /\ bgzf_in (rr_dec r) = inb
                  /\ in_pos (rr_dec r) = it).
Proof.
  intros X room fuel f0 inb0 it0 out0 f inb it out Hi Hc Hfuel Hiter
         n bs out_size invalid_bgzf Hn.
  pose proof (bgzf_loop_returns X fuel room f0 inb0 it0 out0 Hi Hc Hfuel)
    as Hret.
  destruct (bgzf_iter_unfold X room _ _ Hiter fuel Hret) as [fuel' Heq].
  cbv beta iota in Heq. subst invalid_bgzf. rewrite Heq.
  cbn [bgzf_loop]. fold n. fold bs. fold out_size.
  replace (n >? 25) with true by (symmetry; apply Z.gtb_lt; lia).
  split; [|split; [|split]].
  - intros Hhdr. rewrite Hhdr. cbn [negb]. eexists.
    split; [reflexivity|]. split; reflexivity.
  - intros Hbs. destruct (negb (IsBgzfHeader X (sub inb it 16)));
      [eexists; split; [reflexivity|]; split; reflexivity|].
    replace (bs <? 25) with true by (symmetry; apply Z.ltb_lt; lia).
    eexists. split; [reflexivity|]. split; reflexivity.
  - intros Hbs Hout.
    destruct (negb (IsBgzfHeader X (sub inb it 16)));
      [eexists; split; [reflexivity|]; split; reflexivity|].
    destruct (bs <? 25);
      [eexists; split; [reflexivity|]; split; reflexivity|].
    replace (bs <? n) with true by (symmetry; apply Z.ltb_lt; lia).
    replace (out_size >? 65536) with true
      by (symmetry; apply Z.gtb_lt; lia).
    eexists. split; [reflexivity|]. split; reflexivity.
  - intros Hhdr Hbs Hout Hroom. rewrite Hhdr. cbn [negb].
    replace (bs <? 25) with false by (symmetry; apply Z.ltb_ge; lia).
    replace (bs <? n) with true by (symmetry; apply Z.ltb_lt; lia).
    replace (out_size >? 65536) with false
      by (symmetry; rewrite Z.gtb_ltb; apply Z.ltb_ge; lia).
    replace (out_size >? uptr X (room - zlen out)) with true
      by (symmetry; apply Z.gtb_lt; lia).
    eexists. split; [reflexivity|]. repeat split.
Qed.

Lemma bgzf_loop_refuses_bad_blocks_and_stops_at_full_window_witness :
  let X0 := plink2 (one_file short_bsize_block) in
  let f0 := snd (fread_unlocked 16 (fopen_data short_bsize_block)) in
  let inb0 := take 16 short_bsize_block in
  (exists r, bgzf_loop X0 (bgzf_fuel f0 (mkBgzf inb0 0 true)) 2097152 f0
               inb0 0 [] = Ret r
             /\ rr_err r = kPglRetDecompressFail
             /\ rr_msg r = Some kShortErrInvalidBgzf)
  /\ exists t, open_and_read X0 1 1 "f" 1048576 0 false
               = Ret ([], kPglRetDecompressFail, t)
               /\ file_type (base t) = kFileBgzf
               /\ errmsg (base t) = Some kShortErrInvalidBgzf.
Proof.
  intros X0 f0 inb0. split.
  - refine (proj1 (proj2
      (bgzf_loop_refuses_bad_blocks_and_stops_at_full_window
         X0 2097152 (bgzf_fuel f0 (mkBgzf inb0 0 true)) f0 inb0 0 []
         (snd (fread_unlocked 1048560 f0)) short_bsize_block 0 []
         _ _ _ _ _)) _).
    + vm_compute. split; discriminate.
    + vm_compute. split; [discriminate | reflexivity].
    + vm_compute. reflexivity.
    + eapply bgzf_refill.
      * left. vm_compute. discriminate.
      * vm_compute. reflexivity.
      * reflexivity.
      * apply bgzf_here.
    + vm_compute. reflexivity.
    + vm_compute. reflexivity.
  - eexists. split; [vm_compute; reflexivity|]. split; reflexivity.
Defined.


(* ------------------------------------------------------------------ *)
(** ** Growing the buffer *)


Lemma advance_guard_log (X : externs) (b0 : TextRfileBase)
    (r1 : RawDecompressStream X) (f1 : FILE) (log : list heap_event)
    (dst_rem : Z) (mem2 : list byte) (len2 stop : Z)
    (e : PglErr) (t' : textRFILE X) :
  advance_guard b0 r1 f1 log dst_rem mem2 len2 stop = Ret (e, t') ->
  heap_log (base t') = log.
Proof.
  unfold advance_guard, adv_ret.
  destruct (IsPathologicallyLongLineOrTokenX X mem2 0 dst_rem stop _)
    as [[|]| | |]; try discriminate; intros H; injection H as _ <-;
    reflexivity.
Qed.

(** Whatever way the call ends after the [switch], the reader's record of
    allocations is the one the top of the iteration left. *)
Lemma advance_scan_log (X : externs) (b0 : TextRfileBase)
    (log : list heap_event) (dst_rem : Z) (carry : list byte)
    (ld : load_result X) (res : outcome (PglErr * textRFILE X))
    (e : PglErr) (t' : textRFILE X) :
  advance_scan b0 log dst_rem carry ld = ScanRet res ->
  res = Ret (e, t') -> heap_log (base t') = log.
Proof.
  unfold advance_scan. intros H Hres. subst res.
  assert (Hret : forall ci cs m len e0 mo,
             ScanRet (adv_ret (adv_state b0 ci cs (ld_ff ld) m len log)
                        (ld_rds ld) e0 mo) = ScanRet (Ret (e, t')) ->
             heap_log (base t') = log).
  { intros ci cs m len e0 mo H0. unfold adv_ret in H0.
    injection H0 as _ <-. reflexivity. }
  assert (Hguard : forall m len stop,
             ScanRet (advance_guard b0 (ld_rds ld) (ld_ff ld) log dst_rem m
                        len stop) = ScanRet (Ret (e, t')) ->
             heap_log (base t') = log).
  { intros m len stop H0. injection H0 as H0.
    apply advance_guard_log in H0. exact H0. }
  destruct (dst_rem + zlen (ld_loaded ld) >? dst_alloc b0);
    [discriminate|].
  destruct (u32 (dst_rem + zlen (ld_loaded ld)) =? 0);
    [exact (Hret _ _ _ _ _ _ H)|].
  destruct (negb _).
  - destruct (Byte.eqb _ NL); [exact (Hguard _ _ _ H)|].
    destruct (dst_rem + zlen (ld_loaded ld) + 1 >? dst_alloc b0);
      [discriminate|].
    exact (Hguard _ _ _ H).
  - destruct (Memrchr _ dst_rem NL _) as [last|];
      [exact (Hguard _ _ _ H)|].
    destruct (_ >=? enforced_max_line_blen b0); [|discriminate].
    exact (Hret _ _ _ _ _ _ H).
Qed.

(** [TextRfileOpenEx] on a plain file of at least four bytes, with no
    buffer of the caller. *)
Lemma open_plain_reader_owned (X : externs) (fname : string)
    (data : list byte) (blen cap : Z) :
  fopen X fname = Some data ->
  open_args_check X blen cap false true = Ret None ->
  malloc_ok X (2 * kDecompressChunkSizeX X) = true ->
  4 <= zlen (take 16 data) ->
  MagicProbe X (take 16 data) = kFileUncompressed ->
  TextRfileOpenEx fname blen cap false (PreinitTextRfile X)
  = Ret (kPglRetSuccess,
         mkRfile
           (mkBase (Some 0) (Some 0) None kPglRetSuccess
              (Some (mkFILE data (drop 16 data)
                       (zlen (take 16 data) <? 16) false None))
              (Some (take 16 data)) (zlen (take 16 data))
              (u32 (2 * kDecompressChunkSizeX X)) blen false
              kFileUncompressed [EvMalloc (2 * kDecompressChunkSizeX X)])
           (RdsNone X)).
Proof.
  intros Hfs Hchk Hmalloc Hlen Hprobe.
  rewrite <- open_file_type_MagicProbe in Hprobe.
  unfold open_file_type in Hprobe.
  unfold TextRfileOpenEx, TextRfileOpenInternal.
  cbn [PreinitTextRfile base ff]. rewrite Hchk.
  unfold open_file_and_probe. rewrite Hfs, Hmalloc.
  cbn [negb andb fread_unlocked fopen_data f_bad f_rest f_all f_eof f_err
         orb].
  destruct (zlen (take 16 data) >=? 4) eqn:E4; [|lia].
  destruct (IsZstdFrame X (le32 (take 16 data))); [discriminate|].
  destruct (u32 (Z.shiftl (le32 (take 16 data)) 8) =? 143335168).
  { destruct ((zlen (take 16 data) =? 16) && IsBgzfHeader X (take 16 data));
      discriminate. }
  unfold open_ret, set_err. cbn.
  rewrite (take_all (zlen (take 16 data))) by lia. reflexivity.
Qed.



(* ------------------------------------------------------------------ *)
(** ** A buffer that has to grow *)











(* ------------------------------------------------------------------ *)
(** ** A line that outgrows the buffer *)

(** The scan of a full buffer without a ['\n'] in its fresh part, under
    the cap: the loop goes round again. *)
Lemma scan_full_none (X : externs) (b0 : TextRfileBase)
    (log : list heap_event) (rem : Z) (carry loaded : list byte)
    (f1 : FILE) (r : RawDecompressStream X) :
  zlen carry = rem ->
  rem + zlen loaded = dst_capacity b0 ->
  0 < dst_capacity b0 < 2 ^ 32 -> dst_capacity b0 <= dst_alloc b0 ->
  find_last NL loaded = None ->
  dst_capacity b0 < enforced_max_line_blen b0 ->
  advance_scan b0 log rem carry (mk_load loaded false f1 r)
  = ScanAgain X
      (adv_state b0 (Some 0) (consume_stop b0) f1 (carry ++ loaded)
         (dst_capacity b0) log).
Proof.
  intros Hcarry Hfull Hcap Halloc Hfind Hblen.
  pose proof (zlen_nonneg carry). pose proof (zlen_nonneg loaded).
  unfold advance_scan. cbn [ld_loaded ld_end_at_iter ld_ff ld_rds].
  rewrite Hfull.
  destruct (dst_capacity b0 >? dst_alloc b0) eqn:E1; [lia|].
  rewrite (u32_small (dst_capacity b0)) by lia.
  destruct (dst_capacity b0 =? 0) eqn:E2; [lia|].
  rewrite Z.eqb_refl. cbn [negb].
  unfold Memrchr, sub.
  rewrite drop_app, (drop_all rem carry), (drop_nonpos (rem - zlen carry))
    by lia.
  cbn [app]. rewrite take_all by lia. rewrite Hfind.
  destruct (dst_capacity b0 >=? enforced_max_line_blen b0) eqn:E3; [lia|].
  reflexivity.
Qed.

(** The scan after a short read whose last byte is a ['\n'], when the
    region fits the cap. *)
Lemma scan_short_newline (X : externs) (b0 : TextRfileBase)
    (log : list heap_event) (rem : Z) (carry loaded : list byte)
    (f1 : FILE) (r : RawDecompressStream X) :
  0 <= rem ->
  0 < rem + zlen loaded < dst_capacity b0 ->
  dst_capacity b0 < 2 ^ 32 -> rem + zlen loaded <= dst_alloc b0 ->
  Byte.eqb (byte_at (carry ++ loaded) (rem + zlen loaded - 1)) NL = true ->
  0 < enforced_max_line_blen b0 ->
  rem + zlen loaded <= enforced_max_line_blen b0 ->
  advance_scan b0 log rem carry (mk_load loaded false f1 r)
  = ScanRet
      (Ret (kPglRetSuccess,
            mkRfile
              (set_err
                 (adv_state b0 (Some 0) (Some (rem + zlen loaded)) f1
                    (carry ++ loaded) (rem + zlen loaded) log)
                 kPglRetSuccess None) r)).
Proof.
  intros Hrem Hshort Hcap Halloc Hlast Hblen Hfit.
  unfold advance_scan. cbn [ld_loaded ld_end_at_iter ld_ff ld_rds].
  destruct (rem + zlen loaded >? dst_alloc b0) eqn:E1; [lia|].
  rewrite (u32_small (rem + zlen loaded)) by lia.
  destruct (rem + zlen loaded =? 0) eqn:E2; [lia|].
  destruct (rem + zlen loaded =? dst_capacity b0) eqn:E3; [lia|].
  cbn [negb]. rewrite Hlast.
  unfold advance_guard, IsPathologicallyLongLineOrTokenX.
  destruct (enforced_max_line_blen b0 =? 0) eqn:E4; [lia|]. cbn [negb].
  rewrite Z.sub_0_r, uptr_small by lia.
  destruct (rem + zlen loaded <=? enforced_max_line_blen b0) eqn:E5; [|lia].
  reflexivity.
Qed.

(** The scan when nothing is left over and nothing was read. *)
Lemma scan_nothing (X : externs) (b0 : TextRfileBase)
    (log : list heap_event) (carry : list byte)
    (f1 : FILE) (r : RawDecompressStream X) :
  0 <= dst_alloc b0 ->
  advance_scan b0 log 0 carry (mk_load [] false f1 r)
  = ScanRet
      (adv_ret (adv_state b0 (Some 0) (consume_stop b0) f1 (carry ++ []) 0
                  log) r kPglRetEof None).
Proof.
  intros Halloc.
  unfold advance_scan. cbn [ld_loaded ld_end_at_iter ld_ff ld_rds].
  change (0 + zlen []) with 0.
  destruct (0 >? dst_alloc b0) eqn:E1; [lia|].
  reflexivity.
Qed.


(** A whole call on a plain file that goes round the loop twice: the
    first read fills the buffer without a ['\n'], under the cap; the second
    iteration starts from [orig_line_start] as the call found it, and its
    read comes back short with a ['\n'] last. *)
Lemma advance_plain_second_round_short (X : externs) (fuel : nat)
    (em : option errmsg_t) (f : FILE) (mem : list byte)
    (off cap blen : Z) (own : bool) (log : list heap_event)
    (r : RawDecompressStream X) :
  let b := mkBase (Some off) (Some off) em kPglRetSuccess (Some f) (Some mem)
             (zlen mem) cap blen own kFileUncompressed log in
  let rem := zlen mem - off in
  let room := cap - rem in
  let loaded := take room (f_rest f) in
  let f1 := after_read room f in
  let mem1 := drop off mem ++ loaded in
  let rem' := cap - off in
  let loaded' := take off (f_rest f1) in
  let mem2 := drop off mem1 ++ loaded' in
  clean f -> 0 <= off <= zlen mem -> zlen mem < 2 ^ 32 ->
  rem < u32 (cap - kDecompressChunkSizeX X) ->
  rem <= cap < 2 ^ 32 -> room <= kMaxBytesPerIO X ->
  0 < cap -> cap <= dst_alloc b ->
  zlen loaded = room ->
  find_last NL loaded = None ->
  cap < blen ->
  rem' < u32 (cap - kDecompressChunkSizeX X) ->
  off <= cap -> off <= kMaxBytesPerIO X ->
  zlen loaded' < off -> 0 < rem' + zlen loaded' ->
  Byte.eqb (byte_at mem2 (rem' + zlen loaded' - 1)) NL = true ->
  TextRfileAdvance (S (S fuel)) (mkRfile b r)
  = Ret (kPglRetSuccess,
         mkRfile
           (mkBase (Some 0) (Some (rem' + zlen loaded')) em kPglRetSuccess
              (Some (after_read off f1)) (Some mem2)
              (rem' + zlen loaded') cap blen own kFileUncompressed log)
           r).
Proof.
  intros b rem room loaded f1 mem1 rem' loaded' mem2 Hc Hoff Hlen Hmove Hcap
    Hmax Hpos Halloc Hfull Hfind Hblen Hmove' Hoff' Hmax' Hshort Hpos' Hlast.
  pose proof (zlen_nonneg loaded') as Hld'.
  assert (Hmem1 : zlen mem1 = cap).
  { subst mem1. rewrite zlen_app, zlen_drop, Hfull. subst room rem. lia. }
  rewrite (advance_enters_loop X (S (S fuel)) (mkRfile b r) f mem off)
    by reflexivity.
  cbn [base rds].
  rewrite loop_plain_move by (subst b; cbn; (reflexivity || exact Hc || lia)).
  subst b. cbn [dst_len dst_capacity consume_iter consume_stop heap_log].
  fold rem. fold room. fold loaded. fold f1. fold mem1.
  rewrite (scan_full_none X _ log rem (drop off mem) loaded f1 r);
    try assumption; try (cbn; lia);
    try (rewrite zlen_drop; subst rem; lia);
    try (cbn; subst rem room; lia).
  fold mem1.
  cbn [adv_state dst_capacity consume_stop errmsg reterr
         enforced_max_line_blen dst_owned_by_consumer file_type].
  rewrite loop_plain_move;
    try (cbn [adv_state dst_len dst_capacity file_type];
         first [ reflexivity | apply after_read_clean; exact Hc
               | subst rem'; lia ]).
  cbn [adv_state dst_len dst_capacity consume_iter consume_stop heap_log
         file_type errmsg reterr enforced_max_line_blen
         dst_owned_by_consumer].
  fold rem'. replace (cap - rem') with off by (subst rem'; lia).
  fold loaded'. fold mem2.
  rewrite (scan_short_newline X _ log rem' (drop off mem1) loaded'
             (after_read off f1) r);
    try assumption;
    try (unfold dst_alloc in Halloc |- *;
         cbn [adv_state dst_capacity enforced_max_line_blen heap_log]
           in Halloc |- *;
         subst rem'; lia).
  reflexivity.
Qed.

(** A whole call on a plain file at its end with nothing left over. *)
Lemma advance_plain_eof (X : externs) (fuel : nat)
    (em : option errmsg_t) (f : FILE) (mem : list byte)
    (cap blen : Z) (own : bool) (log : list heap_event)
    (r : RawDecompressStream X) :
  let b := mkBase (Some (zlen mem)) (Some (zlen mem)) em kPglRetSuccess
             (Some f) (Some mem) (zlen mem) cap blen own kFileUncompressed
             log in
  clean f -> f_rest f = [] -> zlen mem < 2 ^ 32 ->
  0 < u32 (cap - kDecompressChunkSizeX X) ->
  0 <= cap < 2 ^ 32 -> cap <= kMaxBytesPerIO X -> 0 <= dst_alloc b ->
  TextRfileAdvance (S fuel) (mkRfile b r)
  = Ret (kPglRetEof,
         mkRfile
           (mkBase (Some 0) (Some (zlen mem)) em kPglRetEof
              (Some (after_read cap f)) (Some []) 0 cap blen own
              kFileUncompressed log)
           r).
Proof.
  intros b Hc Hrest Hlen Hmove Hcap Hmax Halloc.
  pose proof (zlen_nonneg mem) as Hm.
  rewrite (advance_enters_loop X (S fuel) (mkRfile b r) f mem (zlen mem))
    by reflexivity.
  cbn [base rds].
  rewrite loop_plain_move by (subst b; cbn; (reflexivity || exact Hc || lia)).
  subst b. cbn [dst_len dst_capacity consume_iter consume_stop heap_log].
  rewrite Z.sub_diag, Z.sub_0_r, Hrest.
  rewrite (drop_all (zlen mem) mem) by lia.
  rewrite (take_all cap []) by (rewrite zlen_nil; lia).
  rewrite scan_nothing by exact Halloc.
  reflexivity.
Qed.


(* ------------------------------------------------------------------ *)
(** ** Two long lines *)

Lemma take_app_le (n : Z) (l1 l2 : list byte) :
  n <= zlen l1 -> take n (l1 ++ l2) = take n l1.
Proof.
  intros H. rewrite take_app, (take_nonpos (n - zlen l1)) by lia.
  apply app_nil_r.
Qed.

Lemma take_app_ge (n : Z) (l1 l2 : list byte) :
  zlen l1 <= n -> take n (l1 ++ l2) = l1 ++ take (n - zlen l1) l2.
Proof. intros H. rewrite take_app, (take_all n l1) by lia. reflexivity. Qed.

Lemma drop_app_le (n : Z) (l1 l2 : list byte) :
  n <= zlen l1 -> drop n (l1 ++ l2) = drop n l1 ++ l2.
Proof.
  intros H. rewrite drop_app, (drop_nonpos (n - zlen l1)) by lia.
  reflexivity.
Qed.

Lemma drop_app_ge (n : Z) (l1 l2 : list byte) :
  zlen l1 <= n -> drop n (l1 ++ l2) = drop (n - zlen l1) l2.
Proof. intros H. rewrite drop_app, (drop_all n l1) by lia. reflexivity. Qed.

Lemma find_last_app_some (t : byte) (l1 l2 : list byte) (k : nat) :
  find_last t l2 = Some k ->
  find_last t (l1 ++ l2) = Some (length l1 + k)%nat.
Proof.
  intros H. induction l1 as [|x l1 IH]; [exact H|].
  cbn [app find_last length]. rewrite IH. reflexivity.
Qed.

Lemma length_zrepeat (c : byte) (n : Z) :
  length (zrepeat c n) = Z.to_nat n.
Proof. unfold zrepeat. apply repeat_length. Qed.

Lemma zlen_with_final_newline (data : list byte) :
  zlen data <= zlen (with_final_newline data).
Proof.
  unfold with_final_newline. destruct data as [|x l]; [lia|].
  destruct (Byte.eqb (last (x :: l) x00) NL); [lia|].
  rewrite zlen_app. change (zlen [NL]) with 1. lia.
Qed.

Lemma two_long_lines_take16 : take 16 two_long_lines = zrepeat x61 16.
Proof.
  unfold two_long_lines.
  rewrite take_app_le by (rewrite zlen_zrepeat; lia).
  apply take_zrepeat. lia.
Qed.

Lemma two_long_lines_drop16 :
  drop 16 two_long_lines
  = zrepeat x61 1572847 ++ NL :: zrepeat x62 2621439 ++ [NL].
Proof.
  unfold two_long_lines.
  rewrite drop_app_le by (rewrite zlen_zrepeat; lia).
  rewrite drop_zrepeat by lia. reflexivity.
Qed.

(** The first refill: the rest of the first line and the first half MiB
    of the second. *)
Lemma two_long_lines_refill :
  take 2097136 (zrepeat x61 1572847 ++ NL :: zrepeat x62 2621439 ++ [NL])
  = zrepeat x61 1572847 ++ NL :: zrepeat x62 524288.
Proof.
  rewrite take_app_ge by (rewrite zlen_zrepeat; lia).
  rewrite zlen_zrepeat.
  rewrite take_cons by lia.
  rewrite take_app_le by (rewrite zlen_zrepeat; lia).
  rewrite take_zrepeat by lia. reflexivity.
Qed.

Lemma two_long_lines_left :
  drop 2097136 (zrepeat x61 1572847 ++ NL :: zrepeat x62 2621439 ++ [NL])
  = zrepeat x62 2097151 ++ [NL].
Proof.
  rewrite drop_app_ge by (rewrite zlen_zrepeat; lia).
  rewrite zlen_zrepeat.
  rewrite drop_cons by lia.
  rewrite drop_app_le by (rewrite zlen_zrepeat; lia).
  rewrite drop_zrepeat by lia. reflexivity.
Qed.

Lemma find_last_cons_none (t x : byte) (l : list byte) :
  find_last t l = None -> Byte.eqb x t = true ->
  find_last t (x :: l) = Some O.
Proof. intros H Hx. cbn [find_last]. rewrite H, Hx. reflexivity. Qed.

Lemma two_long_lines_last_newline :
  find_last NL (zrepeat x61 1572847 ++ NL :: zrepeat x62 524288)
  = Some (length (zrepeat x61 1572847) + 0)%nat.
Proof.
  apply find_last_app_some.
  apply find_last_cons_none; [|reflexivity].
  apply find_last_zrepeat. reflexivity.
Qed.


Lemma of_nat_length_zrepeat (c : byte) (n : Z) :
  0 <= n -> Z.of_nat (length (zrepeat c n) + 0) = n.
Proof.
  intros H. rewrite Nat.add_0_r. pose proof (zlen_zrepeat c n) as H0.
  unfold zlen in H0. lia.
Qed.

(** The first call on the two long lines: the buffer of 2 MiB is filled,
    and the slice ends after the first line, 1.5 MiB into the buffer. *)
Lemma two_long_lines_first_call :
  let X0 := plink2 (one_file two_long_lines) in
  let f0 := mkFILE two_long_lines
              (zrepeat x61 1572847 ++ NL :: zrepeat x62 2621439 ++ [NL])
              false false None in
  TextRfileAdvance 2
    (mkRfile
       (mkBase (Some 0) (Some 0) None kPglRetSuccess (Some f0)
          (Some (zrepeat x61 16)) 16 2097152 4194304 false
          kFileUncompressed [EvMalloc 2097152]) (RdsNone X0))
  = Ret (kPglRetSuccess,
         mkRfile
           (mkBase (Some 0) (Some 1572864) None kPglRetSuccess
              (Some (after_read 2097136 f0))
              (Some (drop 0 (zrepeat x61 16)
                     ++ zrepeat x61 1572847 ++ NL :: zrepeat x62 524288))
              2097152 2097152 4194304 false kFileUncompressed
              [EvMalloc 2097152]) (RdsNone X0)).
Proof.
  intros X0 f0.
  pose proof (advance_plain_full_found X0 1 None f0 (zrepeat x61 16) 0
                2097152 4194304 false [EvMalloc 2097152] (RdsNone X0)
                (length (zrepeat x61 1572847) + 0)) as H.
  cbv zeta in H.
  rewrite (of_nat_length_zrepeat x61 1572847) in H by lia.
  rewrite (zlen_zrepeat x61 16) in H.
  change (Z.max 0 16) with 16 in H.
  change (2097152 - (16 - 0)) with 2097136 in H.
  change (f_rest f0)
    with (zrepeat x61 1572847 ++ NL :: zrepeat x62 2621439 ++ [NL]) in H.
  rewrite two_long_lines_refill in H.
  change (kDecompressChunkSizeX X0) with 1048576 in H.
  change (kMaxBytesPerIO X0) with 0x7ffff000 in H.
  change (16 - 0 + 1572847 + 1) with 1572864 in H.
  apply H.
  - split; reflexivity.
  - lia.
  - lia.
  - apply Z.ltb_lt. reflexivity.
  - lia.
  - lia.
  - lia.
  - apply Z.leb_le. reflexivity.
  - rewrite zlen_app, zlen_cons, !zlen_zrepeat. lia.
  - exact two_long_lines_last_newline.
  - lia.
  - lia.
Qed.


(** The buffer after the first call. *)
Lemma two_long_lines_buffer :
  let mem1 := drop 0 (zrepeat x61 16)
              ++ zrepeat x61 1572847 ++ NL :: zrepeat x62 524288 in
  zlen mem1 = 2097152
  /\ take 1572864 mem1 = zrepeat x61 1572863 ++ [NL]
  /\ drop 1572864 mem1 = zrepeat x62 524288.
Proof.
  cbv zeta. rewrite (drop_nonpos 0) by lia.
  split; [|split].
  - rewrite !zlen_app, zlen_cons, !zlen_zrepeat. lia.
  - rewrite take_app_ge by (rewrite zlen_zrepeat; lia).
    rewrite zlen_zrepeat.
    rewrite take_app_ge by (rewrite zlen_zrepeat; lia).
    rewrite zlen_zrepeat.
    rewrite take_cons by lia.
    rewrite take_nonpos by lia.
    rewrite app_assoc.
    rewrite <- (zrepeat_app x61 16 1572847) by lia.
    reflexivity.
  - rewrite drop_app_ge by (rewrite zlen_zrepeat; lia).
    rewrite zlen_zrepeat.
    rewrite drop_app_ge by (rewrite zlen_zrepeat; lia).
    rewrite zlen_zrepeat.
    rewrite drop_cons by lia.
    apply drop_nonpos. lia.
Qed.

(** What the second call reads: first 1.5 MiB of the second line, then
    the half MiB that is left of it. *)
Lemma two_long_lines_reads :
  let rest := zrepeat x62 2097151 ++ [NL] in
  take 1572864 rest = zrepeat x62 1572864
  /\ drop 1572864 rest = zrepeat x62 524287 ++ [NL]
  /\ take 1572864 (zrepeat x62 524287 ++ [NL]) = zrepeat x62 524287 ++ [NL]
  /\ drop 1572864 (zrepeat x62 524287 ++ [NL]) = []
  /\ drop 1572864 (zrepeat x62 524288 ++ zrepeat x62 1572864)
     = zrepeat x62 524288.
Proof.
  cbv zeta. split; [|split; [|split; [|split]]].
  - rewrite take_app_le by (rewrite zlen_zrepeat; lia).
    apply take_zrepeat. lia.
  - rewrite drop_app_le by (rewrite zlen_zrepeat; lia).
    rewrite drop_zrepeat by lia. reflexivity.
  - apply take_all. rewrite zlen_app, zlen_cons, zlen_nil, zlen_zrepeat. lia.
  - apply drop_all. rewrite zlen_app, zlen_cons, zlen_nil, zlen_zrepeat. lia.
  - rewrite drop_app_ge by (rewrite zlen_zrepeat; lia).
    rewrite zlen_zrepeat. rewrite drop_zrepeat by lia. reflexivity.
Qed.


(** The second call.  Its first read fills the buffer with 2 MiB of the
    second line and finds no ['\n']; the loop goes round again with
    [orig_line_start] still 1.5 MiB into the buffer, although the line now
    starts at [dst], and only the last half MiB of the buffer is kept. *)
Lemma two_long_lines_second_call :
  let X0 := plink2 (one_file two_long_lines) in
  let f0 := mkFILE two_long_lines
              (zrepeat x61 1572847 ++ NL :: zrepeat x62 2621439 ++ [NL])
              false false None in
  let f1 := after_read 2097136 f0 in
  let mem1 := drop 0 (zrepeat x61 16)
              ++ zrepeat x61 1572847 ++ NL :: zrepeat x62 524288 in
  let mem2 := zrepeat x62 524288 ++ zrepeat x62 524287 ++ [NL] in
  TextRfileAdvance 2
    (mkRfile
       (mkBase (Some 1572864) (Some 1572864) None kPglRetSuccess (Some f1)
          (Some mem1) 2097152 2097152 4194304 false
          kFileUncompressed [EvMalloc 2097152]) (RdsNone X0))
  = Ret (kPglRetSuccess,
         mkRfile
           (mkBase (Some 0) (Some 1048576) None kPglRetSuccess
              (Some (after_read 1572864 (after_read 1572864 f1)))
              (Some mem2) 1048576 2097152 4194304 false kFileUncompressed
              [EvMalloc 2097152]) (RdsNone X0)).
Proof.
  intros X0 f0 f1 mem1 mem2.
  destruct two_long_lines_buffer as (Hlen1 & _ & Hdrop1).
  destruct two_long_lines_reads as (Hr1 & Hr2 & Hr3 & _ & Hr5).
  cbv zeta in Hlen1, Hdrop1, Hr1, Hr2.
  fold mem1 in Hlen1, Hdrop1.
  assert (Hrest1 : f_rest f1 = zrepeat x62 2097151 ++ [NL]).
  { subst f1 f0. unfold after_read. cbn [f_rest].
    apply two_long_lines_left. }
  assert (Hrest2 : f_rest (after_read 1572864 f1)
                   = zrepeat x62 524287 ++ [NL]).
  { unfold after_read at 1. cbn [f_rest]. rewrite Hrest1. exact Hr2. }
  pose proof (advance_plain_second_round_short X0 0 None f1 mem1 1572864
                2097152 4194304 false [EvMalloc 2097152] (RdsNone X0)) as H.
  cbv zeta in H.
  rewrite Hlen1 in H.
  change (2097152 - (2097152 - 1572864)) with 1572864 in H.
  change (2097152 - 1572864) with 524288 in H.
  rewrite Hrest2, Hrest1, Hr1, Hdrop1, Hr3, Hr5 in H.
  fold mem2 in H.
  assert (Hlen2 : zlen (zrepeat x62 524287 ++ [NL]) = 524288).
  { rewrite zlen_app, zlen_cons, zlen_nil, zlen_zrepeat. lia. }
  rewrite Hlen2 in H.
  change (524288 + 524288) with 1048576 in H.
  change (kDecompressChunkSizeX X0) with 1048576 in H.
  change (kMaxBytesPerIO X0) with 0x7ffff000 in H.
  apply H.
  - subst f1 f0. split; reflexivity.
  - lia.
  - lia.
  - apply Z.ltb_lt. reflexivity.
  - lia.
  - lia.
  - lia.
  - apply Z.leb_le. reflexivity.
  - rewrite zlen_zrepeat. lia.
  - apply find_last_zrepeat. reflexivity.
  - lia.
  - apply Z.ltb_lt. reflexivity.
  - lia.
  - lia.
  - lia.
  - lia.
  - subst mem2. unfold byte_at.
    rewrite drop_app_ge by (rewrite zlen_zrepeat; lia).
    rewrite zlen_zrepeat.
    rewrite drop_app_ge by (rewrite zlen_zrepeat; lia).
    rewrite zlen_zrepeat. reflexivity.
Qed.


(** The third call finds the file at its end. *)
Lemma two_long_lines_third_call :
  let X0 := plink2 (one_file two_long_lines) in
  let f0 := mkFILE two_long_lines
              (zrepeat x61 1572847 ++ NL :: zrepeat x62 2621439 ++ [NL])
              false false None in
  let f3 := after_read 1572864 (after_read 1572864 (after_read 2097136 f0)) in
  let mem2 := zrepeat x62 524288 ++ zrepeat x62 524287 ++ [NL] in
  TextRfileAdvance 2
    (mkRfile
       (mkBase (Some 1048576) (Some 1048576) None kPglRetSuccess (Some f3)
          (Some mem2) 1048576 2097152 4194304 false
          kFileUncompressed [EvMalloc 2097152]) (RdsNone X0))
  = Ret (kPglRetEof,
         mkRfile
           (mkBase (Some 0) (Some 1048576) None kPglRetEof
              (Some (after_read 2097152 f3)) (Some []) 0 2097152 4194304
              false kFileUncompressed [EvMalloc 2097152]) (RdsNone X0)).
Proof.
  intros X0 f0 f3 mem2.
  destruct two_long_lines_reads as (_ & Hr2 & _ & Hr4 & _).
  cbv zeta in Hr2.
  assert (Hlen2 : zlen mem2 = 1048576).
  { subst mem2. rewrite !zlen_app, zlen_cons, zlen_nil, !zlen_zrepeat. lia. }
  assert (Hrest3 : f_rest f3 = []).
  { subst f3 f0. unfold after_read. cbn [f_rest].
    rewrite two_long_lines_left, Hr2. exact Hr4. }
  pose proof (advance_plain_eof X0 1 None f3 mem2 2097152 4194304 false
                [EvMalloc 2097152] (RdsNone X0)) as H.
  cbv zeta in H. rewrite Hlen2 in H.
  change (kDecompressChunkSizeX X0) with 1048576 in H.
  change (kMaxBytesPerIO X0) with 0x7ffff000 in H.
  apply H.
  - subst f3 f0. split; reflexivity.
  - exact Hrest3.
  - lia.
  - apply Z.ltb_lt. reflexivity.
  - lia.
  - lia.
  - apply Z.leb_le. reflexivity.
Qed.

(** A complete pass over the two long lines, with the reader's own buffer
    and a cap of 4 MiB on the line length: the first line, then the last
    MiB of the second line. *)
Lemma two_long_lines_pass :
  exists t : textRFILE (plink2 (one_file two_long_lines)),
    open_and_read (plink2 (one_file two_long_lines)) 3 2 "f" 4194304 0 false
    = Ret ([zrepeat x61 1572863 ++ [NL];
            zrepeat x62 524288 ++ zrepeat x62 524287 ++ [NL]],
           kPglRetEof, t).
Proof.
  unfold open_and_read.
  rewrite (open_plain_reader_owned (plink2 (one_file two_long_lines)) "f"
             two_long_lines 4194304 0);
    [ | reflexivity | reflexivity | reflexivity
      | rewrite two_long_lines_take16; apply Z.leb_le; reflexivity
      | rewrite two_long_lines_take16; reflexivity ].
  rewrite two_long_lines_take16, two_long_lines_drop16.
  change (u32 (2 * kDecompressChunkSizeX
                     (plink2 (one_file two_long_lines)))) with 2097152.
  change (2 * kDecompressChunkSizeX (plink2 (one_file two_long_lines)))
    with 2097152.
  change (zlen (zrepeat x61 16)) with 16.
  change (16 <? 16) with false.
  cbn [read_all].
  pose proof two_long_lines_first_call as H1. cbv zeta in H1.
  rewrite H1. cbv beta iota zeta.
  unfold consume_all at 1.
  cbn [base rds consume_iter consume_stop errmsg reterr ff dst
         dst_len dst_capacity enforced_max_line_blen dst_owned_by_consumer
         file_type heap_log].
  pose proof two_long_lines_second_call as H2. cbv zeta in H2.
  rewrite H2. cbv beta iota zeta.
  unfold consume_all at 1.
  cbn [base rds consume_iter consume_stop errmsg reterr ff dst
         dst_len dst_capacity enforced_max_line_blen dst_owned_by_consumer
         file_type heap_log].
  pose proof two_long_lines_third_call as H3. cbv zeta in H3.
  rewrite H3. cbv beta iota zeta.
  eexists.
  unfold slice.
  cbn [base dst consume_iter consume_stop].
  unfold sub.
  destruct two_long_lines_buffer as (_ & Htake1 & _).
  cbv zeta in Htake1.
  rewrite !(drop_nonpos 0) by lia.
  rewrite (drop_nonpos 0) in Htake1 by lia.
  change (1572864 - 0) with 1572864. change (1048576 - 0) with 1048576.
  rewrite Htake1.
  rewrite (take_all 1048576)
    by (rewrite !zlen_app, zlen_cons, zlen_nil, !zlen_zrepeat; lia).
  reflexivity.
Qed.


Lemma lines_fit_cons_newline (blen cur : Z) (l : list byte) :
  lines_fit blen cur (NL :: l) = (cur + 1 <=? blen) && lines_fit blen 0 l.
Proof. reflexivity. Qed.

Lemma two_long_lines_fit : lines_fit 4194304 0 two_long_lines = true.
Proof.
  unfold two_long_lines.
  rewrite (lines_fit_zrepeat 4194304 0 1572863 x61) by (reflexivity || lia).
  rewrite lines_fit_cons_newline.
  rewrite (lines_fit_zrepeat 4194304 0 2621439 x62) by (reflexivity || lia).
  rewrite lines_fit_cons_newline.
  reflexivity.
Qed.

(** C1 does not hold of the code.  The file holds a line of 1.5 MiB and a
    line of 2.5 MiB, both within the cap of 4 MiB, and is read through the
    reader's own buffer.  The pass ends in Eof, and the slices it hands out
    hold 2621440 of the 4194304 bytes of the file: the second call goes
    round its loop a second time with [orig_line_start] where the call
    found it, and so keeps only the last half MiB of what it had read of
    the second line.  The concatenation of the slices is not the contents
    of the file, with or without an added ['\n']. *)
Theorem sync_reader_loses_the_head_of_a_long_line :
  exists (sl : list (list byte))
         (t : textRFILE (plink2 (one_file two_long_lines))),
    open_and_read (plink2 (one_file two_long_lines)) 3 2 "f" 4194304 0 false
    = Ret (sl, kPglRetEof, t)
    /\ lines_fit 4194304 0 two_long_lines = true
    /\ zlen two_long_lines = 4194304
    /\ zlen (concat sl) = 2621440
    /\ concat sl <> with_final_newline two_long_lines.
Proof.
  destruct two_long_lines_pass as [t Hpass].
  eexists. exists t. split; [exact Hpass|].
  split; [exact two_long_lines_fit|].
  assert (Hfile : zlen two_long_lines = 4194304).
  { unfold two_long_lines.
    rewrite zlen_app, zlen_cons, zlen_app, zlen_cons, zlen_nil,
      !zlen_zrepeat. lia. }
  assert (Hout : zlen (concat [zrepeat x61 1572863 ++ [NL];
                               zrepeat x62 524288
                               ++ zrepeat x62 524287 ++ [NL]]) = 2621440).
  { cbn [concat]. rewrite app_nil_r.
    rewrite !zlen_app, !zlen_cons, zlen_nil, !zlen_zrepeat. lia. }
  split; [exact Hfile|]. split; [exact Hout|].
  intros Heq.
  pose proof (zlen_with_final_newline two_long_lines) as Hle.
  rewrite <- Heq, Hout, Hfile in Hle. lia.
Qed.


(* ------------------------------------------------------------------ *)
(** ** Growing the buffer, at any iteration *)

(** Going round the loop uses up fuel and nothing else. *)
Lemma advance_iter_unfold (X : externs) (n : nat) (s s' : adv_point X) :
  advance_iter n s s' ->
  forall fuel : nat,
    TextRfileAdvance_from fuel s
    = if (fuel <=? n)%nat then OutOfFuel
      else TextRfileAdvance_from (fuel - n) s'.
Proof.
  induction 1 as [s | n b r f mem orig carry log orig' ld b2 s' dst_rem
                      Hmove Hload Hscan Hiter IH]; intros fuel.
  - destruct fuel as [|fuel].
    + destruct s as [[[[b r] f] mem] o]. reflexivity.
    + cbn [Nat.leb]. rewrite Nat.sub_0_r. reflexivity.
  - destruct fuel as [|fuel]; [reflexivity|].
    cbn [Nat.leb Nat.sub]. rewrite <- IH.
    unfold TextRfileAdvance_from at 1. cbn [TextRfileAdvance_loop].
    rewrite Hmove. fold dst_rem. rewrite Hload, Hscan. reflexivity.
Qed.




(** The top of an iteration at which a buffer of the reader's own has to
    grow. *)
Lemma advance_move_grows (X : externs) (b : TextRfileBase)
    (mem : list byte) (orig : Z) :
  dst_owned_by_consumer b = false ->
  u32 (dst_capacity b - kDecompressChunkSizeX X)
    <= u32 (dst_len b - u32 orig) ->
  let dst_offset := u32 orig in
  let dst_rem := u32 (dst_len b - dst_offset) in
  let next := next_dst_capacity X (enforced_max_line_blen b)
                (dst_capacity b) in
  let refused := (negb (LP64 X) && (next >=? 0x80000000))
                 || negb (malloc_ok X next) in
  (refused = true -> advance_move X b mem orig = Ret MvNomem)
  /\ (refused = false ->
      dst_offset + dst_rem <= zlen mem -> dst_rem <= next ->
      advance_move X b mem orig
      = Ret (MvOk (sub mem dst_offset dst_rem)
               (heap_log b ++ [if dst_offset =? 0 then EvRealloc next
                               else EvMalloc next]) None)).
Proof.
  intros Hown Hrem dst_offset dst_rem next refused.
  unfold advance_move. fold dst_offset. fold dst_rem. fold next.
  destruct (dst_rem <? u32 (dst_capacity b - kDecompressChunkSizeX X)) eqn:E;
    [subst dst_rem dst_offset; lia|].
  rewrite Hown. subst refused.
  destruct (negb (LP64 X) && (next >=? 0x80000000)).
  { split; [reflexivity | discriminate]. }
  destruct (negb (malloc_ok X next)).
  { split; [reflexivity | discriminate]. }
  cbn [orb]. split; [discriminate|]. intros _ Hin Hfit.
  destruct ((dst_offset + dst_rem >? zlen mem) || (dst_rem >? next)) eqn:E2.
  { apply orb_true_iff in E2. lia. }
  destruct (dst_offset =? 0) eqn:E3; [|reflexivity].
  apply Z.eqb_eq in E3. rewrite E3. reflexivity.
Qed.





(* ------------------------------------------------------------------ *)
(** ** A first line longer than the buffer *)

(** The top of an iteration that moves the unfinished line to the front
    of [dst]. *)
Lemma advance_move_moves (X : externs) (b : TextRfileBase)
    (mem : list byte) (orig : Z) :
  0 <= orig <= dst_len b -> dst_len b = zlen mem -> dst_len b < 2 ^ 32 ->
  dst_len b - orig < u32 (dst_capacity b - kDecompressChunkSizeX X) ->
  advance_move X b mem orig
  = Ret (MvOk (drop orig mem) (heap_log b) (Some orig)).
Proof.
  intros Horig Hlen Hlen32 Hmove. unfold advance_move.
  rewrite (u32_small orig) by lia.
  rewrite (u32_small (dst_len b - orig)) by lia.
  destruct (dst_len b - orig
            <? u32 (dst_capacity b - kDecompressChunkSizeX X)) eqn:E1;
    [|lia].
  destruct (orig + (dst_len b - orig) <=? zlen mem) eqn:E2; [|lia].
  unfold sub. rewrite take_all by (rewrite zlen_drop; lia).
  reflexivity.
Qed.

(** One round of the loop on a plain file: the read fills the buffer
    without a ['\n'], under the cap, and the next iteration starts with
    [orig_line_start] where the call found it. *)
Lemma advance_iter_plain_full (X : externs)
    (em : option errmsg_t) (f : FILE) (mem : list byte)
    (off cap blen : Z) (own : bool) (log : list heap_event)
    (r : RawDecompressStream X) :
  let b := mkBase (Some off) (Some off) em kPglRetSuccess (Some f) (Some mem)
             (zlen mem) cap blen own kFileUncompressed log in
  let rem := zlen mem - off in
  let room := cap - rem in
  let loaded := take room (f_rest f) in
  clean f -> 0 <= off <= zlen mem -> zlen mem < 2 ^ 32 ->
  rem < u32 (cap - kDecompressChunkSizeX X) ->
  rem <= cap < 2 ^ 32 -> room <= kMaxBytesPerIO X ->
  0 < cap -> cap <= dst_alloc b ->
  zlen loaded = room ->
  find_last NL loaded = None ->
  cap < blen ->
  advance_iter 1 (b, r, f, mem, Some off)
    (mkBase (Some 0) (Some off) em kPglRetSuccess
       (Some (after_read room f)) (Some (drop off mem ++ loaded)) cap cap
       blen own kFileUncompressed log,
     r, after_read room f, drop off mem ++ loaded, Some off).
Proof.
  intros b rem room loaded Hc Hoff Hlen Hmove Hcap Hmax Hpos Halloc Hfull
    Hfind Hblen.
  assert (Hrem : u32 (dst_len b - u32 off) = rem).
  { subst b rem. cbn [dst_len]. rewrite (u32_small off) by lia.
    apply u32_small. lia. }
  eapply adv_again.
  - apply advance_move_moves; subst b; cbn [dst_len dst_capacity]; lia.
  - rewrite Hrem. subst b. cbn [file_type dst_capacity].
    apply load_switch_plain; [exact Hc | subst room rem; lia | exact Hmax].
  - rewrite Hrem. fold room. fold loaded.
    subst b. cbn [dst_len dst_capacity consume_iter consume_stop heap_log].
    apply scan_full_none; try assumption;
      try (rewrite zlen_drop; subst rem; lia);
      try (cbn [adv_state dst_capacity enforced_max_line_blen]; lia);
      subst room rem;
      cbn [adv_state dst_capacity enforced_max_line_blen]; lia.
  - cbn [ld_rds ld_ff ld_loaded adv_state dst_capacity consume_stop errmsg
           reterr enforced_max_line_blen dst_owned_by_consumer file_type].
    apply adv_here.
Qed.

(** An iteration on a plain file that starts with [orig_line_start] at
    [dst] and a full buffer under the cap.  The block is resized, but
    [dst_capacity] is not, so the window to read into is empty; nothing is
    read, the buffer is as full as before and holds no new ['\n'], and the
    loop goes round again with an [orig_line_start] that points into the
    block that [realloc] was given. *)
Lemma loop_plain_realloc_no_room (X : externs) (fuel : nat)
    (b : TextRfileBase) (r : RawDecompressStream X) (f : FILE)
    (mem : list byte) :
  file_type b = kFileUncompressed -> clean f ->
  dst_owned_by_consumer b = false ->
  dst_len b = zlen mem -> dst_len b = dst_capacity b ->
  0 < dst_capacity b < 2 ^ 32 ->
  0 <= u32 (dst_capacity b - kDecompressChunkSizeX X) <= dst_capacity b ->
  let next := next_dst_capacity X (enforced_max_line_blen b)
                (dst_capacity b) in
  (negb (LP64 X) && (next >=? 0x80000000)) || negb (malloc_ok X next)
  = false ->
  dst_capacity b <= next ->
  dst_capacity b < enforced_max_line_blen b ->
  0 <= kMaxBytesPerIO X ->
  TextRfileAdvance_loop (S fuel) b r f mem (Some 0)
  = match fuel with O => OutOfFuel | S _ => Undefined end.
Proof.
  intros Hft Hc Hown Hlen Hfull Hcap Hgrow next Hok Hfit Hblen Hmax.
  assert (Hrem : u32 (dst_len b - u32 0) = dst_capacity b).
  { rewrite (u32_small 0), Z.sub_0_r, Hfull by lia. apply u32_small. lia. }
  assert (Hrem' : u32 (dst_capacity b - kDecompressChunkSizeX X)
                  <= u32 (dst_len b - u32 0)) by (rewrite Hrem; lia).
  destruct (advance_move_grows X b mem 0 Hown Hrem') as [_ Hyes].
  cbv zeta in Hyes. fold next in Hyes.
  rewrite Hrem in Hyes. rewrite (u32_small 0) in Hyes by lia.
  specialize (Hyes Hok ltac:(lia) Hfit). cbn [Z.eqb] in Hyes.
  change (TextRfileAdvance_loop (S fuel) b r f mem (Some 0))
    with (match advance_move X b mem 0 with
          | AssertFail => AssertFail
          | Undefined => Undefined
          | OutOfFuel => OutOfFuel
          | Ret MvNomem => adv_ret b r kPglRetNomem None
          | Ret (MvOk carry log orig') =>
              let b0 := adv_state b (consume_iter b) (consume_stop b) f
                          carry (dst_len b) log in
              match load_switch (file_type b) r f
                      (dst_capacity b - u32 (dst_len b - u32 0)) with
              | AssertFail => AssertFail
              | Undefined => Undefined
              | OutOfFuel => OutOfFuel
              | Ret (LdGoto e m f1 r1) =>
                  adv_ret (adv_state b0 (Some 0) (consume_stop b) f1 carry
                             (dst_len b) log) r1 e m
              | Ret (LdOk ld) =>
                  match advance_scan b0 log (u32 (dst_len b - u32 0)) carry
                          ld with
                  | ScanRet res => res
                  | ScanAgain _ b2 =>
                      TextRfileAdvance_loop fuel b2 (ld_rds ld)
                        (ld_ff ld) (carry ++ ld_loaded ld) orig'
                  end
              end
          end).
  rewrite Hyes. cbv zeta. rewrite Hrem, Hft, Z.sub_diag.
  rewrite load_switch_plain by (exact Hc || lia).
  rewrite (take_nonpos 0) by lia.
  rewrite scan_full_none.
  - destruct fuel; reflexivity.
  - rewrite sub_0, zlen_take. lia.
  - cbn [adv_state dst_capacity]. change (zlen []) with 0. lia.
  - cbn [adv_state dst_capacity]. lia.
  - rewrite dst_alloc_adv_state, rev_unit.
    cbn [adv_state dst_capacity]. exact Hfit.
  - reflexivity.
  - cbn [adv_state dst_capacity enforced_max_line_blen]. exact Hblen.
Qed.

Lemma unbroken_line_take16 : take 16 unbroken_line = zrepeat x78 16.
Proof.
  unfold unbroken_line.
  rewrite take_app_le by (rewrite zlen_zrepeat; lia).
  apply take_zrepeat. lia.
Qed.

Lemma unbroken_line_drop16 :
  drop 16 unbroken_line = zrepeat x78 3145711 ++ [NL].
Proof.
  unfold unbroken_line.
  rewrite drop_app_le by (rewrite zlen_zrepeat; lia).
  rewrite drop_zrepeat by lia. reflexivity.
Qed.

Lemma unbroken_line_refill :
  take 2097136 (zrepeat x78 3145711 ++ [NL]) = zrepeat x78 2097136.
Proof.
  rewrite take_app_le by (rewrite zlen_zrepeat; lia).
  apply take_zrepeat. lia.
Qed.

Lemma unbroken_line_fits : lines_fit 4194304 0 unbroken_line = true.
Proof.
  unfold unbroken_line.
  rewrite lines_fit_zrepeat by (reflexivity || lia).
  rewrite lines_fit_cons_newline. reflexivity.
Qed.

(** The open on the line of 3 MiB, with a cap of 4 MiB and no buffer of
    the caller. *)
Lemma unbroken_line_open :
  let X0 := plink2 (one_file unbroken_line) in
  TextRfileOpenEx "f" 4194304 0 false (PreinitTextRfile X0)
  = Ret (kPglRetSuccess,
         mkRfile
           (mkBase (Some 0) (Some 0) None kPglRetSuccess
              (Some (mkFILE unbroken_line (zrepeat x78 3145711 ++ [NL])
                       false false None))
              (Some (zrepeat x78 16)) 16 2097152 4194304 false
              kFileUncompressed [EvMalloc 2097152])
           (RdsNone X0)).
Proof.
  intros X0.
  rewrite (open_plain_reader_owned X0 "f" unbroken_line 4194304 0);
    [ | reflexivity | reflexivity | reflexivity
      | rewrite unbroken_line_take16; apply Z.leb_le; reflexivity
      | rewrite unbroken_line_take16; reflexivity ].
  rewrite unbroken_line_take16, unbroken_line_drop16.
  reflexivity.
Qed.

(** The first iteration of the first call fills the buffer of 2 MiB with
    the head of the line. *)
Lemma unbroken_line_restart :
  let X0 := plink2 (one_file unbroken_line) in
  let f0 := mkFILE unbroken_line (zrepeat x78 3145711 ++ [NL])
              false false None in
  let mem1 := drop 0 (zrepeat x78 16) ++ zrepeat x78 2097136 in
  advance_iter 1
    (mkBase (Some 0) (Some 0) None kPglRetSuccess (Some f0)
       (Some (zrepeat x78 16)) 16 2097152 4194304 false kFileUncompressed
       [EvMalloc 2097152],
     RdsNone X0, f0, zrepeat x78 16, Some 0)
    (mkBase (Some 0) (Some 0) None kPglRetSuccess
       (Some (after_read 2097136 f0)) (Some mem1) 2097152 2097152 4194304
       false kFileUncompressed [EvMalloc 2097152],
     RdsNone X0, after_read 2097136 f0, mem1, Some 0)
  /\ zlen mem1 = 2097152.
Proof.
  intros X0 f0 mem1. split.
  - pose proof (advance_iter_plain_full X0 None f0 (zrepeat x78 16) 0
                  2097152 4194304 false [EvMalloc 2097152] (RdsNone X0))
      as H.
    cbv zeta in H.
    rewrite (zlen_zrepeat x78 16) in H.
    change (Z.max 0 16) with 16 in H.
    change (2097152 - (16 - 0)) with 2097136 in H.
    assert (Hrest : f_rest f0 = zrepeat x78 3145711 ++ [NL]) by reflexivity.
    rewrite Hrest, unbroken_line_refill in H.
    change (kDecompressChunkSizeX X0) with 1048576 in H.
    change (kMaxBytesPerIO X0) with 0x7ffff000 in H.
    apply H.
    + split; reflexivity.
    + lia.
    + lia.
    + apply Z.ltb_lt. reflexivity.
    + lia.
    + lia.
    + lia.
    + apply Z.leb_le. reflexivity.
    + rewrite zlen_zrepeat. lia.
    + apply find_last_zrepeat. reflexivity.
    + lia.
  - subst mem1. rewrite (drop_nonpos 0) by lia.
    rewrite zlen_app, !zlen_zrepeat. lia.
Qed.



(** X26: a first line longer than the reader's buffer is not read.  The
    line of 3 MiB is within the cap of 4 MiB, and the open leaves its
    first 16 bytes in a buffer of 2 MiB.  The first call fills the buffer,
    finds no ['\n'] and goes round its loop; the second iteration has the
    block resized to 4 MiB and, [dst_capacity] being what it was, has no
    room to read into; the third starts from an [orig_line_start] that
    points into the block given to [realloc].  Whatever the fuel, the
    call does not return. *)
Theorem line_longer_than_the_buffer_is_not_read :
  let X0 := plink2 (one_file unbroken_line) in
  lines_fit 4194304 0 unbroken_line = true
  /\ exists t : textRFILE X0,
       TextRfileOpenEx "f" 4194304 0 false (PreinitTextRfile X0)
       = Ret (kPglRetSuccess, t)
       /\ dst_owned_by_consumer (base t) = false
       /\ forall fuel : nat,
            TextRfileAdvance fuel t
            = if (fuel <=? 2)%nat then OutOfFuel else Undefined.
Proof.
  intros X0. split; [exact unbroken_line_fits|].
  eexists. split; [exact unbroken_line_open|].
  split; [reflexivity|].
  intros fuel.
  destruct unbroken_line_restart as [Hiter Hlen].
  cbv zeta in Hiter, Hlen.
  rewrite (advance_enters_loop X0 fuel _ _ (zrepeat x78 16) 0)
    by reflexivity.
  cbn [base rds].
  pose proof (advance_iter_unfold X0 1 _ _ Hiter fuel) as Hun.
  unfold TextRfileAdvance_from in Hun. rewrite Hun.
  destruct fuel as [|[|fuel]]; [reflexivity | reflexivity |].
  cbn [Nat.leb Nat.sub].
  rewrite loop_plain_realloc_no_room;
    cbn [file_type dst_owned_by_consumer dst_len dst_capacity
           enforced_max_line_blen].
  - destruct fuel; reflexivity.
  - reflexivity.
  - split; reflexivity.
  - reflexivity.
  - symmetry. exact Hlen.
  - reflexivity.
  - lia.
  - change (kDecompressChunkSizeX X0) with 1048576.
    rewrite u32_small; lia.
  - reflexivity.
  - apply Z.leb_le. reflexivity.
  - lia.
  - apply Z.leb_le. reflexivity.
Qed.

(* ------------------------------------------------------------------ *)
(** ** The guard on a buffer whose first line ends in the probe *)

(** The scan after a short read whose last byte is a ['\n'], when the
    region is longer than the cap and the fresh part holds no ['\n']
    within the cap: the guard answers 1, whatever the part of the buffer
    below [dst_load_start] holds. *)
Lemma scan_short_alarm (X : externs) (b0 : TextRfileBase)
    (log : list heap_event) (rem : Z) (carry loaded : list byte)
    (f1 : FILE) (r : RawDecompressStream X) :
  zlen carry = rem ->
  0 < rem + zlen loaded < dst_capacity b0 ->
  dst_capacity b0 < 2 ^ 32 -> rem + zlen loaded <= dst_alloc b0 ->
  Byte.eqb (byte_at (carry ++ loaded) (rem + zlen loaded - 1)) NL = true ->
  rem < enforced_max_line_blen b0 < rem + zlen loaded ->
  no_newline (take (enforced_max_line_blen b0 - rem) loaded) ->
  advance_scan b0 log rem carry (mk_load loaded false f1 r)
  = ScanRet
      (Ret (kPglRetMalformedInput,
            mkRfile
              (set_err
                 (adv_state b0 (Some 0) (Some (rem + zlen loaded)) f1
                    (carry ++ loaded) (rem + zlen loaded) log)
                 kPglRetMalformedInput (Some kShortErrLongLine)) r)).
Proof.
  intros Hcarry Hshort Hcap Halloc Hlast Hblen Hno.
  pose proof (zlen_nonneg carry) as Hc0.
  unfold advance_scan. cbn [ld_loaded ld_end_at_iter ld_ff ld_rds].
  destruct (rem + zlen loaded >? dst_alloc b0) eqn:E1; [lia|].
  rewrite (u32_small (rem + zlen loaded)) by lia.
  destruct (rem + zlen loaded =? 0) eqn:E2; [lia|].
  destruct (rem + zlen loaded =? dst_capacity b0) eqn:E3; [lia|].
  cbn [negb]. rewrite Hlast.
  unfold advance_guard, IsPathologicallyLongLineOrTokenX.
  destruct (enforced_max_line_blen b0 =? 0) eqn:E4; [lia|]. cbn [negb].
  rewrite !Z.sub_0_r, uptr_small by lia.
  destruct (rem + zlen loaded <=? enforced_max_line_blen b0) eqn:E5; [lia|].
  rewrite (u32_small rem) by lia.
  destruct (rem >=? enforced_max_line_blen b0) eqn:E6; [lia|].
  rewrite (u32_small (enforced_max_line_blen b0 - rem)) by lia.
  unfold memchr, sub.
  rewrite drop_app, (drop_all rem carry), (drop_nonpos (rem - zlen carry))
    by lia.
  cbn [app]. unfold no_newline in Hno. rewrite Hno.
  reflexivity.
Qed.

Lemma short_then_full_line_split :
  short_then_full_line
  = (x61 :: NL :: zrepeat x78 14) ++ zrepeat x78 1048560 ++ [NL].
Proof.
  unfold short_then_full_line.
  change 1048574 with (14 + 1048560).
  rewrite zrepeat_app by lia. rewrite <- app_assoc. reflexivity.
Qed.

Lemma short_then_full_line_take16 :
  take 16 short_then_full_line = x61 :: NL :: zrepeat x78 14.
Proof.
  rewrite short_then_full_line_split.
  rewrite take_app_le by (apply Z.leb_le; reflexivity).
  reflexivity.
Qed.

Lemma short_then_full_line_drop16 :
  drop 16 short_then_full_line = zrepeat x78 1048560 ++ [NL].
Proof.
  rewrite short_then_full_line_split.
  rewrite drop_app_ge by (apply Z.leb_le; reflexivity).
  apply drop_nonpos. apply Z.leb_le. reflexivity.
Qed.

Lemma lines_fit_cons_other (blen cur : Z) (x : byte) (l : list byte) :
  Byte.eqb x NL = false ->
  lines_fit blen cur (x :: l) = lines_fit blen (cur + 1) l.
Proof. intros H. cbn [lines_fit]. rewrite H. reflexivity. Qed.

Lemma short_then_full_line_fits :
  lines_fit 1048576 0 short_then_full_line = true.
Proof.
  unfold short_then_full_line.
  rewrite lines_fit_cons_other by reflexivity.
  rewrite lines_fit_cons_newline.
  rewrite lines_fit_zrepeat by (reflexivity || lia).
  rewrite lines_fit_cons_newline.
  reflexivity.
Qed.

(** A whole call on a plain file whose read comes back short with a
    ['\n'] last, when the buffer then holds more than the cap and the
    fresh part holds no ['\n'] within the cap. *)
Lemma advance_plain_short_alarm (X : externs) (fuel : nat)
    (em : option errmsg_t) (f : FILE) (mem : list byte)
    (off cap blen : Z) (own : bool) (log : list heap_event)
    (r : RawDecompressStream X) :
  let b := mkBase (Some off) (Some off) em kPglRetSuccess (Some f) (Some mem)
             (zlen mem) cap blen own kFileUncompressed log in
  let rem := zlen mem - off in
  let room := cap - rem in
  let loaded := take room (f_rest f) in
  clean f -> 0 <= off <= zlen mem -> zlen mem < 2 ^ 32 ->
  rem < u32 (cap - kDecompressChunkSizeX X) ->
  rem <= cap < 2 ^ 32 -> room <= kMaxBytesPerIO X ->
  rem + zlen loaded <= dst_alloc b ->
  0 < rem + zlen loaded < cap ->
  Byte.eqb (byte_at (drop off mem ++ loaded) (rem + zlen loaded - 1)) NL
  = true ->
  rem < blen < rem + zlen loaded ->
  no_newline (take (blen - rem) loaded) ->
  TextRfileAdvance (S fuel) (mkRfile b r)
  = Ret (kPglRetMalformedInput,
         mkRfile
           (mkBase (Some 0) (Some (rem + zlen loaded))
              (Some kShortErrLongLine) kPglRetMalformedInput
              (Some (after_read room f)) (Some (drop off mem ++ loaded))
              (rem + zlen loaded) cap blen own kFileUncompressed log)
           r).
Proof.
  intros b rem room loaded Hc Hoff Hlen Hmove Hcap Hmax Halloc Hshort Hlast
    Hblen Hno.
  rewrite (advance_enters_loop X (S fuel) (mkRfile b r) f mem off)
    by reflexivity.
  cbn [base rds].
  rewrite loop_plain_move by (subst b; cbn; (reflexivity || exact Hc || lia)).
  subst b. cbn [dst_len dst_capacity consume_iter consume_stop heap_log].
  fold rem. fold room. fold loaded.
  rewrite (scan_short_alarm X _ log rem (drop off mem) loaded
             (after_read room f) r);
    try assumption;
    try (rewrite zlen_drop; subst rem; lia);
    try (cbn [adv_state dst_capacity enforced_max_line_blen]; lia).
  reflexivity.
Qed.

(** The one call on the two lines that fit.  The probe of the open has
    left the first line and 14 bytes of the second in [dst]; the read
    delivers the rest of the file, 1 MiB + 1 bytes are in the buffer, and
    the guard is asked about them with [load_start] 16 bytes in. *)
Lemma short_then_full_line_call :
  let X0 := plink2 (one_file short_then_full_line) in
  let f0 := mkFILE short_then_full_line (zrepeat x78 1048560 ++ [NL])
              false false None in
  TextRfileAdvance 1
    (mkRfile
       (mkBase (Some 0) (Some 0) None kPglRetSuccess (Some f0)
          (Some (x61 :: NL :: zrepeat x78 14)) 16 2097152 1048576 false
          kFileUncompressed [EvMalloc 2097152]) (RdsNone X0))
  = Ret (kPglRetMalformedInput,
         mkRfile
           (mkBase (Some 0) (Some 1048577) (Some kShortErrLongLine)
              kPglRetMalformedInput (Some (after_read 2097136 f0))
              (Some short_then_full_line) 1048577 2097152 1048576 false
              kFileUncompressed [EvMalloc 2097152]) (RdsNone X0)).
Proof.
  intros X0 f0.
  set (head := x61 :: NL :: zrepeat x78 14).
  assert (Hlen : zlen (zrepeat x78 1048560 ++ [NL]) = 1048561).
  { rewrite zlen_app, zlen_zrepeat. change (zlen [NL]) with 1. lia. }
  pose proof (advance_plain_short_alarm X0 0 None f0 head 0 2097152 1048576
                false [EvMalloc 2097152] (RdsNone X0)) as H.
  cbv zeta in H.
  change (zlen head) with 16 in H.
  change (2097152 - (16 - 0)) with 2097136 in H.
  assert (Hrest : f_rest f0 = zrepeat x78 1048560 ++ [NL]) by reflexivity.
  rewrite Hrest in H.
  rewrite (take_all 2097136) in H by (rewrite Hlen; lia).
  rewrite Hlen in H.
  rewrite (drop_nonpos 0) in H by lia.
  change (16 - 0 + 1048561) with 1048577 in H.
  change (kDecompressChunkSizeX X0) with 1048576 in H.
  change (kMaxBytesPerIO X0) with 0x7ffff000 in H.
  rewrite short_then_full_line_split. fold head.
  apply H.
  - split; reflexivity.
  - lia.
  - lia.
  - apply Z.ltb_lt. reflexivity.
  - lia.
  - lia.
  - apply Z.leb_le. reflexivity.
  - lia.
  - unfold byte_at.
    rewrite drop_app_ge by (apply Z.leb_le; reflexivity).
    change (1048577 - 1 - zlen head) with 1048560.
    rewrite drop_app_ge by (rewrite zlen_zrepeat; lia).
    rewrite zlen_zrepeat. reflexivity.
  - lia.
  - change (1048576 - (16 - 0)) with 1048560.
    rewrite take_app_le by (rewrite zlen_zrepeat; lia).
    rewrite take_zrepeat by lia.
    apply find_first_zrepeat. reflexivity.
Qed.

(** What the guard is asked in that call, and what it has been told: the
    region starts with a whole line, which ends below [load_start]. *)
Lemma short_then_full_line_guard :
  IsPathologicallyLongLineOrTokenX
    (plink2 (one_file short_then_full_line)) short_then_full_line
    0 16 1048577 1048576 = Ret true
  /\ byte_at short_then_full_line 1 = NL.
Proof.
  split; [|reflexivity].
  unfold IsPathologicallyLongLineOrTokenX.
  change (negb (1048576 =? 0)) with true. cbv iota.
  rewrite !Z.sub_0_r, uptr_small by lia.
  change (1048577 <=? 1048576) with false. cbv iota zeta.
  rewrite (u32_small 16) by lia.
  change (16 >=? 1048576) with false. cbv iota.
  rewrite (u32_small (1048576 - 16)) by lia.
  unfold memchr, sub.
  rewrite short_then_full_line_drop16.
  change (1048576 - 16) with 1048560.
  rewrite take_app_le by (rewrite zlen_zrepeat; lia).
  rewrite take_zrepeat by lia.
  rewrite find_first_zrepeat by reflexivity.
  reflexivity.
Qed.

Lemma short_then_full_line_pass :
  exists t : textRFILE (plink2 (one_file short_then_full_line)),
    open_and_read (plink2 (one_file short_then_full_line)) 1 1 "f"
      1048576 0 false
    = Ret ([], kPglRetMalformedInput, t)
    /\ errmsg (base t) = Some kShortErrLongLine.
Proof.
  unfold open_and_read.
  rewrite (open_plain_reader_owned (plink2 (one_file short_then_full_line))
             "f" short_then_full_line 1048576 0);
    [ | reflexivity | reflexivity | reflexivity
      | rewrite short_then_full_line_take16; apply Z.leb_le; reflexivity
      | rewrite short_then_full_line_take16; reflexivity ].
  rewrite short_then_full_line_take16, short_then_full_line_drop16.
  change (u32 (2 * kDecompressChunkSizeX
                     (plink2 (one_file short_then_full_line))))
    with 2097152.
  change (2 * kDecompressChunkSizeX
                (plink2 (one_file short_then_full_line))) with 2097152.
  change (zlen (x61 :: NL :: zrepeat x78 14)) with 16.
  change (16 <? 16) with false.
  cbn [read_all].
  pose proof short_then_full_line_call as H1. cbv zeta in H1.
  rewrite H1. cbv beta iota zeta.
  eexists. split; reflexivity.
Qed.

(* ------------------------------------------------------------------ *)
(** ** A line over the cap that is handed out cut *)

Lemma overlong_second_line_take16 :
  take 16 overlong_second_line = zrepeat x61 16.
Proof.
  unfold overlong_second_line.
  rewrite take_app_le by (rewrite zlen_zrepeat; lia).
  apply take_zrepeat. lia.
Qed.

Lemma overlong_second_line_drop16 :
  drop 16 overlong_second_line
  = zrepeat x61 1572847 ++ NL :: zrepeat x62 3407871 ++ [NL].
Proof.
  unfold overlong_second_line.
  rewrite drop_app_le by (rewrite zlen_zrepeat; lia).
  rewrite drop_zrepeat by lia. reflexivity.
Qed.

(** The first refill: the rest of the first line and the first half MiB
    of the second. *)
Lemma overlong_second_line_refill :
  take 2097136 (zrepeat x61 1572847 ++ NL :: zrepeat x62 3407871 ++ [NL])
  = zrepeat x61 1572847 ++ NL :: zrepeat x62 524288.
Proof.
  rewrite take_app_ge by (rewrite zlen_zrepeat; lia).
  rewrite zlen_zrepeat.
  rewrite take_cons by lia.
  rewrite take_app_le by (rewrite zlen_zrepeat; lia).
  rewrite take_zrepeat by lia. reflexivity.
Qed.

Lemma overlong_second_line_left :
  drop 2097136 (zrepeat x61 1572847 ++ NL :: zrepeat x62 3407871 ++ [NL])
  = zrepeat x62 2883583 ++ [NL].
Proof.
  rewrite drop_app_ge by (rewrite zlen_zrepeat; lia).
  rewrite zlen_zrepeat.
  rewrite drop_cons by lia.
  rewrite drop_app_le by (rewrite zlen_zrepeat; lia).
  rewrite drop_zrepeat by lia. reflexivity.
Qed.

(** The first call: the buffer of 2 MiB is filled, and the slice ends
    after the first line, 1.5 MiB into the buffer. *)
Lemma overlong_second_line_first_call :
  let X0 := plink2 (one_file overlong_second_line) in
  let f0 := mkFILE overlong_second_line
              (zrepeat x61 1572847 ++ NL :: zrepeat x62 3407871 ++ [NL])
              false false None in
  TextRfileAdvance 2
    (mkRfile
       (mkBase (Some 0) (Some 0) None kPglRetSuccess (Some f0)
          (Some (zrepeat x61 16)) 16 2097152 3145728 false
          kFileUncompressed [EvMalloc 2097152]) (RdsNone X0))
  = Ret (kPglRetSuccess,
         mkRfile
           (mkBase (Some 0) (Some 1572864) None kPglRetSuccess
              (Some (after_read 2097136 f0))
              (Some (drop 0 (zrepeat x61 16)
                     ++ zrepeat x61 1572847 ++ NL :: zrepeat x62 524288))
              2097152 2097152 3145728 false kFileUncompressed
              [EvMalloc 2097152]) (RdsNone X0)).
Proof.
  intros X0 f0.
  pose proof (advance_plain_full_found X0 1 None f0 (zrepeat x61 16) 0
                2097152 3145728 false [EvMalloc 2097152] (RdsNone X0)
                (length (zrepeat x61 1572847) + 0)) as H.
  cbv zeta in H.
  rewrite (of_nat_length_zrepeat x61 1572847) in H by lia.
  rewrite (zlen_zrepeat x61 16) in H.
  change (Z.max 0 16) with 16 in H.
  change (2097152 - (16 - 0)) with 2097136 in H.
  assert (Hrest : f_rest f0
                  = zrepeat x61 1572847 ++ NL :: zrepeat x62 3407871 ++ [NL])
    by reflexivity.
  rewrite Hrest, overlong_second_line_refill in H.
  change (kDecompressChunkSizeX X0) with 1048576 in H.
  change (kMaxBytesPerIO X0) with 0x7ffff000 in H.
  change (16 - 0 + 1572847 + 1) with 1572864 in H.
  apply H.
  - split; reflexivity.
  - lia.
  - lia.
  - apply Z.ltb_lt. reflexivity.
  - lia.
  - lia.
  - lia.
  - apply Z.leb_le. reflexivity.
  - rewrite zlen_app, zlen_cons, !zlen_zrepeat. lia.
  - exact two_long_lines_last_newline.
  - lia.
  - lia.
Qed.

(** What the second call reads: first 1.5 MiB of the second line, then
    the 1.25 MiB that are left of it. *)
Lemma overlong_second_line_reads :
  let rest := zrepeat x62 2883583 ++ [NL] in
  take 1572864 rest = zrepeat x62 1572864
  /\ drop 1572864 rest = zrepeat x62 1310719 ++ [NL]
  /\ take 1572864 (zrepeat x62 1310719 ++ [NL]) = zrepeat x62 1310719 ++ [NL]
  /\ drop 1572864 (zrepeat x62 1310719 ++ [NL]) = [].
Proof.
  cbv zeta. split; [|split; [|split]].
  - rewrite take_app_le by (rewrite zlen_zrepeat; lia).
    apply take_zrepeat. lia.
  - rewrite drop_app_le by (rewrite zlen_zrepeat; lia).
    rewrite drop_zrepeat by lia. reflexivity.
  - apply take_all. rewrite zlen_app, zlen_cons, zlen_nil, zlen_zrepeat. lia.
  - apply drop_all. rewrite zlen_app, zlen_cons, zlen_nil, zlen_zrepeat. lia.
Qed.

(** The second call.  Its first read fills the buffer with 2 MiB of the
    second line and finds no ['\n']; 2 MiB is under the cap of 3 MiB, so
    the loop goes round again, with [orig_line_start] still 1.5 MiB into
    the buffer: only the last half MiB of the buffer is kept, and the rest
    of the line is read behind it.  What the guard is then asked about is
    1.75 MiB long. *)
Lemma overlong_second_line_second_call :
  let X0 := plink2 (one_file overlong_second_line) in
  let f0 := mkFILE overlong_second_line
              (zrepeat x61 1572847 ++ NL :: zrepeat x62 3407871 ++ [NL])
              false false None in
  let f1 := after_read 2097136 f0 in
  let mem1 := drop 0 (zrepeat x61 16)
              ++ zrepeat x61 1572847 ++ NL :: zrepeat x62 524288 in
  let mem2 := zrepeat x62 524288 ++ zrepeat x62 1310719 ++ [NL] in
  TextRfileAdvance 2
    (mkRfile
       (mkBase (Some 1572864) (Some 1572864) None kPglRetSuccess (Some f1)
          (Some mem1) 2097152 2097152 3145728 false
          kFileUncompressed [EvMalloc 2097152]) (RdsNone X0))
  = Ret (kPglRetSuccess,
         mkRfile
           (mkBase (Some 0) (Some 1835008) None kPglRetSuccess
              (Some (after_read 1572864 (after_read 1572864 f1)))
              (Some mem2) 1835008 2097152 3145728 false kFileUncompressed
              [EvMalloc 2097152]) (RdsNone X0)).
Proof.
  intros X0 f0 f1 mem1 mem2.
  destruct two_long_lines_buffer as (Hlen1 & _ & Hdrop1).
  destruct two_long_lines_reads as (_ & _ & _ & _ & Hr5).
  destruct overlong_second_line_reads as (Hr1 & Hr2 & Hr3 & _).
  cbv zeta in Hlen1, Hdrop1, Hr1, Hr2.
  fold mem1 in Hlen1, Hdrop1.
  assert (Hrest1 : f_rest f1 = zrepeat x62 2883583 ++ [NL]).
  { subst f1 f0. unfold after_read. cbn [f_rest].
    apply overlong_second_line_left. }
  assert (Hrest2 : f_rest (after_read 1572864 f1)
                   = zrepeat x62 1310719 ++ [NL]).
  { unfold after_read at 1. cbn [f_rest]. rewrite Hrest1. exact Hr2. }
  pose proof (advance_plain_second_round_short X0 0 None f1 mem1 1572864
                2097152 3145728 false [EvMalloc 2097152] (RdsNone X0)) as H.
  cbv zeta in H.
  rewrite Hlen1 in H.
  change (2097152 - (2097152 - 1572864)) with 1572864 in H.
  change (2097152 - 1572864) with 524288 in H.
  rewrite Hrest2, Hrest1, Hr1, Hdrop1, Hr3, Hr5 in H.
  fold mem2 in H.
  assert (Hlen2 : zlen (zrepeat x62 1310719 ++ [NL]) = 1310720).
  { rewrite zlen_app, zlen_cons, zlen_nil, zlen_zrepeat. lia. }
  rewrite Hlen2 in H.
  change (524288 + 1310720) with 1835008 in H.
  change (kDecompressChunkSizeX X0) with 1048576 in H.
  change (kMaxBytesPerIO X0) with 0x7ffff000 in H.
  apply H.
  - subst f1 f0. split; reflexivity.
  - lia.
  - lia.
  - apply Z.ltb_lt. reflexivity.
  - lia.
  - lia.
  - lia.
  - apply Z.leb_le. reflexivity.
  - rewrite zlen_zrepeat. lia.
  - apply find_last_zrepeat. reflexivity.
  - lia.
  - apply Z.ltb_lt. reflexivity.
  - lia.
  - lia.
  - lia.
  - lia.
  - subst mem2. unfold byte_at.
    rewrite drop_app_ge by (rewrite zlen_zrepeat; lia).
    rewrite zlen_zrepeat.
    rewrite drop_app_ge by (rewrite zlen_zrepeat; lia).
    rewrite zlen_zrepeat. reflexivity.
Qed.

(** The third call finds the file at its end. *)
Lemma overlong_second_line_third_call :
  let X0 := plink2 (one_file overlong_second_line) in
  let f0 := mkFILE overlong_second_line
              (zrepeat x61 1572847 ++ NL :: zrepeat x62 3407871 ++ [NL])
              false false None in
  let f3 := after_read 1572864 (after_read 1572864 (after_read 2097136 f0)) in
  let mem2 := zrepeat x62 524288 ++ zrepeat x62 1310719 ++ [NL] in
  TextRfileAdvance 2
    (mkRfile
       (mkBase (Some 1835008) (Some 1835008) None kPglRetSuccess (Some f3)
          (Some mem2) 1835008 2097152 3145728 false
          kFileUncompressed [EvMalloc 2097152]) (RdsNone X0))
  = Ret (kPglRetEof,
         mkRfile
           (mkBase (Some 0) (Some 1835008) None kPglRetEof
              (Some (after_read 2097152 f3)) (Some []) 0 2097152 3145728
              false kFileUncompressed [EvMalloc 2097152]) (RdsNone X0)).
Proof.
  intros X0 f0 f3 mem2.
  destruct overlong_second_line_reads as (_ & Hr2 & _ & Hr4).
  cbv zeta in Hr2.
  assert (Hlen2 : zlen mem2 = 1835008).
  { subst mem2. rewrite !zlen_app, zlen_cons, zlen_nil, !zlen_zrepeat. lia. }
  assert (Hrest3 : f_rest f3 = []).
  { subst f3 f0. unfold after_read. cbn [f_rest].
    rewrite overlong_second_line_left, Hr2. exact Hr4. }
  pose proof (advance_plain_eof X0 1 None f3 mem2 2097152 3145728 false
                [EvMalloc 2097152] (RdsNone X0)) as H.
  cbv zeta in H. rewrite Hlen2 in H.
  change (kDecompressChunkSizeX X0) with 1048576 in H.
  change (kMaxBytesPerIO X0) with 0x7ffff000 in H.
  apply H.
  - subst f3 f0. split; reflexivity.
  - exact Hrest3.
  - lia.
  - apply Z.ltb_lt. reflexivity.
  - lia.
  - lia.
  - apply Z.leb_le. reflexivity.
Qed.

(** A complete pass over the file with the line of 3.25 MiB, with the
    reader's own buffer and a cap of 3 MiB on the line length: the first
    line, then the last 1.75 MiB of the second line, then Eof. *)
Lemma overlong_second_line_pass :
  exists t : textRFILE (plink2 (one_file overlong_second_line)),
    open_and_read (plink2 (one_file overlong_second_line)) 3 2 "f"
      3145728 0 false
    = Ret ([zrepeat x61 1572863 ++ [NL];
            zrepeat x62 524288 ++ zrepeat x62 1310719 ++ [NL]],
           kPglRetEof, t).
Proof.
  unfold open_and_read.
  rewrite (open_plain_reader_owned (plink2 (one_file overlong_second_line))
             "f" overlong_second_line 3145728 0);
    [ | reflexivity | reflexivity | reflexivity
      | rewrite overlong_second_line_take16; apply Z.leb_le; reflexivity
      | rewrite overlong_second_line_take16; reflexivity ].
  rewrite overlong_second_line_take16, overlong_second_line_drop16.
  change (u32 (2 * kDecompressChunkSizeX
                     (plink2 (one_file overlong_second_line))))
    with 2097152.
  change (2 * kDecompressChunkSizeX
                (plink2 (one_file overlong_second_line))) with 2097152.
  change (zlen (zrepeat x61 16)) with 16.
  change (16 <? 16) with false.
  cbn [read_all].
  pose proof overlong_second_line_first_call as H1. cbv zeta in H1.
  rewrite H1. cbv beta iota zeta.
  unfold consume_all at 1.
  cbn [base rds consume_iter consume_stop errmsg reterr ff dst
         dst_len dst_capacity enforced_max_line_blen dst_owned_by_consumer
         file_type heap_log].
  pose proof overlong_second_line_second_call as H2. cbv zeta in H2.
  rewrite H2. cbv beta iota zeta.
  unfold consume_all at 1.
  cbn [base rds consume_iter consume_stop errmsg reterr ff dst
         dst_len dst_capacity enforced_max_line_blen dst_owned_by_consumer
         file_type heap_log].
  pose proof overlong_second_line_third_call as H3. cbv zeta in H3.
  rewrite H3. cbv beta iota zeta.
  eexists.
  unfold slice.
  cbn [base dst consume_iter consume_stop].
  unfold sub.
  destruct two_long_lines_buffer as (_ & Htake1 & _).
  cbv zeta in Htake1.
  rewrite !(drop_nonpos 0) by lia.
  rewrite (drop_nonpos 0) in Htake1 by lia.
  change (1572864 - 0) with 1572864. change (1835008 - 0) with 1835008.
  rewrite Htake1.
  rewrite (take_all 1835008)
    by (rewrite !zlen_app, zlen_cons, zlen_nil, !zlen_zrepeat; lia).
  reflexivity.
Qed.

Lemma overlong_second_line_does_not_fit :
  lines_fit 3145728 0 overlong_second_line = false.
Proof.
  unfold overlong_second_line.
  rewrite (lines_fit_zrepeat 3145728 0 1572863 x61) by (reflexivity || lia).
  rewrite lines_fit_cons_newline.
  rewrite (lines_fit_zrepeat 3145728 0 3407871 x62) by (reflexivity || lia).
  rewrite lines_fit_cons_newline.
  reflexivity.
Qed.

(** C3 does not hold of the code, in either direction; both files are
    read through the reader's own buffer of 2 MiB.

    The guard fires although every line fits.  The file holds a line of
    2 bytes and a line of 1 MiB - 1 bytes, and the cap is 1 MiB.  The open
    has left the first 16 bytes in [dst], so the one read of the first
    call starts 16 bytes in; [TextRfileAdvance] then asks the guard about
    the whole buffer, with [load_start] 16 bytes in.  The guard takes it
    that [line_start, load_start) holds no ['\n'], looks for one in the
    1 MiB - 16 bytes from [load_start] on, finds none (the second line ends
    one byte further on) and answers 1: the pass ends in
    [kPglRetMalformedInput] with "Pathologically long line" before it has
    handed out anything.

    A line over the cap goes by unnoticed.  The file holds a line of
    1.5 MiB and a line of 3.25 MiB, and the cap is 3 MiB.  The pass hands
    out the first line, then the last 1.75 MiB of the second line as if
    they were a line, and ends in Eof: the second call goes round its loop
    a second time with [orig_line_start] where the call found it, keeps
    only the last half MiB of what it had read, and the guard is asked
    about no more than 1.75 MiB. *)
Theorem long_line_guard_fires_on_fitting_lines_and_misses_a_long_one :
  (lines_fit 1048576 0 short_then_full_line = true
   /\ (exists t : textRFILE (plink2 (one_file short_then_full_line)),
          open_and_read (plink2 (one_file short_then_full_line)) 1 1 "f"
            1048576 0 false
          = Ret ([], kPglRetMalformedInput, t)
          /\ errmsg (base t) = Some kShortErrLongLine)
   /\ IsPathologicallyLongLineOrTokenX
        (plink2 (one_file short_then_full_line)) short_then_full_line
        0 16 1048577 1048576 = Ret true
   /\ byte_at short_then_full_line 1 = NL)
  /\ (lines_fit 3145728 0 overlong_second_line = false
      /\ exists t : textRFILE (plink2 (one_file overlong_second_line)),
           open_and_read (plink2 (one_file overlong_second_line)) 3 2 "f"
             3145728 0 false
           = Ret ([zrepeat x61 1572863 ++ [NL];
                   zrepeat x62 524288 ++ zrepeat x62 1310719 ++ [NL]],
                  kPglRetEof, t)).
Proof.
  split.
  - split; [exact short_then_full_line_fits|].
    split; [exact short_then_full_line_pass|].
    exact short_then_full_line_guard.
  - split; [exact overlong_second_line_does_not_fit|].
    exact overlong_second_line_pass.
Qed.


(* ------------------------------------------------------------------ *)
(** ** Reading again after a rewind *)

(** What [TextRfileRewind] resets on an open reader whose latched code is
    success or Eof. *)
Lemma TextRfileRewind_resets (X : externs) (t t' : textRFILE X) (f : FILE)
    (mem : list byte) :
  ff (base t) = Some f -> dst (base t) = Some mem ->
  reterr (base t) = kPglRetSuccess \/ reterr (base t) = kPglRetEof ->
  TextRfileRewind t = Ret t' ->
  ff (base t') = Some (rewind f)
  /\ f_rest (rewind f) = f_all f
  /\ reterr (base t') = kPglRetSuccess
  /\ dst_len (base t') = 0
  /\ consume_iter (base t') = Some 0
  /\ consume_stop (base t') = Some 0.
Proof.
  intros Hf Hd He. unfold TextRfileRewind. rewrite Hf, Hd.
  assert (Hgo : is_err (reterr (base t))
                && negb (PglErr_eqb (reterr (base t)) kPglRetEof) = false).
  { destruct He as [-> | ->]; reflexivity. }
  rewrite Hgo.
  destruct (file_type (base t)), (rds t); try discriminate;
    intros H; injection H as <-; repeat split.
Qed.

(** C9 does not hold of the code.  The file ["a\n"] is read through a
    buffer of the caller of 0x7ffff001 bytes, one more than
    [kMaxBytesPerIO]: the first pass hands out the line and ends in Eof; [TextRfileRewind] puts the stream back at offset 0 and clears the
    latched Eof; the second pass ends in Eof without handing out anything.
    After the rewind the buffer is empty, the window to fill is larger
    than [kMaxBytesPerIO], the first [fread] comes back short, and the
    bytes it delivered are not counted. *)
Theorem second_pass_after_rewind_is_empty :
  exists t1 t2 t3 : textRFILE (plink2 (one_file one_short_line)),
    open_and_read (plink2 (one_file one_short_line)) 2 1 "f"
      0x7ffff001 0x7ffff001 true
    = Ret ([one_short_line], kPglRetEof, t1)
    /\ TextRfileRewind t1 = Ret t2
    /\ option_map f_rest (ff (base t2)) = Some one_short_line
    /\ reterr (base t2) = kPglRetSuccess
    /\ dst_len (base t2) = 0
    /\ consume_iter (base t2) = Some 0
    /\ consume_stop (base t2) = Some 0
    /\ read_all 2 1 t2 = Ret ([], kPglRetEof, t3).
Proof.
  eexists. eexists. eexists.
  split; [vm_compute; reflexivity|].
  split; [vm_compute; reflexivity|].
  split; [vm_compute; reflexivity|].
  split; [reflexivity|]. split; [reflexivity|].
  split; [reflexivity|]. split; [reflexivity|].
  vm_compute. reflexivity.
Qed.


(* ------------------------------------------------------------------ *)
(** ** The two readers on one file *)

(** The steps of the thread from each of the states. *)
Lemma small_stream_thread_steps :
  thread_step plink2_mt small_stream_0 = Ret (Some small_stream_1)
  /\ thread_step plink2_mt small_stream_1 = Ret None
  /\ thread_step plink2_mt small_stream_2 = Ret (Some small_stream_4)
  /\ thread_step plink2_mt small_stream_3 = Ret None
  /\ thread_step plink2_mt small_stream_4 = Ret (Some small_stream_6)
  /\ thread_step plink2_mt small_stream_5 = Ret None
  /\ thread_step plink2_mt small_stream_6 = Ret None
  /\ thread_step plink2_mt small_stream_7 = Ret (Some small_stream_3)
  /\ thread_step plink2_mt small_stream_8 = Ret (Some small_stream_5).
Proof. repeat apply conj; vm_compute; reflexivity. Qed.

(** The steps of the consumer from each of the states. *)
Lemma small_stream_consumer_steps :
  consumer_step small_stream_0 = Ret (Some (small_stream_2, []))
  /\ consumer_step small_stream_1 = Ret (Some (small_stream_3, [one_line_of_20]))
  /\ consumer_step small_stream_2 = Ret None
  /\ consumer_step small_stream_3 = Ret (Some (small_stream_5, []))
  /\ consumer_step small_stream_4 = Ret (Some (small_stream_7, [one_line_of_20]))
  /\ consumer_step small_stream_5 = Ret None
  /\ consumer_step small_stream_6 = Ret (Some (small_stream_3, [one_line_of_20]))
  /\ consumer_step small_stream_7 = Ret (Some (small_stream_8, []))
  /\ consumer_step small_stream_8 = Ret None.
Proof. repeat apply conj; vm_compute; reflexivity. Qed.

Lemma small_stream_closed : Forall small_stream_step_ok small_stream_states.
Proof.
  destruct small_stream_thread_steps
    as (T0 & T1 & T2 & T3 & T4 & T5 & T6 & T7 & T8).
  destruct small_stream_consumer_steps
    as (C0 & C1 & C2 & C3 & C4 & C5 & C6 & C7 & C8).
  unfold small_stream_states.
  apply Forall_cons.
  { unfold small_stream_step_ok. rewrite T0, C0.
    split; [split; [do 1 right; left; reflexivity | vm_compute; reflexivity]|].
    split; [split; [do 2 right; left; reflexivity | split; [vm_compute; reflexivity | vm_compute; discriminate]]|].
    vm_compute; exact I. }
  apply Forall_cons.
  { unfold small_stream_step_ok. rewrite T1, C1.
    split; [exact I|].
    split; [split; [do 3 right; left; reflexivity | split; [vm_compute; reflexivity | intros _; vm_compute; reflexivity]]|].
    vm_compute; exact I. }
  apply Forall_cons.
  { unfold small_stream_step_ok. rewrite T2, C2.
    split; [split; [do 4 right; left; reflexivity | vm_compute; reflexivity]|].
    split; [exact I|].
    vm_compute; exact I. }
  apply Forall_cons.
  { unfold small_stream_step_ok. rewrite T3, C3.
    split; [exact I|].
    split; [split; [do 5 right; left; reflexivity | split; [vm_compute; reflexivity | intros _; vm_compute; reflexivity]]|].
    vm_compute; exact I. }
  apply Forall_cons.
  { unfold small_stream_step_ok. rewrite T4, C4.
    split; [split; [do 6 right; left; reflexivity | vm_compute; reflexivity]|].
    split; [split; [do 7 right; left; reflexivity | split; [vm_compute; reflexivity | intros _; vm_compute; reflexivity]]|].
    vm_compute; exact I. }
  apply Forall_cons.
  { unfold small_stream_step_ok. rewrite T5, C5.
    split; [exact I|].
    split; [exact I|].
    vm_compute; split; reflexivity. }
  apply Forall_cons.
  { unfold small_stream_step_ok. rewrite T6, C6.
    split; [exact I|].
    split; [split; [do 3 right; left; reflexivity | split; [vm_compute; reflexivity | intros _; vm_compute; reflexivity]]|].
    vm_compute; exact I. }
  apply Forall_cons.
  { unfold small_stream_step_ok. rewrite T7, C7.
    split; [split; [do 3 right; left; reflexivity | vm_compute; reflexivity]|].
    split; [split; [do 8 right; left; reflexivity | split; [vm_compute; reflexivity | intros _; vm_compute; reflexivity]]|].
    vm_compute; exact I. }
  apply Forall_cons.
  { unfold small_stream_step_ok. rewrite T8, C8.
    split; [split; [do 5 right; left; reflexivity | vm_compute; reflexivity]|].
    split; [exact I|].
    vm_compute; split; reflexivity. }
  apply Forall_nil.
Qed.

(** Under every schedule the stream stays within these states, and the
    consumer is handed nothing but the whole line, at most once. *)
Lemma small_stream_run :
  forall (schedule : list mover)
         (s : TextRstream (plink2 (one_file one_line_of_20))),
    In s small_stream_states ->
    exists sl s',
      run_stream plink2_mt schedule s = Ret (sl, s')
      /\ In s' small_stream_states
      /\ sl = line_between s s'
      /\ (line_consumed s = true -> line_consumed s' = true).
Proof.
  induction schedule as [|m rest IH]; intros s Hin.
  - exists [], s. split; [reflexivity|]. split; [exact Hin|].
    split; [|tauto]. unfold line_between. destruct (line_consumed s);
      reflexivity.
  - pose proof (proj1 (Forall_forall _ _) small_stream_closed s Hin)
      as (Hthread & Hconsumer & _).
    destruct m; cbn [run_stream].
    + destruct (thread_step plink2_mt s) as [[s1|]| | |];
        try contradiction; cbn [obind].
      * destruct Hthread as [Hin1 Hsame].
        destruct (IH s1 Hin1) as (sl & s' & Hrun & Hin' & Hsl & Hmono).
        exists sl, s'. split; [exact Hrun|]. split; [exact Hin'|].
        unfold line_between in *. rewrite Hsame in Hsl, Hmono.
        split; assumption.
      * apply IH. exact Hin.
    + destruct (consumer_step s) as [[[s1 out]|]| | |];
        try contradiction; cbn [obind].
      * destruct Hconsumer as (Hin1 & Hout & Hmono1).
        destruct (IH s1 Hin1) as (sl & s' & Hrun & Hin' & Hsl & Hmono).
        rewrite Hrun. cbn [obind fst snd].
        exists (out ++ sl), s'. split; [reflexivity|]. split; [exact Hin'|].
        subst out sl. unfold line_between in *.
        destruct (line_consumed s), (line_consumed s1), (line_consumed s');
          split; try reflexivity; try tauto;
          try (specialize (Hmono1 eq_refl); discriminate);
          try (specialize (Hmono eq_refl); discriminate).
      * apply IH. exact Hin.
Qed.

Lemma small_stream_opens :
  exists t : textRFILE (plink2 (one_file one_line_of_20)),
    TextRstreamOpenEx (plink2 (one_file one_line_of_20)) plink2_mt "f"
      0x7ffff011 0x7ffff011 0 true
    = Ret (kPglRetSuccess, t, Some small_stream_0).
Proof. eexists. vm_compute. reflexivity. Qed.

(** C4 does not hold of the code.  A file of one line of 20 bytes is read
    through a buffer of the caller of 0x7ffff011 bytes, in line mode.  The
    synchronous reader hands out the first 16 bytes and a ['\n'], then
    Eof: its window is larger than [kMaxBytesPerIO], the first [fread]
    comes back short, and the four bytes it delivered are not counted.
    The asynchronous reader, however the thread and the consumer take
    turns, hands out nothing but the whole line, and has handed it out by
    the time [TextAdvance] returns a code, which is Eof; such a run
    exists. *)
Theorem sync_and_async_readers_differ :
  (exists t : textRFILE (plink2 (one_file one_line_of_20)),
      open_and_read (plink2 (one_file one_line_of_20)) 2 1 "f"
        0x7ffff011 0x7ffff011 true
      = Ret ([take 16 one_line_of_20 ++ [NL]], kPglRetEof, t))
  /\ (forall schedule : list mover,
      exists sl s,
        open_and_stream (plink2 (one_file one_line_of_20)) plink2_mt
          schedule "f" 0x7ffff011 0x7ffff011 0 true
        = Ret (sl, Some s)
        /\ (sl = [] \/ sl = [one_line_of_20])
        /\ (forall e, consumer s = Returned e ->
                      e = kPglRetEof /\ sl = [one_line_of_20]))
  /\ (exists s,
        open_and_stream (plink2 (one_file one_line_of_20)) plink2_mt
          [Thread; Consumer; Consumer] "f" 0x7ffff011 0x7ffff011 0 true
        = Ret ([one_line_of_20], Some s)
        /\ consumer s = Returned kPglRetEof)
  /\ concat [take 16 one_line_of_20 ++ [NL]] <> concat [one_line_of_20].
Proof.
  split; [eexists; vm_compute; reflexivity|].
  split.
  { intros schedule. unfold open_and_stream.
    destruct small_stream_opens as [t0 Hopen]. rewrite Hopen.
    cbn [obind].
    destruct (small_stream_run schedule small_stream_0
                ltac:(left; reflexivity))
      as (sl & s' & Hrun & Hin & Hsl & _).
    rewrite Hrun. cbn [obind fst snd].
    exists sl, s'. split; [reflexivity|].
    unfold line_between in Hsl.
    change (line_consumed small_stream_0) with false in Hsl.
    cbv iota in Hsl.
    split.
    - rewrite Hsl. destruct (line_consumed s'); [right | left]; reflexivity.
    - intros e He.
      pose proof (proj1 (Forall_forall _ _) small_stream_closed s' Hin)
        as (_ & _ & Hret).
      rewrite He in Hret. destruct Hret as [-> Hdone].
      rewrite Hdone in Hsl. split; [reflexivity | exact Hsl]. }
  split; [eexists; split; [vm_compute; reflexivity | reflexivity]|].
  vm_compute. discriminate.
Qed.

(* ------------------------------------------------------------------ *)
(** ** What every call of [TextRfileAdvance] leaves behind *)

Lemma advance_guard_code (X : externs) (b0 : TextRfileBase)
    (r1 : RawDecompressStream X) (f1 : FILE) (log : list heap_event)
    (dst_rem : Z) (mem2 : list byte) (len2 stop : Z)
    (e : PglErr) (t' : textRFILE X) :
  advance_guard b0 r1 f1 log dst_rem mem2 len2 stop = Ret (e, t') ->
  reterr (base t') = e.
Proof.
  unfold advance_guard, adv_ret.
  destruct (IsPathologicallyLongLineOrTokenX _ _ _ _ _ _) as [[|]| | |];
    try discriminate; intros H; injection H as <- <-; reflexivity.
Qed.

Lemma advance_scan_code (X : externs) (b0 : TextRfileBase)
    (log : list heap_event) (dst_rem : Z) (carry : list byte)
    (ld : load_result X) (res : outcome (PglErr * textRFILE X))
    (e : PglErr) (t' : textRFILE X) :
  advance_scan b0 log dst_rem carry ld = ScanRet res ->
  res = Ret (e, t') -> reterr (base t') = e.
Proof.
  unfold advance_scan. intros H Hres.
  repeat break_match_hyp; try discriminate;
    injection H as <-;
    try discriminate;
    try (apply advance_guard_code in Hres; exact Hres);
    unfold adv_ret in Hres; injection Hres as <- <-; reflexivity.
Qed.

Lemma advance_loop_code (X : externs) :
  forall (fuel : nat) (b : TextRfileBase) (r : RawDecompressStream X)
         (f : FILE) (mem : list byte) (orig : option Z)
         (e : PglErr) (t' : textRFILE X),
    TextRfileAdvance_loop fuel b r f mem orig = Ret (e, t') ->
    reterr (base t') = e.
Proof.
  induction fuel as [|fuel IH]; intros b r f mem orig e t' H;
    [discriminate|].
  cbn [TextRfileAdvance_loop] in H.
  destruct orig as [orig|]; [|discriminate].
  destruct (advance_move X b mem orig) as [[|carry log orig']| | |];
    try discriminate.
  - unfold adv_ret in H. injection H as <- <-. reflexivity.
  - destruct (load_switch _ _ _ _) as [[ld|e1 m f1 r1]| | |];
      try discriminate.
    + destruct (advance_scan _ _ _ _ _) as [res|b2] eqn:Escan.
      * exact (advance_scan_code _ _ _ _ _ _ _ _ _ Escan H).
      * exact (IH _ _ _ _ _ _ _ H).
    + unfold adv_ret in H. injection H as <- <-. reflexivity.
Qed.

(** X1: the code a call returns is the code it latches, and a code other
    than success is returned by every later call, which changes nothing. *)
Theorem TextRfileAdvance_latches_its_code :
  forall (X : externs) (fuel : nat) (t t' : textRFILE X) (e : PglErr),
    TextRfileAdvance fuel t = Ret (e, t') ->
    reterr (base t') = e
    /\ (e <> kPglRetSuccess ->
        forall fuel', TextRfileAdvance fuel' t' = Ret (e, t')).
Proof.
  intros X fuel t t' e H.
  assert (Hcode : reterr (base t') = e).
  { unfold TextRfileAdvance in H.
    destruct (is_err (reterr (base t))) eqn:Eerr.
    - injection H as <- <-. reflexivity.
    - destruct (ff (base t)), (dst (base t)), (consume_iter (base t)),
        (consume_stop (base t)); try discriminate.
      break_match_hyp; [discriminate|].
      exact (advance_loop_code _ _ _ _ _ _ _ _ _ H). }
  split; [exact Hcode|].
  intros Hne fuel'. unfold TextRfileAdvance. rewrite Hcode.
  destruct e; try reflexivity. contradiction.
Qed.

Lemma TextRfileAdvance_latches_its_code_witness :
  exists t t' : textRFILE (plink2 (one_file three_lines)),
    TextRfileAdvance 1 t = Ret (kPglRetEof, t')
    /\ reterr (base t') = kPglRetEof
    /\ TextRfileAdvance 7 t' = Ret (kPglRetEof, t').
Proof.
  assert (H : exists t1 t' : textRFILE (plink2 (one_file three_lines)),
             TextRfileAdvance 1 three_lines_opened
             = Ret (kPglRetSuccess, t1)
             /\ TextRfileAdvance 1 (consume_all t1) = Ret (kPglRetEof, t')).
  { eexists. eexists. split; [vm_compute; reflexivity|].
    vm_compute. reflexivity. }
  destruct H as (t1 & t' & _ & H). exists (consume_all t1), t'.
  split; [exact H|].
  destruct (TextRfileAdvance_latches_its_code _ _ _ _ _ H) as [Hc Hl].
  split; [exact Hc | apply Hl; discriminate].
Defined.

(* ------------------------------------------------------------------ *)
(** ** Slices end where a line ends *)

Lemma find_last_split (c : byte) (l : list byte) (k : nat) :
  find_last c l = Some k ->
  exists l1 l2, l = l1 ++ c :: l2 /\ length l1 = k.
Proof.
  revert k. induction l as [|x l IH]; intros k H; [discriminate|].
  cbn [find_last] in H.
  destruct (find_last c l) as [j|] eqn:E.
  - injection H as <-. destruct (IH j eq_refl) as (l1 & l2 & -> & Hlen).
    exists (x :: l1), l2. split; [reflexivity | cbn; rewrite Hlen; reflexivity].
  - destruct (Byte.eqb x c) eqn:Ex; [|discriminate].
    injection H as <-. apply Byte.byte_dec_bl in Ex. subst x.
    exists [], l. split; reflexivity.
Qed.

Lemma byte_at_last (l : list byte) :
  0 < zlen l ->
  Byte.eqb (byte_at l (zlen l - 1)) NL = true ->
  exists body, l = body ++ [NL].
Proof.
  intros Hlen H. apply Byte.byte_dec_bl in H.
  exists (take (zlen l - 1) l).
  rewrite <- (take_drop (zlen l - 1) l) at 1. f_equal.
  unfold byte_at in H.
  assert (Hd : zlen (drop (zlen l - 1) l) = 1) by (rewrite zlen_drop; lia).
  destruct (drop (zlen l - 1) l) as [|x [|y rest]].
  - discriminate.
  - cbn in H. subst x. reflexivity.
  - rewrite !zlen_cons in Hd. pose proof (zlen_nonneg rest). lia.
Qed.

Lemma advance_guard_slice (X : externs) (b0 : TextRfileBase)
    (r1 : RawDecompressStream X) (f1 : FILE) (log : list heap_event)
    (dst_rem : Z) (mem2 : list byte) (len2 stop : Z) (t' : textRFILE X) :
  advance_guard b0 r1 f1 log dst_rem mem2 len2 stop
    = Ret (kPglRetSuccess, t') ->
  slice t' = take stop mem2
  /\ consume_iter (base t') = Some 0
  /\ consume_stop (base t') = Some stop.
Proof.
  unfold advance_guard, adv_ret.
  destruct (IsPathologicallyLongLineOrTokenX _ _ _ _ _ _) as [[|]| | |];
    try discriminate; intros H; injection H as <-.
  unfold slice. cbn. rewrite Z.sub_0_r, sub_0. repeat split.
Qed.

Lemma advance_scan_slice (X : externs) (b0 : TextRfileBase)
    (log : list heap_event) (dst_rem : Z) (carry : list byte)
    (ld : load_result X) (res : outcome (PglErr * textRFILE X))
    (t' : textRFILE X) :
  zlen carry = dst_rem ->
  advance_scan b0 log dst_rem carry ld = ScanRet res ->
  res = Ret (kPglRetSuccess, t') ->
  exists body,
    slice t' = body ++ [NL]
    /\ consume_iter (base t') = Some 0
    /\ consume_stop (base t') = Some (zlen body + 1).
Proof.
  intros Hcarry. unfold advance_scan.
  set (mem1 := carry ++ ld_loaded ld).
  set (dst_iter := dst_rem + zlen (ld_loaded ld)).
  assert (Hmem1 : zlen mem1 = dst_iter)
    by (unfold mem1, dst_iter; rewrite zlen_app; lia).
  pose proof (zlen_nonneg carry) as Hc0.
  pose proof (zlen_nonneg (ld_loaded ld)) as Hl0.
  destruct (dst_iter >? dst_alloc b0); [intros H; injection H as <-; discriminate|].
  destruct (u32 dst_iter =? 0) eqn:Elen.
  { intros H; injection H as <-. unfold adv_ret. discriminate. }
  assert (Hpos : 0 < dst_iter).
  { destruct (Z.eq_dec dst_iter 0) as [E0|]; [|lia].
    rewrite E0 in Elen. discriminate. }
  destruct (negb (dst_iter =? _)) eqn:Eshort.
  - destruct (Byte.eqb (byte_at mem1 (dst_iter - 1)) NL) eqn:Elast.
    + intros H Hres. injection H as <-.
      apply advance_guard_slice in Hres. destruct Hres as (Hs & Hi & Ho).
      rewrite <- Hmem1 in Elast.
      destruct (byte_at_last mem1 ltac:(lia) Elast) as [body Hbody].
      exists body. rewrite Hs, Hi, Ho.
      rewrite take_all by lia.
      rewrite <- Hmem1, Hbody, zlen_app. repeat split.
    + destruct (dst_iter + 1 >? dst_alloc b0);
        [intros H; injection H as <-; discriminate|].
      intros H Hres. injection H as <-.
      apply advance_guard_slice in Hres. destruct Hres as (Hs & Hi & Ho).
      exists mem1. rewrite Hs, Hi, Ho.
      rewrite take_all by (rewrite zlen_app; change (zlen [NL]) with 1; lia).
      rewrite Hmem1. repeat split.
  - destruct (Memrchr mem1 dst_rem NL (zlen (ld_loaded ld))) as [last|] eqn:Em.
    + intros H Hres. injection H as <-.
      apply advance_guard_slice in Hres. destruct Hres as (Hs & Hi & Ho).
      unfold Memrchr in Em.
      destruct (find_last NL (sub mem1 dst_rem (zlen (ld_loaded ld))))
        as [k|] eqn:Ek; [|discriminate].
      injection Em as <-.
      assert (Hsub : sub mem1 dst_rem (zlen (ld_loaded ld)) = ld_loaded ld).
      { unfold sub, mem1. rewrite drop_app, drop_all by lia.
        rewrite <- Hcarry, Z.sub_diag, drop_nonpos by lia.
        cbn [app]. apply take_all. lia. }
      rewrite Hsub in Ek.
      destruct (find_last_split _ _ _ Ek) as (l1 & l2 & Hl & Hk).
      exists (carry ++ l1). rewrite Hs, Hi, Ho.
      assert (Hk' : Z.of_nat k = zlen l1) by (unfold zlen; lia).
      unfold mem1. rewrite Hl, Hk'.
      rewrite take_app, take_all by lia.
      rewrite take_app, take_all by lia.
      replace (dst_rem + zlen l1 + 1 - zlen carry - zlen l1) with 1 by lia.
      rewrite take_cons, take_nonpos by lia. rewrite <- app_assoc.
      rewrite zlen_app. split; [reflexivity|]. split; [reflexivity|].
      f_equal. lia.
    + destruct (u32 dst_iter >=? enforced_max_line_blen b0);
        intros H; [|discriminate].
      injection H as <-. unfold adv_ret. discriminate.
Qed.

(** X2: a successful call hands out a slice that starts at [dst], is not
    empty and ends with a ['\n']. *)
Theorem successful_advance_hands_out_whole_lines :
  forall (X : externs) (fuel : nat) (t t' : textRFILE X),
    TextRfileAdvance fuel t = Ret (kPglRetSuccess, t') ->
    exists body,
      slice t' = body ++ [NL]
      /\ consume_iter (base t') = Some 0
      /\ consume_stop (base t') = Some (zlen body + 1).
Proof.
  intros X fuel t t' H. unfold TextRfileAdvance in H.
  destruct (is_err (reterr (base t))) eqn:Eerr.
  { injection H as He _. rewrite He in Eerr. discriminate. }
  destruct (ff (base t)) as [f|], (dst (base t)) as [mem|],
    (consume_iter (base t)), (consume_stop (base t)) as [cs|];
    try discriminate.
  break_match_hyp; [discriminate|]. clear E.
  remember (base t) as b eqn:Hb. clear Hb Eerr.
  remember (rds t) as r eqn:Hr. clear Hr.
  remember (Some cs) as orig eqn:Ho. clear Ho.
  revert b r f mem orig H.
  induction fuel as [|fuel IH]; intros b r f mem orig H; [discriminate|].
  cbn [TextRfileAdvance_loop] in H.
  destruct orig as [orig|]; [|discriminate].
  destruct (advance_move X b mem orig) as [[|carry log orig']| | |] eqn:Emove;
    try discriminate.
  destruct (load_switch _ _ _ _) as [[ld|e1 m f1 r1]| | |] eqn:Eload;
    try discriminate.
  - destruct (advance_scan _ _ _ _ _) as [res|b2] eqn:Escan.
    + apply advance_move_ok in Emove. destruct Emove as [Hcarry _].
      exact (advance_scan_slice _ _ _ _ _ _ _ _ Hcarry Escan H).
    + exact (IH _ _ _ _ _ H).
  - unfold adv_ret in H. injection H as He _. subst e1.
    apply load_switch_goto_err in Eload. discriminate.
Qed.

Lemma successful_advance_hands_out_whole_lines_witness :
  exists (t' : textRFILE (plink2 (one_file three_lines))) (body : list byte),
    TextRfileAdvance 1 three_lines_opened = Ret (kPglRetSuccess, t')
    /\ slice t' = body ++ [NL]
    /\ consume_iter (base t') = Some 0
    /\ consume_stop (base t') = Some (zlen body + 1).
Proof.
  assert (H : exists t' : textRFILE (plink2 (one_file three_lines)),
             TextRfileAdvance 1 three_lines_opened
             = Ret (kPglRetSuccess, t')).
  { eexists. vm_compute. reflexivity. }
  destruct H as (t' & H). exists t'.
  destruct (successful_advance_hands_out_whole_lines _ _ _ _ H)
    as (body & Hb).
  exists body. split; [exact H | exact Hb].
Defined.

(* ------------------------------------------------------------------ *)
(** ** Plain files of short lines *)

Lemma find_last_none_first (c : byte) (l : list byte) :
  find_last c l = None -> find_first c l = None.
Proof.
  induction l as [|x l IH]; [reflexivity|]. cbn [find_last find_first].
  destruct (find_last c l); [discriminate|].
  destruct (Byte.eqb x c); [discriminate|].
  intros _. rewrite (IH eq_refl). reflexivity.
Qed.

Lemma find_last_cut (c : byte) (l : list byte) (k : nat) :
  find_last c l = Some k ->
  exists l1 l2,
    l = l1 ++ c :: l2 /\ Z.of_nat k = zlen l1 /\ find_last c l2 = None.
Proof.
  revert k. induction l as [|x l IH]; intros k H; [discriminate|].
  cbn [find_last] in H.
  destruct (find_last c l) as [j|] eqn:E.
  - injection H as <-. destruct (IH j eq_refl) as (l1 & l2 & -> & Hlen & Hn).
    exists (x :: l1), l2. rewrite zlen_cons. repeat split; [lia | exact Hn].
  - destruct (Byte.eqb x c) eqn:Ex; [|discriminate].
    injection H as <-. apply Byte.byte_dec_bl in Ex. subst x.
    exists [], l. repeat split. exact E.
Qed.

Lemma lines_fit_nonneg_suffix (m : Z) (u l : list byte) :
  forall c, 0 <= c -> lines_fit m c (u ++ l) = true ->
            exists c', 0 <= c' /\ lines_fit m c' l = true.
Proof.
  induction u as [|x u IH]; intros c Hc H.
  - exists c. split; assumption.
  - cbn [app lines_fit] in H. destruct (Byte.eqb x NL).
    + apply andb_prop in H. destruct H as [_ H]. apply (IH 0); [lia | exact H].
    + apply (IH (c + 1)); [lia | exact H].
Qed.

(** A window longer than any line holds a ['\n']. *)
Lemma lines_fit_finds_newline (m : Z) (u loaded rest : list byte) :
  lines_fit m 0 (u ++ loaded ++ rest) = true ->
  m < zlen loaded ->
  exists k, find_last NL loaded = Some k.
Proof.
  intros H Hlen.
  destruct (find_last NL loaded) as [k|] eqn:E; [exists k; reflexivity|].
  apply find_last_none_first in E.
  destruct (lines_fit_nonneg_suffix m u (loaded ++ rest) 0 ltac:(lia) H)
    as (c & Hc & Hfit).
  rewrite (lines_fit_no_newline m c loaded rest E) in Hfit.
  rewrite lines_fit_over in Hfit by lia. discriminate.
Qed.

(** An unfinished line is no longer than the lines may be. *)
Lemma lines_fit_bounds_tail (m : Z) (l2 rest : list byte) :
  find_last NL l2 = None ->
  lines_fit m 0 (l2 ++ rest) = true -> zlen l2 <= m.
Proof.
  intros E H. apply find_last_none_first in E.
  rewrite (lines_fit_no_newline m 0 l2 rest E) in H.
  destruct (Z_le_gt_dec (zlen l2) m) as [Hle|Hgt]; [exact Hle|].
  rewrite lines_fit_over in H by lia. discriminate.
Qed.

Lemma last_app_cons (l1 l2 : list byte) (x d : byte) :
  last (l1 ++ x :: l2) d = last (x :: l2) d.
Proof.
  induction l1 as [|y l1 IH]; [reflexivity|].
  cbn [app]. rewrite <- IH. cbn [last].
  destruct (l1 ++ x :: l2) eqn:E; [|reflexivity].
  destruct l1; discriminate.
Qed.

Lemma with_final_newline_cut (p rest : list byte) :
  with_final_newline (p ++ NL :: rest) = p ++ NL :: with_final_newline rest.
Proof.
  unfold with_final_newline.
  destruct (p ++ NL :: rest) as [|z zs] eqn:E; [destruct p; discriminate|].
  rewrite <- E. rewrite last_app_cons.
  destruct rest as [|y rest].
  - cbn [last]. change (Byte.eqb NL NL) with true. cbv iota. reflexivity.
  - change (last (NL :: y :: rest) x00) with (last (y :: rest) x00).
    destruct (Byte.eqb (last (y :: rest) x00) NL).
    + reflexivity.
    + rewrite <- app_assoc. reflexivity.
Qed.

Lemma byte_at_end (l : list byte) :
  l <> [] -> byte_at l (zlen l - 1) = last l x00.
Proof.
  induction l as [|x l IH]; intros Hne; [contradiction|].
  destruct l as [|y l].
  - reflexivity.
  - unfold byte_at in *. rewrite zlen_cons.
    pose proof (zlen_nonneg l). rewrite drop_cons by (rewrite zlen_cons; lia).
    replace (1 + zlen (y :: l) - 1 - 1) with (zlen (y :: l) - 1) by lia.
    rewrite IH by discriminate. reflexivity.
Qed.

(** The scan after a short read: the bytes in the buffer, with a ['\n']
    added if the last one is none, are handed out. *)
Lemma scan_short (X : externs) (b0 : TextRfileBase)
    (log : list heap_event) (rem : Z) (carry loaded : list byte)
    (f1 : FILE) (r : RawDecompressStream X) :
  let w := with_final_newline (carry ++ loaded) in
  zlen carry = rem ->
  0 < rem + zlen loaded < dst_capacity b0 ->
  dst_capacity b0 < 2 ^ 32 -> dst_capacity b0 <= dst_alloc b0 ->
  dst_capacity b0 <= enforced_max_line_blen b0 ->
  advance_scan b0 log rem carry (mk_load loaded false f1 r)
  = ScanRet
      (Ret (kPglRetSuccess,
            mkRfile
              (set_err
                 (adv_state b0 (Some 0) (Some (zlen w)) f1 w (zlen w) log)
                 kPglRetSuccess None) r)).
Proof.
  intros w Hcarry Hshort Hcap Halloc Hblen.
  assert (Hne : carry ++ loaded <> []).
  { intros E. apply (f_equal zlen) in E. rewrite zlen_app, zlen_nil in E.
    lia. }
  assert (Hlen : zlen (carry ++ loaded) = rem + zlen loaded)
    by (rewrite zlen_app; lia).
  unfold advance_scan. cbn [ld_loaded ld_end_at_iter ld_ff ld_rds].
  destruct (rem + zlen loaded >? dst_alloc b0) eqn:E1; [lia|].
  rewrite (u32_small (rem + zlen loaded)) by lia.
  destruct (rem + zlen loaded =? 0) eqn:E2; [lia|].
  destruct (rem + zlen loaded =? dst_capacity b0) eqn:E3; [lia|].
  cbn [negb]. rewrite <- Hlen at 1. rewrite byte_at_end by exact Hne.
  unfold w, with_final_newline.
  destruct (carry ++ loaded) as [|z zs] eqn:Ew; [contradiction|].
  rewrite <- Ew in *.
  destruct (Byte.eqb (last (carry ++ loaded) x00) NL) eqn:Elast.
  - unfold advance_guard, IsPathologicallyLongLineOrTokenX.
    destruct (enforced_max_line_blen b0 =? 0) eqn:E4; [lia|]. cbn [negb].
    rewrite Z.sub_0_r, uptr_small by lia.
    destruct (rem + zlen loaded <=? enforced_max_line_blen b0) eqn:E5; [|lia].
    rewrite Hlen. reflexivity.
  - destruct (rem + zlen loaded + 1 >? dst_alloc b0) eqn:E6; [lia|].
    rewrite (u32_small (rem + zlen loaded + 1)) by lia.
    unfold advance_guard, IsPathologicallyLongLineOrTokenX.
    destruct (enforced_max_line_blen b0 =? 0) eqn:E4; [lia|]. cbn [negb].
    rewrite Z.sub_0_r, uptr_small by lia.
    destruct (rem + zlen loaded + 1 <=? enforced_max_line_blen b0) eqn:E5;
      [|lia].
    rewrite zlen_app, Hlen. change (zlen [NL]) with 1. reflexivity.
Qed.

Section PlainPass.

Variable X : externs.
Variables (cap blen : Z) (own : bool) (log : list heap_event).
Variables (em : option errmsg_t) (r : RawDecompressStream X).

Local Abbreviation C := (kDecompressChunkSizeX X).

Hypothesis HC : 0 < C.
Hypothesis Hcap : 2 * C <= cap < 2 ^ 32.
Hypothesis Hmax : cap <= kMaxBytesPerIO X.
Hypothesis Hblen : cap <= blen.
Hypothesis Halloc :
  forall ci cs m e f d l,
    cap <= dst_alloc (mkBase ci cs m e f d l cap blen own kFileUncompressed
                        log).

Local Abbreviation reader := (plain_reader cap blen own log em r).
Local Abbreviation reader_at_eof := (plain_reader_at_eof cap blen own log em r).

Lemma plain_reader_eof (fuel : nat) (f : FILE) (mem : list byte) :
  clean f -> f_rest f = [] -> zlen mem <= cap ->
  TextRfileAdvance (S fuel) (reader f mem (zlen mem))
  = Ret (kPglRetEof, reader_at_eof (after_read cap f) (zlen mem)).
Proof.
  intros Hc Hrest Hlen. unfold plain_reader, plain_reader_at_eof.
  apply advance_plain_eof; try assumption; try lia.
  - rewrite u32_small by lia. lia.
  - pose proof (Halloc (Some (zlen mem)) (Some (zlen mem)) em kPglRetSuccess
                  (Some f) (Some mem) (zlen mem)). lia.
Qed.

Lemma plain_reader_short (fuel : nat) (f : FILE) (mem : list byte)
    (off : Z) :
  let u := drop off mem in
  let room := cap - zlen u in
  let w := with_final_newline (u ++ f_rest f) in
  clean f -> 0 <= off <= zlen mem -> zlen mem <= cap ->
  zlen u < cap - C ->
  zlen (f_rest f) < room -> 0 < zlen u + zlen (f_rest f) ->
  TextRfileAdvance (S fuel) (reader f mem off)
  = Ret (kPglRetSuccess,
         mkRfile
           (mkBase (Some 0) (Some (zlen w)) em kPglRetSuccess
              (Some (after_read room f)) (Some w) (zlen w) cap blen own
              kFileUncompressed log) r).
Proof.
  intros u room w Hc Hoff Hlen Hu Hshort Hpos.
  assert (Hzu : zlen u = zlen mem - off) by (unfold u; rewrite zlen_drop; lia).
  unfold plain_reader.
  rewrite (advance_enters_loop X (S fuel) _ f mem off) by reflexivity.
  cbn [base rds].
  rewrite loop_plain_move;
    try (cbn; (reflexivity || exact Hc || lia));
    try (cbn; rewrite u32_small by lia; lia).
  cbn [dst_len dst_capacity consume_iter consume_stop heap_log].
  rewrite <- Hzu. fold u. fold room.
  rewrite (take_all room (f_rest f)) by lia.
  rewrite (scan_short X _ log (zlen u) u (f_rest f) (after_read room f) r);
    try reflexivity; try (cbn; lia).
  cbn. apply Halloc.
Qed.

Lemma plain_reader_full (fuel : nat) (f : FILE) (mem : list byte)
    (off : Z) (l1 l2 : list byte) :
  let u := drop off mem in
  let room := cap - zlen u in
  clean f -> 0 <= off <= zlen mem -> zlen mem <= cap ->
  zlen u < cap - C ->
  take room (f_rest f) = l1 ++ NL :: l2 -> find_last NL l2 = None ->
  zlen (l1 ++ NL :: l2) = room ->
  TextRfileAdvance (S fuel) (reader f mem off)
  = Ret (kPglRetSuccess,
         mkRfile
           (mkBase (Some 0) (Some (zlen u + zlen l1 + 1)) em kPglRetSuccess
              (Some (after_read room f)) (Some (u ++ l1 ++ NL :: l2))
              (zlen (u ++ l1 ++ NL :: l2)) cap blen own kFileUncompressed
              log) r).
Proof.
  intros u room Hc Hoff Hlen Hu Htake Hl2 Hfull.
  assert (Hzu : zlen u = zlen mem - off) by (unfold u; rewrite zlen_drop; lia).
  pose proof (zlen_nonneg l1) as Hl1.
  assert (Hfind : find_last NL (l1 ++ NL :: l2) = Some (length l1 + 0)%nat).
  { apply find_last_app_some. cbn [find_last]. rewrite Hl2. reflexivity. }
  unfold plain_reader.
  assert (Hk : Z.of_nat (length l1 + 0) = zlen l1) by (unfold zlen; lia).
  rewrite zlen_app, zlen_cons in Hfull. pose proof (zlen_nonneg l2) as Hl2'.
  rewrite (advance_plain_full_found X fuel em f mem off cap blen own log r
             (length l1 + 0)).
  - rewrite <- Hzu. fold u. fold room. rewrite Htake, Hk.
    rewrite !zlen_app, zlen_cons.
    replace (zlen u + (zlen l1 + (1 + zlen l2))) with cap
      by (unfold room in Hfull; lia).
    reflexivity.
  - exact Hc.
  - exact Hoff.
  - lia.
  - rewrite u32_small by lia. lia.
  - lia.
  - lia.
  - lia.
  - apply Halloc.
  - rewrite <- Hzu. fold u. fold room. rewrite Htake.
    rewrite zlen_app, zlen_cons. exact Hfull.
  - rewrite <- Hzu. fold u. fold room. rewrite Htake. exact Hfind.
  - lia.
  - rewrite Hk. lia.
Qed.

Lemma zlen_with_final_newline_le (data : list byte) :
  zlen (with_final_newline data) <= zlen data + 1.
Proof.
  unfold with_final_newline. destruct data as [|x l]; [cbn; lia|].
  destruct (Byte.eqb (last (x :: l) x00) NL); [lia|].
  rewrite zlen_app. change (zlen [NL]) with 1. lia.
Qed.

(** The end of a pass: what is left fits the buffer. *)
Lemma plain_pass_end (k : nat) (f : FILE) (mem : list byte) (off : Z) :
  let u := drop off mem in
  clean f -> 0 <= off <= zlen mem -> zlen mem <= cap ->
  zlen u < C ->
  zlen (f_rest f) < cap - zlen u ->
  exists sl f' stop,
    read_all (S (S k)) 1 (reader f mem off)
    = Ret (sl, kPglRetEof, reader_at_eof f' stop)
    /\ concat sl = with_final_newline (u ++ f_rest f)
    /\ clean f' /\ f_all f' = f_all f /\ f_rest f' = [].
Proof.
  intros u Hc Hoff Hlen Hu Hshort.
  assert (Hzu : zlen u = zlen mem - off) by (unfold u; rewrite zlen_drop; lia).
  pose proof (zlen_nonneg (f_rest f)) as Hr0.
  destruct (Z.eq_dec (zlen u + zlen (f_rest f)) 0) as [Hz|Hnz].
  - assert (Hu0 : u = []) by (apply zlen_zero_nil; lia).
    assert (Hr : f_rest f = []) by (apply zlen_zero_nil; lia).
    assert (Hoff' : off = zlen mem) by lia.
    exists [], (after_read cap f), (zlen mem).
    cbn [read_all]. rewrite Hoff'.
    rewrite (plain_reader_eof 0 f mem Hc Hr Hlen).
    rewrite Hu0, Hr. cbn [after_read f_all f_rest].
    repeat split.
    + apply after_read_clean. exact Hc.
    + rewrite Hr. reflexivity.
  - set (room := cap - zlen u).
    set (w := with_final_newline (u ++ f_rest f)).
    assert (Hw : zlen w <= cap).
    { unfold w. pose proof (zlen_with_final_newline_le (u ++ f_rest f)) as H.
      rewrite zlen_app in H. lia. }
    assert (Hrest : f_rest (after_read room f) = []).
    { cbn [after_read f_rest]. apply drop_all. unfold room. lia. }
    exists [w], (after_read cap (after_read room f)), (zlen w).
    change (read_all (S (S k)) 1 (reader f mem off))
      with (match TextRfileAdvance 1 (reader f mem off) with
            | Ret (kPglRetSuccess, t1) =>
                match read_all (S k) 1 (consume_all t1) with
                | Ret (sl, e, t2) => Ret (slice t1 :: sl, e, t2)
                | o => o
                end
            | Ret (e, t1) => Ret ([], e, t1)
            | AssertFail => AssertFail
            | Undefined => Undefined
            | OutOfFuel => OutOfFuel
            end).
    rewrite (plain_reader_short 0 f mem off Hc Hoff Hlen ltac:(fold u; lia)
               Hshort
               ltac:(fold u; lia)).
    fold u. fold room. fold w.
    change (consume_all _) with (reader (after_read room f) w (zlen w)).
    cbn [read_all].
    rewrite (plain_reader_eof 0 _ w (after_read_clean room f Hc) Hrest Hw).
    unfold slice. cbn [base dst consume_iter consume_stop].
    rewrite Z.sub_0_r, sub_0, take_all by lia.
    cbn [concat]. rewrite app_nil_r.
    repeat split.
    + apply after_read_clean. apply after_read_clean. exact Hc.
    + cbn [after_read f_rest]. rewrite drop_all; [reflexivity|].
      rewrite drop_all by (unfold room; lia). cbn. lia.
Qed.

(** A pass over what is left of a plain file whose lines are shorter than
    the room the buffer always has. *)
Lemma plain_pass :
  forall (n : nat) (f : FILE) (mem : list byte) (off : Z),
    clean f -> 0 <= off <= zlen mem -> zlen mem <= cap ->
    zlen (drop off mem) < C ->
    lines_fit (C - 1) 0 (drop off mem ++ f_rest f) = true ->
    (length (f_rest f) <= n)%nat ->
    exists sl f' stop,
      read_all (S (S n)) 1 (reader f mem off)
      = Ret (sl, kPglRetEof, reader_at_eof f' stop)
      /\ concat sl = with_final_newline (drop off mem ++ f_rest f)
      /\ clean f' /\ f_all f' = f_all f /\ f_rest f' = [].
Proof.
  induction n as [|n IH]; intros f mem off Hc Hoff Hlen Hu Hfit Hn;
    set (u := drop off mem) in *;
    assert (Hzu : zlen u = zlen mem - off)
      by (unfold u; rewrite zlen_drop; lia);
    pose proof (zlen_nonneg u) as Hu0;
    destruct (Z_lt_ge_dec (zlen (f_rest f)) (cap - zlen u)) as [Hshort|Hfull];
    try (apply plain_pass_end; assumption).
  - exfalso. unfold zlen in Hfull at 1. lia.
  - set (room := cap - zlen u) in *.
    assert (Hroom : room = cap - zlen u) by reflexivity.
    set (loaded := take room (f_rest f)).
    assert (Hload : zlen loaded = room)
      by (unfold loaded; rewrite zlen_take; lia).
    assert (Hsplit : f_rest f = loaded ++ drop room (f_rest f))
      by (unfold loaded; symmetry; apply take_drop).
    destruct (lines_fit_finds_newline (C - 1) u loaded
                (drop room (f_rest f))) as [k Hk].
    { rewrite <- Hsplit. exact Hfit. }
    { lia. }
    destruct (find_last_cut _ _ _ Hk) as (l1 & l2 & Hl & Hkl & Hl2).
    pose proof (zlen_nonneg l1) as Hl1. pose proof (zlen_nonneg l2) as Hl2'.
    assert (Hsum : zlen l1 + 1 + zlen l2 = room).
    { rewrite <- Hload, Hl, zlen_app, zlen_cons. lia. }
    assert (Hfit' : lines_fit (C - 1) 0 (l2 ++ drop room (f_rest f))
                    = true).
    { rewrite Hsplit, Hl in Hfit.
      rewrite <- app_assoc, app_assoc in Hfit. cbn [app] in Hfit.
      rewrite lines_fit_app_newline in Hfit.
      apply andb_prop in Hfit. exact (proj2 Hfit). }
    pose proof (lines_fit_bounds_tail _ _ _ Hl2 Hfit') as Htail.
    set (mem1 := u ++ l1 ++ NL :: l2).
    assert (Hmem1 : zlen mem1 = cap).
    { unfold mem1. rewrite !zlen_app, zlen_cons. lia. }
    assert (Hdrop : drop (zlen u + zlen l1 + 1) mem1 = l2).
    { unfold mem1. rewrite app_assoc.
      replace (zlen u + zlen l1 + 1) with (zlen (u ++ l1) + 1)
        by (rewrite zlen_app; lia).
      rewrite drop_app, (drop_all _ (u ++ l1)) by lia.
      replace (zlen (u ++ l1) + 1 - zlen (u ++ l1)) with 1 by lia.
      cbn [app]. rewrite drop_cons by lia. apply drop_nonpos. lia. }
    destruct (IH (after_read room f) mem1 (zlen u + zlen l1 + 1))
      as (sl & f' & stop & Hread & Hcat & Hc' & Hall & Hrest).
    { apply after_read_clean. exact Hc. }
    { lia. }
    { lia. }
    { rewrite Hdrop. lia. }
    { rewrite Hdrop. exact Hfit'. }
    { cbn [after_read f_rest].
      assert (zlen (drop room (f_rest f)) < zlen (f_rest f))
        by (rewrite zlen_drop; lia).
      unfold zlen in *. lia. }
    exists ((u ++ l1 ++ [NL]) :: sl), f', stop.
    change (read_all (S (S (S n))) 1 (reader f mem off))
      with (match TextRfileAdvance 1 (reader f mem off) with
            | Ret (kPglRetSuccess, t1) =>
                match read_all (S (S n)) 1 (consume_all t1) with
                | Ret (sl, e, t2) => Ret (slice t1 :: sl, e, t2)
                | o => o
                end
            | Ret (e, t1) => Ret ([], e, t1)
            | AssertFail => AssertFail
            | Undefined => Undefined
            | OutOfFuel => OutOfFuel
            end).
    rewrite (plain_reader_full 0 f mem off l1 l2 Hc Hoff Hlen
               ltac:(fold u; lia));
      [| exact Hl | exact Hl2 | rewrite <- Hl; exact Hload].
    fold u. fold mem1.
    change (consume_all _)
      with (reader (after_read (cap - zlen u) f) mem1 (zlen u + zlen l1 + 1)).
    fold room. rewrite Hread.
    unfold slice. cbn [base dst consume_iter consume_stop].
    rewrite Z.sub_0_r, sub_0.
    assert (Hslice : take (zlen u + zlen l1 + 1) mem1 = u ++ l1 ++ [NL]).
    { unfold mem1. rewrite app_assoc.
      replace (zlen u + zlen l1 + 1) with (zlen (u ++ l1) + 1)
        by (rewrite zlen_app; lia).
      rewrite take_app, (take_all _ (u ++ l1)) by lia.
      replace (zlen (u ++ l1) + 1 - zlen (u ++ l1)) with 1 by lia.
      rewrite take_cons, take_nonpos by lia. rewrite <- app_assoc.
      reflexivity. }
    rewrite Hslice.
    split; [reflexivity|]. split.
    + cbn [concat]. rewrite Hcat, Hdrop. cbn [after_read f_rest].
      rewrite Hsplit at 2. rewrite Hl.
      replace (u ++ (l1 ++ NL :: l2) ++ drop room (f_rest f))
        with ((u ++ l1) ++ NL :: (l2 ++ drop room (f_rest f)))
        by (rewrite <- !app_assoc; reflexivity).
      rewrite with_final_newline_cut, <- !app_assoc. reflexivity.
    + split; [exact Hc'|]. split; [exact Hall | exact Hrest].
Qed.

End PlainPass.

(** [TextRfileOpenEx] on a plain file: the reader starts with the first 16
    bytes in [dst], or is at the end at once if there are none. *)
Lemma open_plain_any (X : externs) (fname : string) (data : list byte)
    (blen cap : Z) (dst_arg : bool) :
  let C := kDecompressChunkSizeX X in
  let c := if dst_arg then cap else 2 * C in
  let log := if dst_arg then [] else [EvMalloc (2 * C)] in
  let f1 := mkFILE data (drop 16 data) (zlen (take 16 data) <? 16) false
              None in
  fopen X fname = Some data ->
  open_file_type X (take 16 data) = kFileUncompressed ->
  (dst_arg = false -> malloc_ok X (2 * C) = true) ->
  0 < C -> 2 * C <= c -> c <= blen -> blen + C < 2 ^ 32 ->
  TextRfileOpenEx fname blen cap dst_arg (PreinitTextRfile X)
  = Ret (kPglRetSuccess,
         match data with
         | [] => plain_reader_at_eof c blen dst_arg log None (RdsNone X) f1 0
         | _ :: _ =>
             plain_reader c blen dst_arg log None (RdsNone X) f1
               (take 16 data) 0
         end).
Proof.
  intros C c log f1 Hfs Hprobe Hmalloc HC Hc Hblen H32.
  assert (Hchk : open_args_check X blen cap dst_arg true = Ret None).
  { unfold open_args_check. rewrite orb_true_r. fold C.
    destruct (blen <? C) eqn:E1; [lia|].
    destruct dst_arg; [|reflexivity]. unfold c in *.
    rewrite !u32_small by lia.
    destruct (cap <? 2 * C) eqn:E2; [lia|].
    destruct (blen + C <? cap) eqn:E3; [lia|]. reflexivity. }
  unfold open_file_type in Hprobe.
  unfold TextRfileOpenEx, TextRfileOpenInternal.
  cbn [PreinitTextRfile base ff]. rewrite Hchk.
  unfold open_file_and_probe. rewrite Hfs. fold C.
  assert (Hm : (negb dst_arg && negb (malloc_ok X (2 * C))) = false).
  { destruct dst_arg; [reflexivity|]. rewrite (Hmalloc eq_refl). reflexivity. }
  rewrite Hm.
  cbn [fread_unlocked fopen_data f_bad f_rest f_all f_eof f_err orb].
  assert (Hcap : (if dst_arg then cap else u32 (2 * C)) = c).
  { unfold c. destruct dst_arg; [reflexivity|]. apply u32_small. lia. }
  rewrite Hcap. fold log.
  destruct (zlen (take 16 data) >=? 4) eqn:E4.
  - destruct (IsZstdFrame X (le32 (take 16 data))); [discriminate|].
    destruct (u32 (Z.shiftl (le32 (take 16 data)) 8) =? 143335168).
    { destruct ((zlen (take 16 data) =? 16)
                && IsBgzfHeader X (take 16 data)); discriminate. }
    destruct data as [|x data]; [cbn in E4; discriminate|].
    unfold open_ret, set_err, plain_reader. cbn [base rds].
    cbn [consume_iter consume_stop errmsg reterr ff dst dst_len dst_capacity
           enforced_max_line_blen dst_owned_by_consumer file_type heap_log].
    rewrite (take_all (zlen (take 16 (x :: data)))) by lia. reflexivity.
  - destruct data as [|x data].
    + reflexivity.
    + destruct (zlen (take 16 (x :: data)) =? 0) eqn:E0.
      { rewrite take_cons, zlen_cons in E0 by lia.
        pose proof (zlen_nonneg (take (16 - 1) data)). lia. }
      unfold open_ret, set_err, plain_reader. cbn [base rds].
      cbn [consume_iter consume_stop errmsg reterr ff dst dst_len
             dst_capacity enforced_max_line_blen dst_owned_by_consumer
             file_type heap_log].
      rewrite (take_all (zlen (take 16 (x :: data)))) by lia. reflexivity.
Qed.

Lemma plain_open_and_read (X : externs) (fname : string) (data : list byte)
    (blen cap : Z) (dst_arg : bool) :
  let C := kDecompressChunkSizeX X in
  let c := if dst_arg then cap else 2 * C in
  let log := if dst_arg then [] else [EvMalloc (2 * C)] in
  fopen X fname = Some data ->
  open_file_type X (take 16 data) = kFileUncompressed ->
  (dst_arg = false -> malloc_ok X (2 * C) = true) ->
  16 < C -> 2 * C <= c -> c <= kMaxBytesPerIO X -> c <= blen ->
  blen + C < 2 ^ 32 ->
  lines_fit (C - 1) 0 data = true ->
  exists sl f' stop,
    open_and_read X (S (S (length data))) 1 fname blen cap dst_arg
    = Ret (sl, kPglRetEof,
           plain_reader_at_eof c blen dst_arg log None (RdsNone X) f' stop)
    /\ concat sl = with_final_newline data
    /\ clean f' /\ f_all f' = data.
Proof.
  intros C c log Hfs Hprobe Hmalloc HC Hc Hmax Hblen H32 Hfit.
  unfold open_and_read.
  rewrite (open_plain_any X fname data blen cap dst_arg Hfs Hprobe Hmalloc
             ltac:(fold C; lia) Hc Hblen H32).
  fold C. fold c. fold log.
  destruct data as [|x data].
  - eexists [], _, 0. split; [reflexivity|].
    repeat split.
  - set (d := x :: data) in *.
    set (f1 := mkFILE d (drop 16 d) (zlen (take 16 d) <? 16) false None).
    assert (Hz16 : zlen (take 16 d) <= 16) by (rewrite zlen_take; lia).
    assert (Halloc : forall ci cs m e f dd l,
               c <= dst_alloc (mkBase ci cs m e f dd l c blen dst_arg
                                 kFileUncompressed log)).
    { intros. unfold dst_alloc. cbn [heap_log dst_capacity].
      unfold log, c. destruct dst_arg; cbn [rev app]; lia. }
    destruct (plain_pass X c blen dst_arg log None (RdsNone X)
                ltac:(fold C; lia) ltac:(fold C; lia) Hmax Hblen Halloc
                (length d) f1 (take 16 d) 0)
      as (sl & f' & stop & Hread & Hcat & Hc' & Hall & _).
    + split; reflexivity.
    + pose proof (zlen_nonneg (take 16 d)). lia.
    + lia.
    + rewrite drop_nonpos by lia. fold C. lia.
    + rewrite drop_nonpos by lia. cbn [f1 f_rest]. rewrite take_drop.
      exact Hfit.
    + cbn [f1 f_rest].
      assert (zlen (drop 16 d) <= zlen d)
        by (pose proof (zlen_nonneg d); rewrite zlen_drop; lia).
      unfold zlen in *. lia.
    + exists sl, f', stop. rewrite Hread. split; [reflexivity|].
      rewrite Hcat, drop_nonpos by lia. cbn [f1 f_rest].
      rewrite take_drop. split; [reflexivity|].
      split; [exact Hc' | exact Hall].
Qed.

(** X3: a complete pass over a plain file whose lines are shorter than a
    chunk hands out the contents of the file, with a ['\n'] added at the end
    if the last line has none, and ends with Eof. *)
Theorem plain_file_of_short_lines_is_read_back_whole :
  forall (X : externs) (fname : string) (data : list byte)
         (blen cap : Z) (dst_arg : bool),
    let C := kDecompressChunkSizeX X in
    let c := if dst_arg then cap else 2 * C in
    fopen X fname = Some data ->
    open_file_type X (take 16 data) = kFileUncompressed ->
    (dst_arg = false -> malloc_ok X (2 * C) = true) ->
    16 < C -> 2 * C <= c -> c <= kMaxBytesPerIO X -> c <= blen ->
    blen + C < 2 ^ 32 ->
    lines_fit (C - 1) 0 data = true ->
    exists sl t,
      open_and_read X (S (S (length data))) 1 fname blen cap dst_arg
      = Ret (sl, kPglRetEof, t)
      /\ concat sl = with_final_newline data.
Proof.
  intros X fname data blen cap dst_arg C c Hfs Hprobe Hmalloc HC Hc Hmax
    Hblen H32 Hfit.
  destruct (plain_open_and_read X fname data blen cap dst_arg Hfs Hprobe
              Hmalloc HC Hc Hmax Hblen H32 Hfit)
    as (sl & f' & stop & Hread & Hcat & _).
  exists sl. eexists. split; [exact Hread | exact Hcat].
Qed.

Lemma plain_file_of_short_lines_is_read_back_whole_witness :
  exists sl t,
    open_and_read (plink2 (one_file three_lines)) 10 1 "f" 2097152 0 false
    = Ret (sl, kPglRetEof, t)
    /\ concat sl = with_final_newline three_lines.
Proof.
  apply (plain_file_of_short_lines_is_read_back_whole
           (plink2 (one_file three_lines)) "f" three_lines 2097152 0 false).
  - reflexivity.
  - reflexivity.
  - reflexivity.
  - reflexivity.
  - cbn. lia.
  - cbn. lia.
  - cbn. lia.
  - cbn. lia.
  - reflexivity.
Defined.

(** X4: after such a pass [TextRfileRewind] puts the reader back at the
    start: a second pass hands out the same contents. *)
Theorem rewind_replays_a_plain_file_of_short_lines :
  forall (X : externs) (fname : string) (data : list byte)
         (blen cap : Z) (dst_arg : bool)
         (sl : list (list byte)) (t : textRFILE X),
    let C := kDecompressChunkSizeX X in
    let c := if dst_arg then cap else 2 * C in
    fopen X fname = Some data ->
    open_file_type X (take 16 data) = kFileUncompressed ->
    (dst_arg = false -> malloc_ok X (2 * C) = true) ->
    16 < C -> 2 * C <= c -> c <= kMaxBytesPerIO X -> c <= blen ->
    blen + C < 2 ^ 32 ->
    lines_fit (C - 1) 0 data = true ->
    open_and_read X (S (S (length data))) 1 fname blen cap dst_arg
    = Ret (sl, kPglRetEof, t) ->
    exists t0 sl' t',
      TextRfileRewind t = Ret t0
      /\ reterr (base t0) = kPglRetSuccess
      /\ read_all (S (S (length data))) 1 t0 = Ret (sl', kPglRetEof, t')
      /\ concat sl' = with_final_newline data.
Proof.
  intros X fname data blen cap dst_arg sl t C c Hfs Hprobe Hmalloc HC Hc
    Hmax Hblen H32 Hfit Hpass.
  destruct (plain_open_and_read X fname data blen cap dst_arg Hfs Hprobe
              Hmalloc HC Hc Hmax Hblen H32 Hfit)
    as (sl1 & f' & stop & Hread & _ & Hc' & Hall).
  fold C in Hread. fold c in Hread.
  rewrite Hpass in Hread. injection Hread as _ ->.
  set (log := if dst_arg then [] else [EvMalloc (2 * C)]).
  assert (Halloc : forall ci cs m e f dd l,
             c <= dst_alloc (mkBase ci cs m e f dd l c blen dst_arg
                               kFileUncompressed log)).
  { intros. unfold dst_alloc. cbn [heap_log dst_capacity].
    unfold log, c. destruct dst_arg; cbn [rev app]; lia. }
  destruct (plain_pass X c blen dst_arg log None (RdsNone X)
              ltac:(fold C; lia) ltac:(fold C; lia) Hmax Hblen Halloc
              (length data) (rewind f') [] 0)
    as (sl' & f2 & stop2 & Hread2 & Hcat2 & _).
  - destruct Hc' as [Hbad Herr]. split; [exact Hbad | reflexivity].
  - cbn. lia.
  - cbn. fold C. lia.
  - cbn. fold C. lia.
  - cbn [drop app rewind f_rest]. rewrite Hall. exact Hfit.
  - cbn [rewind f_rest]. rewrite Hall. lia.
  - exists (plain_reader c blen dst_arg log None (RdsNone X) (rewind f') [] 0),
      sl'. eexists.
    split; [reflexivity|]. split; [reflexivity|].
    split; [exact Hread2|].
    rewrite Hcat2. cbn [drop app rewind f_rest]. rewrite Hall. reflexivity.
Qed.

Lemma rewind_replays_a_plain_file_of_short_lines_witness :
  exists (sl : list (list byte))
         (t t0 : textRFILE (plink2 (one_file three_lines)))
         (sl' : list (list byte))
         (t' : textRFILE (plink2 (one_file three_lines))),
    open_and_read (plink2 (one_file three_lines)) 10 1 "f" 2097152 0 false
    = Ret (sl, kPglRetEof, t)
    /\ TextRfileRewind t = Ret t0
    /\ read_all 10 1 t0 = Ret (sl', kPglRetEof, t')
    /\ concat sl' = with_final_newline three_lines.
Proof.
  assert (H : exists sl t,
             open_and_read (plink2 (one_file three_lines)) 10 1 "f" 2097152
               0 false = Ret (sl, kPglRetEof, t)).
  { eexists. eexists. vm_compute. reflexivity. }
  destruct H as (sl & t & H). exists sl, t.
  destruct (rewind_replays_a_plain_file_of_short_lines
              (plink2 (one_file three_lines)) "f" three_lines 2097152 0 false
              sl t)
    as (t0 & sl' & t' & Hr & _ & Hp & Hc).
  - reflexivity.
  - reflexivity.
  - reflexivity.
  - reflexivity.
  - cbn. lia.
  - cbn. lia.
  - cbn. lia.
  - cbn. lia.
  - reflexivity.
  - exact H.
  - exists t0, sl', t'. repeat split; assumption.
Defined.

(* ------------------------------------------------------------------ *)
(** ** Closing and opening again *)

(** X5: [CleanupTextRfile] leaves a closed reader: no stream, no slice, no
    message, Eof latched, [dst] freed unless it is the caller's.  It reports
    an error only for a close that fails, and to a caller that does not
    already hold one.  Afterwards [TextRfileAdvance] returns Eof, and a
    second cleanup changes nothing and reports nothing. *)
Theorem CleanupTextRfile_closes_once_and_for_all :
  forall (X : externs) (close_fails : bool) (t : textRFILE X)
         (reterrp : option PglErr) (flag : bool) (t' : textRFILE X)
         (reterrp' : option PglErr),
    CleanupTextRfile close_fails t reterrp = Ret (flag, t', reterrp') ->
    (ff (base t') = None /\ consume_iter (base t') = None
     /\ consume_stop (base t') = None /\ errmsg (base t') = None
     /\ reterr (base t') = kPglRetEof
     /\ dst (base t') = if dst_owned_by_consumer (base t) then dst (base t)
                        else None)
    /\ flag = (is_open t && close_fails
               && match reterrp with
                  | None | Some kPglRetSuccess => true
                  | Some _ => false
                  end)
    /\ reterrp' = (if flag then option_map (fun _ => kPglRetReadFail) reterrp
                   else reterrp)
    /\ (forall fuel, TextRfileAdvance fuel t' = Ret (kPglRetEof, t'))
    /\ (forall close_fails2 reterrp2,
           CleanupTextRfile close_fails2 t' reterrp2
           = Ret (false, t', reterrp2)).
Proof.
  intros X cf [b r] rp flag t' rp' H.
  unfold CleanupTextRfile in H. cbn [base rds] in H.
  assert (Hshape :
            exists r1,
              t' = mkRfile
                     (mkBase None None None kPglRetEof None
                        (if match dst b with
                            | Some _ => negb (dst_owned_by_consumer b)
                            | None => false
                            end then None else dst b)
                        (dst_len b) (dst_capacity b)
                        (enforced_max_line_blen b) (dst_owned_by_consumer b)
                        (file_type b)
                        (if match dst b with
                            | Some _ => negb (dst_owned_by_consumer b)
                            | None => false
                            end then [] else heap_log b)) r1
              /\ flag = (is_open (mkRfile b r) && cf
                         && match rp with
                            | None | Some kPglRetSuccess => true
                            | Some _ => false
                            end)
              /\ rp' = (if flag
                        then option_map (fun _ => kPglRetReadFail) rp
                        else rp)).
  { unfold is_open. cbn [base].
    destruct (ff b) as [f|].
    - destruct (cleanup_rds (file_type b) r) as [r1| | |]; try discriminate.
      cbn [obind] in H. exists r1.
      destruct cf; [destruct rp as [[]|]|]; injection H as <- <- <-;
        repeat split; destruct rp as [[]|]; reflexivity.
    - injection H as <- <- <-. exists r. repeat split. }
  destruct Hshape as (r1 & -> & Hflag & Hrp).
  cbn [base rds ff consume_iter consume_stop errmsg reterr dst].
  split.
  { repeat split.
    destruct (dst b), (dst_owned_by_consumer b); reflexivity. }
  split; [exact Hflag|]. split; [exact Hrp|]. split.
  - intros fuel. reflexivity.
  - intros cf2 rp2. unfold CleanupTextRfile.
    cbn [base rds ff dst dst_owned_by_consumer heap_log dst_len dst_capacity
           enforced_max_line_blen file_type].
    destruct (dst b), (dst_owned_by_consumer b); reflexivity.
Qed.

Lemma CleanupTextRfile_closes_once_and_for_all_witness :
  exists (t' : textRFILE (plink2 (one_file three_lines))),
    CleanupTextRfile true three_lines_opened (Some kPglRetSuccess)
    = Ret (true, t', Some kPglRetReadFail)
    /\ ff (base t') = None /\ dst (base t') = None
    /\ CleanupTextRfile true t' (Some kPglRetSuccess)
       = Ret (false, t', Some kPglRetSuccess).
Proof.
  eexists. split; [reflexivity|].
  destruct (CleanupTextRfile_closes_once_and_for_all
              (plink2 (one_file three_lines)) true three_lines_opened
              (Some kPglRetSuccess) _ _ _ eq_refl)
    as ((Hff & _ & _ & _ & _ & Hdst) & _ & _ & _ & Hagain).
  split; [exact Hff|]. split; [exact Hdst|]. apply Hagain.
Defined.



(** The reader a cleanup leaves does not depend on how the close goes or
    on what the caller passes for the code. *)
Lemma CleanupTextRfile_reader (X : externs) (close_fails : bool)
    (t t2 : textRFILE X) (reterrp : option PglErr) :
  CleanupTextRfile false t None = Ret (false, t2, None) ->
  exists flag reterrp',
    CleanupTextRfile close_fails t reterrp = Ret (flag, t2, reterrp').
Proof.
  unfold CleanupTextRfile. destruct (ff (base t)).
  - destruct (cleanup_rds _ _); try discriminate. cbn [obind].
    intros H. injection H as <-.
    destruct close_fails; [destruct reterrp as [[]|]|];
      eexists _, _; reflexivity.
  - intros H. injection H as <-. eexists _, _; reflexivity.
Qed.

(** X7: a reader that has been opened, with whatever result, and cleaned up
    is as good as new: the cleanup returns, and opening with the same
    arguments gives the same result again. *)
Theorem cleaned_up_reader_opens_like_a_fresh_one :
  forall (X : externs) (fname : string) (blen cap : Z) (dst_arg : bool)
         (e : PglErr) (t1 : textRFILE X) (close_fails : bool)
         (reterrp : option PglErr),
    TextRfileOpenEx fname blen cap dst_arg (PreinitTextRfile X)
    = Ret (e, t1) ->
    exists flag t2 reterrp',
      CleanupTextRfile close_fails t1 reterrp = Ret (flag, t2, reterrp')
      /\ ff (base t2) = None
      /\ TextRfileOpenEx fname blen cap dst_arg t2 = Ret (e, t1).
Proof.
  intros X fname blen cap dst_arg e t1 cf rp H.
  enough (Hgoal : exists t2,
             CleanupTextRfile false t1 None = Ret (false, t2, None)
             /\ ff (base t2) = None
             /\ TextRfileOpenEx fname blen cap dst_arg t2 = Ret (e, t1)).
  { destruct Hgoal as (t2 & Hc & Hff & Hopen).
    destruct (CleanupTextRfile_reader X cf t1 t2 rp Hc) as (flag & rp' & Hc').
    exists flag, t2, rp'. repeat split; assumption. }
  unfold TextRfileOpenEx, TextRfileOpenInternal in H.
  cbn [PreinitTextRfile base ff rds] in H.
  destruct (open_args_check X blen cap dst_arg true) as [[m|]| | |] eqn:Echk;
    try discriminate.
  { unfold open_ret in H. injection H as <- <-.
    exists (PreinitTextRfile X).
    split; [reflexivity|]. split; [reflexivity|].
    unfold TextRfileOpenEx, TextRfileOpenInternal.
    cbn [PreinitTextRfile base ff]. rewrite Echk. reflexivity. }
  unfold open_file_and_probe in H.
  destruct (fopen X fname) as [data|] eqn:Efs.
  2:{ unfold open_ret in H. injection H as <- <-.
      exists (PreinitTextRfile X).
      split; [reflexivity|]. split; [reflexivity|].
      unfold TextRfileOpenEx, TextRfileOpenInternal, open_file_and_probe.
      cbn [PreinitTextRfile base ff]. rewrite Echk, Efs. reflexivity. }
  cbn [base rds heap_log errmsg reterr consume_iter consume_stop dst dst_len
         dst_capacity enforced_max_line_blen dst_owned_by_consumer] in H.
  unfold TextRfileOpenEx, TextRfileOpenInternal, open_file_and_probe.
  unfold open_ret, ZstRawInit, GzRawInit in *.
  repeat (break_match_hyp; try discriminate);
    injection H as <- <-;
    (eexists; split; [reflexivity|]; split; [reflexivity|]);
    cbn [base ff rds heap_log errmsg reterr consume_iter consume_stop dst
           dst_len dst_capacity enforced_max_line_blen dst_owned_by_consumer
           set_err file_type negb];
    rewrite Echk, Efs;
    repeat match goal with
           | Hc : ?c = _ |- context [?c] => rewrite Hc
           end;
    repeat match goal with
           | Hs : Some _ = Some _ |- _ => injection Hs as <-
           end;
    reflexivity.
Qed.

Lemma cleaned_up_reader_opens_like_a_fresh_one_witness :
  exists (flag : bool) (t2 : textRFILE (plink2 (one_file three_lines)))
         (reterrp' : option PglErr),
    CleanupTextRfile false three_lines_opened None
    = Ret (flag, t2, reterrp')
    /\ ff (base t2) = None
    /\ TextRfileOpenEx "f" 2097152 0 false t2
       = Ret (kPglRetSuccess, three_lines_opened).
Proof.
  apply (cleaned_up_reader_opens_like_a_fresh_one
           (plink2 (one_file three_lines)) "f" 2097152 0 false).
  vm_compute. reflexivity.
Defined.

(* ------------------------------------------------------------------ *)
(** ** The window of a load *)

Lemma ZstRawStreamRead_loop_spec (X : externs) :
  forall (fuel : nat) (room : Z) (f : FILE) (ds : ZSTD_DStream X)
         (src : list byte) (pos : Z) (out : list byte),
    (length (f_rest f) < fuel)%nat ->
    exists r,
      ZstRawStreamRead_loop X fuel room f ds src pos out = Ret r
      /\ raw_read_well_formed r
      /\ (zstd_obeys_output_size X -> zlen out <= room ->
          zlen (rr_out r) <= room).
Proof.
  induction fuel as [|fuel IH]; intros room f ds src pos out Hfuel; [lia|].
  cbn [ZstRawStreamRead_loop].
  set (r := ZSTD_decompressStream X ds (drop pos src) (room - zlen out)).
  pose proof (zlen_nonneg out) as Hout0.
  assert (Hstep : zstd_obeys_output_size X -> zlen out <= room ->
                  zlen (out ++ zstd_out r) <= room).
  { intros Hc Hle. rewrite zlen_app.
    pose proof (Hc ds (drop pos src) (room - zlen out)). fold r in H. lia. }
  destruct (zstd_is_error r).
  { eexists. split; [reflexivity|]. split.
    - cbn. split; [discriminate | reflexivity].
    - intros _ Hle. cbn [rr_out]. rewrite zlen_nil. lia. }
  destruct (zlen (out ++ zstd_out r) =? room) eqn:Efull.
  { apply Z.eqb_eq in Efull.
    eexists. split; [reflexivity|]. split; [reflexivity|].
    intros _ _. cbn [rr_out]. lia. }
  destruct (fread_unlocked _ f) as [buf f1] eqn:Eread.
  destruct (ferror_unlocked f1) eqn:Eerr.
  { eexists. split; [reflexivity|]. split.
    - cbn. repeat split. exact Eerr.
    - intros _ Hle. cbn [rr_out]. rewrite zlen_nil. lia. }
  destruct buf as [|x buf].
  - destruct (negb (_ =? 0)).
    + eexists. split; [reflexivity|]. split.
      * cbn. split; [discriminate | reflexivity].
      * intros _ Hle. cbn [rr_out]. rewrite zlen_nil. lia.
    + eexists. split; [reflexivity|]. split; [reflexivity|]. exact Hstep.
  - pose proof (fread_shrinks _ _ _ _ Eread ltac:(discriminate)) as Hsh.
    destruct (IH room f1 (zstd_next r)
                (sub src (pos + zstd_consumed r)
                   (u32 (zlen src - (pos + zstd_consumed r))) ++ x :: buf)
                0 (out ++ zstd_out r) ltac:(lia))
      as (r' & Hr' & Hwf & Hb).
    exists r'. split; [exact Hr'|]. split; [exact Hwf|].
    intros Hc Hle. apply Hb; [exact Hc | apply Hstep; assumption].
Qed.

(** X8: [ZstRawStreamRead] always returns.  It returns success without a
    message, or DecompressFail or ReadFail with one and with nothing
    written; ReadFail only with the error indicator of the stream set.  If
    the decoder keeps to the size of its output buffer, the call writes no
    more than the room between [*dst_iterp] and [dst_end]. *)
Theorem ZstRawStreamRead_returns_within_the_window :
  forall (X : externs) (room : Z) (f : FILE) (zst : ZstRawDecompressStream X),
    zst_ds zst <> None -> 0 <= room ->
    exists r,
      ZstRawStreamRead room f zst = Ret r
      /\ raw_read_well_formed r
      /\ (zstd_obeys_output_size X -> zlen (rr_out r) <= room).
Proof.
  intros X room f zst Hds Hroom. unfold ZstRawStreamRead.
  destruct (zst_ds zst) as [ds|]; [|contradiction].
  destruct ((zlen (ib_src zst) =? 0) && feof_unlocked f).
  - eexists. split; [reflexivity|]. split; [reflexivity|].
    intros _. exact Hroom.
  - destruct (ZstRawStreamRead_loop_spec X (S (length (f_rest f))) room f ds
                (ib_src zst) (ib_pos zst) [] ltac:(lia))
      as (r & Hr & Hwf & Hb).
    exists r. split; [exact Hr|]. split; [exact Hwf|].
    intros Hc. apply Hb; [exact Hc | exact Hroom].
Qed.

Lemma GzRawStreamRead_loop_bound (X : externs) :
  inflate_obeys_avail_out X ->
  forall (fuel : nat) (room : Z) (f : FILE) (ds : z_stream X)
         (avail out : list byte) (log : list gz_event)
         (r : raw_read (GzRawDecompressStream X)) (log' : list gz_event),
    0 <= room < 2 ^ 32 -> zlen out <= room ->
    GzRawStreamRead_loop X fuel room f ds avail out log = Ret (r, log') ->
    zlen (rr_out r) <= room.
Proof.
  intros Hc. induction fuel as [|fuel IH];
    intros room f ds avail out log r log' Hroom Hout H; [discriminate|].
  cbn [GzRawStreamRead_loop] in H.
  assert (Hrefill :
            forall zerr0 ds1 out1 log1,
              zlen out1 <= room ->
              (let '(buf, f1) := fread_unlocked (kDecompressChunkSizeX X) f in
               let log2 := log1 ++ [GzFread (zlen buf) (feof_unlocked f1)] in
               let gz1 := mkGz X (Some ds1) buf true in
               match buf with
               | [] =>
                   if negb (feof_unlocked f1) then
                     Ret (mk_raw_read kPglRetReadFail (Some strerror_errno)
                            [] f1 gz1, log2)
                   else if zerr0 =? Z_OK then
                     Ret (mk_raw_read kPglRetDecompressFail
                            (Some kShortErrRfileTruncatedGz) [] f1 gz1, log2)
                   else
                     Ret (mk_raw_read kPglRetSuccess None out1 f1 gz1, log2)
               | _ :: _ =>
                   if zlen out1 =? room then
                     Ret (mk_raw_read kPglRetSuccess None out1 f1 gz1, log2)
                   else GzRawStreamRead_loop X fuel room f1 ds1 buf out1 log2
               end) = Ret (r, log') ->
              zlen (rr_out r) <= room).
  { intros zerr0 ds1 out1 log1 Hout1.
    destruct (fread_unlocked _ f) as [buf f1].
    destruct buf as [|x buf].
    - destruct (negb (feof_unlocked f1));
        [|destruct (zerr0 =? Z_OK)];
        intros E; injection E as <- _; cbn [rr_out]; rewrite ?zlen_nil; lia.
    - destruct (zlen out1 =? room).
      + intros E; injection E as <- _. exact Hout1.
      + intros E. exact (IH _ _ _ _ _ _ _ _ Hroom Hout1 E). }
  pose proof (zlen_nonneg out) as Hout0.
  destruct avail as [|a avail].
  - exact (Hrefill Z_OK ds out log Hout H).
  - set (rz := inflate X ds (a :: avail) (u32 (room - zlen out))) in *.
    assert (Hout1 : zlen (out ++ z_out rz) <= room).
    { rewrite zlen_app.
      pose proof (Hc ds (a :: avail) (u32 (room - zlen out))) as Hb.
      fold rz in Hb. rewrite u32_small in Hb by lia. lia. }
    destruct ((zerr rz <? 0) || (zerr rz =? Z_NEED_DICT)).
    { injection H as <- _. cbn [rr_out]. rewrite zlen_nil. lia. }
    destruct (drop (z_consumed rz) (a :: avail)) as [|y rest].
    + exact (Hrefill (zerr rz) (z_next rz) _ _ Hout1 H).
    + destruct (NDEBUG X || (zlen (out ++ z_out rz) =? room));
        [|discriminate].
      injection H as <- _. exact Hout1.
Qed.

Lemma bgzf_loop_bound (X : externs) :
  libdeflate_fills_exactly X ->
  forall (fuel : nat) (room : Z) (f : FILE) (inb : list byte) (in_iter : Z)
         (out : list byte) (r : raw_read BgzfRawDecompressStream),
    0 <= room < 2 ^ 32 -> zlen out <= room ->
    bgzf_loop X fuel room f inb in_iter out = Ret r ->
    zlen (rr_out r) <= room.
Proof.
  intros Hc. induction fuel as [|fuel IH];
    intros room f inb in_iter out r Hroom Hout H; [discriminate|].
  pose proof (zlen_nonneg out) as Hout0.
  cbn [bgzf_loop] in H.
  assert (Hload :
            forall n_inbytes,
              (let residue := sub inb in_iter n_inbytes in
               let '(buf, f1) :=
                 fread_unlocked (u32 (kDecompressChunkSizeX X - n_inbytes)) f
               in
               if ferror_unlocked f1 then
                 Ret (mk_raw_read kPglRetReadFail (Some strerror_errno) [] f1
                        (mkBgzf (residue ++ buf) in_iter true))
               else
                 match buf with
                 | [] =>
                     if negb (n_inbytes =? 0) then
                       Ret (mk_raw_read kPglRetDecompressFail
                              (Some kShortErrInvalidBgzf) [] f1
                              (mkBgzf residue in_iter true))
                     else
                       Ret (mk_raw_read kPglRetSuccess None out f1
                              (mkBgzf residue 0 true))
                 | _ :: _ => bgzf_loop X fuel room f1 (residue ++ buf) 0 out
                 end) = Ret r ->
              zlen (rr_out r) <= room).
  { intros n. cbv zeta.
    destruct (fread_unlocked (u32 (kDecompressChunkSizeX X - n)) f)
      as [buf f1].
    destruct (ferror_unlocked f1).
    { intros E; injection E as <-. cbn [rr_out]. rewrite zlen_nil. lia. }
    destruct buf as [|x buf].
    - destruct (negb (n =? 0)); intros E; injection E as <-;
        cbn [rr_out]; rewrite ?zlen_nil; lia.
    - intros E. exact (IH _ _ _ _ _ _ Hroom Hout E). }
  cbv zeta in H.
  destruct (u32 (zlen inb - in_iter) >? 25); [|exact (Hload _ H)].
  destruct (negb (IsBgzfHeader X (sub inb in_iter 16))).
  { injection H as <-. cbn [rr_out]. rewrite zlen_nil. lia. }
  destruct (le16 (sub inb (in_iter + 16) 2) <? 25).
  { injection H as <-. cbn [rr_out]. rewrite zlen_nil. lia. }
  destruct (le16 (sub inb (in_iter + 16) 2) <? u32 (zlen inb - in_iter));
    [|exact (Hload _ H)].
  destruct (le32 _ >? 65536).
  { injection H as <-. cbn [rr_out]. rewrite zlen_nil. lia. }
  destruct (le32 _ >? uptr X (room - zlen out)) eqn:Efit.
  { injection H as <-. exact Hout. }
  destruct (libdeflate_deflate_decompress X _ _) as [blk|] eqn:Eblk.
  - apply Hc in Eblk.
    apply (IH _ _ _ _ _ _ Hroom) in H; [exact H|].
    rewrite zlen_app, Eblk.
    rewrite uptr_small in Efit by lia. lia.
  - injection H as <-. cbn [rr_out]. rewrite zlen_nil. lia.
Qed.

(** X9: whatever the file type, the [switch] of [TextRfileAdvance] writes
    no more than the room between [dst_load_start] and [dst_end], provided
    the codecs keep to the output sizes they are given. *)
Theorem load_stays_within_the_window :
  forall (X : externs) (ft : FileCompressionType)
         (r : RawDecompressStream X) (f : FILE) (room : Z)
         (ld : load_result X),
    0 <= room < 2 ^ 32 -> 0 <= kMaxBytesPerIO X ->
    inflate_obeys_avail_out X -> zstd_obeys_output_size X ->
    libdeflate_fills_exactly X ->
    load_switch ft r f room = Ret (LdOk ld) ->
    zlen (ld_loaded ld) <= room.
Proof.
  intros X ft r f room ld Hroom Hmax Hgz Hzst Hld H.
  unfold load_switch in H. destruct ft.
  - rewrite u32_small in H by lia.
    destruct (room >? kMaxBytesPerIO X) eqn:Ebig.
    + destruct (fread_unlocked (kMaxBytesPerIO X) f) as [b1 f1] eqn:E1.
      pose proof (fread_accounts _ _ _ _ E1) as [_ Hb1].
      destruct (zlen b1 <? kMaxBytesPerIO X).
      * destruct (ferror_unlocked f1); [discriminate|].
        injection H as <-. cbn [ld_loaded]. rewrite zlen_nil. lia.
      * destruct (fread_unlocked _ f1) as [b2 f2] eqn:E2.
        pose proof (fread_accounts _ _ _ _ E2) as [_ Hb2].
        rewrite u32_small in Hb2 by lia.
        destruct (ferror_unlocked f2); [discriminate|].
        injection H as <-. cbn [ld_loaded]. rewrite zlen_app. lia.
    + destruct (fread_unlocked room f) as [b2 f2] eqn:E2.
      pose proof (fread_accounts _ _ _ _ E2) as [_ Hb2].
      destruct (ferror_unlocked f2); [discriminate|].
      injection H as <-. cbn [ld_loaded]. lia.
  - destruct r as [|gz| | |]; try discriminate.
    unfold GzRawStreamRead, GzRawStreamRead_log in H.
    destruct (gz_ds gz) as [ds|]; [|discriminate].
    assert (Hloop : forall avail,
               lift_raw (@RdsGz X) false
                 match GzRawStreamRead_loop X (S (length (f_rest f))) room f
                         ds avail [] [] with
                 | Ret (r0, _) => Ret r0
                 | AssertFail => AssertFail
                 | Undefined => Undefined
                 | OutOfFuel => OutOfFuel
                 end = Ret (LdOk ld) ->
               zlen (ld_loaded ld) <= room).
    { intros avail.
      destruct (GzRawStreamRead_loop X (S (length (f_rest f))) room f ds
                  avail [] []) as [[r0 lg]| | |] eqn:E;
        try discriminate.
      cbn [lift_raw]. unfold of_raw_read.
      destruct (is_err (rr_err r0)); [discriminate|].
      intros E1. injection E1 as <-. cbn [ld_loaded].
      exact (GzRawStreamRead_loop_bound X Hgz _ _ _ _ _ _ _ _ _ Hroom
               ltac:(rewrite zlen_nil; lia) E). }
    destruct (gz_avail gz) as [|a avail].
    + destruct (feof_unlocked f).
      * cbn [lift_raw of_raw_read rr_err is_err PglErr_eqb negb] in H.
        injection H as <-. cbn [ld_loaded rr_out].
        rewrite zlen_nil. lia.
      * exact (Hloop [] H).
    + exact (Hloop (a :: avail) H).
  - destruct r as [| | |bg|]; try discriminate.
    destruct ((in_size bg =? 0) && feof_unlocked f).
    + injection H as <-. cbn [ld_loaded]. rewrite zlen_nil. lia.
    + destruct (bgzf_loop _ _ _ _ _ _ _) as [r0| | |] eqn:E;
        try discriminate.
      cbn [lift_raw] in H. unfold of_raw_read in H.
      destruct (is_err (rr_err r0)); [discriminate|].
      injection H as <-. cbn [ld_loaded].
      exact (bgzf_loop_bound X Hld _ _ _ _ _ _ _ Hroom
               ltac:(rewrite zlen_nil; lia) E).
  - destruct r as [| |z| |]; try discriminate.
    destruct (ZstRawStreamRead room f z) as [r0| | |] eqn:E;
      try discriminate.
    cbn [lift_raw] in H. unfold of_raw_read in H.
    destruct (is_err (rr_err r0)); [discriminate|].
    injection H as <-. cbn [ld_loaded].
    unfold ZstRawStreamRead in E.
    destruct (zst_ds z) as [ds|]; [|discriminate].
    destruct ((zlen (ib_src z) =? 0) && feof_unlocked f).
    + injection E as <-. cbn [rr_out]. rewrite zlen_nil. lia.
    + destruct (ZstRawStreamRead_loop_spec X (S (length (f_rest f))) room f
                  ds (ib_src z) (ib_pos z) [] ltac:(lia))
        as (r1 & Hr1 & _ & Hb).
      rewrite Hr1 in E. injection E as <-.
      apply Hb; [exact Hzst | rewrite zlen_nil; lia].
Qed.

Lemma toy_inflate_run_bound (input : list byte) :
  forall room, zlen (snd (fst (toy_inflate_run input room))) <= Z.max 0 room.
Proof.
  induction input as [|x input IH]; intros room; cbn [toy_inflate_run].
  - cbn. lia.
  - destruct (Byte.eqb x x00); [cbn; lia|].
    destruct (room <=? 0) eqn:E; [cbn; lia|].
    specialize (IH (room - 1)).
    destruct (toy_inflate_run input (room - 1)) as [[n out] fin].
    cbn [fst snd] in *. rewrite zlen_cons. lia.
Qed.

Lemma plink2_codecs_obey (fs : string -> option (list byte)) :
  inflate_obeys_avail_out (plink2 fs) /\ zstd_obeys_output_size (plink2 fs)
  /\ libdeflate_fills_exactly (plink2 fs).
Proof.
  split; [|split].
  - intros ds input n. cbn. unfold toy_inflate.
    destruct ds; [cbn; lia|].
    pose proof (toy_inflate_run_bound input n) as H.
    destruct (toy_inflate_run input n) as [[k out] fin]. exact H.
  - intros ds input n. cbn. unfold toy_zstd.
    destruct ds; [cbn; lia|].
    pose proof (toy_inflate_run_bound input n) as H.
    destruct (toy_inflate_run input n) as [[k out] fin]. exact H.
  - intros input n blk H. discriminate.
Qed.

Lemma ZstRawStreamRead_returns_within_the_window_witness :
  exists r,
    ZstRawStreamRead 10 (fopen_data [])
      (mkZst (plink2 (one_file [])) (Some false) [x61; x62; x00] 0)
    = Ret r
    /\ raw_read_well_formed r
    /\ (zstd_obeys_output_size (plink2 (one_file [])) ->
        zlen (rr_out r) <= 10).
Proof.
  apply (ZstRawStreamRead_returns_within_the_window
           (plink2 (one_file [])) 10 (fopen_data [])
           (mkZst (plink2 (one_file [])) (Some false) [x61; x62; x00] 0)).
  - discriminate.
  - lia.
Defined.

Lemma load_stays_within_the_window_witness :
  exists ld,
    load_switch kFileUncompressed (RdsNone (plink2 (one_file three_lines)))
      (fopen_data three_lines) 5 = Ret (LdOk ld)
    /\ zlen (ld_loaded ld) <= 5.
Proof.
  eexists. split; [reflexivity|].
  destruct (plink2_codecs_obey (one_file three_lines)) as (Hgz & Hzst & Hld).
  apply (load_stays_within_the_window (plink2 (one_file three_lines))
           kFileUncompressed (RdsNone _) (fopen_data three_lines) 5).
  - lia.
  - cbn. lia.
  - exact Hgz.
  - exact Hzst.
  - exact Hld.
  - reflexivity.
Defined.

(* ------------------------------------------------------------------ *)
(** ** The two probes *)





(* ------------------------------------------------------------------ *)
(** ** Errors and rewinding *)

(** X11: [TextRfileRewind] does not clear an error: after a call of
    [TextRfileAdvance] that returned a code other than success and Eof, a
    rewind changes nothing, and the next call returns the same code. *)
Theorem rewind_keeps_a_latched_error :
  forall (X : externs) (fuel : nat) (t t' : textRFILE X) (e : PglErr),
    TextRfileAdvance fuel t = Ret (e, t') ->
    e <> kPglRetSuccess -> e <> kPglRetEof ->
    TextRfileRewind t' = Ret t'
    /\ forall fuel', TextRfileAdvance fuel' t' = Ret (e, t').
Proof.
  intros X fuel t t' e H Hs He.
  assert (Hcode : reterr (base t') = e).
  { unfold TextRfileAdvance in H.
    destruct (is_err (reterr (base t))) eqn:Eerr.
    - injection H as <- <-. reflexivity.
    - destruct (ff (base t)), (dst (base t)), (consume_iter (base t)),
        (consume_stop (base t)); try discriminate.
      break_match_hyp; [discriminate|].
      exact (advance_loop_code _ _ _ _ _ _ _ _ _ H). }
  split.
  - unfold TextRfileRewind. rewrite Hcode.
    destruct (ff (base t')); [|reflexivity].
    destruct e; try reflexivity; contradiction.
  - intros fuel'. unfold TextRfileAdvance. rewrite Hcode.
    destruct e; try reflexivity; contradiction.
Qed.

Lemma rewind_keeps_a_latched_error_witness :
  exists t t' : textRFILE (plink2 (one_file long_second_line)),
    TextRfileAdvance 1 t = Ret (kPglRetNomem, t')
    /\ TextRfileRewind t' = Ret t'
    /\ TextRfileAdvance 1 t' = Ret (kPglRetNomem, t').
Proof.
  pose (t := mkRfile
               (mkBase (Some 20) (Some 20) None kPglRetSuccess
                  (Some (fopen_data []))
                  (Some (first_line ++ zrepeat x78 2097132)) 2097152 2097152
                  2097152 true kFileUncompressed [])
               (RdsNone (plink2 (one_file long_second_line)))).
  assert (H : exists t', TextRfileAdvance 1 t = Ret (kPglRetNomem, t')).
  { eexists. unfold t.
    rewrite (advance_nomem_consumer (plink2 (one_file long_second_line)) 0);
      [reflexivity|]. cbn. lia. }
  destruct H as [t' H]. exists t, t'. split; [exact H|].
  destruct (rewind_keeps_a_latched_error _ _ _ _ _ H) as [Hr Ha];
    try discriminate.
  split; [exact Hr | apply Ha].
Defined.

(* ------------------------------------------------------------------ *)
(** ** The asynchronous reader on a file shorter than a chunk *)

Section ShortFile.

Variable X : externs.
Variable M : mt_externs.
Variables (d : list byte) (blen thread_ct : Z).

Local Abbreviation C := (kDecompressChunkSizeX X).
Local Abbreviation w := (with_final_newline d).
Local Abbreviation stream := (short_file_stream X d blen thread_ct).

Hypothesis Hd : d <> [].
Hypothesis HC : 16 < C.
Hypothesis H2C : 2 * C < 2 ^ 32.
Hypothesis Hlen : zlen d < C.
Hypothesis Hblen : C <= blen.

Lemma short_file_w_pos : 0 < zlen w <= zlen d + 1.
Proof.
  pose proof (zlen_with_final_newline d).
  pose proof (zlen_with_final_newline_le d).
  destruct d as [|x l]; [contradiction|].
  rewrite zlen_cons in *. pose proof (zlen_nonneg l). lia.
Qed.

Lemma short_file_d_pos : 0 < zlen d.
Proof.
  destruct d as [|x l]; [contradiction|].
  rewrite zlen_cons. pose proof (zlen_nonneg l). lia.
Qed.

Lemma short_file_last_byte :
  hd x00 (sub d (zlen d - 1) 1) = last d x00.
Proof.
  rewrite <- byte_at_end by exact Hd. unfold byte_at, sub.
  destruct (drop (zlen d - 1) d) as [|x l] eqn:E; [reflexivity|].
  rewrite take_cons by lia. reflexivity.
Qed.

Lemma short_file_thread_reads (cp : consumer_phase) (progress : bool) :
  thread_step M (stream false cp progress)
  = Ret (Some (stream true cp progress)).
Proof.
  pose proof short_file_w_pos as Hw.
  pose proof short_file_d_pos as Hd0.
  assert (H16 : 0 <= zlen (take 16 d) <= 16) by (rewrite zlen_take; lia).
  unfold thread_step, short_file_stream. cbn [pc obind].
  unfold thread_loop_step.
  cbn [tbase locals read_stop read_head buf_end cur_block_start dst ff
         file_type trds enforced_max_line_blen].
  rewrite uptr_small by lia.
  destruct (2 * C - zlen (take 16 d) =? 0) eqn:E0; [lia|].
  destruct (2 * C - zlen (take 16 d) >? C) eqn:E1; [|lia].
  unfold thread_read_switch.
  rewrite fread_clean by (split; reflexivity).
  cbn [after_read f_rest f_all f_eof f_err ferror_unlocked obind].
  rewrite (take_all C (drop 16 d)) by (rewrite zlen_drop; lia).
  assert (Hsum : zlen (take 16 d) + zlen (drop 16 d) = zlen d).
  { rewrite <- zlen_app, take_drop. reflexivity. }
  unfold write_at at 1.
  rewrite Z.leb_refl, (proj2 (Z.leb_le 0 _) (proj1 H16)). cbn [andb obind].
  rewrite (take_all (zlen (take 16 d))) by lia.
  rewrite (drop_all _ (take 16 d)) by (pose proof (zlen_nonneg (drop 16 d)); lia).
  rewrite app_nil_r, take_drop, Hsum.
  destruct (zlen d <? zlen (take 16 d) + C) eqn:E2; [|lia].
  unfold thread_end_of_input.
  cbn [tbase locals read_stop read_head buf_end cur_block_start dst ff
         file_type trds enforced_max_line_blen with_io].
  destruct (0 =? zlen d) eqn:E3; [lia|]. cbn [negb].
  unfold read_at.
  destruct ((0 <=? zlen d - 1) && (0 <=? 1) && (zlen d - 1 + 1 <=? zlen d))
    eqn:E4; [|lia].
  cbn [obind]. rewrite short_file_last_byte.
  assert (Hfin :
            (if Byte.eqb (last d x00) NL then Ret (d, zlen d)
             else mem1 <- write_at d (zlen d) [NL] ;; Ret (mem1, zlen d + 1))
            = Ret (w, zlen w)).
  { unfold with_final_newline. destruct d as [|x l] eqn:Ed; [contradiction|].
    rewrite <- Ed in *.
    destruct (Byte.eqb (last d x00) NL); [reflexivity|].
    unfold write_at. rewrite Z.leb_refl.
    destruct (0 <=? zlen d) eqn:E5; [|lia]. cbn [andb obind].
    rewrite take_all, drop_all by (change (zlen [NL]) with 1; lia).
    rewrite zlen_app. reflexivity. }
  rewrite Hfin. cbn [obind].
  unfold IsPathologicallyLongLineOrTokenX.
  destruct (blen =? 0) eqn:E6; [lia|]. cbn [negb].
  rewrite Z.sub_0_r, uptr_small by lia.
  destruct (zlen w <=? blen) eqn:E7; [|lia].
  cbn [obind]. unfold thread_finish.
  cbn [sync interrupt interrupt_rank with_thread with_sync locals read_head
         PglErr_eqb tbase trds decompress_thread_ct dst_gen consumer
         reader_signalled consume_tail cur_circular_end available_end
         sync_errmsg sync_reterr dst_reallocated consumer_progress_state pc].
  destruct (0 >=? 1) eqn:E8; [lia|].
  unfold signal_reader_progress.
  destruct cp; reflexivity.
Qed.

Lemma short_file_thread_notes_progress (cp : consumer_phase)
    (progress : bool) :
  thread_step M (stream true cp progress)
  = Ret (if progress then Some (stream true cp false) else None).
Proof.
  unfold thread_step, short_file_stream. cbn [pc sync consumer_progress_state].
  destruct progress; reflexivity.
Qed.

Lemma short_file_slice : read_at w 0 (zlen w - 0) = Ret w.
Proof.
  pose proof short_file_w_pos as Hw. unfold read_at.
  destruct ((0 <=? 0) && (0 <=? zlen w - 0) && (0 + (zlen w - 0) <=? zlen w))
    eqn:E; [|lia].
  rewrite Z.sub_0_r, sub_0, take_all by lia. reflexivity.
Qed.

Lemma short_file_consumer_step (thread_done : bool) (cp : consumer_phase)
    (progress : bool) :
  short_file_state_ok thread_done cp = true ->
  consumer_step (stream thread_done cp progress)
  = Ret (match cp with
         | NotCalled =>
             if thread_done
             then Some (stream thread_done GotLines progress, [w])
             else Some (stream thread_done Waiting true, [])
         | Waiting =>
             if thread_done
             then Some (stream thread_done GotLines progress, [w])
             else None
         | GotLines => Some (stream thread_done GotEof progress, [])
         | GotEof => None
         end).
Proof.
  pose proof short_file_w_pos as Hw. pose proof short_file_slice as Hsl.
  assert (E0 : (0 =? zlen w) = false) by lia.
  intros Hok.
  destruct cp, thread_done; try discriminate Hok;
    unfold consumer_step, short_file_stream;
    cbn [consumer tbase consume_iter reader_signalled has_lines sync
           consume_tail];
    try reflexivity;
    unfold TextAdvance_body;
    cbn [tbase sync sync_reterr is_err PglErr_eqb negb andb available_end
           cur_circular_end dst_reallocated consumer_progress_state
           with_consumer with_base with_sync consume_iter consume_stop errmsg
           reterr ff dst dst_len dst_capacity enforced_max_line_blen
           dst_owned_by_consumer file_type heap_log trds decompress_thread_ct
           dst_gen locals pc consumer reader_signalled sync_errmsg interrupt];
    rewrite ?E0, ?Z.eqb_refl;
    cbn [negb orb andb consumer_after stream_slice tbase dst consume_iter
           consume_stop obind with_base with_sync with_consumer sync trds
           decompress_thread_ct dst_gen locals pc consumer reader_signalled
           stream_consume_all errmsg reterr ff dst_len dst_capacity
           enforced_max_line_blen dst_owned_by_consumer file_type heap_log];
    rewrite ?Hsl; reflexivity.
Qed.

Lemma short_file_step_ok (m : mover) (thread_done : bool)
    (cp : consumer_phase) (progress : bool) :
  short_file_state_ok thread_done cp = true ->
  let '(thread_done', cp', _) :=
    short_file_step m (thread_done, cp, progress) in
  short_file_state_ok thread_done' cp' = true.
Proof. destruct m, thread_done, cp; intros H; try discriminate; reflexivity. Qed.

Lemma short_file_run_stream :
  forall (schedule : list mover) (thread_done : bool) (cp : consumer_phase)
         (progress : bool),
    short_file_state_ok thread_done cp = true ->
    let st' := short_file_run schedule (thread_done, cp, progress) in
    run_stream M schedule (stream thread_done cp progress)
    = Ret (if has_lines (snd (fst st')) && negb (has_lines cp) then [w]
           else [],
           stream (fst (fst st')) (snd (fst st')) (snd st'))
    /\ (has_lines cp = true -> has_lines (snd (fst st')) = true).
Proof.
  induction schedule as [|m schedule IH]; intros tp cp progress Hok.
  - cbn. split; [destruct (has_lines cp); reflexivity | auto].
  - cbv zeta.
    change (short_file_run (m :: schedule) (tp, cp, progress))
      with (short_file_run schedule (short_file_step m (tp, cp, progress))).
    cbn [run_stream]. destruct m.
    + destruct tp.
      * rewrite short_file_thread_notes_progress. cbn [obind short_file_step].
        destruct progress; exact (IH true cp false Hok).
      * rewrite short_file_thread_reads. cbn [obind short_file_step].
        exact (IH true cp progress eq_refl).
    + rewrite (short_file_consumer_step tp cp progress Hok).
      cbn [obind short_file_step].
      destruct cp, tp; try discriminate Hok.
      * destruct (IH true GotLines progress eq_refl) as [Hrun Hmono].
        cbv zeta in Hrun, Hmono. rewrite Hrun. cbn [obind fst snd].
        rewrite (Hmono eq_refl). split; [reflexivity | auto].
      * destruct (IH false Waiting true eq_refl) as [Hrun Hmono].
        cbv zeta in Hrun, Hmono. rewrite Hrun. cbn [obind fst snd].
        split; [reflexivity | discriminate].
      * destruct (IH true GotLines progress eq_refl) as [Hrun Hmono].
        cbv zeta in Hrun, Hmono. rewrite Hrun. cbn [obind fst snd].
        rewrite (Hmono eq_refl). split; [reflexivity | auto].
      * exact (IH false Waiting progress eq_refl).
      * destruct (IH true GotEof progress eq_refl) as [Hrun Hmono].
        cbv zeta in Hrun, Hmono. rewrite Hrun. cbn [obind fst snd].
        rewrite (Hmono eq_refl). split; [reflexivity | auto].
      * exact (IH true GotEof progress eq_refl).
Qed.

End ShortFile.

Lemma short_file_run_after_thread :
  forall (schedule : list mover) (cp : consumer_phase) (progress : bool),
    let cp' := snd (fst (short_file_run schedule (true, cp, progress))) in
    (cp = GotEof -> cp' = GotEof)
    /\ (has_lines cp = true -> (1 <= consumer_steps schedule)%nat ->
        cp' = GotEof)
    /\ ((2 <= consumer_steps schedule)%nat -> cp' = GotEof).
Proof.
  induction schedule as [|m schedule IH]; intros cp progress.
  - cbn. repeat split; auto; lia.
  - cbv zeta.
    change (short_file_run (m :: schedule) (true, cp, progress))
      with (short_file_run schedule (short_file_step m (true, cp, progress))).
    destruct m; cbn [short_file_step consumer_steps].
    + exact (IH cp false).
    + destruct cp; cbn [has_lines];
        match goal with
        | |- context [short_file_run schedule (true, ?c, ?p)] =>
            destruct (IH c p) as (H1 & H2 & H3)
        end; cbv zeta in H1, H2, H3; cbn [has_lines] in H2;
        repeat split; intros; try discriminate;
        try (apply H1; reflexivity);
        try (apply H2; [reflexivity | lia]).
Qed.

Lemma short_file_run_from_start :
  forall (schedule : list mover) (cp : consumer_phase) (progress : bool),
    has_lines cp = false ->
    (2 <= consumer_steps_after_thread schedule)%nat ->
    snd (fst (short_file_run schedule (false, cp, progress))) = GotEof.
Proof.
  induction schedule as [|m schedule IH]; intros cp progress Hcp Hn.
  - cbn in Hn. lia.
  - change (short_file_run (m :: schedule) (false, cp, progress))
      with (short_file_run schedule (short_file_step m (false, cp, progress))).
    destruct m; cbn [short_file_step consumer_steps_after_thread] in *.
    + apply (short_file_run_after_thread schedule cp progress). exact Hn.
    + destruct cp; try discriminate; apply IH; (reflexivity || exact Hn).
Qed.

Lemma open_plain_for_stream (X : externs) (fname : string)
    (d : list byte) (blen cap thread_ct : Z) :
  let C := kDecompressChunkSizeX X in
  fopen X fname = Some d -> d <> [] ->
  open_file_type X (take 16 d) = kFileUncompressed ->
  malloc_ok X (2 * C) = true ->
  0 < C -> 2 * C < 2 ^ 32 -> C <= blen ->
  TextRfileOpenInternal fname blen cap false false thread_ct
    (PreinitTextRfile X)
  = Ret (kPglRetSuccess,
         plain_reader (2 * C) blen false [EvMalloc (2 * C)] None (RdsNone X)
           (mkFILE d (drop 16 d) (zlen (take 16 d) <? 16) false None)
           (take 16 d) 0).
Proof.
  intros C Hfs Hd Hprobe Hmalloc HC H2C Hblen.
  unfold open_file_type in Hprobe.
  unfold TextRfileOpenInternal. cbn [PreinitTextRfile base ff].
  unfold open_args_check. fold C.
  destruct (blen =? 0) eqn:E0; [lia|]. cbn [negb orb].
  destruct (blen <? C) eqn:E1; [lia|].
  unfold open_file_and_probe. rewrite Hfs. fold C. rewrite Hmalloc.
  cbn [negb andb fread_unlocked fopen_data f_bad f_rest f_all f_eof f_err
         orb].
  rewrite (u32_small (2 * C)) by lia.
  destruct d as [|x l] eqn:Ed; [contradiction|]. rewrite <- Ed in *.
  assert (Hpos : 0 < zlen (take 16 d)).
  { rewrite Ed, take_cons, zlen_cons by lia.
    pose proof (zlen_nonneg (take (16 - 1) l)). lia. }
  destruct (zlen (take 16 d) >=? 4) eqn:E4.
  - destruct (IsZstdFrame X (le32 (take 16 d))); [discriminate|].
    destruct (u32 (Z.shiftl (le32 (take 16 d)) 8) =? 143335168).
    { destruct ((zlen (take 16 d) =? 16) && IsBgzfHeader X (take 16 d));
        discriminate. }
    unfold open_ret, set_err, plain_reader. cbn [base rds].
    cbn [consume_iter consume_stop errmsg reterr ff dst dst_len dst_capacity
           enforced_max_line_blen dst_owned_by_consumer file_type heap_log].
    rewrite (take_all (zlen (take 16 d))) by lia. reflexivity.
  - destruct (zlen (take 16 d) =? 0) eqn:E5; [lia|].
    unfold open_ret, set_err, plain_reader. cbn [base rds].
    cbn [consume_iter consume_stop errmsg reterr ff dst dst_len dst_capacity
           enforced_max_line_blen dst_owned_by_consumer file_type heap_log].
    rewrite (take_all (zlen (take 16 d))) by lia. reflexivity.
Qed.

(** X12: the asynchronous reader on a plain file shorter than a chunk,
    under every schedule of the thread and the consumer: the consumer is
    handed nothing or, in one slice, the contents of the file with a final
    ['\n'] added if it lacks one; it is told Eof only after that; and it has
    been told Eof once it has taken two steps after the thread's first. *)
Theorem short_plain_file_streams_whole_under_every_schedule :
  forall (X : externs) (M : mt_externs) (fname : string) (d : list byte)
         (blen cap thread_ct : Z) (schedule : list mover),
    let C := kDecompressChunkSizeX X in
    fopen X fname = Some d -> d <> [] ->
    open_file_type X (take 16 d) = kFileUncompressed ->
    malloc_ok X (2 * C) = true ->
    cachealigned_malloc_ok M = true -> pthread_ok M = true ->
    16 < C -> 2 * C < 2 ^ 32 -> zlen d < C -> C <= blen ->
    exists sl s,
      open_and_stream X M schedule fname blen cap thread_ct false
      = Ret (sl, Some s)
      /\ (sl = [] \/ sl = [with_final_newline d])
      /\ (forall e, consumer s = Returned e ->
                    e = kPglRetEof /\ sl = [with_final_newline d])
      /\ ((2 <= consumer_steps_after_thread schedule)%nat ->
          consumer s = Returned kPglRetEof).
Proof.
  intros X M fname d blen cap thread_ct schedule C Hfs Hd Hprobe Hmalloc
    Hsync Hthread HC H2C Hlen Hblen.
  unfold open_and_stream, TextRstreamOpenEx.
  rewrite (open_plain_for_stream X fname d blen cap thread_ct Hfs Hd Hprobe
             Hmalloc ltac:(fold C; lia) H2C Hblen).
  cbn [obind is_err PglErr_eqb negb]. rewrite Hsync, Hthread. cbn [negb].
  unfold plain_reader. cbn [base rds set_err consume_stop errmsg].
  cbn [obind].
  change (mkRstream _ _ _ _ _ _ _ _ _)
    with (short_file_stream X d blen thread_ct false NotCalled false).
  destruct (short_file_run_stream X M d blen thread_ct Hd HC H2C Hlen Hblen
              schedule false NotCalled false eq_refl) as [Hrun _].
  cbv zeta in Hrun. rewrite Hrun. cbn [obind fst snd has_lines negb].
  rewrite andb_true_r.
  pose proof (short_file_run_from_start schedule NotCalled false eq_refl)
    as Hlive.
  destruct (short_file_run schedule (false, NotCalled, false))
    as [[tp' cp'] pr'].
  cbn [fst snd] in *.
  eexists _, _. split; [reflexivity|]. split; [|split].
  - destruct (has_lines cp'); auto.
  - intros e He. destruct cp'; cbn in He; try discriminate.
    injection He as <-. split; reflexivity.
  - intros Hn. rewrite (Hlive Hn). reflexivity.
Qed.

Lemma short_plain_file_streams_whole_under_every_schedule_witness :
  exists sl s,
    open_and_stream (plink2 (one_file three_lines)) plink2_mt
      [Consumer; Thread; Consumer; Thread; Consumer] "f" 2097152 0 1 false
    = Ret (sl, Some s)
    /\ (sl = [] \/ sl = [with_final_newline three_lines])
    /\ (forall e, consumer s = Returned e ->
                  e = kPglRetEof /\ sl = [with_final_newline three_lines])
    /\ ((2 <= consumer_steps_after_thread
                [Consumer; Thread; Consumer; Thread; Consumer])%nat ->
        consumer s = Returned kPglRetEof).
Proof.
  apply (short_plain_file_streams_whole_under_every_schedule
           (plink2 (one_file three_lines)) plink2_mt "f" three_lines 2097152
           0 1).
  - reflexivity.
  - discriminate.
  - reflexivity.
  - reflexivity.
  - reflexivity.
  - reflexivity.
  - cbn. lia.
  - cbn. lia.
  - cbn. lia.
  - cbn. lia.
Defined.

(* ------------------------------------------------------------------ *)
(** ** A buffer of the caller *)

(** The fields that say which block [dst] is and whose. *)
Lemma advance_guard_block (X : externs) (b0 : TextRfileBase)
    (r1 : RawDecompressStream X) (f1 : FILE) (log : list heap_event)
    (dst_rem : Z) (mem2 : list byte) (len2 stop : Z)
    (e : PglErr) (t' : textRFILE X) :
  advance_guard b0 r1 f1 log dst_rem mem2 len2 stop = Ret (e, t') ->
  dst_owned_by_consumer (base t') = dst_owned_by_consumer b0
  /\ dst_capacity (base t') = dst_capacity b0
  /\ dst (base t') <> None.
Proof.
  unfold advance_guard, adv_ret.
  destruct (IsPathologicallyLongLineOrTokenX X mem2 0 dst_rem stop _)
    as [[|]| | |]; try discriminate; intros H; injection H as _ <-;
    cbn; repeat split; discriminate.
Qed.

Lemma advance_scan_block (X : externs) (b0 : TextRfileBase)
    (log : list heap_event) (dst_rem : Z) (carry : list byte)
    (ld : load_result X) :
  match advance_scan b0 log dst_rem carry ld with
  | ScanRet res =>
      forall e t', res = Ret (e, t') ->
        dst_owned_by_consumer (base t') = dst_owned_by_consumer b0
        /\ dst_capacity (base t') = dst_capacity b0
        /\ dst (base t') <> None
  | ScanAgain _ b2 =>
      dst_owned_by_consumer b2 = dst_owned_by_consumer b0
      /\ dst_capacity b2 = dst_capacity b0
      /\ heap_log b2 = log
  end.
Proof.
  unfold advance_scan.
  assert (Hret : forall ci cs m len e0 mo e t',
             adv_ret (adv_state b0 ci cs (ld_ff ld) m len log)
               (ld_rds ld) e0 mo = Ret (e, t') ->
             dst_owned_by_consumer (base t') = dst_owned_by_consumer b0
             /\ dst_capacity (base t') = dst_capacity b0
             /\ dst (base t') <> None).
  { intros ci cs m len e0 mo e t' H0. unfold adv_ret in H0.
    injection H0 as _ <-. cbn. repeat split; discriminate. }
  destruct (dst_rem + zlen (ld_loaded ld) >? dst_alloc b0);
    [intros e t'; discriminate|].
  destruct (u32 (dst_rem + zlen (ld_loaded ld)) =? 0); [apply Hret|].
  destruct (negb _).
  - destruct (Byte.eqb _ NL);
      [intros e t'; apply advance_guard_block|].
    destruct (dst_rem + zlen (ld_loaded ld) + 1 >? dst_alloc b0);
      [intros e t'; discriminate|].
    intros e t'; apply advance_guard_block.
  - destruct (Memrchr _ dst_rem NL _) as [last|];
      [intros e t'; apply advance_guard_block|].
    destruct (_ >=? enforced_max_line_blen b0); [apply Hret|].
    cbn. repeat split.
Qed.

Lemma advance_loop_callers_block (X : externs) :
  forall (fuel : nat) (b : TextRfileBase) (r : RawDecompressStream X)
         (f : FILE) (mem : list byte) (orig : option Z)
         (e : PglErr) (t' : textRFILE X),
    dst_owned_by_consumer b = true ->
    TextRfileAdvance_loop fuel b r f mem orig = Ret (e, t') ->
    heap_log (base t') = heap_log b
    /\ dst_owned_by_consumer (base t') = true
    /\ dst_capacity (base t') = dst_capacity b.
Proof.
  induction fuel as [|fuel IH]; intros b r f mem orig e t' Hown H;
    [discriminate|].
  cbn [TextRfileAdvance_loop] in H.
  destruct orig as [orig|]; [|discriminate].
  destruct (advance_move X b mem orig) as [[|carry log orig']| | |] eqn:Emove;
    try discriminate.
  { unfold adv_ret in H. injection H as _ <-. cbn. auto. }
  assert (Hlog : log = heap_log b).
  { unfold advance_move in Emove. rewrite Hown in Emove.
    destruct (_ <? _) in Emove; [|discriminate].
    destruct (_ <=? _) in Emove; [|discriminate].
    injection Emove as _ <- _. reflexivity. }
  subst log.
  destruct (load_switch _ _ _ _) as [[ld|e1 m f1 r1]| | |] eqn:Eload;
    try discriminate.
  - pose proof (advance_scan_block X
                  (adv_state b (consume_iter b) (consume_stop b) f carry
                     (dst_len b) (heap_log b)) (heap_log b)
                  (u32 (dst_len b - u32 orig)) carry ld) as Hblk.
    pose proof (advance_scan_log X
                  (adv_state b (consume_iter b) (consume_stop b) f carry
                     (dst_len b) (heap_log b)) (heap_log b)
                  (u32 (dst_len b - u32 orig)) carry ld) as Hl.
    destruct (advance_scan _ _ _ _ _) as [res|b2].
    + destruct (Hblk e t' H) as (Ho & Hc & _). cbn in Ho, Hc.
      rewrite (Hl res e t' eq_refl H). rewrite Ho, Hc. auto.
    + destruct Hblk as (Ho & Hc & Hl2). cbn in Ho, Hc.
      rewrite Hown in Ho.
      destruct (IH _ _ _ _ _ _ _ Ho H) as (H1 & H2 & H3).
      rewrite H1, H3, Hl2, Hc. auto.
  - unfold adv_ret in H. injection H as _ <-. cbn. auto.
Qed.

(** X13: a buffer that the caller gave is never freed and never replaced.
    With [dst_owned_by_consumer] set, [TextRfileAdvance], [TextRfileRewind]
    and [CleanupTextRfile] leave the record of allocations, the capacity
    and the ownership flag as they were, and [CleanupTextRfile] leaves
    [dst] pointing to the buffer. *)
Theorem callers_buffer_is_never_freed_or_replaced (X : externs)
    (t : textRFILE X) :
  dst_owned_by_consumer (base t) = true ->
  (forall fuel e t',
      TextRfileAdvance fuel t = Ret (e, t') ->
      heap_log (base t') = heap_log (base t)
      /\ dst_owned_by_consumer (base t') = true
      /\ dst_capacity (base t') = dst_capacity (base t))
  /\ (forall t',
      TextRfileRewind t = Ret t' ->
      heap_log (base t') = heap_log (base t)
      /\ dst_owned_by_consumer (base t') = true
      /\ dst_capacity (base t') = dst_capacity (base t))
  /\ (forall close_fails reterrp res t' reterrp',
      CleanupTextRfile close_fails t reterrp = Ret (res, t', reterrp') ->
      heap_log (base t') = heap_log (base t)
      /\ dst_owned_by_consumer (base t') = true
      /\ dst_capacity (base t') = dst_capacity (base t)
      /\ dst (base t') = dst (base t)).
Proof.
  intros Hown. split; [|split].
  - intros fuel e t' H. unfold TextRfileAdvance in H.
    destruct (is_err (reterr (base t))).
    { injection H as _ <-. auto. }
    destruct (ff (base t)) as [f|]; [|discriminate].
    destruct (dst (base t)) as [mem|]; [|discriminate].
    destruct (consume_iter (base t)) as [ci|]; [|discriminate].
    destruct (consume_stop (base t)) as [cs|]; [|discriminate].
    destruct (negb (NDEBUG X) && negb (ci =? cs)); [discriminate|].
    exact (advance_loop_callers_block X _ _ _ _ _ _ _ _ Hown H).
  - intros t' H. unfold TextRfileRewind in H.
    destruct (ff (base t)) as [f|]; [|injection H as <-; auto].
    destruct (is_err (reterr (base t)) && _); [injection H as <-; auto|].
    destruct (file_type (base t)); destruct (rds t);
      try discriminate; injection H as <-; cbn; auto.
  - intros cf rp res t' rp' H. unfold CleanupTextRfile in H.
    rewrite Hown in H. cbn [negb] in H.
    assert (Hfreed : match dst (base t) with Some _ => false | None => false end
                     = false) by (destruct (dst (base t)); reflexivity).
    rewrite Hfreed in H.
    destruct (ff (base t)) as [f|].
    + destruct (cleanup_rds _ _) as [r1| | |]; try discriminate.
      cbn in H. destruct cf; [destruct rp as [[]|]|];
        injection H as _ <- _; cbn; auto.
    + injection H as _ <- _. cbn. auto.
Qed.

Lemma callers_buffer_is_never_freed_or_replaced_witness :
  exists t t' : textRFILE (plink2 (one_file long_second_line)),
    dst_owned_by_consumer (base t) = true
    /\ TextRfileAdvance 1 t = Ret (kPglRetNomem, t')
    /\ heap_log (base t') = heap_log (base t)
    /\ dst_capacity (base t') = dst_capacity (base t).
Proof.
  pose (t := mkRfile
               (mkBase (Some 20) (Some 20) None kPglRetSuccess
                  (Some (fopen_data []))
                  (Some (first_line ++ zrepeat x78 2097132)) 2097152 2097152
                  2097152 true kFileUncompressed [])
               (RdsNone (plink2 (one_file long_second_line)))).
  assert (H : exists t', TextRfileAdvance 1 t = Ret (kPglRetNomem, t')).
  { eexists. unfold t.
    rewrite (advance_nomem_consumer (plink2 (one_file long_second_line)) 0);
      [reflexivity|]. cbn. lia. }
  destruct H as [t' H]. exists t, t'. split; [reflexivity|].
  split; [exact H|].
  destruct (callers_buffer_is_never_freed_or_replaced _ t eq_refl)
    as [Ha _].
  destruct (Ha _ _ _ H) as (Hl & _ & Hc). split; [exact Hl | exact Hc].
Defined.

Section StreamBlock.

Variable X : externs.
Variable M : mt_externs.

Lemma thread_finish_block (s : TextRstream X) (i : TrsInterrupt)
    (e : PglErr) (m : option errmsg_t) :
  stream_block (thread_finish s i e m) = stream_block s.
Proof.
  unfold thread_finish, signal_reader_progress.
  destruct (_ >=? _); [reflexivity|].
  cbn. destruct (consumer s); reflexivity.
Qed.

Lemma with_io_block (s : TextRstream X) f mem r :
  stream_block (with_io s f mem r) = stream_block s.
Proof. reflexivity. Qed.

Lemma thread_after_wait_block (s s' : TextRstream X) :
  thread_after_wait s = Ret s' -> stream_block s' = stream_block s.
Proof.
  unfold thread_after_wait, obind, read_at, write_at. intros H.
  repeat break_match_hyp; try discriminate; injection H as <-; reflexivity.
Qed.

Lemma thread_wait_check_block (s s' : TextRstream X) (mr : bool) :
  thread_wait_check s mr = Ret s' -> stream_block s' = stream_block s.
Proof.
  unfold thread_wait_check. intros H.
  destruct (interrupt (sync s)); [|injection H as <-; reflexivity..].
  destruct mr.
  - destruct (_ =? _).
    + apply thread_after_wait_block in H. exact H.
    + injection H as <-. reflexivity.
  - destruct (_ <=? _).
    + apply thread_after_wait_block in H. exact H.
    + injection H as <-. reflexivity.
Qed.

Lemma thread_grow_callers_block (s s' : TextRstream X) :
  dst_owned_by_consumer (tbase s) = true ->
  thread_grow M s = Ret s' ->
  stream_block s' = stream_block s
  /\ (pc s' = AtFinalWait kTrsInterruptShutdown
      \/ pc s' = AtInterrupt kTrsInterruptShutdown)
  /\ sync_reterr (sync s') = kPglRetMalformedInput.
Proof.
  unfold thread_grow. intros Hown H. rewrite Hown in H. cbn [orb] in H.
  injection H as <-. unfold thread_long_line.
  split; [apply thread_finish_block|].
  unfold thread_finish, signal_reader_progress.
  destruct (interrupt (sync s)); cbn; [destruct (consumer s); cbn; auto..|].
  auto.
Qed.

Lemma thread_publish_block (s s' : TextRstream X) mem e l :
  thread_publish M s mem e l = Ret s' -> stream_block s' = stream_block s.
Proof.
  unfold thread_publish, obind, thread_long_line. intros H.
  destruct (IsPathologicallyLongLineOrTokenX _ _ _ _ _ _) as [[|]| | |];
    try discriminate.
  { injection H as <-. apply thread_finish_block. }
  destruct (interrupt (sync s)); [|injection H as <-; reflexivity..].
  unfold signal_reader_progress, read_at, write_at in H.
  repeat break_match_hyp; try discriminate; injection H as <-; reflexivity.
Qed.

Lemma thread_end_of_input_block (s s' : TextRstream X) mem e :
  thread_end_of_input s mem e = Ret s' -> stream_block s' = stream_block s.
Proof.
  unfold thread_end_of_input, obind, thread_long_line. intros H.
  destruct (if negb _ then _ else _) as [[mem2 fin]| | |]; try discriminate.
  destruct (IsPathologicallyLongLineOrTokenX _ _ _ _ _ _) as [g| | |];
    try discriminate.
  destruct (ff (tbase s)); [|discriminate].
  destruct g; injection H as <-; rewrite thread_finish_block; reflexivity.
Qed.

Lemma thread_loop_step_callers_block (s s' : TextRstream X) :
  dst_owned_by_consumer (tbase s) = true ->
  thread_loop_step M s = Ret s' -> stream_block s' = stream_block s.
Proof.
  unfold thread_loop_step. intros Hown H.
  destruct (_ =? 0).
  { destruct (_ && _).
    - apply (thread_grow_callers_block _ _ Hown H).
    - destruct (_ =? _).
      + apply thread_wait_check_block in H. exact H.
      + injection H as <-. reflexivity. }
  destruct (dst (tbase s)) as [mem|]; [|discriminate].
  destruct (ff (tbase s)) as [f|]; [|discriminate].
  unfold obind in H.
  destruct (thread_read_switch _ _ _ _ _) as [[bytes f1 r1|e m f1 r1]| | |];
    try discriminate.
  - destruct (write_at _ _ _) as [mem1| | |]; try discriminate.
    destruct (_ <? _).
    { apply thread_end_of_input_block in H. exact H. }
    destruct (if negb _ then _ else _) as [last|].
    + apply thread_publish_block in H. exact H.
    + injection H as <-. reflexivity.
  - injection H as <-. rewrite thread_finish_block. reflexivity.
Qed.

Lemma thread_step_callers_block (s s' : TextRstream X) :
  dst_owned_by_consumer (tbase s) = true ->
  thread_step M s = Ret (Some s') -> stream_block s' = stream_block s.
Proof.
  unfold thread_step, obind. intros Hown H.
  destruct (pc s).
  - destruct (thread_loop_step M s) as [s1| | |] eqn:E; try discriminate.
    injection H as <-. exact (thread_loop_step_callers_block _ _ Hown E).
  - destruct (consumer_progress_state (sync s)); [|discriminate].
    destruct (thread_wait_check _ _) as [s1| | |] eqn:E; try discriminate.
    injection H as <-. apply thread_wait_check_block in E. exact E.
  - destruct (consumer_progress_state (sync s)); [|discriminate].
    cbn in H. destruct (_ <? _); injection H as <-; reflexivity.
  - discriminate.
Qed.

Lemma TextAdvance_body_block (s : TextRstream X) (iter : Z) :
  stream_block (fst (TextAdvance_body s iter)) = stream_block s.
Proof.
  unfold TextAdvance_body.
  repeat break_if; reflexivity.
Qed.

Lemma consumer_after_block (r : TextRstream X * option PglErr)
    (s' : TextRstream X) (out : list (list byte)) :
  consumer_after r = Ret (s', out) -> stream_block s' = stream_block (fst r).
Proof.
  destruct r as [s code]. unfold consumer_after, obind. intros H.
  destruct code as [[]|];
    try (injection H as <- _; reflexivity).
  destruct (stream_slice s); try discriminate.
  injection H as <- _. reflexivity.
Qed.

Lemma consumer_step_block (s s' : TextRstream X) (out : list (list byte)) :
  consumer_step s = Ret (Some (s', out)) -> stream_block s' = stream_block s.
Proof.
  unfold consumer_step, obind. intros H.
  destruct (consumer s).
  - destruct (consume_iter (tbase s)) as [iter|]; [|discriminate].
    destruct (consumer_after _) as [[s1 o1]| | |] eqn:E; try discriminate.
    injection H as <- _. apply consumer_after_block in E.
    rewrite E. apply TextAdvance_body_block.
  - destruct (reader_signalled s); [|discriminate].
    destruct (consumer_after _) as [[s1 o1]| | |] eqn:E; try discriminate.
    injection H as <- _. apply consumer_after_block in E.
    rewrite E, TextAdvance_body_block. reflexivity.
  - discriminate.
Qed.

Lemma run_stream_callers_block :
  forall (schedule : list mover) (s s' : TextRstream X)
         (sl : list (list byte)),
    dst_owned_by_consumer (tbase s) = true ->
    run_stream M schedule s = Ret (sl, s') ->
    stream_block s' = stream_block s.
Proof.
  induction schedule as [|m rest IH]; intros s s' sl Hown H.
  { injection H as _ <-. reflexivity. }
  assert (Hnext : forall s1 sl1,
             stream_block s1 = stream_block s ->
             run_stream M rest s1 = Ret (sl1, s') ->
             stream_block s' = stream_block s).
  { intros s1 sl1 Hb Hr. rewrite <- Hb. apply (IH s1 s' sl1); [|exact Hr].
    unfold stream_block in Hb. injection Hb as _ _ _ ->. exact Hown. }
  cbn [run_stream] in H. unfold obind in H. destruct m.
  - destruct (thread_step M s) as [[s1|]| | |] eqn:E; try discriminate.
    + apply (Hnext s1 sl); [|exact H].
      exact (thread_step_callers_block _ _ Hown E).
    + exact (Hnext s sl eq_refl H).
  - destruct (consumer_step s) as [[[s1 out]|]| | |] eqn:E; try discriminate.
    + destruct (run_stream M rest s1) as [[sl1 s2]| | |] eqn:Er;
        try discriminate.
      injection H as _ <-.
      apply (Hnext s1 sl1); [|exact Er].
      exact (consumer_step_block _ _ _ E).
    + exact (Hnext s sl eq_refl H).
Qed.

End StreamBlock.

(** X14: the asynchronous reader never frees or replaces a buffer of the
    caller.  Under every schedule of the thread and the consumer the block
    stays the one it was (no reallocation, the same capacity and owner),
    and when the thread finds that buffer full of one unfinished line it
    ends the stream with [kPglRetMalformedInput] and the long-line message
    instead of growing it. *)
Theorem stream_keeps_a_callers_buffer (X : externs) (M : mt_externs)
    (s : TextRstream X) :
  dst_owned_by_consumer (tbase s) = true ->
  (forall schedule sl s',
      run_stream M schedule s = Ret (sl, s') ->
      dst_gen s' = dst_gen s
      /\ heap_log (tbase s') = heap_log (tbase s)
      /\ dst_capacity (tbase s') = dst_capacity (tbase s)
      /\ dst_owned_by_consumer (tbase s') = true)
  /\ (pc s = AtLoop ->
      cur_block_start (locals s) = 0 ->
      read_head (locals s) = buf_end (locals s) ->
      read_stop (locals s) = buf_end (locals s) ->
      exists s1,
        thread_step M s = Ret (Some s1)
        /\ sync_reterr (sync s1) = kPglRetMalformedInput
        /\ sync_errmsg (sync s1) = Some kShortErrLongLine
        /\ (pc s1 = AtFinalWait kTrsInterruptShutdown
            \/ pc s1 = AtInterrupt kTrsInterruptShutdown)).
Proof.
  intros Hown. split.
  - intros schedule sl s' H.
    pose proof (run_stream_callers_block X M schedule s s' sl Hown H) as Hb.
    unfold stream_block in Hb. injection Hb as H1 H2 H3 H4.
    rewrite H4, Hown. auto.
  - intros Hpc Hstart Hhead Hstop.
    unfold thread_step. rewrite Hpc. unfold thread_loop_step.
    rewrite Hstop, Hhead, Z.sub_diag, Hstart.
    replace (uptr X 0) with 0 by (unfold uptr; symmetry; apply Z.mod_0_l;
      destruct (LP64 X); lia).
    rewrite !Z.eqb_refl. cbn [andb].
    unfold thread_grow. rewrite Hown. cbn [orb obind].
    eexists. split; [reflexivity|].
    unfold thread_long_line, thread_finish, signal_reader_progress.
    destruct (interrupt (sync s)); cbn;
      [destruct (consumer s); cbn; auto..|]. auto.
Qed.

Lemma stream_keeps_a_callers_buffer_witness :
  dst_owned_by_consumer (tbase small_stream_0) = true
  /\ exists sl s',
       run_stream plink2_mt [Thread; Consumer; Consumer] small_stream_0
       = Ret (sl, s')
       /\ dst_gen s' = dst_gen small_stream_0
       /\ heap_log (tbase s') = heap_log (tbase small_stream_0).
Proof.
  split; [reflexivity|].
  assert (Hrun0 : exists r,
             run_stream plink2_mt [Thread; Consumer; Consumer] small_stream_0
             = Ret r).
  { eexists. vm_compute. reflexivity. }
  destruct Hrun0 as [[sl s'] E].
  exists sl, s'. split; [exact E|].
  destruct (stream_keeps_a_callers_buffer _ plink2_mt small_stream_0 eq_refl)
    as [Hrun _].
  destruct (Hrun _ _ _ E) as (Hg & Hl & _). split; [exact Hg | exact Hl].
Defined.

(* ------------------------------------------------------------------ *)
(** ** Retargeting the asynchronous reader *)

Lemma hd_sub_1 (l : list byte) (i : Z) : hd x00 (sub l i 1) = byte_at l i.
Proof.
  unfold byte_at, sub. destruct (drop i l) as [|x r]; [reflexivity|].
  rewrite take_cons by lia. reflexivity.
Qed.

Lemma byte_at_app_l (l1 l2 : list byte) (i : Z) :
  0 <= i < zlen l1 -> byte_at (l1 ++ l2) i = byte_at l1 i.
Proof.
  intros Hi. unfold byte_at. rewrite drop_app_le by lia.
  destruct (drop i l1) as [|x r] eqn:E; [|reflexivity].
  apply (f_equal zlen) in E. rewrite zlen_drop, zlen_nil in E. lia.
Qed.

(** The buffer after the bytes [rest] have been written behind the first
    [rh] bytes of [mem]. *)
Lemma write_rest (mem rest : list byte) (rh : Z) :
  let data := take rh mem ++ rest in
  0 <= rh <= zlen mem ->
  write_at mem rh rest = Ret (data ++ drop (zlen data) mem)
  /\ zlen data = rh + zlen rest.
Proof.
  intros data Hrh.
  assert (Hlen : zlen data = rh + zlen rest).
  { unfold data. rewrite zlen_app, zlen_take. lia. }
  split; [|exact Hlen].
  unfold write_at.
  destruct ((0 <=? rh) && (rh <=? zlen mem)) eqn:E0; [|lia].
  rewrite Hlen. unfold data. rewrite <- app_assoc. reflexivity.
Qed.

(** The end of the input: a ['\n'] is written behind [data] if its last
    byte is not one. *)
Lemma final_newline_in_buffer (data mem : list byte) :
  data <> [] ->
  (if negb (0 =? zlen data) then
     last <- read_at (data ++ drop (zlen data) mem) (zlen data - 1) 1 ;;
     if Byte.eqb (hd x00 last) NL
     then Ret (data ++ drop (zlen data) mem, zlen data)
     else
       mem1 <- write_at (data ++ drop (zlen data) mem) (zlen data) [NL] ;;
       Ret (mem1, zlen data + 1)
   else Ret (data ++ drop (zlen data) mem, zlen data))
  = Ret (with_final_newline data
           ++ drop (zlen (with_final_newline data)) mem,
         zlen (with_final_newline data)).
Proof.
  intros Hdata.
  assert (Hpos : 0 < zlen data).
  { destruct data as [|x l]; [contradiction|].
    rewrite zlen_cons. pose proof (zlen_nonneg l). lia. }
  destruct (0 =? zlen data) eqn:E1; [lia|]. cbn [negb].
  unfold read_at.
  assert (Hz : zlen (data ++ drop (zlen data) mem) >= zlen data).
  { rewrite zlen_app. pose proof (zlen_nonneg (drop (zlen data) mem)). lia. }
  destruct ((0 <=? zlen data - 1) && (0 <=? 1)
            && (zlen data - 1 + 1 <=? zlen (data ++ drop (zlen data) mem)))
    eqn:E2; [|lia].
  cbn [obind].
  rewrite hd_sub_1, byte_at_app_l, byte_at_end by (lia || assumption).
  unfold with_final_newline.
  destruct data as [|x l] eqn:Ed; [contradiction|]. rewrite <- Ed in *.
  destruct (Byte.eqb (last data x00) NL); [reflexivity|].
  unfold write_at.
  destruct ((0 <=? zlen data)
            && (zlen data <=? zlen (data ++ drop (zlen data) mem)))
    eqn:E3; [|lia].
  cbn [obind].
  rewrite take_app_le, take_all by lia.
  rewrite drop_app_ge by (change (zlen [NL]) with 1; lia).
  change (zlen [NL]) with 1.
  rewrite drop_drop by lia.
  rewrite zlen_app. change (zlen [NL]) with 1.
  replace (zlen data + 1 - zlen data + zlen data) with (zlen data + 1) by lia.
  rewrite <- app_assoc. reflexivity.
Qed.

Section ThreadReadsToEnd.

Variable X : externs.
Variable M : mt_externs.

Local Abbreviation C := (kDecompressChunkSizeX X).

(** The thread at the head of its loop, with the whole buffer before it
    and a plain file whose rest is shorter than a chunk: it reads the rest
    behind the [rh] bytes it has, adds the final ['\n'] and leaves through
    [TextRstreamThread_EOF]. *)
Lemma thread_loop_reads_to_end (s : TextRstream X) (mem : list byte)
    (f : FILE) (rh : Z) :
  let data := take rh mem ++ f_rest f in
  let w := with_final_newline data in
  dst (tbase s) = Some mem -> ff (tbase s) = Some f ->
  file_type (tbase s) = kFileUncompressed ->
  locals s = mkLocals (2 * C) 0 rh (2 * C) ->
  clean f ->
  0 <= rh <= zlen mem -> data <> [] -> zlen data < C ->
  16 < C -> 2 * C < 2 ^ 32 -> C <= enforced_max_line_blen (tbase s) ->
  thread_loop_step M s
  = Ret (thread_finish
           (with_thread
              (with_io s (after_read C f) (w ++ drop (zlen w) mem) (trds s))
              (mkLocals (2 * C) 0 (zlen w) (2 * C)) (pc s))
           kTrsInterruptRetarget kPglRetEof None).
Proof.
  intros data w Hdst Hff Hft Hloc Hclean Hrh Hdata Hlen HC H2C Hblen.
  destruct (write_rest mem (f_rest f) rh Hrh) as [Hwrite Hsum].
  fold data in Hwrite, Hsum.
  pose proof (zlen_nonneg (f_rest f)) as Hrest.
  pose proof (zlen_with_final_newline data) as Hw1.
  pose proof (zlen_with_final_newline_le data) as Hw2. fold w in Hw1, Hw2.
  unfold thread_loop_step. rewrite Hloc, Hdst, Hff, Hft.
  cbn [read_stop read_head buf_end cur_block_start].
  rewrite uptr_small by lia.
  destruct (2 * C - rh =? 0) eqn:E0; [lia|].
  destruct (2 * C - rh >? C) eqn:E1; [|lia].
  unfold thread_read_switch.
  rewrite fread_clean by exact Hclean.
  destruct Hclean as [Hbad Herr].
  cbn [after_read f_err ferror_unlocked]. rewrite Herr. cbn [obind].
  rewrite (take_all C (f_rest f)) by lia.
  rewrite Hwrite. cbn [obind]. rewrite <- Hsum.
  destruct (zlen data <? rh + C) eqn:E2; [|lia].
  unfold thread_end_of_input.
  cbn [tbase locals with_io]. rewrite Hloc.
  cbn [read_stop read_head buf_end cur_block_start ff trds
         enforced_max_line_blen pc].
  rewrite (final_newline_in_buffer data mem Hdata). fold w.
  cbn [obind].
  unfold IsPathologicallyLongLineOrTokenX.
  destruct (enforced_max_line_blen (tbase s) =? 0) eqn:E6; [lia|].
  cbn [negb].
  rewrite Z.sub_0_r, uptr_small by lia.
  destruct (zlen w <=? enforced_max_line_blen (tbase s)) eqn:E7; [|lia].
  reflexivity.
Qed.

End ThreadReadsToEnd.

Lemma with_final_newline_pos (l : list byte) :
  l <> [] ->
  0 < zlen l /\ zlen l <= zlen (with_final_newline l) <= zlen l + 1.
Proof.
  intros Hl.
  pose proof (zlen_with_final_newline l).
  pose proof (zlen_with_final_newline_le l).
  destruct l as [|x l']; [contradiction|].
  rewrite zlen_cons in *. pose proof (zlen_nonneg l'). lia.
Qed.

Section RetargetedFile.

Variable X : externs.
Variable M : mt_externs.
Variable R : retarget_externs.
Variables (d : list byte) (blen thread_ct : Z).
Variables (new_fname : option string) (d2 : list byte) (e0 : PglErr).

Local Abbreviation C := (kDecompressChunkSizeX X).
Local Abbreviation w := (with_final_newline d).
Local Abbreviation w2 := (with_final_newline d2).
Local Abbreviation stream :=
  (retargeted_stream X d blen thread_ct new_fname d2 e0).

Hypothesis Hd : d <> [].
Hypothesis HC : 16 < C.
Hypothesis H2C : 2 * C < 2 ^ 32.
Hypothesis Hlen : zlen d < C.
Hypothesis Hblen : C <= blen.
Hypothesis Hd2 : d2 <> [].
Hypothesis Hlen2 : zlen d2 < C.
Hypothesis Htarget :
  match new_fname with
  | None => d2 = d
  | Some fname =>
      fopen X fname = Some d2
      /\ open_file_type X (take 16 d2) = kFileUncompressed
      /\ forall f, fclose_fails R f = false
  end.

(** The thread takes the request at its final wait: it rewinds the file,
    or opens the new one and reads its first 16 bytes. *)
Lemma retargeted_thread_takes_request (cp : consumer_phase)
    (progress : bool) :
  thread_step_retarget M R new_fname (stream (Requested true) cp progress)
  = Ret (Some (stream Reopened cp false)).
Proof.
  pose proof (with_final_newline_pos d Hd) as [Hd0 Hw].
  unfold thread_step_retarget, thread_step, retargeted_stream.
  stream_fields. cbn [interrupt_rank].
  destruct (1 <? 1) eqn:E; [lia|].
  stream_fields.
  unfold TextRstreamThread_INTERRUPT.
  destruct new_fname as [fname|].
  - destruct Htarget as (Hfs & Hprobe & Hclose).
    unfold thread_switch_file. stream_fields. rewrite Hfs.
    rewrite fread_clean by (split; reflexivity).
    cbn [fopen_data f_rest after_read f_all f_eof f_err orb].
    unfold write_at.
    destruct ((0 <=? 0) && (0 <=? zlen w)) eqn:E0; [|lia].
    cbn [obind]. rewrite Hprobe. cbn [ftype_eqb negb].
    rewrite Hclose. unfold retarget_done. stream_fields.
    rewrite (take_nonpos 0 w) by lia. reflexivity.
  - subst d2. unfold thread_rewind. stream_fields.
    unfold retarget_done. reflexivity.
Qed.

(** The request finds the thread before its read of the old file: the
    thread reads that file to its end, sees the request when it passes the
    code back, and takes it at once. *)
Lemma retargeted_thread_reads_then_takes_request (cp : consumer_phase)
    (progress : bool) :
  thread_step_retarget M R new_fname (stream (Requested false) cp progress)
  = Ret (Some (stream Reopened cp true)).
Proof.
  pose proof (with_final_newline_pos d Hd) as [Hd0 Hw].
  assert (H16 : 0 <= zlen (take 16 d) <= 16 /\ zlen (take 16 d) <= zlen d)
    by (rewrite zlen_take; lia).
  assert (Hdata : take (zlen (take 16 d)) (take 16 d) ++ drop 16 d = d).
  { rewrite take_all by lia. apply take_drop. }
  pose proof (thread_loop_reads_to_end X M
                (stream (Requested false) cp progress) (take 16 d)
                (mkFILE d (drop 16 d) (zlen (take 16 d) <? 16) false None)
                (zlen (take 16 d)) eq_refl eq_refl eq_refl eq_refl
                (conj eq_refl eq_refl)) as Hstep.
  cbn [f_rest] in Hstep. rewrite Hdata in Hstep.
  specialize (Hstep ltac:(lia) Hd Hlen HC H2C Hblen).
  unfold thread_step_retarget, thread_step.
  replace (pc (stream (Requested false) cp progress)) with AtLoop
    by reflexivity.
  rewrite Hstep. clear Hstep. unfold retargeted_stream.
  rewrite (drop_all (zlen w) (take 16 d)) by lia. rewrite app_nil_r.
  unfold thread_finish. stream_fields. cbn [interrupt_rank].
  destruct (1 >=? 1) eqn:E; [|lia].
  stream_fields.
  unfold TextRstreamThread_INTERRUPT.
  destruct new_fname as [fname|].
  - destruct Htarget as (Hfs & Hprobe & Hclose).
    unfold thread_switch_file. stream_fields. rewrite Hfs.
    rewrite fread_clean by (split; reflexivity).
    cbn [fopen_data f_rest after_read f_all f_eof f_err orb].
    unfold write_at.
    destruct ((0 <=? 0) && (0 <=? zlen w)) eqn:E0; [|lia].
    cbn [obind]. rewrite Hprobe. cbn [ftype_eqb negb].
    rewrite Hclose. unfold retarget_done. stream_fields.
    rewrite (take_nonpos 0 w) by lia. reflexivity.
  - subst d2. unfold thread_rewind. stream_fields.
    unfold retarget_done. reflexivity.
Qed.

(** The thread reads the file it has rewound or opened to its end. *)
Lemma retargeted_thread_reads (cp : consumer_phase) (progress : bool) :
  thread_step_retarget M R new_fname (stream Reopened cp progress)
  = Ret (Some (stream Replayed cp progress)).
Proof.
  pose proof (with_final_newline_pos d Hd) as [Hd0 Hw].
  pose proof (with_final_newline_pos d2 Hd2) as [Hd20 Hw2].
  assert (H16 : 0 <= zlen (take 16 d2) <= 16
                /\ zlen (take 16 d2) <= zlen d2)
    by (rewrite zlen_take; lia).
  pose proof (zlen_nonneg (drop (zlen (take 16 d2)) w)) as Hjunk.
  unfold thread_step_retarget, thread_step.
  replace (pc (stream Reopened cp progress)) with AtLoop
    by reflexivity.
  assert (Hstep :
    thread_loop_step M (stream Reopened cp progress)
    = Ret (thread_finish
             (with_thread
                (with_io (stream Reopened cp progress)
                   (after_read C
                      match new_fname with
                      | None => mkFILE d2 d2 false false None
                      | Some _ =>
                          mkFILE d2 (drop 16 d2) (zlen (take 16 d2) <? 16)
                            false None
                      end)
                   (w2 ++ drop (zlen w2) w) (RdsNone X))
                (mkLocals (2 * C) 0 (zlen w2) (2 * C)) AtLoop)
             kTrsInterruptRetarget kPglRetEof None)).
  { destruct new_fname as [fname|].
    - assert (Hdata : take (zlen (take 16 d2))
                        (take 16 d2 ++ drop (zlen (take 16 d2)) w)
                      ++ drop 16 d2 = d2).
      { rewrite take_app_le, take_all by lia. apply take_drop. }
      pose proof (thread_loop_reads_to_end X M
                    (retargeted_stream X d blen thread_ct (Some fname) d2
                       e0 Reopened cp progress)
                    (take 16 d2 ++ drop (zlen (take 16 d2)) w)
                    (mkFILE d2 (drop 16 d2) (zlen (take 16 d2) <? 16) false
                       None)
                    (zlen (take 16 d2)) eq_refl eq_refl eq_refl eq_refl
                    (conj eq_refl eq_refl)) as Hstep.
      cbn [f_rest] in Hstep. rewrite Hdata in Hstep.
      rewrite zlen_app in Hstep.
      specialize (Hstep ltac:(lia) Hd2 Hlen2 HC H2C Hblen).
      rewrite Hstep.
      rewrite drop_app_ge, drop_drop by lia.
      replace (zlen w2 - zlen (take 16 d2) + zlen (take 16 d2))
        with (zlen w2) by lia.
      reflexivity.
    - pose proof (thread_loop_reads_to_end X M
                    (retargeted_stream X d blen thread_ct None d2 e0
                       Reopened cp progress) w
                    (mkFILE d2 d2 false false None) 0
                    eq_refl eq_refl eq_refl eq_refl
                    (conj eq_refl eq_refl)) as Hstep.
      cbn [f_rest] in Hstep. rewrite (take_nonpos 0 w) in Hstep by lia.
      cbn [app] in Hstep.
      specialize (Hstep ltac:(lia) Hd2 Hlen2 HC H2C Hblen).
      rewrite Hstep. reflexivity. }
  rewrite Hstep. clear Hstep.
  unfold thread_finish, retargeted_stream. stream_fields.
  cbn [interrupt_rank PglErr_eqb].
  destruct (0 >=? 1) eqn:E; [lia|].
  unfold signal_reader_progress. stream_fields.
  destruct cp; reflexivity.
Qed.

(** Afterwards the thread only takes note of the consumer's progress. *)
Lemma retargeted_thread_notes_progress (cp : consumer_phase)
    (progress : bool) :
  thread_step_retarget M R new_fname (stream Replayed cp progress)
  = Ret (if progress then Some (stream Replayed cp false) else None).
Proof.
  unfold thread_step_retarget, thread_step, retargeted_stream.
  stream_fields. destruct progress; reflexivity.
Qed.

Lemma retargeted_slice :
  read_at (w2 ++ drop (zlen w2) w) 0 (zlen w2 - 0) = Ret w2.
Proof.
  pose proof (with_final_newline_pos d2 Hd2) as [Hd20 Hw2].
  pose proof (zlen_nonneg (drop (zlen w2) w)) as Hjunk.
  unfold read_at. rewrite zlen_app.
  destruct ((0 <=? 0) && (0 <=? zlen w2 - 0)
            && (0 + (zlen w2 - 0) <=? zlen w2 + zlen (drop (zlen w2) w)))
    eqn:E; [|lia].
  rewrite Z.sub_0_r, sub_0, take_app_le, take_all by lia. reflexivity.
Qed.

Lemma retargeted_consumer_step (ph : retarget_phase) (cp : consumer_phase)
    (progress : bool) :
  retargeted_state_ok ph cp = true ->
  consumer_step (stream ph cp progress)
  = Ret (match ph, cp with
         | Replayed, (NotCalled | Waiting) =>
             Some (stream ph GotLines progress, [w2])
         | _, NotCalled => Some (stream ph Waiting true, [])
         | _, Waiting => None
         | _, GotLines => Some (stream ph GotEof progress, [])
         | _, GotEof => None
         end).
Proof.
  pose proof (with_final_newline_pos d2 Hd2) as [Hd20 Hw2].
  pose proof retargeted_slice as Hsl.
  assert (E0 : (0 =? zlen w2) = false) by lia.
  intros Hok.
  destruct ph as [[|]| |], cp; try discriminate Hok;
    unfold consumer_step, retargeted_stream;
    stream_fields; cbn [has_lines];
    try reflexivity;
    unfold TextAdvance_body;
    stream_fields; cbn [is_err PglErr_eqb negb andb];
    rewrite ?E0, ?Z.eqb_refl;
    consumer_fields;
    rewrite ?Hsl; reflexivity.
Qed.

Lemma retargeted_step_ok (m : mover) (ph : retarget_phase)
    (cp : consumer_phase) (progress : bool) :
  retargeted_state_ok ph cp = true ->
  let st' := retargeted_step m (ph, cp, progress) in
  retargeted_state_ok (fst (fst st')) (snd (fst st')) = true.
Proof.
  destruct m, ph as [[|]| |], cp; intros H; try discriminate; reflexivity.
Qed.

(** The stream follows [retargeted_step] under every schedule, and hands
    the consumer the new contents when the consumer first has lines. *)
Lemma retargeted_run_stream :
  forall (schedule : list mover) (ph : retarget_phase)
         (cp : consumer_phase) (progress : bool),
    retargeted_state_ok ph cp = true ->
    let st' := retargeted_run schedule (ph, cp, progress) in
    run_retargeted M R new_fname schedule (stream ph cp progress)
    = Ret (if has_lines (snd (fst st')) && negb (has_lines cp) then [w2]
           else [],
           stream (fst (fst st')) (snd (fst st')) (snd st'))
    /\ (has_lines cp = true -> has_lines (snd (fst st')) = true).
Proof.
  induction schedule as [|m schedule IH]; intros ph cp progress Hok.
  - cbn. split; [destruct (has_lines cp); reflexivity | auto].
  - cbv zeta.
    change (retargeted_run (m :: schedule) (ph, cp, progress))
      with (retargeted_run schedule (retargeted_step m (ph, cp, progress))).
    pose proof (retargeted_step_ok m ph cp progress Hok) as Hok'.
    cbv zeta in Hok'.
    cbn [run_retargeted]. destruct m.
    + destruct ph as [[|]| |]; cbn [retargeted_step negb] in *.
      * rewrite retargeted_thread_takes_request. cbn [obind].
        exact (IH Reopened cp false Hok').
      * rewrite retargeted_thread_reads_then_takes_request. cbn [obind].
        exact (IH Reopened cp true Hok').
      * rewrite retargeted_thread_reads. cbn [obind].
        exact (IH Replayed cp progress Hok').
      * rewrite retargeted_thread_notes_progress. cbn [obind].
        destruct progress; exact (IH Replayed cp false Hok').
    + rewrite (retargeted_consumer_step ph cp progress Hok).
      cbn [obind].
      destruct ph as [[|]| |], cp; try discriminate Hok;
        cbn [retargeted_step fst snd] in *;
        match goal with
        | |- context [retargeted_run schedule (?p, ?c, ?r)] =>
            destruct (IH p c r Hok') as [Hrun Hmono]; cbv zeta in Hrun
        end;
        try rewrite Hrun; cbn [obind fst snd has_lines negb andb app] in *;
        try (rewrite (Hmono eq_refl)); rewrite ?andb_true_r, ?andb_false_r;
        (split; [try reflexivity | auto]);
        try (destruct (has_lines _); reflexivity).
Qed.

End RetargetedFile.

(** Once the thread has read the file again, two steps of the consumer
    take it to the end of the file. *)
Lemma retargeted_run_replayed :
  forall (schedule : list mover) (cp : consumer_phase) (progress : bool),
    (match cp with
     | NotCalled | Waiting => 2
     | GotLines => 1
     | GotEof => 0
     end <= consumer_steps schedule)%nat ->
    snd (fst (retargeted_run schedule (Replayed, cp, progress))) = GotEof.
Proof.
  induction schedule as [|m schedule IH]; intros cp progress Hn.
  - destruct cp; cbn in Hn; try lia. reflexivity.
  - change (retargeted_run (m :: schedule) (Replayed, cp, progress))
      with (retargeted_run schedule
              (retargeted_step m (Replayed, cp, progress))).
    destruct m; cbn [retargeted_step consumer_steps] in *.
    + apply IH. exact Hn.
    + destruct cp; apply IH; cbn; lia.
Qed.

Lemma after_thread_steps_0 (schedule : list mover) :
  after_thread_steps 0 schedule = schedule.
Proof. destruct schedule; reflexivity. Qed.

Lemma retargeted_run_reopened :
  forall (schedule : list mover) (cp : consumer_phase) (progress : bool),
    has_lines cp = false ->
    (2 <= consumer_steps (after_thread_steps 1 schedule))%nat ->
    snd (fst (retargeted_run schedule (Reopened, cp, progress))) = GotEof.
Proof.
  induction schedule as [|m schedule IH]; intros cp progress Hcp Hn.
  - cbn in Hn. lia.
  - change (retargeted_run (m :: schedule) (Reopened, cp, progress))
      with (retargeted_run schedule
              (retargeted_step m (Reopened, cp, progress))).
    destruct m; cbn [retargeted_step after_thread_steps] in *.
    + apply retargeted_run_replayed. rewrite after_thread_steps_0 in Hn.
      destruct cp; try discriminate; exact Hn.
    + destruct cp; try discriminate; apply IH; (reflexivity || exact Hn).
Qed.

Lemma retargeted_run_requested :
  forall (schedule : list mover) (thread_done : bool) (cp : consumer_phase)
         (progress : bool),
    has_lines cp = false ->
    (2 <= consumer_steps (after_thread_steps 2 schedule))%nat ->
    snd (fst (retargeted_run schedule (Requested thread_done, cp, progress)))
    = GotEof.
Proof.
  induction schedule as [|m schedule IH]; intros tp cp progress Hcp Hn.
  - cbn in Hn. lia.
  - change (retargeted_run (m :: schedule) (Requested tp, cp, progress))
      with (retargeted_run schedule
              (retargeted_step m (Requested tp, cp, progress))).
    destruct m; cbn [retargeted_step after_thread_steps] in *.
    + apply retargeted_run_reopened; assumption.
    + destruct cp; try discriminate; apply IH; (reflexivity || exact Hn).
Qed.

(** [TextRetarget] on the stream of a short plain file. *)
Lemma TextRetarget_short_file (X : externs) (d : list byte)
    (blen thread_ct : Z) (new_fname : option string) (d2 : list byte)
    (thread_done : bool) (cp : consumer_phase) (progress : bool) :
  cp <> Waiting ->
  TextRetarget new_fname
    (short_file_stream X d blen thread_ct thread_done cp progress)
  = Ret (kPglRetSuccess,
         retargeted_stream X d blen thread_ct new_fname d2
           (match cp with GotEof => kPglRetEof | _ => kPglRetSuccess end)
           (Requested thread_done) NotCalled progress).
Proof.
  intros Hcp.
  destruct cp, thread_done; try contradiction; reflexivity.
Qed.

Lemma short_file_run_ok :
  forall (schedule : list mover) (thread_done : bool) (cp : consumer_phase)
         (progress : bool),
    short_file_state_ok thread_done cp = true ->
    let st' := short_file_run schedule (thread_done, cp, progress) in
    short_file_state_ok (fst (fst st')) (snd (fst st')) = true.
Proof.
  induction schedule as [|m schedule IH]; intros tp cp progress Hok.
  - exact Hok.
  - cbv zeta.
    change (short_file_run (m :: schedule) (tp, cp, progress))
      with (short_file_run schedule (short_file_step m (tp, cp, progress))).
    pose proof (short_file_step_ok m tp cp progress Hok) as Hok'.
    destruct (short_file_step m (tp, cp, progress)) as [[tp' cp'] pr'].
    apply IH. exact Hok'.
Qed.

(** X15: [TextRetarget] replays a short plain file, or switches to
    another, under every schedule.  A stream opened on a plain file shorter
    than a chunk and run under any schedule is retargeted while the
    consumer is not inside [TextAdvance]: to the same file ([new_fname]
    null) or to another plain file shorter than a chunk.  The call
    succeeds, and under every schedule of the thread and the consumer
    afterwards the consumer is handed nothing or, in one slice, the
    contents of the target with a final ['\n'] added if it lacks one, and
    never a byte of what the buffer held before; it is told Eof only after
    that slice; and it has been told Eof once it has taken two steps after
    the thread's second. *)
Theorem retarget_replays_a_short_plain_file_under_every_schedule :
  forall (X : externs) (M : mt_externs) (R : retarget_externs)
         (fname : string) (d : list byte) (blen cap thread_ct : Z)
         (schedule1 : list mover) (sl1 : list (list byte))
         (s1 : TextRstream X) (new_fname : option string) (d2 : list byte)
         (schedule2 : list mover),
    let C := kDecompressChunkSizeX X in
    fopen X fname = Some d -> d <> [] ->
    open_file_type X (take 16 d) = kFileUncompressed ->
    malloc_ok X (2 * C) = true ->
    cachealigned_malloc_ok M = true -> pthread_ok M = true ->
    16 < C -> 2 * C < 2 ^ 32 -> zlen d < C -> C <= blen ->
    match new_fname with
    | None => d2 = d
    | Some fname2 =>
        fopen X fname2 = Some d2
        /\ open_file_type X (take 16 d2) = kFileUncompressed
        /\ forall f, fclose_fails R f = false
    end ->
    d2 <> [] -> zlen d2 < C ->
    open_and_stream X M schedule1 fname blen cap thread_ct false
    = Ret (sl1, Some s1) ->
    consumer s1 <> InCondWait ->
    exists sl2 s2,
      retarget_and_stream M R new_fname schedule2 s1
      = Ret (kPglRetSuccess, sl2, s2)
      /\ (sl2 = [] \/ sl2 = [with_final_newline d2])
      /\ (forall e, consumer s2 = Returned e ->
                    e = kPglRetEof /\ sl2 = [with_final_newline d2])
      /\ ((2 <= consumer_steps (after_thread_steps 2 schedule2))%nat ->
          consumer s2 = Returned kPglRetEof).
Proof.
  intros X M R fname d blen cap thread_ct schedule1 sl1 s1 new_fname d2
    schedule2 C Hfs Hd Hprobe Hmalloc Hsync Hthread HC H2C Hlen Hblen
    Htarget Hd2 Hlen2 Hopen Hcons.
  unfold open_and_stream, TextRstreamOpenEx in Hopen.
  rewrite (open_plain_for_stream X fname d blen cap thread_ct Hfs Hd Hprobe
             Hmalloc ltac:(fold C; lia) H2C Hblen) in Hopen.
  cbn [obind is_err PglErr_eqb negb] in Hopen.
  rewrite Hsync, Hthread in Hopen. cbn [negb] in Hopen.
  unfold plain_reader in Hopen.
  cbn [base rds set_err consume_stop errmsg obind] in Hopen.
  change (mkRstream _ _ _ _ _ _ _ _ _)
    with (short_file_stream X d blen thread_ct false NotCalled false)
    in Hopen.
  destruct (short_file_run_stream X M d blen thread_ct Hd HC H2C Hlen Hblen
              schedule1 false NotCalled false eq_refl) as [Hrun _].
  pose proof (short_file_run_ok schedule1 false NotCalled false eq_refl)
    as Hok1.
  cbv zeta in Hrun, Hok1. rewrite Hrun in Hopen. clear Hrun.
  destruct (short_file_run schedule1 (false, NotCalled, false))
    as [[tp1 cp1] pr1].
  cbn [obind fst snd] in Hopen, Hok1. injection Hopen as _ <-.
  assert (Hcp1 : cp1 <> Waiting).
  { intros ->. apply Hcons. reflexivity. }
  unfold retarget_and_stream.
  rewrite (TextRetarget_short_file X d blen thread_ct new_fname d2 tp1 cp1
             pr1 Hcp1).
  cbn [obind is_err PglErr_eqb negb].
  set (e0 := match cp1 with GotEof => kPglRetEof | _ => kPglRetSuccess end).
  destruct (retargeted_run_stream X M R d blen thread_ct new_fname d2 e0
              Hd HC H2C Hlen Hblen Hd2 Hlen2 Htarget schedule2
              (Requested tp1) NotCalled pr1 eq_refl) as [Hrun _].
  cbv zeta in Hrun. rewrite Hrun. cbn [obind fst snd has_lines negb].
  rewrite andb_true_r.
  pose proof (retargeted_run_requested schedule2 tp1 NotCalled pr1 eq_refl)
    as Hlive.
  destruct (retargeted_run schedule2 (Requested tp1, NotCalled, pr1))
    as [[ph2 cp2] pr2].
  cbn [fst snd] in *.
  eexists _, _. split; [reflexivity|]. split; [|split].
  - destruct (has_lines cp2); auto.
  - intros e He. destruct cp2; cbn in He; try discriminate.
    injection He as <-. split; reflexivity.
  - intros Hn. rewrite (Hlive Hn). reflexivity.
Qed.

Lemma retarget_replays_a_short_plain_file_under_every_schedule_witness :
  exists sl1 s1 sl2 s2,
    open_and_stream (plink2 (two_files three_lines one_short_line))
      plink2_mt [Thread; Consumer; Consumer] "f" 1048576 0 1 false
    = Ret (sl1, Some s1)
    /\ retarget_and_stream plink2_mt plink2_retarget (Some "g"%string)
         [Consumer; Thread; Thread; Consumer; Consumer] s1
       = Ret (kPglRetSuccess, sl2, s2)
    /\ (sl2 = [] \/ sl2 = [with_final_newline one_short_line])
    /\ consumer s2 = Returned kPglRetEof.
Proof.
  assert (Hopen : exists sl1 s1,
             open_and_stream
               (plink2 (two_files three_lines one_short_line)) plink2_mt
               [Thread; Consumer; Consumer] "f" 1048576 0 1 false
             = Ret (sl1, Some s1)
             /\ consumer s1 <> InCondWait).
  { eexists _, _. split; [vm_compute; reflexivity | discriminate]. }
  destruct Hopen as (sl1 & s1 & E & Hcons).
  destruct (retarget_replays_a_short_plain_file_under_every_schedule
              (plink2 (two_files three_lines one_short_line)) plink2_mt
              plink2_retarget "f" three_lines 1048576 0 1
              [Thread; Consumer; Consumer] sl1 s1 (Some "g"%string)
              one_short_line [Consumer; Thread; Thread; Consumer; Consumer])
    as (sl2 & s2 & Hrun & Hsl & _ & Hlive).
  - reflexivity.
  - discriminate.
  - reflexivity.
  - reflexivity.
  - reflexivity.
  - reflexivity.
  - cbn. lia.
  - cbn. lia.
  - cbn. lia.
  - cbn. lia.
  - split; [reflexivity|]. split; reflexivity.
  - discriminate.
  - cbn. lia.
  - exact E.
  - exact Hcons.
  - exists sl1, s1, sl2, s2. split; [exact E|]. split; [exact Hrun|].
    split; [exact Hsl|]. apply Hlive. cbn. lia.
Defined.

(** X16: what [TextRetarget] leaves for the next [TextAdvance], on any
    open stream.  If the thread has reported an error other than Eof, the
    call returns that code and latches it with its message, raises no
    interrupt, and the next [TextAdvance] returns the same code.
    Otherwise the call succeeds and raises the Retarget interrupt, and a
    [TextAdvance] that comes before the thread has acted waits: it hands
    out none of the lines that were in the buffer and does not report the
    old end of file. *)
Theorem TextRetarget_passes_errors_on_and_hides_old_lines :
  forall (X : externs) (new_fname : option string) (s s' : TextRstream X)
         (e : PglErr),
    dst (tbase s) <> None -> consume_iter (tbase s) <> None ->
    TextRetarget new_fname s = Ret (e, s') ->
    (e <> kPglRetSuccess ->
     e = sync_reterr (sync s) /\ e <> kPglRetEof
     /\ sync s' = sync s /\ pc s' = pc s
     /\ reterr (tbase s') = e
     /\ errmsg (tbase s') = sync_errmsg (sync s)
     /\ exists s'',
          consumer_step s' = Ret (Some (s'', []))
          /\ consumer s'' = Returned e)
    /\ (e = kPglRetSuccess ->
        interrupt (sync s') = kTrsInterruptRetarget
        /\ consumer_progress_state (sync s') = true
        /\ sync_reterr (sync s') = kPglRetSuccess
        /\ pc s' = pc s
        /\ exists s'',
             consumer_step s' = Ret (Some (s'', []))
             /\ consumer s'' = InCondWait).
Proof.
  intros X new_fname s s' e Hdst Hiter H.
  destruct (dst (tbase s)) as [mem|] eqn:Edst; [clear Hdst|contradiction].
  destruct (consume_iter (tbase s)) as [iter|] eqn:Eiter;
    [clear Hiter|contradiction].
  unfold TextRetarget in H.
  assert (Hbody :
    (if is_err (sync_reterr (sync s))
        && negb (PglErr_eqb (sync_reterr (sync s)) kPglRetEof)
     then
       Ret (sync_reterr (sync s),
            with_consumer
              (with_base s
                 (mkBase (consume_iter (tbase s)) (consume_stop (tbase s))
                    (sync_errmsg (sync s)) (sync_reterr (sync s))
                    (ff (tbase s)) (dst (tbase s)) (dst_len (tbase s))
                    (dst_capacity (tbase s))
                    (enforced_max_line_blen (tbase s))
                    (dst_owned_by_consumer (tbase s)) (file_type (tbase s))
                    (heap_log (tbase s))))
              InClient false)
     else
       Ret (kPglRetSuccess,
            with_consumer
              (with_sync
                 (with_base s
                    (mkBase (Some 0) (Some 0) (errmsg (tbase s))
                       (reterr (tbase s)) (ff (tbase s)) (dst (tbase s))
                       (dst_len (tbase s)) (dst_capacity (tbase s))
                       (enforced_max_line_blen (tbase s))
                       (dst_owned_by_consumer (tbase s))
                       (file_type (tbase s)) (heap_log (tbase s))))
                 (mkSync 0 None 0 (sync_errmsg (sync s)) kPglRetSuccess
                    false kTrsInterruptRetarget true))
              InClient false))
    = Ret (e, s')).
  { destruct (consumer s); try discriminate; rewrite Edst in *; exact H. }
  clear H.
  destruct (is_err (sync_reterr (sync s))
            && negb (PglErr_eqb (sync_reterr (sync s)) kPglRetEof)) eqn:Eerr.
  - injection Hbody as <- <-. split; [|intros He; rewrite He in Eerr;
                                        discriminate].
    intros _. split; [reflexivity|].
    split; [intros He; rewrite He in Eerr; discriminate|].
    repeat (split; [reflexivity|]).
    unfold consumer_step.
    cbn [with_consumer with_base consumer tbase consume_iter].
    rewrite Eiter. unfold TextAdvance_body.
    cbn [with_consumer with_base sync tbase]. rewrite Eerr.
    unfold consumer_after.
    destruct (sync_reterr (sync s)) eqn:Ee; try discriminate;
      cbn [obind]; eexists; split; reflexivity.
  - injection Hbody as <- <-. split; [intros He; contradiction|].
    intros _. repeat (split; [reflexivity|]).
    eexists. unfold consumer_step.
    cbn [with_consumer with_sync with_base consumer tbase consume_iter].
    unfold TextAdvance_body.
    cbn [with_consumer with_sync with_base sync tbase sync_reterr is_err
           PglErr_eqb negb andb available_end cur_circular_end
           dst_reallocated Z.eqb orb consumer_after obind].
    split; reflexivity.
Qed.

Lemma TextRetarget_passes_errors_on_and_hides_old_lines_witness :
  exists s' s'',
    TextRetarget None
      (short_file_stream (plink2 (one_file three_lines)) three_lines 1048576
         1 true GotLines false)
    = Ret (kPglRetSuccess, s')
    /\ interrupt (sync s') = kTrsInterruptRetarget
    /\ consumer_step s' = Ret (Some (s'', []))
    /\ consumer s'' = InCondWait.
Proof.
  destruct (TextRetarget_passes_errors_on_and_hides_old_lines _ None
              (short_file_stream (plink2 (one_file three_lines)) three_lines
                 1048576 1 true GotLines false)
              (retargeted_stream (plink2 (one_file three_lines)) three_lines
                 1048576 1 None three_lines kPglRetSuccess (Requested true)
                 NotCalled false)
              kPglRetSuccess)
    as [_ Hok]; [discriminate | discriminate | reflexivity |].
  destruct (Hok eq_refl) as (Hi & _ & _ & _ & s'' & Hstep & Hc).
  eexists _, s''. split; [reflexivity|]. auto.
Defined.

(* ------------------------------------------------------------------ *)
(** ** Closing the asynchronous reader *)

(** A thread that waits leaves its wait for the Shutdown interrupt. *)
Lemma waiting_thread_takes_shutdown (X : externs) (M : mt_externs)
    (s : TextRstream X) (fuel : nat) :
  match pc s with
  | AtWaitFirst _ | AtFinalWait _ | AtInterrupt kTrsInterruptShutdown => True
  | _ => False
  end ->
  exists s1,
    pthread_join M (S fuel) (CleanupTextRstream_request s) = Ret (Some s1)
    /\ tbase s1 = tbase s /\ trds s1 = trds s.
Proof.
  intros Hpc.
  assert (Hdone : forall s1 : TextRstream X,
             pc s1 = AtInterrupt kTrsInterruptShutdown ->
             pthread_join M fuel s1 = Ret (Some s1)).
  { intros s1 H1. destruct fuel; cbn [pthread_join]; rewrite H1;
      reflexivity. }
  cbn [pthread_join]. unfold CleanupTextRstream_request.
  cbn [pc with_sync].
  destruct (pc s) as [|mr|m|[| |]] eqn:Epc; try contradiction.
  - unfold thread_step. cbn [pc with_sync]. rewrite Epc.
    cbn [sync consumer_progress_state with_sync].
    unfold thread_wait_check, clear_progress.
    cbn [sync with_sync interrupt obind with_thread pc].
    rewrite Hdone by reflexivity. eexists. repeat split.
  - unfold thread_step. cbn [pc with_sync]. rewrite Epc.
    cbn [sync consumer_progress_state with_sync clear_progress interrupt
           interrupt_rank].
    destruct (2 <? interrupt_rank m) eqn:E; [destruct m; cbn in E; lia|].
    cbn [obind with_thread pc].
    rewrite Hdone by reflexivity. eexists. repeat split.
  - eexists. repeat split.
Qed.

(** X17: [CleanupTextRstream] gets a waiting thread to return, and closes
    the stream.  Whenever the thread waits (for the consumer to free room
    in the buffer, at the end of the file, or after an error), whatever
    request is pending, one step of the thread ends the join.  The stream
    is then closed: no stream of the file, no slice, no message, Eof
    latched, [dst] freed unless it is the caller's; an error is reported
    only for a close that fails, and to a caller that does not already
    hold one. *)
Theorem CleanupTextRstream_stops_a_waiting_thread_and_closes :
  forall (X : externs) (M : mt_externs) (s : TextRstream X) (fuel : nat)
         (close_fails : bool) (reterrp : option PglErr)
         (r1 : RawDecompressStream X),
    consumer s <> InCondWait ->
    match pc s with
    | AtWaitFirst _ | AtFinalWait _
    | AtInterrupt kTrsInterruptShutdown => True
    | _ => False
    end ->
    cleanup_mt_rds (file_type (tbase s)) (trds s) = Ret r1 ->
    exists t : textRFILE X,
      let flag :=
        match ff (tbase s) with Some _ => true | None => false end
        && close_fails
        && match reterrp with
           | None | Some kPglRetSuccess => true
           | Some _ => false
           end in
      CleanupTextRstream M (S fuel) close_fails s reterrp
      = Ret (Some (flag, t,
                   if flag then option_map (fun _ => kPglRetReadFail) reterrp
                   else reterrp))
      /\ ff (base t) = None /\ consume_iter (base t) = None
      /\ consume_stop (base t) = None /\ errmsg (base t) = None
      /\ reterr (base t) = kPglRetEof
      /\ dst (base t) = (if dst_owned_by_consumer (tbase s)
                         then dst (tbase s) else None)
      /\ file_type (base t) = match ff (tbase s) with
                              | Some _ => kFileUncompressed
                              | None => file_type (tbase s)
                              end.
Proof.
  intros X M s fuel cf rp r1 Hcons Hpc Hrds.
  destruct (waiting_thread_takes_shutdown X M s fuel Hpc)
    as (s1 & Hjoin & Hbase & Htrds).
  unfold CleanupTextRstream.
  replace (match consumer s with
           | InCondWait => Undefined
           | _ => pthread_join M (S fuel) (CleanupTextRstream_request s)
           end) with (Ret (Some s1))
    by (rewrite <- Hjoin; destruct (consumer s); congruence).
  cbn [obind]. rewrite Hbase, Htrds.
  assert (Hdst :
            (if match dst (tbase s) with
                | Some _ => negb (dst_owned_by_consumer (tbase s))
                | None => false
                end then None else dst (tbase s))
            = (if dst_owned_by_consumer (tbase s) then dst (tbase s)
               else None)).
  { destruct (dst (tbase s)), (dst_owned_by_consumer (tbase s));
      reflexivity. }
  destruct (ff (tbase s)) as [f|].
  - rewrite Hrds. cbn [obind andb].
    destruct cf; [destruct rp as [[]|]|destruct rp];
      cbn [option_map]; eexists;
      (split; [reflexivity|]); cbn [base ff consume_iter consume_stop errmsg
                                     reterr dst file_type];
      rewrite Hdst; repeat split.
  - cbn [andb]. eexists. split; [reflexivity|].
    cbn [base ff consume_iter consume_stop errmsg reterr dst file_type].
    rewrite Hdst. repeat split.
Qed.

Lemma CleanupTextRstream_stops_a_waiting_thread_and_closes_witness :
  exists t : textRFILE (plink2 (one_file three_lines)),
    CleanupTextRstream plink2_mt 1 true
      (short_file_stream (plink2 (one_file three_lines)) three_lines 1048576
         1 true GotLines false) (Some kPglRetSuccess)
    = Ret (Some (true, t, Some kPglRetReadFail))
    /\ ff (base t) = None /\ dst (base t) = None.
Proof.
  destruct (CleanupTextRstream_stops_a_waiting_thread_and_closes
              (plink2 (one_file three_lines)) plink2_mt
              (short_file_stream (plink2 (one_file three_lines)) three_lines
                 1048576 1 true GotLines false) 0 true
              (Some kPglRetSuccess) (RdsNone _))
    as (t & Hrun & Hff & _ & _ & _ & _ & Hdst & _).
  - discriminate.
  - exact I.
  - reflexivity.
  - exists t. split; [exact Hrun|]. split; [exact Hff | exact Hdst].
Defined.

(** A thread about to read the rest of a short plain file reads it, finds
    the Shutdown interrupt when it passes the code back, and returns. *)
Lemma reading_thread_takes_shutdown (X : externs) (M : mt_externs)
    (s : TextRstream X) (mem : list byte) (f : FILE) (rh : Z) (fuel : nat) :
  let C := kDecompressChunkSizeX X in
  let data := take rh mem ++ f_rest f in
  pc s = AtLoop ->
  dst (tbase s) = Some mem -> ff (tbase s) = Some f ->
  file_type (tbase s) = kFileUncompressed ->
  locals s = mkLocals (2 * C) 0 rh (2 * C) ->
  clean f ->
  0 <= rh <= zlen mem -> data <> [] -> zlen data < C ->
  16 < C -> 2 * C < 2 ^ 32 -> C <= enforced_max_line_blen (tbase s) ->
  exists s1,
    pthread_join M (S fuel) (CleanupTextRstream_request s) = Ret (Some s1)
    /\ ff (tbase s1) <> None /\ dst (tbase s1) <> None
    /\ file_type (tbase s1) = kFileUncompressed
    /\ dst_owned_by_consumer (tbase s1) = dst_owned_by_consumer (tbase s)
    /\ trds s1 = trds s.
Proof.
  intros C data Hpc Hdst Hff Hft Hloc Hclean Hrh Hdata Hlen HC H2C Hblen.
  pose proof (thread_loop_reads_to_end X M (CleanupTextRstream_request s)
                mem f rh Hdst Hff Hft Hloc Hclean Hrh Hdata Hlen HC H2C
                Hblen) as Hstep.
  cbn [pthread_join]. unfold thread_step.
  replace (pc (CleanupTextRstream_request s)) with AtLoop
    by (symmetry; exact Hpc).
  rewrite Hstep. clear Hstep. cbn [obind].
  unfold thread_finish, CleanupTextRstream_request.
  cbn [sync with_sync with_thread with_io interrupt interrupt_rank].
  destruct (2 >=? 1) eqn:E; [|lia].
  destruct fuel; cbn [pthread_join pc with_thread with_sync];
    (eexists; split; [reflexivity|]);
    cbn [tbase trds with_thread with_sync with_io ff dst file_type
           dst_owned_by_consumer];
    repeat split; try discriminate; exact Hft.
Qed.

(** The rest of [CleanupTextRstream] once the thread has returned, for a
    plain file read through a buffer of the reader's own. *)
Lemma cleanup_after_join (X : externs) (M : mt_externs)
    (s s1 : TextRstream X) (fuel : nat) (close_fails : bool)
    (reterrp : option PglErr) :
  consumer s <> InCondWait ->
  pthread_join M fuel (CleanupTextRstream_request s) = Ret (Some s1) ->
  ff (tbase s1) <> None -> dst (tbase s1) <> None ->
  file_type (tbase s1) = kFileUncompressed ->
  dst_owned_by_consumer (tbase s1) = false ->
  exists t : textRFILE X,
    let flag :=
      close_fails
      && match reterrp with
         | None | Some kPglRetSuccess => true
         | Some _ => false
         end in
    CleanupTextRstream M fuel close_fails s reterrp
    = Ret (Some (flag, t,
                 if flag then option_map (fun _ => kPglRetReadFail) reterrp
                 else reterrp))
    /\ ff (base t) = None /\ dst (base t) = None
    /\ consume_iter (base t) = None /\ consume_stop (base t) = None
    /\ errmsg (base t) = None /\ reterr (base t) = kPglRetEof.
Proof.
  intros Hcons Hjoin Hff Hdst Hft Hown.
  unfold CleanupTextRstream.
  replace (match consumer s with
           | InCondWait => Undefined
           | _ => pthread_join M fuel (CleanupTextRstream_request s)
           end) with (Ret (Some s1))
    by (rewrite <- Hjoin; destruct (consumer s); congruence).
  cbn [obind]. rewrite Hft, Hown.
  destruct (ff (tbase s1)) as [f|]; [|contradiction].
  destruct (dst (tbase s1)) as [mem|]; [|contradiction].
  cbn [cleanup_mt_rds obind negb].
  destruct close_fails; [destruct reterrp as [[]|]|destruct reterrp];
    cbn [option_map andb]; eexists; (split; [reflexivity|]);
    repeat split.
Qed.

Section CloseShortFile.

Variable X : externs.
Variable M : mt_externs.
Variables (d : list byte) (blen thread_ct : Z).

Local Abbreviation C := (kDecompressChunkSizeX X).

Hypothesis Hd : d <> [].
Hypothesis HC : 16 < C.
Hypothesis H2C : 2 * C < 2 ^ 32.
Hypothesis Hlen : zlen d < C.
Hypothesis Hblen : C <= blen.

Lemma first_read_facts :
  0 <= zlen (take 16 d) <= zlen (take 16 d)
  /\ take (zlen (take 16 d)) (take 16 d) ++ drop 16 d = d.
Proof.
  split; [pose proof (zlen_nonneg (take 16 d)); lia|].
  rewrite take_all by lia. apply take_drop.
Qed.

(** The join on the stream of a short plain file, whatever the thread and
    the consumer have done. *)
Lemma short_file_join (thread_done : bool) (cp : consumer_phase)
    (progress : bool) (fuel : nat) :
  exists s1,
    pthread_join M (S fuel)
      (CleanupTextRstream_request
         (short_file_stream X d blen thread_ct thread_done cp progress))
    = Ret (Some s1)
    /\ ff (tbase s1) <> None /\ dst (tbase s1) <> None
    /\ file_type (tbase s1) = kFileUncompressed
    /\ dst_owned_by_consumer (tbase s1) = false.
Proof.
  destruct first_read_facts as [Hrh Hdata].
  destruct thread_done.
  - destruct (waiting_thread_takes_shutdown X M
                (short_file_stream X d blen thread_ct true cp progress)
                fuel I) as (s1 & Hjoin & Hbase & _).
    exists s1. split; [exact Hjoin|]. rewrite Hbase.
    repeat split; discriminate.
  - destruct (reading_thread_takes_shutdown X M
                (short_file_stream X d blen thread_ct false cp progress)
                (take 16 d)
                (mkFILE d (drop 16 d) (zlen (take 16 d) <? 16) false None)
                (zlen (take 16 d)) fuel eq_refl eq_refl eq_refl eq_refl
                eq_refl (conj eq_refl eq_refl) Hrh)
      as (s1 & Hjoin & H1 & H2 & H3 & H4 & _);
      cbn [f_rest]; rewrite ?Hdata; try assumption.
    exists s1. repeat split; assumption.
Qed.

Variables (new_fname : option string) (d2 : list byte) (e0 : PglErr).

Hypothesis Hd2 : d2 <> [].
Hypothesis Hlen2 : zlen d2 < C.

(** The join on the retargeted stream. *)
Lemma retargeted_join (ph : retarget_phase) (cp : consumer_phase)
    (progress : bool) (fuel : nat) :
  exists s1,
    pthread_join M (S fuel)
      (CleanupTextRstream_request
         (retargeted_stream X d blen thread_ct new_fname d2 e0 ph cp
            progress))
    = Ret (Some s1)
    /\ ff (tbase s1) <> None /\ dst (tbase s1) <> None
    /\ file_type (tbase s1) = kFileUncompressed
    /\ dst_owned_by_consumer (tbase s1) = false.
Proof.
  destruct first_read_facts as [Hrh Hdata].
  pose proof (with_final_newline_pos d Hd) as [Hd0 Hw].
  pose proof (zlen_nonneg d2) as Hd20.
  assert (H16 : 0 <= zlen (take 16 d2) <= 16
                /\ zlen (take 16 d2) <= zlen d2)
    by (rewrite zlen_take; lia).
  pose proof (zlen_nonneg (drop (zlen (take 16 d2))
                             (with_final_newline d))) as Hjunk.
  assert (Hwaiting :
            forall ph', match ph' with
                        | Requested true | Replayed => True
                        | _ => False
                        end ->
            exists s1,
              pthread_join M (S fuel)
                (CleanupTextRstream_request
                   (retargeted_stream X d blen thread_ct new_fname d2 e0 ph'
                      cp progress))
              = Ret (Some s1)
              /\ ff (tbase s1) <> None /\ dst (tbase s1) <> None
              /\ file_type (tbase s1) = kFileUncompressed
              /\ dst_owned_by_consumer (tbase s1) = false).
  { intros ph' Hph.
    destruct (waiting_thread_takes_shutdown X M
                (retargeted_stream X d blen thread_ct new_fname d2 e0 ph' cp
                   progress) fuel) as (s1 & Hjoin & Hbase & _).
    { destruct ph' as [[|]| |]; try contradiction; exact I. }
    exists s1. split; [exact Hjoin|]. rewrite Hbase.
    repeat split; discriminate. }
  destruct ph as [[|]| |].
  - apply Hwaiting. exact I.
  - destruct (reading_thread_takes_shutdown X M
                (retargeted_stream X d blen thread_ct new_fname d2 e0
                   (Requested false) cp progress)
                (take 16 d)
                (mkFILE d (drop 16 d) (zlen (take 16 d) <? 16) false None)
                (zlen (take 16 d)) fuel eq_refl eq_refl eq_refl eq_refl
                eq_refl (conj eq_refl eq_refl) Hrh)
      as (s1 & Hjoin & H1 & H2 & H3 & H4 & _);
      cbn [f_rest]; rewrite ?Hdata; try assumption.
    exists s1. repeat split; assumption.
  - destruct new_fname as [fname|].
    + assert (Hdata2 : take (zlen (take 16 d2))
                         (take 16 d2
                            ++ drop (zlen (take 16 d2))
                                 (with_final_newline d))
                       ++ drop 16 d2 = d2).
      { rewrite take_app_le, take_all by lia. apply take_drop. }
      destruct (reading_thread_takes_shutdown X M
                  (retargeted_stream X d blen thread_ct (Some fname) d2 e0
                     Reopened cp progress)
                  (take 16 d2
                     ++ drop (zlen (take 16 d2)) (with_final_newline d))
                  (mkFILE d2 (drop 16 d2) (zlen (take 16 d2) <? 16) false
                     None)
                  (zlen (take 16 d2)) fuel eq_refl eq_refl eq_refl eq_refl
                  eq_refl (conj eq_refl eq_refl))
        as (s1 & Hjoin & H1 & H2 & H3 & H4 & _);
        cbn [f_rest]; rewrite ?Hdata2; try assumption;
        try (rewrite zlen_app; lia).
      exists s1. repeat split; assumption.
    + destruct (reading_thread_takes_shutdown X M
                  (retargeted_stream X d blen thread_ct None d2 e0
                     Reopened cp progress)
                  (with_final_newline d)
                  (mkFILE d2 d2 false false None) 0 fuel
                  eq_refl eq_refl eq_refl eq_refl eq_refl
                  (conj eq_refl eq_refl))
        as (s1 & Hjoin & H1 & H2 & H3 & H4 & _);
        cbn [f_rest]; rewrite ?(take_nonpos 0) by lia; cbn [app];
        try assumption; try lia.
      exists s1. repeat split; assumption.
  - apply Hwaiting. exact I.
Qed.

End CloseShortFile.

(** X18: a session on a short plain file can be closed at any time.
    Whatever the thread and the consumer have done since the open, and
    also after a [TextRetarget] to the same or to another short plain file
    and whatever they have done since, [CleanupTextRstream] called by a
    consumer that is not inside [TextAdvance] completes: the thread returns
    after one step, even if it has not read the file yet, and the stream is
    left closed with its buffer freed.  An error is reported only for a
    close that fails, to a caller that does not already hold one. *)
Theorem short_file_session_closes_at_any_time :
  forall (X : externs) (M : mt_externs) (R : retarget_externs)
         (fname : string) (d : list byte) (blen cap thread_ct : Z)
         (schedule1 : list mover) (sl1 : list (list byte))
         (s1 : TextRstream X) (new_fname : option string) (d2 : list byte)
         (schedule2 : list mover) (fuel : nat) (close_fails : bool)
         (reterrp : option PglErr),
    let C := kDecompressChunkSizeX X in
    let flag :=
      close_fails
      && match reterrp with
         | None | Some kPglRetSuccess => true
         | Some _ => false
         end in
    let closes (s : TextRstream X) :=
      exists t : textRFILE X,
        CleanupTextRstream M (S fuel) close_fails s reterrp
        = Ret (Some (flag, t,
                     if flag
                     then option_map (fun _ => kPglRetReadFail) reterrp
                     else reterrp))
        /\ ff (base t) = None /\ dst (base t) = None
        /\ consume_iter (base t) = None /\ consume_stop (base t) = None
        /\ errmsg (base t) = None /\ reterr (base t) = kPglRetEof in
    fopen X fname = Some d -> d <> [] ->
    open_file_type X (take 16 d) = kFileUncompressed ->
    malloc_ok X (2 * C) = true ->
    cachealigned_malloc_ok M = true -> pthread_ok M = true ->
    16 < C -> 2 * C < 2 ^ 32 -> zlen d < C -> C <= blen ->
    match new_fname with
    | None => d2 = d
    | Some fname2 =>
        fopen X fname2 = Some d2
        /\ open_file_type X (take 16 d2) = kFileUncompressed
        /\ forall f, fclose_fails R f = false
    end ->
    d2 <> [] -> zlen d2 < C ->
    open_and_stream X M schedule1 fname blen cap thread_ct false
    = Ret (sl1, Some s1) ->
    consumer s1 <> InCondWait ->
    closes s1
    /\ forall sl2 s2,
         retarget_and_stream M R new_fname schedule2 s1
         = Ret (kPglRetSuccess, sl2, s2) ->
         consumer s2 <> InCondWait ->
         closes s2.
Proof.
  intros X M R fname d blen cap thread_ct schedule1 sl1 s1 new_fname d2
    schedule2 fuel cf rp C flag closes Hfs Hd Hprobe Hmalloc Hsync Hthread
    HC H2C Hlen Hblen Htarget Hd2 Hlen2 Hopen Hcons.
  unfold open_and_stream, TextRstreamOpenEx in Hopen.
  rewrite (open_plain_for_stream X fname d blen cap thread_ct Hfs Hd Hprobe
             Hmalloc ltac:(fold C; lia) H2C Hblen) in Hopen.
  cbn [obind is_err PglErr_eqb negb] in Hopen.
  rewrite Hsync, Hthread in Hopen. cbn [negb] in Hopen.
  unfold plain_reader in Hopen.
  cbn [base rds set_err consume_stop errmsg obind] in Hopen.
  change (mkRstream _ _ _ _ _ _ _ _ _)
    with (short_file_stream X d blen thread_ct false NotCalled false)
    in Hopen.
  destruct (short_file_run_stream X M d blen thread_ct Hd HC H2C Hlen Hblen
              schedule1 false NotCalled false eq_refl) as [Hrun _].
  cbv zeta in Hrun. rewrite Hrun in Hopen. clear Hrun.
  destruct (short_file_run schedule1 (false, NotCalled, false))
    as [[tp1 cp1] pr1].
  cbn [obind fst snd] in Hopen. injection Hopen as _ <-.
  assert (Hcp1 : cp1 <> Waiting).
  { intros ->. apply Hcons. reflexivity. }
  split.
  - destruct (short_file_join X M d blen thread_ct Hd HC H2C Hlen Hblen tp1
                cp1 pr1 fuel) as (s & Hjoin & H1 & H2 & H3 & H4).
    exact (cleanup_after_join X M _ s (S fuel) cf rp Hcons Hjoin H1 H2 H3
             H4).
  - intros sl2 s2 Hrt Hcons2.
    unfold retarget_and_stream in Hrt.
    rewrite (TextRetarget_short_file X d blen thread_ct new_fname d2 tp1 cp1
               pr1 Hcp1) in Hrt.
    cbn [obind is_err PglErr_eqb negb] in Hrt.
    set (e0 := match cp1 with GotEof => kPglRetEof | _ => kPglRetSuccess end)
      in Hrt.
    destruct (retargeted_run_stream X M R d blen thread_ct new_fname d2 e0
                Hd HC H2C Hlen Hblen Hd2 Hlen2 Htarget schedule2
                (Requested tp1) NotCalled pr1 eq_refl) as [Hrun _].
    cbv zeta in Hrun. rewrite Hrun in Hrt. clear Hrun.
    destruct (retargeted_run schedule2 (Requested tp1, NotCalled, pr1))
      as [[ph2 cp2] pr2].
    cbn [obind fst snd] in Hrt. injection Hrt as _ <-.
    destruct (retargeted_join X M d blen thread_ct Hd HC H2C Hlen Hblen
                new_fname d2 e0 Hd2 Hlen2 ph2 cp2 pr2 fuel)
      as (s & Hjoin & H1 & H2 & H3 & H4).
    exact (cleanup_after_join X M _ s (S fuel) cf rp Hcons2 Hjoin H1 H2 H3
             H4).
Qed.

Lemma short_file_session_closes_at_any_time_witness :
  exists sl1 s1 t,
    open_and_stream (plink2 (two_files three_lines one_short_line))
      plink2_mt [Thread; Consumer] "f" 1048576 0 1 false
    = Ret (sl1, Some s1)
    /\ CleanupTextRstream plink2_mt 1 false s1 None
       = Ret (Some (false, t, None))
    /\ ff (base t) = None /\ dst (base t) = None.
Proof.
  assert (Hopen : exists sl1 s1,
             open_and_stream
               (plink2 (two_files three_lines one_short_line)) plink2_mt
               [Thread; Consumer] "f" 1048576 0 1 false
             = Ret (sl1, Some s1)
             /\ consumer s1 <> InCondWait).
  { eexists _, _. split; [vm_compute; reflexivity | discriminate]. }
  destruct Hopen as (sl1 & s1 & E & Hcons).
  destruct (short_file_session_closes_at_any_time
              (plink2 (two_files three_lines one_short_line)) plink2_mt
              plink2_retarget "f" three_lines 1048576 0 1
              [Thread; Consumer] sl1 s1 (Some "g"%string) one_short_line []
              0%nat false None)
    as [(t & Hrun & Hff & Hdst & _) _].
  - reflexivity.
  - discriminate.
  - reflexivity.
  - reflexivity.
  - reflexivity.
  - reflexivity.
  - cbn. lia.
  - cbn. lia.
  - cbn. lia.
  - cbn. lia.
  - split; [reflexivity|]. split; reflexivity.
  - discriminate.
  - cbn. lia.
  - exact E.
  - exact Hcons.
  - exists sl1, s1, t. split; [exact E|]. split; [exact Hrun|].
    split; [exact Hff | exact Hdst].
Defined.

(* ------------------------------------------------------------------ *)
(** ** A retarget to a file that cannot be opened *)

Section UnopenedFile.

Variable X : externs.
Variable M : mt_externs.
Variable R : retarget_externs.
Variables (d : list byte) (blen thread_ct : Z).
Variables (fname : string) (e0 : PglErr).

Local Abbreviation C := (kDecompressChunkSizeX X).
Local Abbreviation w := (with_final_newline d).
Local Abbreviation state := (unopened_state X d blen thread_ct fname e0).

Hypothesis Hd : d <> [].
Hypothesis HC : 16 < C.
Hypothesis H2C : 2 * C < 2 ^ 32.
Hypothesis Hlen : zlen d < C.
Hypothesis Hblen : C <= blen.
Hypothesis Hfs : fopen X fname = None.

(** With or without a read of the old file first, the thread takes the
    request, fails to open the file and begins to wait for Shutdown. *)
Lemma unopened_thread_takes_request (thread_done : bool)
    (ap : asked_phase) (progress : bool) :
  (ap = Told -> False) ->
  thread_step_retarget M R (Some fname) (state (Some thread_done) ap progress)
  = Ret (Some (state None ap (negb thread_done))).
Proof.
  intros Hap.
  pose proof (with_final_newline_pos d Hd) as [Hd0 Hw].
  assert (H16 : 0 <= zlen (take 16 d) <= 16 /\ zlen (take 16 d) <= zlen d)
    by (rewrite zlen_take; lia).
  assert (Hdata : take (zlen (take 16 d)) (take 16 d) ++ drop 16 d = d).
  { rewrite take_all by lia. apply take_drop. }
  unfold unopened_state.
  destruct thread_done.
  - unfold thread_step_retarget, thread_step, retargeted_stream.
    stream_fields. cbn [interrupt_rank].
    destruct (1 <? 1) eqn:E; [lia|].
    stream_fields.
    unfold TextRstreamThread_INTERRUPT, thread_switch_file.
    stream_fields. rewrite Hfs.
    unfold retarget_fail, thread_finish. stream_fields.
    cbn [interrupt_rank PglErr_eqb].
    destruct (0 >=? 2) eqn:E2; [lia|].
    unfold signal_reader_progress, unopened_stream. stream_fields.
    destruct ap; try (exfalso; apply Hap; reflexivity); reflexivity.
  - pose proof (thread_loop_reads_to_end X M
                  (retargeted_stream X d blen thread_ct (Some fname) d e0
                     (Requested false)
                     (match ap with NotAsked => NotCalled | _ => Waiting end)
                     progress)
                  (take 16 d)
                  (mkFILE d (drop 16 d) (zlen (take 16 d) <? 16) false None)
                  (zlen (take 16 d)) eq_refl eq_refl eq_refl eq_refl
                  (conj eq_refl eq_refl)) as Hstep.
    cbn [f_rest] in Hstep. rewrite Hdata in Hstep.
    specialize (Hstep ltac:(lia) Hd Hlen HC H2C Hblen).
    unfold thread_step_retarget, thread_step.
    replace (pc (retargeted_stream X d blen thread_ct (Some fname) d e0
                   (Requested false)
                   (match ap with NotAsked => NotCalled | _ => Waiting end)
                   progress)) with AtLoop by reflexivity.
    rewrite Hstep. clear Hstep. unfold retargeted_stream.
    rewrite (drop_all (zlen w) (take 16 d)) by lia. rewrite app_nil_r.
    unfold thread_finish. stream_fields. cbn [interrupt_rank].
    destruct (1 >=? 1) eqn:E; [|lia].
    stream_fields.
    unfold TextRstreamThread_INTERRUPT, thread_switch_file.
    stream_fields. rewrite Hfs.
    unfold retarget_fail, thread_finish. stream_fields.
    cbn [interrupt_rank PglErr_eqb].
    destruct (0 >=? 2) eqn:E2; [lia|].
    unfold signal_reader_progress, unopened_stream. stream_fields.
    destruct ap; try (exfalso; apply Hap; reflexivity); reflexivity.
Qed.

Lemma unopened_thread_notes_progress (ap : asked_phase) (progress : bool) :
  thread_step_retarget M R (Some fname) (state None ap progress)
  = Ret (if progress then Some (state None ap false) else None).
Proof.
  unfold thread_step_retarget, thread_step, unopened_state, unopened_stream.
  stream_fields. destruct progress; reflexivity.
Qed.

Lemma unopened_consumer_step (taken : option bool) (ap : asked_phase)
    (progress : bool) :
  (taken <> None -> ap <> Told) ->
  consumer_step (state taken ap progress)
  = Ret (match taken, ap with
         | Some _, NotAsked => Some (state taken Asking true, [])
         | Some _, _ => None
         | None, Told => None
         | None, _ => Some (state None Told progress, [])
         end).
Proof.
  intros Hok.
  destruct taken as [[|]|], ap;
    try (exfalso; apply Hok; [discriminate | reflexivity]);
    unfold consumer_step, unopened_state, unopened_stream,
      retargeted_stream;
    stream_fields; cbn [has_lines];
    try reflexivity;
    unfold TextAdvance_body;
    stream_fields; cbn [is_err PglErr_eqb negb andb];
    rewrite ?Z.eqb_refl;
    consumer_fields; reflexivity.
Qed.

Lemma unopened_run_stream :
  forall (schedule : list mover) (taken : option bool) (ap : asked_phase)
         (progress : bool),
    (taken <> None -> ap <> Told) ->
    let st' := unopened_run schedule (taken, ap, progress) in
    run_retargeted M R (Some fname) schedule (state taken ap progress)
    = Ret ([], state (fst (fst st')) (snd (fst st')) (snd st'))
    /\ (fst (fst st') <> None -> snd (fst st') <> Told).
Proof.
  induction schedule as [|m schedule IH]; intros taken ap progress Hok.
  - cbn. split; [reflexivity | exact Hok].
  - cbv zeta.
    change (unopened_run (m :: schedule) (taken, ap, progress))
      with (unopened_run schedule (unopened_step m (taken, ap, progress))).
    cbn [run_retargeted]. destruct m.
    + destruct taken as [tp|]; cbn [unopened_step].
      * rewrite unopened_thread_takes_request
          by (intros ->; apply Hok; [discriminate | reflexivity]).
        cbn [obind]. apply IH. intros H; contradiction.
      * rewrite unopened_thread_notes_progress. cbn [obind].
        destruct progress; apply IH; intros H; contradiction.
    + rewrite (unopened_consumer_step taken ap progress Hok).
      cbn [obind].
      destruct taken as [tp|], ap; cbn [unopened_step obind];
        try (exfalso; apply Hok; [discriminate | reflexivity]);
        match goal with
        | |- context [unopened_run schedule (?p, ?c, ?r)] =>
            destruct (IH p c r) as [Hrun Hok'];
            [intros H; try contradiction; discriminate|];
            cbv zeta in Hrun
        end;
        try rewrite Hrun; cbn [obind fst snd app];
        (split; [reflexivity | exact Hok']).
Qed.

End UnopenedFile.

Lemma unopened_run_failed :
  forall (schedule : list mover) (ap : asked_phase) (progress : bool),
    let st' := unopened_run schedule (None, ap, progress) in
    fst (fst st') = None
    /\ ((match ap with Told => 0 | _ => 1 end <= consumer_steps schedule)%nat
        -> snd (fst st') = Told).
Proof.
  induction schedule as [|m schedule IH]; intros ap progress.
  - cbn. split; [reflexivity|]. destruct ap; intros H; try lia. reflexivity.
  - cbv zeta.
    change (unopened_run (m :: schedule) (None, ap, progress))
      with (unopened_run schedule (unopened_step m (None, ap, progress))).
    destruct m; cbn [unopened_step consumer_steps].
    + apply IH.
    + destruct (IH Told progress) as [H1 H2]. cbv zeta in H1, H2.
      split; [exact H1|]. intros _. apply H2. cbn. lia.
Qed.

Lemma unopened_run_requested :
  forall (schedule : list mover) (thread_done : bool) (ap : asked_phase)
         (progress : bool),
    ap <> Told ->
    (1 <= consumer_steps (after_thread_steps 1 schedule))%nat ->
    let st' := unopened_run schedule (Some thread_done, ap, progress) in
    fst (fst st') = None /\ snd (fst st') = Told.
Proof.
  induction schedule as [|m schedule IH]; intros tp ap progress Hap Hn.
  - cbn in Hn. lia.
  - cbv zeta.
    change (unopened_run (m :: schedule) (Some tp, ap, progress))
      with (unopened_run schedule (unopened_step m (Some tp, ap, progress))).
    destruct m; cbn [unopened_step after_thread_steps] in *.
    + rewrite after_thread_steps_0 in Hn.
      destruct (unopened_run_failed schedule ap (negb tp)) as [H1 H2].
      cbv zeta in H1, H2. split; [exact H1|]. apply H2.
      destruct ap; lia.
    + destruct ap; try contradiction; apply IH;
        (discriminate || exact Hn).
Qed.

(** X19: a [TextRetarget] to a file that cannot be opened.  On a session
    on a short plain file, the call itself succeeds; the thread fails to
    open the file and reports [kPglRetOpenFail].  Under every schedule
    afterwards the consumer is handed nothing, in particular none of the
    lines of the old file; the only code it is told is
    [kPglRetOpenFail], latched with the message of the failed open; it
    has been told once it has taken a step after the thread's first; and
    from then on a further [TextRetarget] returns the same code. *)
Theorem retarget_to_a_missing_file_fails_the_stream :
  forall (X : externs) (M : mt_externs) (R : retarget_externs)
         (fname : string) (d : list byte) (blen cap thread_ct : Z)
         (schedule1 : list mover) (sl1 : list (list byte))
         (s1 : TextRstream X) (fname2 : string) (schedule2 : list mover),
    let C := kDecompressChunkSizeX X in
    fopen X fname = Some d -> d <> [] ->
    open_file_type X (take 16 d) = kFileUncompressed ->
    malloc_ok X (2 * C) = true ->
    cachealigned_malloc_ok M = true -> pthread_ok M = true ->
    16 < C -> 2 * C < 2 ^ 32 -> zlen d < C -> C <= blen ->
    fopen X fname2 = None ->
    open_and_stream X M schedule1 fname blen cap thread_ct false
    = Ret (sl1, Some s1) ->
    consumer s1 <> InCondWait ->
    exists s2,
      retarget_and_stream M R (Some fname2) schedule2 s1
      = Ret (kPglRetSuccess, [], s2)
      /\ (forall e, consumer s2 = Returned e ->
                    e = kPglRetOpenFail
                    /\ reterr (tbase s2) = kPglRetOpenFail
                    /\ errmsg (tbase s2) = Some strerror_errno)
      /\ ((1 <= consumer_steps (after_thread_steps 1 schedule2))%nat ->
          consumer s2 = Returned kPglRetOpenFail
          /\ forall new_fname, exists s3,
               TextRetarget new_fname s2 = Ret (kPglRetOpenFail, s3)).
Proof.
  intros X M R fname d blen cap thread_ct schedule1 sl1 s1 fname2 schedule2
    C Hfs Hd Hprobe Hmalloc Hsync Hthread HC H2C Hlen Hblen Hfs2 Hopen Hcons.
  unfold open_and_stream, TextRstreamOpenEx in Hopen.
  rewrite (open_plain_for_stream X fname d blen cap thread_ct Hfs Hd Hprobe
             Hmalloc ltac:(fold C; lia) H2C Hblen) in Hopen.
  cbn [obind is_err PglErr_eqb negb] in Hopen.
  rewrite Hsync, Hthread in Hopen. cbn [negb] in Hopen.
  unfold plain_reader in Hopen.
  cbn [base rds set_err consume_stop errmsg obind] in Hopen.
  change (mkRstream _ _ _ _ _ _ _ _ _)
    with (short_file_stream X d blen thread_ct false NotCalled false)
    in Hopen.
  destruct (short_file_run_stream X M d blen thread_ct Hd HC H2C Hlen Hblen
              schedule1 false NotCalled false eq_refl) as [Hrun _].
  cbv zeta in Hrun. rewrite Hrun in Hopen. clear Hrun.
  destruct (short_file_run schedule1 (false, NotCalled, false))
    as [[tp1 cp1] pr1].
  cbn [obind fst snd] in Hopen. injection Hopen as _ <-.
  assert (Hcp1 : cp1 <> Waiting).
  { intros ->. apply Hcons. reflexivity. }
  unfold retarget_and_stream.
  rewrite (TextRetarget_short_file X d blen thread_ct (Some fname2) d tp1 cp1
             pr1 Hcp1).
  cbn [obind is_err PglErr_eqb negb].
  set (e0 := match cp1 with GotEof => kPglRetEof | _ => kPglRetSuccess end).
  change (retargeted_stream X d blen thread_ct (Some fname2) d e0
            (Requested tp1) NotCalled pr1)
    with (unopened_state X d blen thread_ct fname2 e0 (Some tp1) NotAsked
            pr1).
  destruct (unopened_run_stream X M R d blen thread_ct fname2 e0 Hd HC H2C
              Hlen Hblen Hfs2 schedule2 (Some tp1) NotAsked pr1)
    as [Hrun Hok]; [discriminate|].
  cbv zeta in Hrun, Hok. rewrite Hrun. cbn [obind fst snd].
  pose proof (unopened_run_requested schedule2 tp1 NotAsked pr1
                ltac:(discriminate)) as Hlive.
  cbv zeta in Hlive.
  destruct (unopened_run schedule2 (Some tp1, NotAsked, pr1))
    as [[taken2 ap2] pr2].
  cbn [fst snd] in *.
  eexists. split; [reflexivity|]. split.
  - intros e He. destruct taken2 as [tp2|], ap2; cbn in He;
      try discriminate; try (exfalso; apply Hok; [discriminate|reflexivity]).
    injection He as <-. repeat split.
  - intros Hn. destruct (Hlive Hn) as [-> ->].
    split; [reflexivity|]. intros nf. eexists. reflexivity.
Qed.

Lemma retarget_to_a_missing_file_fails_the_stream_witness :
  exists sl1 s1 s2,
    open_and_stream (plink2 (only_file_f three_lines)) plink2_mt
      [Thread; Consumer] "f" 1048576 0 1 false
    = Ret (sl1, Some s1)
    /\ retarget_and_stream plink2_mt plink2_retarget (Some "g"%string)
         [Consumer; Thread; Consumer] s1
       = Ret (kPglRetSuccess, [], s2)
    /\ consumer s2 = Returned kPglRetOpenFail.
Proof.
  assert (Hopen : exists sl1 s1,
             open_and_stream (plink2 (only_file_f three_lines)) plink2_mt
               [Thread; Consumer] "f" 1048576 0 1 false
             = Ret (sl1, Some s1)
             /\ consumer s1 <> InCondWait).
  { eexists _, _. split; [vm_compute; reflexivity | discriminate]. }
  destruct Hopen as (sl1 & s1 & E & Hcons).
  destruct (retarget_to_a_missing_file_fails_the_stream
              (plink2 (only_file_f three_lines)) plink2_mt plink2_retarget
              "f" three_lines 1048576 0 1 [Thread; Consumer] sl1 s1
              "g" [Consumer; Thread; Consumer])
    as (s2 & Hrun & _ & Hlive).
  - reflexivity.
  - discriminate.
  - reflexivity.
  - reflexivity.
  - reflexivity.
  - reflexivity.
  - cbn. lia.
  - cbn. lia.
  - cbn. lia.
  - cbn. lia.
  - reflexivity.
  - exact E.
  - exact Hcons.
  - exists sl1, s1, s2. split; [exact E|]. split; [exact Hrun|].
    apply Hlive. cbn. lia.
Defined.

(* ------------------------------------------------------------------ *)
(** ** Plain files longer than the buffer *)

(** What [holds] means for the parts of the buffer. *)
Lemma holds_nil (mem : list byte) (off : Z) :
  0 <= off <= zlen mem -> holds mem off [].
Proof.
  intros H. unfold holds. rewrite zlen_nil. repeat split; try lia.
  unfold sub. apply take_nonpos. lia.
Qed.

Lemma holds_bounds (mem : list byte) (off : Z) (l : list byte) :
  holds mem off l -> 0 <= off /\ off + zlen l <= zlen mem.
Proof. intros (H1 & H2 & _). split; assumption. Qed.

Lemma sub_app_split (mem : list byte) (off a b : Z) :
  0 <= off -> 0 <= a -> 0 <= b ->
  sub mem off (a + b) = sub mem off a ++ sub mem (off + a) b.
Proof.
  intros Ho Ha Hb. unfold sub. rewrite take_split by lia.
  rewrite drop_drop by lia. f_equal. f_equal. f_equal. lia.
Qed.

Lemma holds_app (mem : list byte) (off : Z) (l1 l2 : list byte) :
  holds mem off l1 -> holds mem (off + zlen l1) l2 ->
  holds mem off (l1 ++ l2).
Proof.
  intros (H1 & H2 & H3) (H4 & H5 & H6). unfold holds.
  rewrite zlen_app. repeat split; try lia.
  pose proof (zlen_nonneg l1). pose proof (zlen_nonneg l2).
  rewrite sub_app_split by lia. rewrite H3, H6. reflexivity.
Qed.

Lemma app_inv_zlen (a b a' b' : list byte) :
  a ++ b = a' ++ b' -> zlen a = zlen a' -> a = a' /\ b = b'.
Proof.
  revert a'. induction a as [|x a IH]; intros a' H Hl.
  - destruct a' as [|y a'].
    + split; [reflexivity | exact H].
    + rewrite zlen_cons, zlen_nil in Hl. pose proof (zlen_nonneg a'). lia.
  - destruct a' as [|y a'].
    + rewrite zlen_cons, zlen_nil in Hl. pose proof (zlen_nonneg a). lia.
    + rewrite !zlen_cons in Hl. cbn [app] in H. injection H as Hx H.
      destruct (IH a' H ltac:(lia)) as [Ha Hb]. subst. split; reflexivity.
Qed.

Lemma holds_app_inv (mem : list byte) (off : Z) (l1 l2 : list byte) :
  holds mem off (l1 ++ l2) ->
  holds mem off l1 /\ holds mem (off + zlen l1) l2.
Proof.
  intros (H1 & H2 & H3). rewrite zlen_app in *.
  pose proof (zlen_nonneg l1). pose proof (zlen_nonneg l2).
  rewrite sub_app_split in H3 by lia.
  apply app_inv_zlen in H3; [|rewrite sub_zlen by lia; reflexivity].
  destruct H3 as [H3 H4]. unfold holds. repeat split; try lia; assumption.
Qed.

Lemma read_at_holds (mem : list byte) (off : Z) (l : list byte) :
  holds mem off l -> read_at mem off (zlen l) = Ret l.
Proof.
  intros (H1 & H2 & H3). unfold read_at. pose proof (zlen_nonneg l).
  destruct ((0 <=? off) && (0 <=? zlen l) && (off + zlen l <=? zlen mem))
    eqn:E; [|lia].
  rewrite H3. reflexivity.
Qed.

Lemma zlen_write (mem data : list byte) (off : Z) :
  0 <= off <= zlen mem ->
  zlen (take off mem ++ data ++ drop (off + zlen data) mem)
  = Z.max (zlen mem) (off + zlen data).
Proof.
  intros H. pose proof (zlen_nonneg data).
  rewrite !zlen_app, zlen_take, zlen_drop. lia.
Qed.

Lemma write_at_ok (mem data : list byte) (off : Z) :
  0 <= off <= zlen mem ->
  write_at mem off data
  = Ret (take off mem ++ data ++ drop (off + zlen data) mem).
Proof.
  intros H. unfold write_at.
  destruct ((0 <=? off) && (off <=? zlen mem)) eqn:E; [reflexivity|lia].
Qed.

Lemma holds_written (mem data : list byte) (off : Z) :
  0 <= off <= zlen mem ->
  holds (take off mem ++ data ++ drop (off + zlen data) mem) off data.
Proof.
  intros H. pose proof (zlen_nonneg data). unfold holds.
  rewrite zlen_write by lia. repeat split; try lia.
  unfold sub. rewrite drop_app_ge by (rewrite zlen_take; lia).
  rewrite zlen_take.
  replace (off - Z.max 0 (Z.min off (zlen mem))) with 0 by lia.
  rewrite drop_nonpos by lia. rewrite take_app_le by lia.
  apply take_all. lia.
Qed.

Lemma holds_below_write (mem data l : list byte) (off o : Z) :
  0 <= off <= zlen mem -> holds mem o l -> o + zlen l <= off ->
  holds (take off mem ++ data ++ drop (off + zlen data) mem) o l.
Proof.
  intros H (H1 & H2 & H3) Hd. pose proof (zlen_nonneg data).
  pose proof (zlen_nonneg l). unfold holds.
  rewrite zlen_write by lia. repeat split; try lia.
  unfold sub in *.
  rewrite drop_app_le by (rewrite zlen_take; lia).
  rewrite take_app_le by (rewrite zlen_drop, zlen_take; lia).
  rewrite <- H3 at 2.
  rewrite <- (take_drop off mem) at 2.
  rewrite drop_app_le by (rewrite zlen_take; lia).
  rewrite take_app_le by (rewrite zlen_drop, zlen_take; lia).
  reflexivity.
Qed.

Lemma holds_above_write (mem data l : list byte) (off o : Z) :
  0 <= off <= zlen mem -> holds mem o l -> off + zlen data <= o ->
  holds (take off mem ++ data ++ drop (off + zlen data) mem) o l.
Proof.
  intros H (H1 & H2 & H3) Hd. pose proof (zlen_nonneg data).
  pose proof (zlen_nonneg l). unfold holds.
  rewrite zlen_write by lia. repeat split; try lia.
  unfold sub in *.
  rewrite drop_app_ge by (rewrite zlen_take; lia).
  rewrite zlen_take.
  rewrite drop_app_ge by lia.
  rewrite drop_drop by lia.
  replace (o - Z.max 0 (Z.min off (zlen mem)) - zlen data
           + (off + zlen data)) with o by lia.
  exact H3.
Qed.

(** Rounding down to a cache line. *)
Lemma round_down_aligned (k a t : Z) :
  0 < k -> a mod k = 0 -> (a + t) mod k = t mod k.
Proof.
  intros Hk Ha. rewrite Z.add_mod by lia. rewrite Ha, Z.add_0_l.
  apply Z.mod_mod. lia.
Qed.

Lemma round_down_mono (k a b : Z) :
  0 < k -> a <= b -> a - a mod k <= b - b mod k.
Proof.
  intros Hk Hab. rewrite !Z.mod_eq by lia.
  pose proof (Z.div_le_mono a b k ltac:(lia) Hab). nia.
Qed.

Lemma round_down_chunk (k c t : Z) :
  0 < k -> c mod k = 0 -> c <= t -> c <= t - t mod k.
Proof.
  intros Hk Hc Ht. pose proof (round_down_mono k c t Hk Ht) as H.
  rewrite Hc in H. lia.
Qed.

Lemma round_down_le (k t : Z) : 0 < k -> t - t mod k <= t.
Proof. intros Hk. pose proof (Z.mod_pos_bound t k Hk). lia. Qed.

(** A stretch without ['\n'] is no longer than a line. *)
Lemma no_newline_bound (m : Z) (a b c : list byte) :
  lines_fit m 0 (a ++ b ++ c) = true -> no_newline b -> zlen b <= m.
Proof.
  intros H Hno.
  destruct (lines_fit_nonneg_suffix m a (b ++ c) 0 ltac:(lia) H)
    as (c' & Hc' & Hfit).
  rewrite (lines_fit_no_newline m c' b c Hno) in Hfit.
  destruct (Z_le_gt_dec (zlen b) m) as [Hle|Hgt]; [exact Hle|].
  rewrite lines_fit_over in Hfit by lia. discriminate.
Qed.

Lemma no_newline_nil : no_newline [].
Proof. reflexivity. Qed.

Lemma no_newline_app (a b : list byte) :
  no_newline a -> no_newline b -> no_newline (a ++ b).
Proof. apply find_first_app_none. Qed.

(** Lines and the final ['\n']. *)
Lemma whole_line_app (a b : list byte) : whole_line b -> whole_line (a ++ b).
Proof.
  intros [body ->]. exists (a ++ body). rewrite app_assoc. reflexivity.
Qed.

Lemma ends_line_nil : ends_line [].
Proof. left. reflexivity. Qed.

Lemma ends_line_app (a b : list byte) :
  ends_line a -> ends_line b -> ends_line (a ++ b).
Proof.
  intros Ha [->|Hb].
  - rewrite app_nil_r. exact Ha.
  - right. apply whole_line_app. exact Hb.
Qed.

Lemma ends_line_suffix (a b : list byte) :
  ends_line (a ++ b) -> b <> [] -> whole_line b.
Proof.
  intros [E|[body E]] Hb.
  - apply app_eq_nil in E. destruct E as [_ E]. contradiction.
  - destruct (exists_last Hb) as (b0 & x & ->).
    rewrite app_assoc in E. apply app_inj_tail in E. destruct E as [_ ->].
    exists b0. reflexivity.
Qed.

Lemma whole_line_last (l : list byte) :
  whole_line l -> l <> [] /\ last l x00 = NL.
Proof.
  intros [body ->]. split; [destruct body; discriminate|].
  apply last_last.
Qed.

Lemma with_final_newline_ends (l : list byte) :
  ends_line l -> with_final_newline l = l.
Proof.
  intros [->|H]; [reflexivity|].
  destruct (whole_line_last l H) as [Hne Hl].
  unfold with_final_newline. destruct l as [|x l']; [reflexivity|].
  rewrite Hl. reflexivity.
Qed.

Lemma last_app_nonempty (a b : list byte) (x : byte) :
  b <> [] -> last (a ++ b) x = last b x.
Proof.
  intros Hb. destruct b as [|y b]; [contradiction|]. apply last_app_cons.
Qed.

Lemma with_final_newline_app (a b : list byte) :
  b <> [] -> with_final_newline (a ++ b) = a ++ with_final_newline b.
Proof.
  intros Hb. unfold with_final_newline.
  destruct (a ++ b) as [|z zs] eqn:E.
  { apply app_eq_nil in E. destruct E as [_ E]. contradiction. }
  rewrite <- E. rewrite last_app_nonempty by exact Hb.
  destruct b as [|y b']; [contradiction|].
  destruct (Byte.eqb (last (y :: b') x00) NL); [reflexivity|].
  rewrite app_assoc. reflexivity.
Qed.

Lemma with_final_newline_whole (l : list byte) :
  l <> [] -> whole_line (with_final_newline l).
Proof.
  intros Hl. unfold with_final_newline.
  destruct l as [|x l'] eqn:E; [contradiction|]. rewrite <- E.
  destruct (Byte.eqb (last l x00) NL) eqn:El.
  - apply Byte.byte_dec_bl in El.
    assert (Hne : l <> []) by (rewrite E; discriminate).
    destruct (exists_last Hne) as (l0 & y & ->).
    rewrite last_last in El. subst y. exists l0. reflexivity.
  - exists l. reflexivity.
Qed.

Lemma with_final_newline_extends (l : list byte) :
  exists t, with_final_newline l = l ++ t.
Proof.
  unfold with_final_newline. destruct l as [|x l'] eqn:E.
  - exists []. reflexivity.
  - rewrite <- E. destruct (Byte.eqb (last l x00) NL).
    + exists []. rewrite app_nil_r. reflexivity.
    + exists [NL]. reflexivity.
Qed.

(** Writing into the buffer: what was written is there, and so is
    whatever lay outside. *)
Lemma write_at_holds (mem data : list byte) (off : Z) :
  0 <= off <= zlen mem ->
  exists mem1,
    write_at mem off data = Ret mem1
    /\ holds mem1 off data
    /\ (forall o l, holds mem o l ->
                    o + zlen l <= off \/ off + zlen data <= o ->
                    holds mem1 o l)
    /\ off + zlen data <= zlen mem1 /\ zlen mem <= zlen mem1.
Proof.
  intros H. eexists. split; [apply write_at_ok; exact H|].
  pose proof (zlen_nonneg data).
  split; [apply holds_written; exact H|]. split.
  - intros o l Hl [Hb|Ha].
    + apply holds_below_write; assumption.
    + apply holds_above_write; assumption.
  - rewrite zlen_write by exact H. lia.
Qed.

Lemma holds_whole (mem : list byte) : holds mem 0 mem.
Proof.
  unfold holds. repeat split; try lia. unfold sub.
  rewrite drop_nonpos by lia. apply take_all. lia.
Qed.

Lemma holds_zlen (mem : list byte) (off : Z) (l : list byte) :
  holds mem off l -> sub mem off (zlen l) = l.
Proof. intros (_ & _ & H). exact H. Qed.

Lemma holds_byte_at (mem : list byte) (off : Z) (l : list byte) (i : Z) :
  holds mem off l -> 0 <= i < zlen l ->
  byte_at mem (off + i) = byte_at l i.
Proof.
  intros (H1 & H2 & H3) Hi.
  transitivity (byte_at (sub mem off (zlen l)) i); [|rewrite H3; reflexivity].
  unfold sub.
  rewrite <- (byte_at_app_l (take (zlen l) (drop off mem))
                (drop (zlen l) (drop off mem)) i)
    by (rewrite zlen_take, zlen_drop; lia).
  rewrite take_drop. unfold byte_at.
  rewrite drop_drop by lia. replace (i + off) with (off + i) by lia.
  reflexivity.
Qed.

(** The last byte of the input gets its ['\n'] in the buffer. *)
Lemma end_of_input_newline (mem blk : list byte) (cbs : Z) :
  holds mem cbs blk ->
  let cre := cbs + zlen blk in
  let w := with_final_newline blk in
  exists mem2,
    (if negb (cbs =? cre) then
       last <- read_at mem (cre - 1) 1 ;;
       if Byte.eqb (hd x00 last) NL then Ret (mem, cre)
       else
         mem1 <- write_at mem cre [NL] ;;
         Ret (mem1, cre + 1)
     else Ret (mem, cre))
    = Ret (mem2, cbs + zlen w)
    /\ holds mem2 cbs w
    /\ (forall o l, holds mem o l ->
                    o + zlen l <= cre \/ cre + 1 <= o -> holds mem2 o l)
    /\ zlen mem <= zlen mem2.
Proof.
  intros Hh cre w. pose proof Hh as (H1 & H2 & H3).
  pose proof (zlen_nonneg blk) as Hb. subst cre w.
  destruct (cbs =? cbs + zlen blk) eqn:E; cbn [negb].
  - assert (blk = []) by (apply zlen_zero_nil; lia). subst blk.
    exists mem. cbn [with_final_newline].
    split; [reflexivity|]. split; [exact Hh|]. split; [auto | lia].
  - assert (Hne : blk <> []).
    { intros ->. rewrite zlen_nil in *. lia. }
    unfold read_at.
    destruct ((0 <=? cbs + zlen blk - 1) && (0 <=? 1) && (cbs + zlen blk - 1 + 1 <=? zlen mem))
      eqn:E1; [|lia].
    cbn [obind]. rewrite hd_sub_1.
    assert (Hlast : byte_at mem (cbs + zlen blk - 1) = last blk x00).
    { rewrite <- byte_at_end by exact Hne.
      replace (cbs + zlen blk - 1) with (cbs + (zlen blk - 1)) by lia.
      apply (holds_byte_at mem cbs blk (zlen blk - 1) Hh). lia. }
    rewrite Hlast. unfold with_final_newline.
    destruct blk as [|x l'] eqn:Eb; [contradiction|]. rewrite <- Eb in *.
    destruct (Byte.eqb (last blk x00) NL).
    + exists mem. split; [reflexivity|]. split; [exact Hh|].
      split; [auto | lia].
    + destruct (write_at_holds mem [NL] (cbs + zlen blk) ltac:(lia))
        as (mem1 & Hw & Hnl & Hkeep & Hlen1 & Hlen2).
      rewrite Hw. cbn [obind]. exists mem1.
      rewrite zlen_app. change (zlen [NL]) with 1 in *.
      split; [f_equal; f_equal; lia|].
      split; [|split; [|exact Hlen2]].
      * apply holds_app; [apply Hkeep; [exact Hh | left; lia] | exact Hnl].
      * intros o l Hl Hor. apply Hkeep; [exact Hl | lia].
Qed.

Lemma with_final_newline_ends_line (l : list byte) :
  ends_line (with_final_newline l).
Proof.
  destruct l as [|x l'] eqn:E; [left; reflexivity|]. rewrite <- E.
  right. apply with_final_newline_whole. rewrite E. discriminate.
Qed.

Lemma with_final_newline_tail (a l : list byte) :
  ends_line a -> with_final_newline (a ++ l) = a ++ with_final_newline l.
Proof.
  intros Ha. destruct l as [|x l'] eqn:E.
  - rewrite app_nil_r. cbn [with_final_newline]. rewrite app_nil_r.
    apply with_final_newline_ends. exact Ha.
  - apply with_final_newline_app. discriminate.
Qed.

Section Protocol.

Variable X : externs.
Variable M : mt_externs.
Variable d : list byte.
Variable blen : Z.

Local Abbreviation C := (kDecompressChunkSizeX X).
Local Abbreviation k := (kCacheline M).

Hypothesis HC : 16 < C.
Hypothesis H2C : 2 * C < 2 ^ 32.
Hypothesis Hblen : 2 * C <= blen.
Hypothesis Hfit : lines_fit (2 * C - 17) 0 d = true.
Hypothesis Hk : 0 < k.
Hypothesis HCk : C mod k = 0.
Hypothesis Haddr : dst_addr M 0 mod k = 0.

(** A signal to the consumer changes nothing else. *)
Lemma signal_keeps (pre : list byte) (s : TextRstream X) :
  stream_inv M d blen pre s ->
  stream_inv M d blen pre (signal_reader_progress s).
Proof.
  intros H. unfold signal_reader_progress.
  destruct s as [b r tc sy gen L p cons sig]. cbn [consumer].
  destruct cons; exact H.
Qed.

Lemma awake_signal (s : TextRstream X) : awake (signal_reader_progress s).
Proof.
  unfold awake, signal_reader_progress.
  destruct s as [b r tc sy gen L p cons sig]. cbn [consumer].
  destruct cons; cbn [consumer reader_signalled with_consumer];
    intros Hc Hs; discriminate.
Qed.

Lemma signal_then_io (s : TextRstream X) (f : FILE) (mem : list byte)
    (r : RawDecompressStream X) (L : thread_locals) (p : thread_pc) :
  with_thread (with_io (signal_reader_progress s) f mem r) L p
  = signal_reader_progress (with_thread (with_io s f mem r) L p).
Proof.
  destruct s as [b r0 tc sy gen L0 p0 cons sig].
  unfold signal_reader_progress. cbn [consumer with_io with_thread].
  destruct cons; reflexivity.
Qed.

Lemma signal_then_thread (s : TextRstream X) (L : thread_locals)
    (p : thread_pc) :
  with_thread (signal_reader_progress s) L p
  = signal_reader_progress (with_thread s L p).
Proof.
  destruct s as [b r0 tc sy gen L0 p0 cons sig].
  unfold signal_reader_progress. cbn [consumer with_thread].
  destruct cons; reflexivity.
Qed.

Lemma round_down_cacheline_aligned (s : TextRstream X) (t : Z) :
  dst_gen s = O -> round_down_cacheline M s t = t - t mod k.
Proof.
  intros Hgen. unfold round_down_cacheline. rewrite Hgen.
  rewrite round_down_aligned by assumption. reflexivity.
Qed.

(** Every step of the thread is defined and keeps the invariant: it
    writes only between [read_head] and [read_stop], never into what is
    published and not yet consumed. *)
Lemma thread_step_keeps (pre : list byte) (s : TextRstream X) :
  stream_inv M d blen pre s -> awake s ->
  exists o,
    thread_step M s = Ret o
    /\ match o with
       | Some s' =>
           stream_inv M d blen pre s' /\ awake s'
           /\ consumer s' = consumer s
           /\ stream_measure d pre s' < stream_measure d pre s
       | None => True
       end.
Proof.
  intros Hinv Hawake.
  destruct s as [[ci0 cs0 em re ff0 dst0 dl dc bl own ft hl] r tc
                 [tail cce ae sem sre dr intr prog] gen [be cbs rh rs]
                 pc0 cons sig].
  unfold stream_inv in Hinv. stream_fields_in Hinv.
  unfold awake in Hawake. stream_fields_in Hawake.
  destruct Hinv as (mem & up & lo & blk & f & ci & Hfix & Hord & Hpc & Hrun
                    & Hcons & Hcirc & Hcl & Hp & Hpu & Hpul).
  destruct Hfix as (Hdst & Hff & Hci & Hft & Hbl & Hbe & Hgen & Hint & Hdr
                    & Hclean & Hcap & Hown & Hlog).
  subst dst0 ff0 ci0 ft bl be gen intr dr dc own hl.
  remember (match cons with InCondWait => tail | _ => ci end) as cpos
    eqn:Ecpos.
  destruct Hord as (Hcbs0 & Hcbsrh & Hrhrs & Hrs2C & Hrhmem).
  destruct Hcons as (Htail0 & Htailc & Hup).
  pose proof (zlen_nonneg up) as Hupn.
  pose proof (zlen_nonneg lo) as Hlon.
  pose proof (zlen_nonneg blk) as Hblkn.
  destruct pc0 as [|mr|i|i].
  - destruct Hrun as (Hsre & Hae & Hd & Hblk & Hrh & q & b' & Hqb & Hq & Hb').
    subst sre ae.
    assert (Hblk2C : zlen blk < 2 * C).
    { rewrite Hqb, zlen_app.
      assert (zlen b' <= 2 * C - 17); [|lia].
      apply (no_newline_bound (2 * C - 17) (pre ++ up ++ lo ++ q) b'
               (f_rest f)); [|exact Hb'].
      rewrite <- Hfit, Hd, Hqb. f_equal.
      rewrite <- !app_assoc. reflexivity. }
    unfold thread_step. cbn [pc]. unfold thread_loop_step. stream_fields.
    rewrite uptr_small by lia.
    destruct (rs - rh =? 0) eqn:E0.
    + assert (rs = rh) by lia. subst rs. clear E0.
      destruct (rh =? 2 * C) eqn:Emr.
      * destruct (cbs =? 0) eqn:Ecbs; [lia|]. cbn [andb].
        unfold thread_wait_check. stream_fields.
        destruct (tail =? cbs) eqn:Et.
        --
           unfold thread_after_wait. stream_fields.
           rewrite Emr, u32_small by lia.
           apply Z.eqb_eq in Et. subst tail.
           replace (2 * C - cbs) with (zlen blk) by lia.
           rewrite (read_at_holds mem cbs blk Hblk). stream_fields.
           destruct (write_at_holds mem blk 0 ltac:(lia))
             as (mem1 & Hw & Hnew & Hkeep & Hlen1 & Hlen2).
           rewrite Hw. stream_fields.
           eexists. split; [reflexivity|].
           apply Z.eqb_eq in Emr.
           destruct cce as [c|].
           { destruct Hcirc as (_ & _ & _ & Htc & Hc2 & Hrsr).
             destruct (Hrsr eq_refl) as [Hrsr' _].
             pose proof (round_down_le k cbs Hk). lia. }
           destruct Hcirc as [-> Hcup].
           destruct cons as [| |e];
             [destruct Hcl as [Hcl|(Hcl & _)]; lia | |
              destruct Hcl as (_ & Hcl & _); discriminate].
           subst cpos. assert (up = []) by (apply zlen_zero_nil; lia).
           subst up.
           split; [|split; [thread_awake Hawake | thread_measure]].
           unfold stream_inv. stream_fields.
           exists mem1, [], [], blk, f, ci.
           rewrite zlen_nil in *. rewrite !app_nil_l in *.
           conjs; try assumption; try lia; try reflexivity.
           ++ exists q, b'. auto.
           ++ apply holds_nil. lia.
        -- eexists. split; [reflexivity|].
           split; [|split; [thread_awake Hawake | thread_measure]].
           unfold stream_inv. stream_fields.
           exists mem, up, lo, blk, f, ci. rewrite <- Ecpos.
           conjs; try assumption; try lia; try reflexivity.
           exists q, b'. auto.
      * rewrite andb_false_r.
        eexists. split; [reflexivity|].
        split; [|split; [thread_awake Hawake | thread_measure]].
        unfold stream_inv. stream_fields.
        exists mem, up, lo, blk, f, ci. rewrite <- Ecpos.
        conjs; try assumption; try lia; try reflexivity.
        exists q, b'. auto.
    + assert (Hlt : rh < rs) by lia. clear E0.
      set (n := if rs - rh >? C then C else rs - rh).
      assert (Hn : 0 < n <= C /\ rh + n <= rs).
      { unfold n. destruct (rs - rh >? C) eqn:E; lia. }
      unfold thread_read_switch.
      rewrite fread_clean by exact Hclean.
      pose proof Hclean as [Hbad Herr].
      cbn [after_read f_err ferror_unlocked]. rewrite Herr. stream_fields.
      destruct (write_at_holds mem (take n (f_rest f)) rh ltac:(lia))
        as (mem1 & Hw & Hnew & Hkeep & Hlen1 & Hlen2).
      rewrite Hw. stream_fields.
      pose proof (zlen_take n (f_rest f)) as Hbytes.
      pose proof (zlen_nonneg (f_rest f)) as Hrestn.
      set (bytes := take n (f_rest f)) in *.
      assert (Hblk1 : holds mem1 cbs (blk ++ bytes)).
      { apply holds_app; [apply Hkeep; [exact Hblk | left; lia]|].
        rewrite <- Hrh. exact Hnew. }
      assert (Hup1 : holds mem1 cpos up).
      { apply Hkeep; [exact Hup|]. destruct cce as [c|].
        - destruct Hcirc as (_ & _ & _ & _ & _ & Hrsr).
          destruct (Hrsr eq_refl) as [Hrsr' _].
          pose proof (round_down_le k tail Hk). right. lia.
        - destruct Hcirc as [_ Hcup]. left. lia. }
      assert (Hlo1 : holds mem1 0 lo).
      { destruct cce as [c|].
        - destruct Hcirc as (_ & Hlo & Hlolen & _).
          apply Hkeep; [exact Hlo | left; lia].
        - destruct Hcirc as [-> _]. apply holds_nil. lia. }
      assert (Hcirc1 :
                match cce with
                | Some c =>
                    cpos + zlen up = c /\ holds mem1 0 lo /\ zlen lo = cbs
                    /\ tail < c /\ c <= 2 * C
                    /\ (true = true ->
                        rs <= tail - tail mod k /\ prog = false)
                | None => lo = [] /\ cpos + zlen up = cbs
                end).
      { destruct cce as [c|]; [|exact Hcirc].
        destruct Hcirc as (H1 & _ & H2 & H3 & H4 & H5).
        conjs; assumption. }
      assert (Hrest1 : zlen (f_rest (after_read n f))
                       = zlen (f_rest f) - zlen bytes).
      { cbn [after_read f_rest]. rewrite zlen_drop. lia. }
      destruct (rh + zlen bytes <? rh + n) eqn:Eshort.
      *
        assert (Hall : bytes = f_rest f /\ drop n (f_rest f) = []).
        { unfold bytes. split; [apply take_all | apply drop_all]; lia. }
        destruct Hall as [Hall Hnone].
        unfold thread_end_of_input. stream_fields.
        replace (rh + zlen bytes) with (cbs + zlen (blk ++ bytes))
          by (rewrite zlen_app; lia).
        destruct (end_of_input_newline mem1 (blk ++ bytes) cbs Hblk1)
          as (mem2 & Hfin & Hw2 & Hkeep2 & Hlen3).
        cbv zeta in Hfin. rewrite Hfin. stream_fields.
        pose proof (with_final_newline_pos (blk ++ bytes)) as Hwlen.
        set (w := with_final_newline (blk ++ bytes)) in *.
        assert (Hwl : zlen (blk ++ bytes) <= zlen w <= zlen (blk ++ bytes) + 1).
        { destruct (blk ++ bytes) as [|x l'] eqn:Eb.
          - unfold w. cbn. lia.
          - apply Hwlen. discriminate. }
        clear Hwlen. rewrite zlen_app in Hwl.
        unfold IsPathologicallyLongLineOrTokenX.
        destruct (blen =? 0) eqn:Eb0; [lia|]. cbn [negb].
        replace (cbs + zlen w - cbs) with (zlen w) by lia.
        rewrite uptr_small by lia.
        destruct (zlen w <=? blen) eqn:Eg; [|lia].
        stream_fields. unfold thread_finish. stream_fields.
        cbn [interrupt_rank Z.geb Z.compare PglErr_eqb].
        eexists. split; [reflexivity|].
        split; [apply signal_keeps
                  |split; [apply awake_signal | thread_measure]].
        unfold stream_inv. stream_fields.
        assert (Hwd : with_final_newline d = pre ++ up ++ lo ++ w).
        { rewrite Hd, <- Hall.
          replace (pre ++ up ++ lo ++ blk ++ bytes)
            with ((pre ++ up ++ lo) ++ (blk ++ bytes))
            by (rewrite <- !app_assoc; reflexivity).
          rewrite with_final_newline_tail by exact Hpul.
          rewrite <- !app_assoc. reflexivity. }
        pose proof (with_final_newline_ends_line (blk ++ bytes)) as Hwe.
        fold w in Hwe.
        pose proof (after_read_clean n f Hclean) as Hclean1.
        pose proof (holds_bounds _ _ _ Hw2) as Hw2b.
        destruct cce as [c|].
        -- destruct Hcirc as (Hcup & Hlo & Hlolen & Htc & Hc2 & Hrsr).
           destruct (Hrsr eq_refl) as [Hrsr' Hprog].
           pose proof (round_down_le k tail Hk) as Hrd.
           exists mem2, up, (lo ++ w), [], (after_read n f), ci.
           rewrite <- Ecpos. rewrite zlen_app.
           conjs; try assumption; try lia; try reflexivity.
           ++ apply Hkeep2; [exact Hup1 | right; rewrite zlen_app; lia].
           ++ apply holds_app.
              ** apply Hkeep2; [exact Hlo1 | left; rewrite zlen_app; lia].
              ** rewrite Hlolen. exact Hw2.
           ++ destruct cons; auto. destruct Hcl as (_ & Hcl & _).
              discriminate.
           ++ rewrite !app_assoc. apply ends_line_app; [|exact Hwe].
              rewrite <- app_assoc. exact Hpul.
        -- destruct Hcirc as [-> Hcup].
           exists mem2, (up ++ w), [], [], (after_read n f), ci.
           rewrite <- Ecpos. rewrite zlen_app.
           rewrite !app_nil_r in *. rewrite !app_nil_l in *.
           conjs; try assumption; try lia; try reflexivity.
           ++ apply holds_app.
              ** apply Hkeep2; [exact Hup1 | left; rewrite zlen_app; lia].
              ** replace (cpos + zlen up) with cbs by lia. exact Hw2.
           ++ destruct cons; auto. destruct Hcl as (_ & Hcl & _).
              discriminate.
           ++ rewrite app_assoc. apply ends_line_app; assumption.
           ++ rewrite app_assoc. apply ends_line_app; assumption.
      *
        assert (Hfull : zlen bytes = n) by lia.
        assert (Hsub : sub mem1 rh n = bytes).
        { rewrite <- Hfull. apply (holds_zlen _ _ _ Hnew). }
        assert (Hd1 : d = pre ++ up ++ lo ++ (blk ++ bytes)
                          ++ f_rest (after_read n f)).
        { rewrite Hd. cbn [after_read f_rest].
          rewrite <- (take_drop n (f_rest f)) at 1. fold bytes.
          rewrite <- !app_assoc. reflexivity. }
        pose proof (after_read_clean n f Hclean) as Hclean1.
        destruct (blen =? 0) eqn:Eb0; [lia|]. cbn [negb].
        unfold Memrchr. rewrite Hsub.
        destruct (find_last NL bytes) as [j|] eqn:Efl.
        -- destruct (find_last_cut NL bytes j Efl)
             as (l1 & l2 & Hcut & Hj & Hl2).
           apply find_last_none_first in Hl2.
           rewrite Hj.
           assert (Hsplit : blk ++ bytes = (blk ++ l1 ++ [NL]) ++ l2).
           { rewrite Hcut, <- !app_assoc. reflexivity. }
           assert (Hbsum : zlen bytes = zlen l1 + 1 + zlen l2).
           { rewrite Hcut, zlen_app, zlen_cons. lia. }
           pose proof (zlen_nonneg l1) as Hl1n.
           pose proof (zlen_nonneg l2) as Hl2n.
           set (P := blk ++ l1 ++ [NL]) in *.
           assert (HPlen : zlen P = zlen blk + zlen l1 + 1).
           { unfold P. rewrite !zlen_app. change (zlen [NL]) with 1. lia. }
           assert (HPw : whole_line P).
           { exists (blk ++ l1). unfold P. rewrite app_assoc. reflexivity. }
           rewrite Hsplit in Hblk1, Hd1.
           destruct (holds_app_inv _ _ _ _ Hblk1) as [HP Hl2h].
           unfold thread_publish. stream_fields.
           unfold IsPathologicallyLongLineOrTokenX.
           rewrite Eb0. cbn [negb].
           rewrite uptr_small by lia.
           destruct (rh + zlen l1 + 1 - cbs <=? blen) eqn:Eg; [|lia].
           stream_fields.
           replace (rh + zlen bytes - (rh + zlen l1 + 1)) with (zlen l2)
             by lia.
           rewrite uptr_small by lia.
           replace (rh + zlen l1 + 1) with (cbs + zlen P) in * by lia.
           replace (rh + zlen bytes) with (cbs + zlen P + zlen l2) by lia.
           rewrite round_down_cacheline_aligned by reflexivity.
           pose proof (round_down_le k tail Hk) as Hrdle.
           destruct (tail <=? cbs) eqn:Ealc;
             destruct (tail >=? C) eqn:EtC; cbn [andb].
           ++ (* back to the start of the buffer *)
              destruct cce as [c|].
              { destruct Hcirc1 as (_ & _ & _ & _ & _ & Hrsr).
                destruct (Hrsr eq_refl) as [Hrsr' _]. lia. }
              destruct Hcirc1 as [-> Hcup].
              rewrite (read_at_holds mem1 (cbs + zlen P) l2 Hl2h).
              stream_fields.
              destruct (write_at_holds mem1 l2 0 ltac:(lia))
                as (mem3 & Hw3 & Hnew3 & Hkeep3 & Hlen4 & Hlen5).
              rewrite Hw3. stream_fields.
              eexists. split; [reflexivity|].
              rewrite signal_then_io.
              split; [apply signal_keeps
                  |split; [apply awake_signal | thread_measure]].
              pose proof (round_down_chunk k C tail Hk HCk ltac:(lia))
                as Hrdc.
              unfold stream_inv. stream_fields.
              exists mem3, (up ++ P), [], l2, (after_read n f), ci.
              rewrite <- Ecpos. rewrite zlen_app.
              rewrite !app_nil_l in *. rewrite !app_nil_r.
              conjs; try assumption; try lia; try reflexivity.
              ** rewrite Hd1, <- !app_assoc. reflexivity.
              ** exists [], l2. rewrite zlen_nil. conjs; auto; lia.
              ** apply Hkeep3; [|right; lia].
                 apply holds_app; [exact Hup1|].
                 replace (cpos + zlen up) with cbs by lia. exact HP.
              ** apply holds_nil. lia.
              ** destruct cons; auto. destruct Hcl as (_ & Hcl & _).
                 discriminate.
              ** rewrite app_assoc. apply whole_line_app with (a := pre ++ up)
                   in HPw. right. exact HPw.
              ** rewrite app_assoc. apply whole_line_app with (a := pre ++ up)
                   in HPw. right. exact HPw.
           ++ destruct cce as [c|].
              { destruct Hcirc1 as (_ & _ & _ & _ & _ & Hrsr).
                destruct (Hrsr eq_refl) as [Hrsr' _]. lia. }
              destruct Hcirc1 as [-> Hcup].
              eexists. split; [reflexivity|].
              rewrite signal_then_thread.
              split; [apply signal_keeps
                  |split; [apply awake_signal | thread_measure]].
              unfold stream_inv. stream_fields.
              exists mem1, (up ++ P), [], l2, (after_read n f), ci.
              rewrite <- Ecpos. rewrite zlen_app.
              rewrite !app_nil_l in *. rewrite !app_nil_r.
              conjs; try assumption; try lia; try reflexivity.
              ** rewrite Hd1, <- !app_assoc. reflexivity.
              ** exists [], l2. rewrite zlen_nil. conjs; auto; lia.
              ** apply holds_app; [exact Hup1|].
                 replace (cpos + zlen up) with cbs by lia. exact HP.
              ** destruct cons; auto. destruct Hcl as (_ & Hcl & _).
                 discriminate.
              ** rewrite app_assoc. apply whole_line_app with (a := pre ++ up)
                   in HPw. right. exact HPw.
              ** rewrite app_assoc. apply whole_line_app with (a := pre ++ up)
                   in HPw. right. exact HPw.
           ++ destruct cce as [c|]; [|destruct Hcirc1 as [_ Hcup]; lia].
              destruct Hcirc1 as (Hcup & Hlo & Hlolen & Htc & Hc2 & Hrsr).
              destruct (Hrsr eq_refl) as [Hrsr' Hprog].
              eexists. split; [reflexivity|].
              rewrite signal_then_thread.
              split; [apply signal_keeps
                  |split; [apply awake_signal | thread_measure]].
              unfold stream_inv. stream_fields.
              exists mem1, up, (lo ++ P), l2, (after_read n f), ci.
              rewrite <- Ecpos. rewrite zlen_app.
              conjs; try assumption; try lia; try reflexivity.
              ** rewrite Hd1, <- !app_assoc. reflexivity.
              ** exists [], l2. rewrite zlen_nil. conjs; auto; lia.
              ** apply holds_app; [exact Hlo|].
                 rewrite Hlolen. exact HP.
              ** destruct cons; auto. destruct Hcl as (_ & Hcl & _).
                 discriminate.
              ** rewrite !app_assoc. right. apply whole_line_app. exact HPw.
           ++ destruct cce as [c|]; [|destruct Hcirc1 as [_ Hcup]; lia].
              destruct Hcirc1 as (Hcup & Hlo & Hlolen & Htc & Hc2 & Hrsr).
              destruct (Hrsr eq_refl) as [Hrsr' Hprog].
              eexists. split; [reflexivity|].
              rewrite signal_then_thread.
              split; [apply signal_keeps
                  |split; [apply awake_signal | thread_measure]].
              unfold stream_inv. stream_fields.
              exists mem1, up, (lo ++ P), l2, (after_read n f), ci.
              rewrite <- Ecpos. rewrite zlen_app.
              conjs; try assumption; try lia; try reflexivity.
              ** rewrite Hd1, <- !app_assoc. reflexivity.
              ** exists [], l2. rewrite zlen_nil. conjs; auto; lia.
              ** apply holds_app; [exact Hlo|].
                 rewrite Hlolen. exact HP.
              ** destruct cons; auto. destruct Hcl as (_ & Hcl & _).
                 discriminate.
              ** rewrite !app_assoc. right. apply whole_line_app. exact HPw.
        -- apply find_last_none_first in Efl.
           eexists. split; [reflexivity|].
           split; [|split; [thread_awake Hawake | thread_measure]].
           unfold stream_inv. stream_fields.
           exists mem1, up, lo, (blk ++ bytes), (after_read n f), ci.
           rewrite <- Ecpos. rewrite zlen_app.
           conjs; try assumption; try lia; try reflexivity.
           exists q, (b' ++ bytes). rewrite Hqb, <- app_assoc.
           conjs; [reflexivity | exact Hq |].
           apply no_newline_app; assumption.
  - destruct Hrun as (Hsre & Hae & Hd & Hblk & Hrh & q & b' & Hqb & Hq & Hb').
    destruct Hpc as (Hrhrs' & Hmr & Hmrc).
    subst sre ae rs.
    unfold thread_step. cbn [pc sync consumer_progress_state].
    destruct prog; [|exists None; split; [reflexivity | exact I]].
    destruct cce as [c|].
    { destruct Hcirc as (_ & _ & _ & _ & _ & Hrsr).
      destruct (Hrsr eq_refl) as [_ Hprog]. discriminate. }
    destruct Hcirc as [-> Hcup].
    unfold thread_wait_check. stream_fields.
    destruct mr.
    + symmetry in Hmr. apply Z.eqb_eq in Hmr.
      specialize (Hmrc eq_refl).
      destruct (tail =? cbs) eqn:Et.
      * unfold thread_after_wait. stream_fields.
        rewrite Hmr. rewrite Z.eqb_refl, u32_small by lia.
        apply Z.eqb_eq in Et. subst tail.
        replace (2 * C - cbs) with (zlen blk) by lia.
        rewrite (read_at_holds mem cbs blk Hblk). stream_fields.
        destruct (write_at_holds mem blk 0 ltac:(lia))
          as (mem1 & Hw & Hnew & Hkeep & Hlen1 & Hlen2).
        rewrite Hw. stream_fields.
        eexists. split; [reflexivity|].
        destruct cons as [| |e];
          [destruct Hcl as [Hcl|(Hcl & _)]; lia | |
           destruct Hcl as (_ & Hcl & _); discriminate].
        subst cpos. assert (up = []) by (apply zlen_zero_nil; lia).
        subst up.
        split; [|split; [thread_awake Hawake | thread_measure]].
        unfold stream_inv. stream_fields.
        exists mem1, [], [], blk, f, ci.
        rewrite zlen_nil in *. rewrite !app_nil_l in *.
        conjs; try assumption; try lia; try reflexivity.
        -- exists q, b'. auto.
        -- apply holds_nil. lia.
      * eexists. split; [reflexivity|].
        split; [|split; [thread_awake Hawake | thread_measure]].
        unfold stream_inv. stream_fields.
        exists mem, up, [], blk, f, ci. rewrite <- Ecpos.
        conjs; try assumption; try lia; try reflexivity.
        exists q, b'. auto.
    + symmetry in Hmr. apply Z.eqb_neq in Hmr.
      destruct (tail <=? cbs) eqn:Et.
      * unfold thread_after_wait. stream_fields.
        destruct (rh =? 2 * C) eqn:E2; [lia|].
        eexists. split; [reflexivity|].
        split; [|split; [thread_awake Hawake | thread_measure]].
        unfold stream_inv. stream_fields.
        exists mem, up, [], blk, f, ci. rewrite <- Ecpos.
        conjs; try assumption; try lia; try reflexivity.
        exists q, b'. auto.
      * lia.
  - destruct Hrun as (Hsre & Hae & Hd & Hblk).
    subst sre ae blk i.
    unfold thread_step. cbn [pc sync consumer_progress_state].
    destruct prog; [|exists None; split; [reflexivity | exact I]].
    stream_fields. cbn [interrupt_rank Z.ltb Z.compare].
    eexists. split; [reflexivity|].
    split; [|split; [thread_awake Hawake | thread_measure]].
    unfold stream_inv. stream_fields.
    exists mem, up, lo, [], f, ci. rewrite <- Ecpos.
    conjs; try assumption; try lia; try reflexivity.
    destruct cce as [c|]; [|exact Hcirc].
    destruct Hcirc as (H1 & H2 & H3 & H4 & H5 & _).
    conjs; try assumption. discriminate.
  - contradiction.
Qed.

(** A call of [TextAdvance] from the consumer's position [cpos]: it hands
    out what is published where the consumer stands, or what is at the
    front of the buffer once the consumer is at [cur_circular_end], or it
    waits, or, at the end of the file, it returns Eof. *)
Lemma TextAdvance_keeps (pre : list byte) (s0 : TextRstream X) (cpos : Z)
    (sg : bool) :
  stream_inv M d blen pre s0 ->
  match consumer s0 with
  | InClient => consume_iter (tbase s0) = Some cpos
  | InCondWait =>
      cpos = consume_tail (sync s0) /\ reader_signalled s0 = true
  | Returned _ => False
  end ->
  let b := tbase s0 in
  let s :=
    with_consumer
      (with_base s0
         (mkBase (Some cpos) (consume_stop b) (errmsg b) (reterr b) (ff b)
            (dst b) (dst_len b) (dst_capacity b) (enforced_max_line_blen b)
            (dst_owned_by_consumer b) (file_type b) (heap_log b)))
      InClient sg in
  exists s' out,
    consumer_after (TextAdvance_body s cpos) = Ret (s', out)
    /\ (stream_inv M d blen (pre ++ concat out) s' /\ awake s'
        /\ stream_measure d (pre ++ concat out) s' < stream_measure d pre s0)
    /\ Forall whole_line out.
Proof.
  intros Hinv Hat.
  destruct s0 as [[ci0 cs0 em re ff0 dst0 dl dc bl own ft hl] r tc
                  [tail cce ae sem sre dr intr prog] gen [be cbs rh rs]
                  pc0 cons sig].
  unfold stream_inv in Hinv. stream_fields_in Hinv. stream_fields_in Hat.
  stream_fields.
  destruct Hinv as (mem & up & lo & blk & f & ci & Hfix & Hord & Hpc & Hrun
                    & Hcons & Hcirc & Hcl & Hp & Hpu & Hpul).
  destruct Hfix as (Hdst & Hff & Hci & Hft & Hbl & Hbe & Hgen & Hint & Hdr
                    & Hclean & Hcap & Hown & Hlog).
  subst dst0 ff0 ci0 ft bl be gen intr dr dc own hl.
  assert (Hcpos : match cons with InCondWait => tail | _ => ci end = cpos).
  { destruct cons as [| |e]; [|symmetry; apply Hat | contradiction].
    injection Hat as ->. reflexivity. }
  assert (Hrank : 10 <= 5 * match cons with
                           | InClient => 3
                           | InCondWait => if sig then 2 else 1
                           | Returned _ => 0
                           end).
  { destruct cons as [| |e]; [lia | | contradiction].
    destruct Hat as [_ ->]. lia. }
  rewrite Hcpos in *. clear Hcpos Hat Hcl.
  remember (match pc0 with AtLoop | AtWaitFirst _ => true | _ => false end)
    as running eqn:Erun.
  destruct Hord as (Hcbs0 & Hcbsrh & Hrhrs & Hrs2C & Hrhmem).
  destruct Hcons as (Htail0 & Htailc & Hup).
  pose proof (zlen_nonneg up) as Hupn.
  pose proof (zlen_nonneg lo) as Hlon.
  pose proof (holds_bounds _ _ _ Hup) as Hupb.
  assert (Hfirst : is_err sre && negb (PglErr_eqb sre kPglRetEof) = false).
  { destruct running; destruct Hrun as [-> _]; reflexivity. }
  unfold TextAdvance_body. stream_fields. rewrite Hfirst.
  destruct cce as [c|].
  - destruct Hcirc as (Hcup & Hlo & Hlolen & Htc & Hc2 & Hrsr).
    pose proof (holds_bounds _ _ _ Hlo) as Hlob.
    destruct (cpos =? c) eqn:Eat.
    + assert (up = []) by (apply zlen_zero_nil; lia). subst up.
      cbn [andb negb orb].
      destruct (0 =? ae) eqn:Eae.
      * 
        apply Z.eqb_eq in Eae. subst ae.
        assert (lo = []) by (apply zlen_zero_nil; lia). subst lo.
        cbn [negb orb]. destruct running.
        -- destruct Hrun as (Hsre & Hae & Hd & Hblk & Hrh & Hq).
           subst sre. consumer_fields.
           eexists _, _. split; [reflexivity|]. split; [|constructor].
           cbn [concat]. rewrite app_nil_r.
           split; [|split; [consumer_awake Erun pc0 | measure_less]].
           unfold stream_inv. stream_fields. rewrite <- Erun.
           exists mem, [], [], blk, f, 0.
           rewrite ?app_nil_l, ?app_nil_r in *. rewrite ?zlen_nil in *.
           close_inv; try (apply holds_nil; lia).
        -- destruct Hrun as (Hsre & Hae & Hd & Hblk).
           subst sre. consumer_fields.
           eexists _, _. split; [reflexivity|]. split; [|constructor].
           cbn [concat]. rewrite app_nil_r.
           split; [|split; [consumer_awake Erun pc0 | measure_less]].
           unfold stream_inv. stream_fields. rewrite <- Erun.
           exists mem, [], [], [], f, 0.
           rewrite ?app_nil_l, ?app_nil_r in *. rewrite ?zlen_nil in *.
           close_inv; try (apply holds_nil; lia).
      * 
        apply Z.eqb_neq in Eae. consumer_fields.
        replace (read_at mem 0 (ae - 0)) with (Ret lo)
          by (rewrite Z.sub_0_r, <- Hlolen; symmetry;
              apply read_at_holds; exact Hlo).
        consumer_fields.
        eexists _, _. split; [reflexivity|].
        assert (Hlo_ne : lo <> []).
        { intros ->. rewrite zlen_nil in Hlolen. lia. }
        split; [|constructor; [|constructor];
                 apply (ends_line_suffix (pre ++ []) lo);
                 [rewrite <- app_assoc; exact Hpul | exact Hlo_ne]].
        cbn [concat]. rewrite app_nil_r.
        split; [|split; [consumer_awake Erun pc0 | measure_less]].
        unfold stream_inv. consumer_fields. stream_fields. rewrite <- Erun.
        exists mem, [], [], blk, f, ae.
        rewrite ?app_nil_l, ?app_nil_r in *. rewrite ?zlen_nil in *.
        close_inv; try (apply holds_nil; lia).
        run_case running Hrun.
    + apply Z.eqb_neq in Eat. cbn [andb negb orb]. rewrite orb_true_r.
      consumer_fields.
      replace (read_at mem cpos (c - cpos)) with (Ret up)
        by (replace (c - cpos) with (zlen up) by lia; symmetry;
            apply read_at_holds; exact Hup).
      consumer_fields.
      eexists _, _. split; [reflexivity|].
      assert (Hup_ne : up <> []).
      { intros ->. rewrite zlen_nil in Hcup. lia. }
      split; [|constructor; [|constructor];
               apply (ends_line_suffix pre up); assumption].
      cbn [concat]. rewrite app_nil_r.
      split; [|split; [consumer_awake Erun pc0 | measure_less]].
      unfold stream_inv. consumer_fields. stream_fields. rewrite <- Erun.
      exists mem, [], lo, blk, f, c.
      rewrite ?app_nil_l, ?app_nil_r in *. rewrite ?zlen_nil in *.
      close_inv; try (apply holds_nil; lia).
      * run_case running Hrun.
      * intros Hr. destruct (Hrsr Hr) as [Hrsr' Hprog]. split; [|exact Hprog].
        pose proof (round_down_mono k tail cpos Hk Htailc). lia.
      * rewrite <- app_assoc. exact Hpul.
  - destruct Hcirc as [-> Hcup]. cbn [andb negb orb].
    rewrite orb_false_r.
    destruct (cpos =? ae) eqn:Eae; cbn [negb].
    + apply Z.eqb_eq in Eae. subst ae.
      assert (up = []) by (apply zlen_zero_nil; lia). subst up.
      destruct running.
      * destruct Hrun as (Hsre & Hae & Hd & Hblk & Hrh & Hq).
        subst sre. consumer_fields.
        eexists _, _. split; [reflexivity|]. split; [|constructor].
        cbn [concat]. rewrite app_nil_r.
        split; [|split; [consumer_awake Erun pc0 | measure_less]].
        unfold stream_inv. stream_fields. rewrite <- Erun.
        exists mem, [], [], blk, f, cpos.
        rewrite ?app_nil_l, ?app_nil_r in *. rewrite ?zlen_nil in *.
        close_inv; try (apply holds_nil; lia).
      * destruct Hrun as (Hsre & Hae & Hd & Hblk).
        subst sre. consumer_fields.
        eexists _, _. split; [reflexivity|]. split; [|constructor].
        cbn [concat]. rewrite app_nil_r.
        split; [|split; [consumer_awake Erun pc0 | measure_less]].
        unfold stream_inv. stream_fields. rewrite <- Erun.
        exists mem, [], [], [], f, cpos.
        rewrite ?app_nil_l, ?app_nil_r in *. rewrite ?zlen_nil in *.
        close_inv; try (apply holds_nil; lia).
    + apply Z.eqb_neq in Eae. consumer_fields.
      replace (read_at mem cpos (ae - cpos)) with (Ret up)
        by (replace (ae - cpos) with (zlen up) by lia; symmetry;
            apply read_at_holds; exact Hup).
      consumer_fields.
      eexists _, _. split; [reflexivity|].
      assert (Hup_ne : up <> []).
      { intros ->. rewrite zlen_nil in Hcup. lia. }
      split; [|constructor; [|constructor];
               apply (ends_line_suffix pre up); assumption].
      cbn [concat]. rewrite app_nil_r.
      split; [|split; [consumer_awake Erun pc0 | measure_less]].
      unfold stream_inv. consumer_fields. stream_fields. rewrite <- Erun.
      exists mem, [], [], blk, f, ae.
      rewrite ?app_nil_l, ?app_nil_r in *. rewrite ?zlen_nil in *.
      close_inv; try (apply holds_nil; lia).
      run_case running Hrun.
Qed.

(** Every step of the consumer is defined and keeps the invariant; what
    it hands out are whole lines, the next of the file. *)
Lemma consumer_step_keeps (pre : list byte) (s : TextRstream X) :
  stream_inv M d blen pre s ->
  exists o,
    consumer_step s = Ret o
    /\ match o with
       | Some (s', out) =>
           (stream_inv M d blen (pre ++ concat out) s' /\ awake s'
            /\ stream_measure d (pre ++ concat out) s'
               < stream_measure d pre s)
           /\ Forall whole_line out
       | None => True
       end.
Proof.
  intros Hinv. unfold consumer_step.
  destruct (consumer s) as [| |e] eqn:Econs.
  - assert (Hci : exists ci, consume_iter (tbase s) = Some ci).
    { destruct Hinv as (mem & up & lo & blk & f & ci & Hfix & _).
      exists ci. apply Hfix. }
    destruct Hci as [ci Hci]. rewrite Hci.
    destruct (TextAdvance_keeps pre s ci (reader_signalled s) Hinv)
      as (s' & out & Hadv & Hinv' & Hout).
    { rewrite Econs. exact Hci. }
    cbv zeta in Hadv.
    replace (with_consumer _ _ _) with s in Hadv.
    + rewrite Hadv. cbn [obind]. exists (Some (s', out)).
      split; [reflexivity|]. split; assumption.
    + destruct s as [b r tc sy gen L p cons sig]. destruct b.
      cbn in Econs, Hci |- *. subst. reflexivity.
  - destruct (reader_signalled s) eqn:Esig;
      [|exists None; split; [reflexivity|exact I]].
    destruct (TextAdvance_keeps pre s (consume_tail (sync s)) false Hinv)
      as (s' & out & Hadv & Hinv' & Hout).
    { rewrite Econs. split; [reflexivity | exact Esig]. }
    cbv zeta in Hadv. rewrite Hadv. cbn [obind]. exists (Some (s', out)).
    split; [reflexivity|]. split; assumption.
  - exists None. split; [reflexivity | exact I].
Qed.

(** So does every run. *)
Lemma run_stream_keeps (schedule : list mover) :
  forall (pre : list byte) (s : TextRstream X),
    stream_inv M d blen pre s -> awake s ->
    exists sl s',
      run_stream M schedule s = Ret (sl, s')
      /\ (stream_inv M d blen (pre ++ concat sl) s' /\ awake s')
      /\ Forall whole_line sl.
Proof.
  induction schedule as [|m rest IH]; intros pre s Hinv Hawake.
  - exists [], s. cbn [run_stream concat]. rewrite app_nil_r.
    split; [reflexivity|]. split; [split; assumption | constructor].
  - destruct m; cbn [run_stream].
    + destruct (thread_step_keeps pre s Hinv Hawake) as (o & Hstep & Ho).
      rewrite Hstep. cbn [obind].
      destruct o as [s1|]; [apply IH; apply Ho | apply IH; assumption].
    + destruct (consumer_step_keeps pre s Hinv) as (o & Hstep & Ho).
      rewrite Hstep. cbn [obind].
      destruct o as [[s1 out]|].
      * destruct Ho as [(Hinv1 & Hawake1 & _) Hout].
        destruct (IH _ _ Hinv1 Hawake1) as (sl & s' & Hrun & Hinv' & Hsl).
        rewrite Hrun. cbn [obind fst snd].
        exists (out ++ sl), s'. split; [reflexivity|].
        rewrite concat_app, app_assoc. split; [exact Hinv'|].
        apply Forall_app. split; assumption.
      * apply IH; assumption.
Qed.

Lemma stream_measure_nonneg (pre : list byte) (s : TextRstream X) :
  stream_inv M d blen pre s -> 0 <= stream_measure d pre s.
Proof.
  intros (mem & up & lo & blk & f & ci & Hfix & _ & _ & Hrun & _).
  assert (Hpre : zlen pre <= zlen (with_final_newline d)).
  { pose proof (zlen_with_final_newline d) as Hw.
    pose proof (zlen_nonneg (up ++ lo ++ blk ++ f_rest f)).
    pose proof (zlen_nonneg (up ++ lo)).
    destruct (pc s); destruct Hrun as (_ & _ & Hd & _);
      apply (f_equal zlen) in Hd; rewrite zlen_app in Hd; lia. }
  destruct Hfix as (_ & Hff & _).
  pose proof (zlen_nonneg (f_rest f)).
  unfold stream_measure. rewrite Hff. measure_cases; lia.
Qed.

(** When neither side can take a step, the consumer has its code. *)
Lemma stuck_is_done (pre : list byte) (s : TextRstream X) :
  stream_inv M d blen pre s -> awake s ->
  thread_step M s = Ret None -> consumer_step s = Ret None ->
  exists e, consumer s = Returned e.
Proof.
  intros Hinv Hawake Hthr Hcon.
  destruct Hinv as (mem & up & lo & blk & f & ci & Hfix & _).
  unfold awake in Hawake.
  unfold thread_step in Hthr. unfold consumer_step in Hcon.
  destruct (consumer s) as [| |e] eqn:Econs.
  - exfalso. destruct Hfix as (_ & _ & Hci & _). rewrite Hci in Hcon.
    destruct (consumer_after _) in Hcon; discriminate.
  - exfalso. destruct (reader_signalled s) eqn:Esig.
    + destruct (consumer_after _) in Hcon; discriminate.
    + destruct (Hawake eq_refl eq_refl) as (Hrn & _ & _ & Hfl).
      destruct (pc s) as [|mr|i|i]; try contradiction.
      * destruct (thread_loop_step M s); discriminate.
      * destruct Hfl as [Hfl|[_ Hfl]]; [|discriminate].
        rewrite Hfl in Hthr.
        destruct (thread_wait_check _ _) in Hthr; discriminate.
  - exists e. reflexivity.
Qed.

(** Once [TextAdvance] has returned its code, the consumer stays there. *)
Lemma run_keeps_returned (schedule : list mover) :
  forall (pre : list byte) (s : TextRstream X) (e : PglErr),
    stream_inv M d blen pre s -> awake s -> consumer s = Returned e ->
    forall sl s',
      run_stream M schedule s = Ret (sl, s') -> consumer s' = Returned e.
Proof.
  induction schedule as [|m rest IH]; intros pre s e Hinv Hawake Hcons sl s'
    Hrun; cbn [run_stream] in Hrun.
  - injection Hrun as _ <-. exact Hcons.
  - destruct m.
    + destruct (thread_step_keeps pre s Hinv Hawake) as (o & Hstep & Ho).
      rewrite Hstep in Hrun. cbn [obind] in Hrun.
      destruct o as [s1|].
      * destruct Ho as (Hinv1 & Haw1 & Hc1 & _).
        apply (IH pre s1 e Hinv1 Haw1 ltac:(congruence) _ _ Hrun).
      * apply (IH pre s e Hinv Hawake Hcons _ _ Hrun).
    + unfold consumer_step in Hrun. rewrite Hcons in Hrun.
      cbn [obind] in Hrun.
      apply (IH pre s e Hinv Hawake Hcons _ _ Hrun).
Qed.

(** With more seen, a round ends no later; and what has been seen is
    worth one round at most. *)
Lemma rounds_from_bounds (schedule : list mover) :
  forall t c,
    (rounds_from t c schedule <= S (rounds_from false false schedule))%nat
    /\ (forall t' c', (t = true -> t' = true) -> (c = true -> c' = true) ->
                      (rounds_from t c schedule
                       <= rounds_from t' c' schedule)%nat).
Proof.
  induction schedule as [|m rest IH]; intros t c.
  - split; [cbn; lia | intros; cbn; lia].
  - split.
    + destruct m; cbn [rounds_from andb].
      * destruct c; [|lia].
        pose proof (proj2 (IH false false) true false ltac:(auto)
                      ltac:(auto)). lia.
      * rewrite andb_true_r. destruct t; [|lia].
        pose proof (proj2 (IH false false) false true ltac:(auto)
                      ltac:(auto)). lia.
    + intros t' c' Ht Hc. destruct m; cbn [rounds_from andb].
      * destruct c.
        -- rewrite (Hc eq_refl). lia.
        -- destruct c'; [apply (proj1 (IH true false)) | lia].
      * rewrite !andb_true_r. destruct t.
        -- rewrite (Ht eq_refl). lia.
        -- destruct t'; [apply (proj1 (IH false true)) | lia].
Qed.

(** Every step that is taken brings the stream nearer to its end, and in
    every round a step is taken unless the consumer has its code: so a
    schedule of enough rounds ends with the consumer told. *)
Lemma run_finishes (schedule : list mover) :
  forall (pre : list byte) (s : TextRstream X) (t c : bool),
    stream_inv M d blen pre s -> awake s ->
    (t = true -> thread_step M s = Ret None) ->
    (c = true -> consumer_step s = Ret None) ->
    stream_measure d pre s < Z.of_nat (rounds_from t c schedule) ->
    forall sl s',
      run_stream M schedule s = Ret (sl, s') ->
      exists e, consumer s' = Returned e.
Proof.
  induction schedule as [|m rest IH]; intros pre s t c Hinv Hawake Ht Hc Hm
    sl s' Hrun.
  - pose proof (stream_measure_nonneg pre s Hinv). cbn in Hm. lia.
  - cbn [run_stream] in Hrun. cbn [rounds_from] in Hm. destruct m.
    + destruct (thread_step_keeps pre s Hinv Hawake) as (o & Hstep & Ho).
      rewrite Hstep in Hrun. cbn [obind] in Hrun.
      destruct o as [s1|].
      * destruct Ho as (Hinv1 & Haw1 & _ & Hm1).
        assert (Hm2 : stream_measure d pre s1
                      < Z.of_nat (rounds_from false false rest)).
        { pose proof (proj1 (rounds_from_bounds rest true c)) as HA.
          cbn [andb] in Hm. destruct c; lia. }
        apply (IH pre s1 false false Hinv1 Haw1 ltac:(discriminate)
                 ltac:(discriminate) Hm2 _ _ Hrun).
      * cbn [andb] in Hm. destruct c.
        -- destruct (stuck_is_done pre s Hinv Hawake Hstep (Hc eq_refl))
             as [e He].
           exists e. apply (run_keeps_returned rest pre s e Hinv Hawake He
                              _ _ Hrun).
        -- apply (IH pre s true false Hinv Hawake ltac:(auto)
                    ltac:(discriminate) Hm _ _ Hrun).
    + destruct (consumer_step_keeps pre s Hinv) as (o & Hstep & Ho).
      rewrite Hstep in Hrun. cbn [obind] in Hrun.
      rewrite andb_true_r in Hm.
      destruct o as [[s1 out]|].
      * destruct Ho as [(Hinv1 & Haw1 & Hm1) _].
        destruct (run_stream M rest s1) as [[sl1 s1']| | |] eqn:Er;
          try discriminate.
        cbn [obind fst snd] in Hrun. injection Hrun as _ <-.
        assert (Hm2 : stream_measure d (pre ++ concat out) s1
                      < Z.of_nat (rounds_from false false rest)).
        { pose proof (proj1 (rounds_from_bounds rest t true)) as HA.
          destruct t; lia. }
        apply (IH (pre ++ concat out) s1 false false Hinv1 Haw1
                 ltac:(discriminate) ltac:(discriminate) Hm2 _ _ Er).
      * destruct t.
        -- destruct (stuck_is_done pre s Hinv Hawake (Ht eq_refl) Hstep)
             as [e He].
           exists e. apply (run_keeps_returned rest pre s e Hinv Hawake He
                              _ _ Hrun).
        -- apply (IH pre s false true Hinv Hawake ltac:(discriminate)
                    ltac:(auto) Hm _ _ Hrun).
Qed.

(** A thread at the head of its loop when [CleanupTextRstream] asks it to
    stop: it takes the request at the next point where it looks at
    [syncp->interrupt], which is after the read if that ends the file or
    holds a ['\n'], and before its wait otherwise. *)
Lemma request_loop_step (pre : list byte) (s : TextRstream X) :
  stream_inv M d blen pre s -> pc s = AtLoop ->
  exists s1,
    thread_step M (CleanupTextRstream_request s) = Ret (Some s1)
    /\ ((pc s1 = AtInterrupt kTrsInterruptShutdown
         /\ ff (tbase s1) <> None /\ dst (tbase s1) <> None
         /\ file_type (tbase s1) = kFileUncompressed
         /\ dst_owned_by_consumer (tbase s1) = false)
        \/ (exists s',
               s1 = CleanupTextRstream_request s'
               /\ stream_inv M d blen pre s'
               /\ (pc s' = AtWaitFirst false
                   \/ (pc s' = AtLoop
                       /\ read_head (locals s) < read_stop (locals s)
                       /\ read_stop (locals s') - read_head (locals s')
                          <= Z.max 0 (read_stop (locals s)
                                      - read_head (locals s) - C))))).
Proof.
  intros Hinv Hpc0.
  destruct s as [[ci0 cs0 em re ff0 dst0 dl dc bl own ft hl] r tc
                 [tail cce ae sem sre dr intr prog] gen [be cbs rh rs]
                 pc0 cons sig].
  cbn [pc] in Hpc0. subst pc0.
  unfold stream_inv in Hinv. stream_fields_in Hinv.
  destruct Hinv as (mem & up & lo & blk & f & ci & Hfix & Hord & Hpc & Hrun
                    & Hcons & Hcirc & Hcl & Hp & Hpu & Hpul).
  destruct Hfix as (Hdst & Hff & Hci & Hft & Hbl & Hbe & Hgen & Hint & Hdr
                    & Hclean & Hcap & Hown & Hlog).
  subst dst0 ff0 ci0 ft bl be gen intr dr dc own hl.
  remember (match cons with InCondWait => tail | _ => ci end) as cpos
    eqn:Ecpos.
  destruct Hord as (Hcbs0 & Hcbsrh & Hrhrs & Hrs2C & Hrhmem).
  destruct Hcons as (Htail0 & Htailc & Hup).
  pose proof (zlen_nonneg up) as Hupn.
  pose proof (zlen_nonneg lo) as Hlon.
  pose proof (zlen_nonneg blk) as Hblkn.
  destruct Hrun as (Hsre & Hae & Hd & Hblk & Hrh & q & b' & Hqb & Hq & Hb').
  subst sre ae.
  assert (Hblk2C : zlen blk < 2 * C).
  { rewrite Hqb, zlen_app.
    assert (zlen b' <= 2 * C - 17); [|lia].
    apply (no_newline_bound (2 * C - 17) (pre ++ up ++ lo ++ q) b'
             (f_rest f)); [|exact Hb'].
    rewrite <- Hfit, Hd, Hqb. f_equal.
    rewrite <- !app_assoc. reflexivity. }
  unfold CleanupTextRstream_request, thread_step. stream_fields.
  unfold thread_loop_step. stream_fields.
  rewrite uptr_small by lia.
  destruct (rs - rh =? 0) eqn:E0.
  - assert (rs = rh) by lia. subst rs. clear E0.
    destruct (rh =? 2 * C) eqn:Emr.
    + destruct (cbs =? 0) eqn:Ecbs; [lia|]. cbn [andb].
      unfold thread_wait_check. stream_fields.
      eexists. split; [reflexivity|]. left. stream_fields.
      conjs; try reflexivity; discriminate.
    + rewrite andb_false_r.
      eexists. split; [reflexivity|]. right.
      exists (mkRstream
                (mkBase (Some ci) cs0 em re (Some f) (Some mem) dl (2 * C)
                   blen false kFileUncompressed [EvMalloc (2 * C)])
                r tc
                (mkSync tail cce cbs sem kPglRetSuccess false
                   kTrsInterruptNone prog)
                O (mkLocals (2 * C) cbs rh rh) (AtWaitFirst false) cons sig).
      split; [reflexivity|]. split; [|left; reflexivity].
      unfold stream_inv. stream_fields.
      exists mem, up, lo, blk, f, ci. rewrite <- Ecpos.
      close_inv.
      exists q, b'. auto.
  - assert (Hlt : rh < rs) by lia. clear E0.
    set (n := if rs - rh >? C then C else rs - rh).
    assert (Hn : 0 < n <= C /\ rh + n <= rs
                 /\ rs - (rh + n) <= Z.max 0 (rs - rh - C)).
    { unfold n. destruct (rs - rh >? C) eqn:E; lia. }
    unfold thread_read_switch.
    rewrite fread_clean by exact Hclean.
    pose proof Hclean as [Hbad Herr].
    cbn [after_read f_err ferror_unlocked]. rewrite Herr. stream_fields.
    destruct (write_at_holds mem (take n (f_rest f)) rh ltac:(lia))
      as (mem1 & Hw & Hnew & Hkeep & Hlen1 & Hlen2).
    rewrite Hw. stream_fields.
    pose proof (zlen_take n (f_rest f)) as Hbytes.
    pose proof (zlen_nonneg (f_rest f)) as Hrestn.
    set (bytes := take n (f_rest f)) in *.
    assert (Hblk1 : holds mem1 cbs (blk ++ bytes)).
    { apply holds_app; [apply Hkeep; [exact Hblk | left; lia]|].
      rewrite <- Hrh. exact Hnew. }
    assert (Hup1 : holds mem1 cpos up).
    { apply Hkeep; [exact Hup|]. destruct cce as [c|].
      - destruct Hcirc as (_ & _ & _ & _ & _ & Hrsr).
        destruct (Hrsr eq_refl) as [Hrsr' _].
        pose proof (round_down_le k tail Hk). right. lia.
      - destruct Hcirc as [_ Hcup]. left. lia. }
    assert (Hcirc1 :
              match cce with
              | Some c =>
                  cpos + zlen up = c /\ holds mem1 0 lo /\ zlen lo = cbs
                  /\ tail < c /\ c <= 2 * C
                  /\ (true = true ->
                      rs <= tail - tail mod k /\ prog = false)
              | None => lo = [] /\ cpos + zlen up = cbs
              end).
    { destruct cce as [c|]; [|exact Hcirc].
      destruct Hcirc as (H1 & Hlo & H2 & H3 & H4 & H5).
      conjs; try assumption. apply Hkeep; [exact Hlo | left; lia]. }
    destruct (blen =? 0) eqn:Eb0; [lia|].
    destruct (rh + zlen bytes <? rh + n) eqn:Eshort.
    + unfold thread_end_of_input. stream_fields.
      replace (rh + zlen bytes) with (cbs + zlen (blk ++ bytes))
        by (rewrite zlen_app; lia).
      destruct (end_of_input_newline mem1 (blk ++ bytes) cbs Hblk1)
        as (mem2 & Hfin & Hw2 & Hkeep2 & Hlen3).
      cbv zeta in Hfin. rewrite Hfin. stream_fields.
      pose proof (with_final_newline_pos (blk ++ bytes)) as Hwlen.
      set (w := with_final_newline (blk ++ bytes)) in *.
      assert (Hwl : zlen (blk ++ bytes) <= zlen w <= zlen (blk ++ bytes) + 1).
      { destruct (blk ++ bytes) as [|x l'] eqn:Eb.
        - unfold w. cbn. lia.
        - apply Hwlen. discriminate. }
      clear Hwlen. rewrite zlen_app in Hwl.
      unfold IsPathologicallyLongLineOrTokenX.
      rewrite Eb0. cbn [negb].
      replace (cbs + zlen w - cbs) with (zlen w) by lia.
      rewrite uptr_small by lia.
      destruct (zlen w <=? blen) eqn:Eg; [|lia].
      stream_fields. unfold thread_finish. stream_fields.
      cbn [interrupt_rank Z.geb Z.compare].
      eexists. split; [reflexivity|]. left. stream_fields.
      conjs; try reflexivity; discriminate.
    + assert (Hfull : zlen bytes = n) by lia.
      assert (Hsub : sub mem1 rh n = bytes).
      { rewrite <- Hfull. apply (holds_zlen _ _ _ Hnew). }
      cbn [negb]. unfold Memrchr. rewrite Hsub.
      destruct (find_last NL bytes) as [j|] eqn:Efl.
      * destruct (find_last_cut NL bytes j Efl)
          as (l1 & l2 & Hcut & Hj & Hl2).
        rewrite Hj.
        assert (Hbsum : zlen bytes = zlen l1 + 1 + zlen l2).
        { rewrite Hcut, zlen_app, zlen_cons. lia. }
        pose proof (zlen_nonneg l1) as Hl1n.
        pose proof (zlen_nonneg l2) as Hl2n.
        unfold thread_publish. stream_fields.
        unfold IsPathologicallyLongLineOrTokenX.
        rewrite Eb0. cbn [negb].
        rewrite uptr_small by lia.
        destruct (rh + zlen l1 + 1 - cbs <=? blen) eqn:Eg; [|lia].
        stream_fields.
        eexists. split; [reflexivity|]. left. stream_fields.
        conjs; try reflexivity; discriminate.
      * apply find_last_none_first in Efl.
        eexists. split; [reflexivity|]. right.
        exists (mkRstream
                  (mkBase (Some ci) cs0 em re (Some (after_read n f))
                     (Some mem1) dl (2 * C) blen false kFileUncompressed
                     [EvMalloc (2 * C)])
                  r tc
                  (mkSync tail cce cbs sem kPglRetSuccess false
                     kTrsInterruptNone prog)
                  O (mkLocals (2 * C) cbs (rh + zlen bytes) rs) AtLoop cons
                  sig).
        split; [reflexivity|].
        split; [|right; stream_fields; conjs; [reflexivity | lia | lia]].
        assert (Hd1 : d = pre ++ up ++ lo ++ (blk ++ bytes)
                          ++ f_rest (after_read n f)).
        { rewrite Hd. cbn [after_read f_rest].
          rewrite <- (take_drop n (f_rest f)) at 1. fold bytes.
          rewrite <- !app_assoc. reflexivity. }
        pose proof (after_read_clean n f Hclean) as Hclean1.
        unfold stream_inv. stream_fields.
        exists mem1, up, lo, (blk ++ bytes), (after_read n f), ci.
        rewrite <- Ecpos. rewrite zlen_app.
        close_inv.
        exists q, (b' ++ bytes). rewrite Hqb, <- app_assoc.
        conjs; [reflexivity | exact Hq |].
        apply no_newline_app; assumption.
Qed.

Lemma pthread_join_done (fuel : nat) (s : TextRstream X) :
  pc s = AtInterrupt kTrsInterruptShutdown ->
  pthread_join M fuel s = Ret (Some s).
Proof. intros Hpc. destruct fuel; cbn [pthread_join]; rewrite Hpc; reflexivity. Qed.

Lemma pthread_join_from_loop (fuel : nat) (s s1 : TextRstream X) :
  pc s = AtLoop -> thread_step M s = Ret (Some s1) ->
  pthread_join M (S fuel) s = pthread_join M fuel s1.
Proof.
  intros Hpc Hstep. cbn [pthread_join]. rewrite Hpc, Hstep. reflexivity.
Qed.

(** So [pthread_join] returns after four steps of the thread at most:
    two reads fill the window, the third step finds it full, and the
    fourth is the wait. *)
Lemma join_from_loop (n : nat) :
  forall (pre : list byte) (s : TextRstream X) (fuel : nat),
    stream_inv M d blen pre s -> pc s = AtLoop ->
    read_stop (locals s) - read_head (locals s) <= Z.of_nat n * C ->
    exists s1,
      pthread_join M (S (S (n + fuel))) (CleanupTextRstream_request s)
      = Ret (Some s1)
      /\ ff (tbase s1) <> None /\ dst (tbase s1) <> None
      /\ file_type (tbase s1) = kFileUncompressed
      /\ dst_owned_by_consumer (tbase s1) = false.
Proof.
  induction n as [|n IH]; intros pre s fuel Hinv Hpc Hroom;
    assert (Hpcr : pc (CleanupTextRstream_request s) = AtLoop)
      by (rewrite <- Hpc; destruct s; reflexivity);
    destruct (request_loop_step pre s Hinv Hpc)
      as (s1 & Hstep & [Hdone|(s' & -> & Hinv' & Hnext)]);
    rewrite (pthread_join_from_loop _ _ _ Hpcr Hstep).
  - destruct Hdone as (Hpc1 & Hrest).
    exists s1. split; [apply pthread_join_done; exact Hpc1 | exact Hrest].
  - destruct Hnext as [Hw|(_ & Hlt & _)]; [|lia].
    destruct (waiting_thread_takes_shutdown X M s' (0 + fuel))
      as (s2 & Hjoin & Hb & _); [rewrite Hw; exact I|].
    exists s2. split; [exact Hjoin|]. rewrite Hb.
    destruct Hinv' as (mem & up & lo & blk & f & ci & Hfix & _).
    destruct Hfix as (Hdst & Hff & _ & Hft & _ & _ & _ & _ & _ & _ & _ & Hown
                      & _).
    rewrite Hdst, Hff. conjs; try discriminate; assumption.
  - destruct Hdone as (Hpc1 & Hrest).
    exists s1. split; [apply pthread_join_done; exact Hpc1 | exact Hrest].
  - destruct Hnext as [Hw|(Hl & Hlt & Hless)].
    + destruct (waiting_thread_takes_shutdown X M s' (S n + fuel))
        as (s2 & Hjoin & Hb & _); [rewrite Hw; exact I|].
      exists s2. split; [exact Hjoin|]. rewrite Hb.
      destruct Hinv' as (mem & up & lo & blk & f & ci & Hfix & _).
      destruct Hfix as (Hdst & Hff & _ & Hft & _ & _ & _ & _ & _ & _ & _
                        & Hown & _).
      rewrite Hdst, Hff. conjs; try discriminate; assumption.
    + apply (IH pre s' fuel Hinv' Hl). lia.
Qed.

(** A stream on a plain file can be closed wherever its thread stands. *)
Lemma join_after_request (pre : list byte) (s : TextRstream X)
    (fuel : nat) :
  stream_inv M d blen pre s ->
  exists s1,
    pthread_join M (4 + fuel) (CleanupTextRstream_request s) = Ret (Some s1)
    /\ ff (tbase s1) <> None /\ dst (tbase s1) <> None
    /\ file_type (tbase s1) = kFileUncompressed
    /\ dst_owned_by_consumer (tbase s1) = false.
Proof.
  intros Hinv. destruct (pc s) as [|mr|i|i] eqn:Hpc.
  - apply (join_from_loop 2 pre s fuel Hinv Hpc).
    destruct Hinv as (mem & up & lo & blk & f & ci & _ & Hord & _).
    lia.
  - destruct (waiting_thread_takes_shutdown X M s (3 + fuel))
      as (s2 & Hjoin & Hb & _); [rewrite Hpc; exact I|].
    exists s2. split; [exact Hjoin|]. rewrite Hb.
    destruct Hinv as (mem & up & lo & blk & f & ci & Hfix & _).
    destruct Hfix as (Hdst & Hff & _ & Hft & _ & _ & _ & _ & _ & _ & _ & Hown
                      & _).
    rewrite Hdst, Hff. conjs; try discriminate; assumption.
  - destruct (waiting_thread_takes_shutdown X M s (3 + fuel))
      as (s2 & Hjoin & Hb & _); [rewrite Hpc; exact I|].
    exists s2. split; [exact Hjoin|]. rewrite Hb.
    destruct Hinv as (mem & up & lo & blk & f & ci & Hfix & _).
    destruct Hfix as (Hdst & Hff & _ & Hft & _ & _ & _ & _ & _ & _ & _ & Hown
                      & _).
    rewrite Hdst, Hff. conjs; try discriminate; assumption.
  - exfalso. destruct Hinv as (mem & up & lo & blk & f & ci & _ & _ & Hp & _).
    rewrite Hpc in Hp. exact Hp.
Qed.

End Protocol.

(** [TextRstreamOpenEx] on a plain file: the stream starts in a state of
    the kind above, with the thread at the head of its loop. *)
Lemma open_plain_stream_starts (X : externs) (M : mt_externs)
    (fname : string) (d : list byte) (blen cap thread_ct : Z) :
  let C := kDecompressChunkSizeX X in
  fopen X fname = Some d -> d <> [] ->
  open_file_type X (take 16 d) = kFileUncompressed ->
  malloc_ok X (2 * C) = true ->
  cachealigned_malloc_ok M = true -> pthread_ok M = true ->
  16 < C -> 2 * C < 2 ^ 32 -> 2 * C <= blen ->
  exists s0,
    (forall schedule,
        open_and_stream X M schedule fname blen cap thread_ct false
        = (out <- run_stream M schedule s0 ;; Ret (fst out, Some (snd out))))
    /\ stream_inv M d blen [] s0 /\ awake s0
    /\ stream_measure d [] s0 <= 40 * zlen d + 59.
Proof.
  intros C Hfs Hd Hprobe Hmalloc Hsync Hthread HC H2C Hblen.
  eexists. split; [|split; [|split]].
  - intros schedule. unfold open_and_stream, TextRstreamOpenEx.
    rewrite (open_plain_for_stream X fname d blen cap thread_ct Hfs Hd
               Hprobe Hmalloc ltac:(fold C; lia) H2C ltac:(fold C; lia)).
    cbn [obind is_err PglErr_eqb negb]. rewrite Hsync, Hthread. cbn [negb].
    unfold plain_reader. cbn [base rds set_err consume_stop errmsg].
    cbn [obind]. reflexivity.
  - unfold stream_inv, set_err. stream_fields. fold C.
    set (f0 := mkFILE d (drop 16 d) (zlen (take 16 d) <? 16) false None).
    exists (take 16 d), [], [], (take 16 d), f0, 0.
    pose proof (zlen_take 16 d) as Ht. pose proof (zlen_nonneg d) as Hdn.
    rewrite zlen_nil. cbn [app].
    conjs; try reflexivity; try lia; try (apply ends_line_nil);
      try (apply holds_nil; lia).
    + split; reflexivity.
    + symmetry. apply take_drop.
    + apply holds_whole.
    + exists (take 16 d), []. rewrite app_nil_r.
      conjs; [reflexivity | lia | apply no_newline_nil].
    + right. conjs; reflexivity.
  - unfold awake. stream_fields. discriminate.
  - unfold stream_measure, set_err. stream_fields.
    pose proof (zlen_with_final_newline_le d) as Hw.
    pose proof (zlen_drop 16 d) as Hdr. pose proof (zlen_nonneg d) as Hdn.
    rewrite zlen_nil. cbn [f_rest].
    destruct (zlen (take 16 d) =? 2 * kDecompressChunkSizeX X); lia.
Qed.

(** So every run of it is defined and ends in such a state. *)
Lemma open_and_stream_keeps (X : externs) (M : mt_externs) (fname : string)
    (d : list byte) (blen cap thread_ct : Z) (schedule : list mover) :
  let C := kDecompressChunkSizeX X in
  fopen X fname = Some d -> d <> [] ->
  open_file_type X (take 16 d) = kFileUncompressed ->
  malloc_ok X (2 * C) = true ->
  cachealigned_malloc_ok M = true -> pthread_ok M = true ->
  16 < C -> 2 * C < 2 ^ 32 -> 2 * C <= blen ->
  lines_fit (2 * C - 17) 0 d = true ->
  0 < kCacheline M -> C mod kCacheline M = 0 ->
  dst_addr M 0 mod kCacheline M = 0 ->
  exists sl s,
    open_and_stream X M schedule fname blen cap thread_ct false
    = Ret (sl, Some s)
    /\ stream_inv M d blen (concat sl) s /\ awake s
    /\ Forall whole_line sl.
Proof.
  intros C Hfs Hd Hprobe Hmalloc Hsync Hthread HC H2C Hblen Hfit Hk HCk
    Haddr.
  destruct (open_plain_stream_starts X M fname d blen cap thread_ct Hfs Hd
              Hprobe Hmalloc Hsync Hthread HC H2C Hblen)
    as (s0 & Hopen & Hinv0 & Hawake0 & _).
  destruct (run_stream_keeps X M d blen HC H2C Hblen Hfit Hk HCk Haddr
              schedule [] s0 Hinv0 Hawake0)
    as (sl & s & Hrun & [Hinv Hawake] & Hsl).
  rewrite Hopen, Hrun. cbn [obind fst snd]. cbn [app] in Hinv.
  exists sl, s. conjs; (reflexivity || assumption).
Qed.

(** X20: the asynchronous reader on a plain file of any length whose lines
    leave room in a buffer of two chunks, under every schedule of the
    steps of the thread and the consumer: every step is defined, the
    slices handed to the consumer are whole lines that together are the
    start of the file (with its final ['\n'] added if it lacks one), and
    the consumer is told Eof, and nothing else, only once it has been
    handed all of it. *)
Theorem plain_file_streams_in_order_under_every_schedule :
  forall (X : externs) (M : mt_externs) (fname : string) (d : list byte)
         (blen cap thread_ct : Z) (schedule : list mover),
    let C := kDecompressChunkSizeX X in
    fopen X fname = Some d -> d <> [] ->
    open_file_type X (take 16 d) = kFileUncompressed ->
    malloc_ok X (2 * C) = true ->
    cachealigned_malloc_ok M = true -> pthread_ok M = true ->
    16 < C -> 2 * C < 2 ^ 32 -> 2 * C <= blen ->
    lines_fit (2 * C - 17) 0 d = true ->
    0 < kCacheline M -> C mod kCacheline M = 0 ->
    dst_addr M 0 mod kCacheline M = 0 ->
    exists sl s,
      open_and_stream X M schedule fname blen cap thread_ct false
      = Ret (sl, Some s)
      /\ (exists rest, with_final_newline d = concat sl ++ rest)
      /\ Forall whole_line sl
      /\ (forall e, consumer s = Returned e ->
                    e = kPglRetEof /\ concat sl = with_final_newline d).
Proof.
  intros X M fname d blen cap thread_ct schedule C Hfs Hd Hprobe Hmalloc
    Hsync Hthread HC H2C Hblen Hfit Hk HCk Haddr.
  destruct (open_and_stream_keeps X M fname d blen cap thread_ct schedule
              Hfs Hd Hprobe Hmalloc Hsync Hthread HC H2C Hblen Hfit Hk HCk
              Haddr) as (sl & s & Hrun & Hinv & _ & Hsl).
  exists sl, s. split; [exact Hrun|].
  destruct Hinv as (mem & up & lo & blk & f & ci & _ & _ & _ & Hrunning & _
                    & _ & Hcl & _).
  split; [|split; [exact Hsl|]].
  - destruct (pc s) as [|mr|i|i].
    + destruct Hrunning as (_ & _ & Hdd & _).
      destruct (with_final_newline_extends d) as [t Ht].
      rewrite Ht, Hdd. eexists. rewrite <- !app_assoc. reflexivity.
    + destruct Hrunning as (_ & _ & Hdd & _).
      destruct (with_final_newline_extends d) as [t Ht].
      rewrite Ht, Hdd. eexists. rewrite <- !app_assoc. reflexivity.
    + destruct Hrunning as (_ & _ & Hdd & _). rewrite Hdd.
      eexists. reflexivity.
    + destruct Hrunning as (_ & _ & Hdd & _). rewrite Hdd.
      eexists. reflexivity.
  - intros e He. rewrite He in Hcl.
    destruct Hcl as (-> & Hnot & -> & ->). split; [reflexivity|].
    destruct (pc s) as [|mr|i|i]; try discriminate;
      destruct Hrunning as (_ & _ & Hdd & _); rewrite Hdd, !app_nil_r;
      reflexivity.
Qed.

Lemma plain_file_streams_in_order_under_every_schedule_witness :
  exists sl s,
    open_and_stream (plink2 (one_file three_lines)) plink2_mt
      [Thread; Consumer; Consumer] "f" 2097152 0 1 false
    = Ret (sl, Some s)
    /\ (exists rest, with_final_newline three_lines = concat sl ++ rest)
    /\ Forall whole_line sl
    /\ (forall e, consumer s = Returned e ->
                  e = kPglRetEof
                  /\ concat sl = with_final_newline three_lines).
Proof.
  apply (plain_file_streams_in_order_under_every_schedule
           (plink2 (one_file three_lines)) plink2_mt "f" three_lines 2097152
           0 1).
  - reflexivity.
  - discriminate.
  - reflexivity.
  - reflexivity.
  - reflexivity.
  - reflexivity.
  - cbn. lia.
  - cbn. lia.
  - cbn. lia.
  - vm_compute. reflexivity.
  - cbn. lia.
  - reflexivity.
  - reflexivity.
Defined.

(** X21: on such a file the two sides never wait for each other: under
    every schedule, if at the end neither the thread nor the consumer can
    take a step, the consumer has been told Eof and has been handed the
    whole file. *)
Theorem plain_file_stream_does_not_deadlock :
  forall (X : externs) (M : mt_externs) (fname : string) (d : list byte)
         (blen cap thread_ct : Z) (schedule : list mover),
    let C := kDecompressChunkSizeX X in
    fopen X fname = Some d -> d <> [] ->
    open_file_type X (take 16 d) = kFileUncompressed ->
    malloc_ok X (2 * C) = true ->
    cachealigned_malloc_ok M = true -> pthread_ok M = true ->
    16 < C -> 2 * C < 2 ^ 32 -> 2 * C <= blen ->
    lines_fit (2 * C - 17) 0 d = true ->
    0 < kCacheline M -> C mod kCacheline M = 0 ->
    dst_addr M 0 mod kCacheline M = 0 ->
    exists sl s,
      open_and_stream X M schedule fname blen cap thread_ct false
      = Ret (sl, Some s)
      /\ (thread_step M s = Ret None -> consumer_step s = Ret None ->
          consumer s = Returned kPglRetEof
          /\ concat sl = with_final_newline d).
Proof.
  intros X M fname d blen cap thread_ct schedule C Hfs Hd Hprobe Hmalloc
    Hsync Hthread HC H2C Hblen Hfit Hk HCk Haddr.
  destruct (open_and_stream_keeps X M fname d blen cap thread_ct schedule
              Hfs Hd Hprobe Hmalloc Hsync Hthread HC H2C Hblen Hfit Hk HCk
              Haddr) as (sl & s & Hrun & Hinv & Hawake & Hsl).
  exists sl, s. split; [exact Hrun|].
  intros Hthr Hcon.
  destruct (stuck_is_done X M d blen (concat sl) s Hinv Hawake Hthr Hcon)
    as [e He].
  destruct Hinv as (mem & up & lo & blk & f & ci & _ & _ & _ & Hrunning & _
                    & _ & Hcl & _).
  rewrite He in Hcl |- *.
  destruct Hcl as (-> & Hnot & -> & ->). split; [reflexivity|].
  destruct (pc s) as [|mr|i|i]; try discriminate;
    destruct Hrunning as (_ & _ & Hdd & _); rewrite Hdd, !app_nil_r;
    reflexivity.
Qed.

Lemma plain_file_stream_does_not_deadlock_witness :
  exists sl s,
    open_and_stream (plink2 (one_file three_lines)) plink2_mt
      [Consumer; Thread; Consumer] "f" 2097152 0 1 false
    = Ret (sl, Some s)
    /\ (thread_step plink2_mt s = Ret None -> consumer_step s = Ret None ->
        consumer s = Returned kPglRetEof
        /\ concat sl = with_final_newline three_lines).
Proof.
  apply (plain_file_stream_does_not_deadlock
           (plink2 (one_file three_lines)) plink2_mt "f" three_lines 2097152
           0 1).
  - reflexivity.
  - discriminate.
  - reflexivity.
  - reflexivity.
  - reflexivity.
  - reflexivity.
  - cbn. lia.
  - cbn. lia.
  - cbn. lia.
  - vm_compute. reflexivity.
  - cbn. lia.
  - reflexivity.
  - reflexivity.
Defined.

(** X22: on such a file the thread never replaces the buffer: under every
    schedule the block is the one of two chunks that the open allocated,
    and it is the reader's own. *)
Theorem plain_file_stream_keeps_its_first_buffer :
  forall (X : externs) (M : mt_externs) (fname : string) (d : list byte)
         (blen cap thread_ct : Z) (schedule : list mover),
    let C := kDecompressChunkSizeX X in
    fopen X fname = Some d -> d <> [] ->
    open_file_type X (take 16 d) = kFileUncompressed ->
    malloc_ok X (2 * C) = true ->
    cachealigned_malloc_ok M = true -> pthread_ok M = true ->
    16 < C -> 2 * C < 2 ^ 32 -> 2 * C <= blen ->
    lines_fit (2 * C - 17) 0 d = true ->
    0 < kCacheline M -> C mod kCacheline M = 0 ->
    dst_addr M 0 mod kCacheline M = 0 ->
    exists sl s,
      open_and_stream X M schedule fname blen cap thread_ct false
      = Ret (sl, Some s)
      /\ stream_block s = (O, [EvMalloc (2 * C)], 2 * C, false)
      /\ dst_reallocated (sync s) = false.
Proof.
  intros X M fname d blen cap thread_ct schedule C Hfs Hd Hprobe Hmalloc
    Hsync Hthread HC H2C Hblen Hfit Hk HCk Haddr.
  destruct (open_and_stream_keeps X M fname d blen cap thread_ct schedule
              Hfs Hd Hprobe Hmalloc Hsync Hthread HC H2C Hblen Hfit Hk HCk
              Haddr) as (sl & s & Hrun & Hinv & _ & _).
  exists sl, s. split; [exact Hrun|].
  destruct Hinv as (mem & up & lo & blk & f & ci & Hfix & _).
  destruct Hfix as (_ & _ & _ & _ & _ & _ & Hgen & _ & Hdr & _ & Hcap & Hown
                    & Hlog).
  split; [|exact Hdr].
  unfold stream_block. rewrite Hgen, Hlog, Hcap, Hown. reflexivity.
Qed.

Lemma plain_file_stream_keeps_its_first_buffer_witness :
  exists sl s,
    open_and_stream (plink2 (one_file three_lines)) plink2_mt
      [Thread; Thread; Consumer] "f" 2097152 0 1 false
    = Ret (sl, Some s)
    /\ stream_block s = (O, [EvMalloc (2 * 1048576)], 2 * 1048576, false)
    /\ dst_reallocated (sync s) = false.
Proof.
  apply (plain_file_stream_keeps_its_first_buffer
           (plink2 (one_file three_lines)) plink2_mt "f" three_lines 2097152
           0 1).
  - reflexivity.
  - discriminate.
  - reflexivity.
  - reflexivity.
  - reflexivity.
  - reflexivity.
  - cbn. lia.
  - cbn. lia.
  - cbn. lia.
  - vm_compute. reflexivity.
  - cbn. lia.
  - reflexivity.
  - reflexivity.
Defined.

(** X23: on such a file the reader comes to its end: under every schedule
    of more than [40 * zlen d + 59] rounds, a round ending as soon as both
    the thread and the consumer have had a turn, the consumer has been
    told Eof and has been handed the whole file. *)
Theorem plain_file_stream_finishes_under_every_fair_schedule :
  forall (X : externs) (M : mt_externs) (fname : string) (d : list byte)
         (blen cap thread_ct : Z) (schedule : list mover),
    let C := kDecompressChunkSizeX X in
    fopen X fname = Some d -> d <> [] ->
    open_file_type X (take 16 d) = kFileUncompressed ->
    malloc_ok X (2 * C) = true ->
    cachealigned_malloc_ok M = true -> pthread_ok M = true ->
    16 < C -> 2 * C < 2 ^ 32 -> 2 * C <= blen ->
    lines_fit (2 * C - 17) 0 d = true ->
    0 < kCacheline M -> C mod kCacheline M = 0 ->
    dst_addr M 0 mod kCacheline M = 0 ->
    40 * zlen d + 59 < Z.of_nat (fair_rounds schedule) ->
    exists sl s,
      open_and_stream X M schedule fname blen cap thread_ct false
      = Ret (sl, Some s)
      /\ consumer s = Returned kPglRetEof
      /\ concat sl = with_final_newline d.
Proof.
  intros X M fname d blen cap thread_ct schedule C Hfs Hd Hprobe Hmalloc
    Hsync Hthread HC H2C Hblen Hfit Hk HCk Haddr Hfair.
  destruct (open_plain_stream_starts X M fname d blen cap thread_ct Hfs Hd
              Hprobe Hmalloc Hsync Hthread HC H2C Hblen)
    as (s0 & Hopen & Hinv0 & Hawake0 & Hm0).
  destruct (run_stream_keeps X M d blen HC H2C Hblen Hfit Hk HCk Haddr
              schedule [] s0 Hinv0 Hawake0)
    as (sl & s & Hrun & [Hinv Hawake] & Hsl).
  destruct (run_finishes X M d blen HC H2C Hblen Hfit Hk HCk Haddr schedule
              [] s0 false false Hinv0 Hawake0 ltac:(discriminate)
              ltac:(discriminate) ltac:(unfold fair_rounds in Hfair; lia)
              sl s Hrun) as [e He].
  rewrite Hopen, Hrun. cbn [obind fst snd]. cbn [app] in Hinv.
  exists sl, s. split; [reflexivity|].
  destruct Hinv as (mem & up & lo & blk & f & ci & _ & _ & _ & Hrunning & _
                    & _ & Hcl & _).
  rewrite He in Hcl |- *.
  destruct Hcl as (-> & Hnot & -> & ->). split; [reflexivity|].
  destruct (pc s) as [|mr|i|i]; try discriminate;
    destruct Hrunning as (_ & _ & Hdd & _); rewrite Hdd, !app_nil_r;
    reflexivity.
Qed.

Lemma plain_file_stream_finishes_under_every_fair_schedule_witness :
  exists sl s,
    open_and_stream (plink2 (one_file three_lines)) plink2_mt
      (concat (repeat [Thread; Consumer] 1000)) "f" 2097152 0 1 false
    = Ret (sl, Some s)
    /\ consumer s = Returned kPglRetEof
    /\ concat sl = with_final_newline three_lines.
Proof.
  apply (plain_file_stream_finishes_under_every_fair_schedule
           (plink2 (one_file three_lines)) plink2_mt "f" three_lines 2097152
           0 1).
  - reflexivity.
  - discriminate.
  - reflexivity.
  - reflexivity.
  - reflexivity.
  - reflexivity.
  - cbn. lia.
  - cbn. lia.
  - cbn. lia.
  - vm_compute. reflexivity.
  - cbn. lia.
  - reflexivity.
  - reflexivity.
  - vm_compute. reflexivity.
Defined.

(** X24: a session on such a file can be closed at any time: after any
    schedule, [CleanupTextRstream] called by a consumer that is not inside
    [TextAdvance] completes.  The thread returns after four steps at
    most, also when it is in the middle of the file, and the stream is
    left closed with its buffer freed.  An error is reported only for a
    close that fails, to a caller that does not already hold one. *)
Theorem plain_file_stream_closes_at_any_time :
  forall (X : externs) (M : mt_externs) (fname : string) (d : list byte)
         (blen cap thread_ct : Z) (schedule : list mover) (fuel : nat)
         (close_fails : bool) (reterrp : option PglErr),
    let C := kDecompressChunkSizeX X in
    let flag :=
      close_fails
      && match reterrp with
         | None | Some kPglRetSuccess => true
         | Some _ => false
         end in
    fopen X fname = Some d -> d <> [] ->
    open_file_type X (take 16 d) = kFileUncompressed ->
    malloc_ok X (2 * C) = true ->
    cachealigned_malloc_ok M = true -> pthread_ok M = true ->
    16 < C -> 2 * C < 2 ^ 32 -> 2 * C <= blen ->
    lines_fit (2 * C - 17) 0 d = true ->
    0 < kCacheline M -> C mod kCacheline M = 0 ->
    dst_addr M 0 mod kCacheline M = 0 ->
    exists sl s,
      open_and_stream X M schedule fname blen cap thread_ct false
      = Ret (sl, Some s)
      /\ (consumer s <> InCondWait ->
          exists t : textRFILE X,
            CleanupTextRstream M (4 + fuel) close_fails s reterrp
            = Ret (Some (flag, t,
                         if flag
                         then option_map (fun _ => kPglRetReadFail) reterrp
                         else reterrp))
            /\ ff (base t) = None /\ dst (base t) = None
            /\ consume_iter (base t) = None /\ consume_stop (base t) = None
            /\ errmsg (base t) = None /\ reterr (base t) = kPglRetEof).
Proof.
  intros X M fname d blen cap thread_ct schedule fuel close_fails reterrp C
    flag Hfs Hd Hprobe Hmalloc Hsync Hthread HC H2C Hblen Hfit Hk HCk Haddr.
  destruct (open_and_stream_keeps X M fname d blen cap thread_ct schedule
              Hfs Hd Hprobe Hmalloc Hsync Hthread HC H2C Hblen Hfit Hk HCk
              Haddr) as (sl & s & Hrun & Hinv & _ & _).
  exists sl, s. split; [exact Hrun|]. intros Hcons.
  destruct (join_after_request X M d blen HC H2C Hblen Hfit Hk (concat sl)
              s fuel Hinv) as (s1 & Hjoin & Hff & Hdst & Hft & Hown).
  apply (cleanup_after_join X M s s1 (4 + fuel) close_fails reterrp Hcons
           Hjoin Hff Hdst Hft Hown).
Qed.

Lemma plain_file_stream_closes_at_any_time_witness :
  exists sl s,
    open_and_stream (plink2 (one_file three_lines)) plink2_mt
      [Consumer; Thread; Consumer] "f" 2097152 0 1 false
    = Ret (sl, Some s)
    /\ (consumer s <> InCondWait ->
        exists t : textRFILE (plink2 (one_file three_lines)),
          CleanupTextRstream plink2_mt (4 + 0) false s (Some kPglRetSuccess)
          = Ret (Some (false, t, Some kPglRetSuccess))
          /\ ff (base t) = None /\ dst (base t) = None
          /\ consume_iter (base t) = None /\ consume_stop (base t) = None
          /\ errmsg (base t) = None /\ reterr (base t) = kPglRetEof).
Proof.
  apply (plain_file_stream_closes_at_any_time
           (plink2 (one_file three_lines)) plink2_mt "f" three_lines 2097152
           0 1 [Consumer; Thread; Consumer] 0 false (Some kPglRetSuccess)).
  - reflexivity.
  - discriminate.
  - reflexivity.
  - reflexivity.
  - reflexivity.
  - reflexivity.
  - cbn. lia.
  - cbn. lia.
  - cbn. lia.
  - vm_compute. reflexivity.
  - cbn. lia.
  - reflexivity.
  - reflexivity.
Defined.
